(* ===== verification/_CoqProject ===== *)
-Q . S2P
Prelude.v
GoLib.v
Api.v
Platform.v
Poll.v
Footprint.v
Flux.v
Workload.v
Discovery.v
Snapshot.v
Health.v
Yaml.v
Git.v
GitMock.v
Repository.v
Controller.v
Renovate.v
UpdatesController.v
Main.v
Phases.v
Operation.v
Guard.v
Quiesce.v
Runs.v
Progress.v
Upgrade.v
Names.v
UpgradeGuard.v
UpgradeProofs.v
Cluster.v
ManagedAppController.v
Shop.v
UpgradeTheorems.v
UpgradeFailure.v
Rollback.v
RollbackGuard.v
RollbackProofs.v
RollbackTheorems.v
RollbackFailure.v
Race.v
Threads.v
Shared.v
Concurrent.v
Staleness.v
Waits.v
Memory.v
Structs.v
DeepCopy.v
Provenance.v
Earned.v
UpgradeEarned.v
RollbackEarned.v
Rbac.v
Setup.v
