(* ===== verification/Prelude.v ===== *)
(** * FluxUp, verified

FluxUp (github.com/nbenn/fluxup) is a Kubernetes operator that upgrades applications deployed
by Flux.  A user creates an UpgradeRequest; the operator suspends the application's
Kustomization, scales its workloads down, takes CSI snapshots of its volumes, commits the new
version to the Git repository, resumes Flux, waits for it and for the workloads' health, and
records the outcome.  A RollbackRequest undoes this from the snapshots and the recorded
versions; a failing upgrade may create one itself.  Two smaller controllers keep the
application's Ready condition and publish the updates Renovate found.  This development
models that program and proves what makes it correct.

** How the program is modelled

A handler of the controller is a tree of calls to the outside, a value of [prog ev]: [Ret],
[Panic] (a Go run-time panic), or a call [Vis e k] of the interface [ev] ([Platform]: the
API client by verb and kind, the clock, the order of map iteration, [git.Manager]).  Each Go
function is one definition of the same name, with its guards, early returns and error texts;
an object changed through a pointer is passed along; [(T, error)] is [result].  Histories
list calls with their answers, the latest first.  [wp Phi G p h Q] says that after the history
[h], against every outside that answers as the protocol [Phi] allows, the program [p] makes
only calls that the guarantee [G] permits after the history so far, and ends as [Q] says; it
is total, since [prog] is a finite tree.  Concrete runs ([run]) satisfy what [wp] promises
([run_sound]); [Cluster] is an executable outside for them.

Pure library functions (conditions, finalizers, [errors.IsNotFound], label selectors) are the
fields of [Platform] with the laws [PlatformLaws]; kyaml, gzip, base64 and the JSON decoders
are parameters too ([Kyaml], [Decoders], [EntryDecoder], [GiteaLib]).  Each has an executable
instance, with which the witnesses are evaluated.  Integers: replicas, revisions and times
are Z; [Sscanf_d] rejects what does not fit an int64.

** The files

- [Prelude], [GoLib], [Api], [Platform]: programs and their logic; errors, strings, time
  formatting; the API types of api/v1alpha1 and the Kubernetes objects; the outside.
- [Poll], [Footprint]: the waiting loops; which kinds of calls a program makes.
- [Flux] (internal/flux/suspend.go), [Workload] (internal/workload/scaler.go), [Discovery]
  (internal/discovery), [Snapshot] (internal/snapshot/manager.go), [Health]
  (internal/health/check.go), [Yaml] (internal/yaml/editor.go): one file per component,
  each with its operations and their specifications.  [Waits]: the six waiting loops end.
- [Git] (internal/git/commit.go, gitea.go), [GitMock] (mock.go), [Repository]
  (interface.go): the contract of [git.Manager] as a class with laws over an abstract
  repository, kept by both implementations; clients reason from the laws.
- [Controller], [Phases], [Operation], [Guard], [Quiesce], [Runs]: what the two operation
  controllers share.  [Phases] is the abstract machine of an operation ([astep] on [astate]);
  [Operation] the interface of a resource that goes through it, with both requests as
  instances; [Guard] the contract of one reconcile (each write is a step of the machine from
  the object last read, and carries what it should); [Quiesce] the dry-run cycle and the
  stopping of workloads, which both controllers have; [Runs] lifts the contract to any
  number of reconciles.
- [Upgrade], [UpgradeGuard], [UpgradeProofs], [UpgradeTheorems], [UpgradeFailure]
  (internal/controller/upgraderequest_controller.go): the handlers, what each may write, the
  contract handler by handler, the theorems on many reconciles, the failure path.
- [Rollback], [RollbackGuard], [RollbackProofs], [RollbackTheorems], [RollbackFailure]
  (rollbackrequest_controller.go): the same for rollbacks; a wait that never times out.
- [Progress]: how often a reconciler asks to be run again at once, and why it gets done.
- [Earned], [UpgradeEarned], [RollbackEarned]: what a condition stands for.  Each milestone
  that an operation newly reports, and the reason of each failure, is traced to runs of the
  programs that saw it ([Evidence], an interface with an instance for each request), or to what
  an earlier reconcile noted in the status on seeing it.  [ran] and [ever], here in [Prelude],
  say that a program ran in a history and what it answered.
- [Staleness]: what goes wrong where only [cached] reads are promised.
- [Race]: the schedules in which an automatic rollback is lost.
- [Threads], [Shared], [Concurrent]: the controllers side by side.  [Threads] runs a pool of
  programs whose calls are interleaved in any way, with the rely-guarantee rule
  [pool_sound]; [Shared] shows that an object with one writer and many readers looks to its
  writer like a server of its own; [Concurrent] applies both to the manager's controllers.
- [Provenance]: all controllers, any number of each, and where a committed version comes from.
- [Memory], [Structs], [DeepCopy] (api/v1alpha1/zz_generated.deepcopy.go): the API objects as
  Go holds them, structs with pointers and slices in a heap; a computation in it is a state
  monad [mem] that may panic.  [represents h s v]: what the struct [s] points to in [h] is the
  value [v] of [Api]; [copies f]: the result stands for the same value in new memory alone.
- [Names]: the names of snapshots and automatic rollbacks: valid, bounded, distinct.
- [Renovate] (internal/renovate), [UpdatesController] (updates_controller.go),
  [ManagedAppController] (managedapp_controller.go): available updates and readiness.
- [Main] (cmd/main.go, internal/logging): flags, loggers, Git settings, the order of set-up,
  the coverage signal.  [Setup]: the scheme (groupversion_info.go, the init functions) and what
  each controller watches ([SetupWithManager]).  [Rbac]: the kubebuilder markers of the four
  controllers, the generated role, and what each call needs of it.
- [Cluster], [Shop]: the executable cluster, and that it answers as the theorems ask.

** What is proved

Both controllers refine the abstract machine over any number of reconciles, so phases come
in order and none is skipped; commits, reverts, deletion and restoring of volumes, automatic
rollbacks and the finalizer are guarded by the state read just before; dry runs change
nothing that lasts; a request that is read as finished is left alone, and stays finished where
reads answer what was last stored; no reconcile stops coming back while there is work.  All this, proved of each controller alone, holds of them side by side
([Concurrent.controllers_compose]); a rollback touches nothing before it has read its upgrade
as finished ([Concurrent.rollback_waits_for_upgrade]) and from then on the upgrade touches
nothing ([Concurrent.upgrade_and_rollback_exclusive]).  A rollback that finds its upgrade
running fails for good ([Race]).  However many requests, applications and reports there are,
an upgrade commits a version only if it was asked for or offered
([Provenance.commits_were_asked_for]).  Where reads answer what was last stored no
reconciler spins, nor stops short of the end without waiting for something
([UpgradeTheorems.upgrade_progresses]).  Conditions do not lie:
what an operation that is not a dry run reports it has seen, in the reconcile that reports it
([UpgradeEarned.conditions_earned], [RollbackEarned.rollback_conditions_earned]), so that a new
one that reports success has reported all its steps, each over what was seen for that very
request and the application it names: workloads down and snapshots taken and ready, or nothing
to stop or to take, the commit, Flux reconciled, the application healthy
([UpgradeEarned.success_earned], [RollbackEarned.rollback_success_earned]); and a failure has
the cause that its reason names ([UpgradeEarned.failures_caused],
[RollbackEarned.rollback_failures_caused]).  The manager's role
covers what the controllers do, but for the discovery through a Helm release
([Rbac.calls_authorized], [Rbac.helm_requests_never_succeed]), and the scheme and the watches
fit the calls ([Setup.setup_consistent]).  The values the handlers
work on may be taken as their own because the generated copies are deep
([DeepCopy.DeepCopyObject_independent]).  Components have functional specifications
(suspension, scaling, health, discovery, snapshots, retention, restoring), equivalences with reference definitions (the Renovate parser and mapper), round
trips (inventory, version paths, editing a version, committing and reading) and
termination (waiting loops, path scanner).

** Assumptions

[api_server]: a write that is answered is what was written, and a status write does not
touch the rest.  [storage a0]: nobody else writes the object, and a read answers what was
last stored (a write answered with an error may or may not have been); [shared_server]: the
same of both requests, with several readers.  [cached a0]: the
same, but a read may answer any earlier version, as an informer cache does; theorems under
[cached] hold with stale reads.  [named]: a read answers an object of the name asked for.
[fresh]: the request is new, its status notes nothing yet, no snapshots and no restored claims;
[new_request]: all three, for a request that is not a dry run.
[calendar]: the clock shows a year of four digits.
[Provenance.server]: an application is read in a state it was in before, now or then.
[Rbac.enforced]: a call that the role does not cover fails.  [SchemeLaws]: each library
registers its documented types, and a [scheme.Builder] the kinds registered with it.
[KyamlLaws]: a law for each of the operations used: a node that is made is found, a node that is
set has the value set, unless that is empty, when it keeps its own, and what is printed parses
to the same.  [Git.documented] and [GiteaServerLaws]: what is answered without an error is
there, with the commit it tells of, and as the API documents it.  [app_server],
[PlatformLaws], [MetaV1Copies]: documented behaviour of the services and libraries; the structs of apimachinery, whose fields the handlers
do not all read, are parameters of [Structs].

** Fuel and bounds

The waiting loops have fuel [rounds timeout], which [Waits.waits_finish] shows to be enough
on a clock that does not run backwards and sleeps that last ([monotonic]); the path scanner takes as many rounds as the path has bytes
([Yaml.parseVersionPath_total]).  No reconciler uses either loop to wait: it asks to be run
again.

** Not modelled

What is logged, metrics and leader election; work-queue order and back-off: any number of reconciles in sequence by each controller (one worker each, the
default), interleaved in any way, stand for them.  Side by side the reads are those of
[storage]; stale reads are treated for each controller alone.
The TLS callbacks are I/O, [NewLogrLogger] a wrapper for the library.  Admission, namespaced
roles and the further verbs an informer may use are outside [Rbac].  Resource
versions and conflicts are an error answer like any other.  The mock's mutex.

** What modelling showed

See the findings of the manifest.  Among them: the health-check time-out never accumulates
([UpgradeFailure.health_timeout_never_accumulates]), nor does that of a claim's deletion
([RollbackFailure.volume_wait_never_times_out]); a read that lags behind lets an upgrade commit
twice ([Staleness.stale_read_commits_twice]); automatic discovery finds no claim once
the pods are gone ([UpgradeFailure.no_pods_no_snapshot]); a dry run can leave a workload at
zero ([UpgradeFailure.shop_dry_run_leaves_workload_down]); an automatic rollback seen before
its upgrade's failure is stored is lost ([Race.auto_rollback_window]); published updates are
never withdrawn ([UpdatesController.available_update_never_withdrawn]); snapshot names have no
bound ([Names.snapshot_name_too_long]); applications discovered through their Helm release can
never be upgraded under the role the manager is given ([Rbac.helm_requests_never_succeed]). *)

From stdpp Require Export base tactics list strings gmap pretty sorting.
From Stdlib Require Export Ascii ZArith.
From Stdlib Require Import Lia.

Open Scope Z_scope.

(** ** Results

A Go function of type [(T, error)] is a program that answers a [result]:
the code never returns a value together with a non-nil error that a caller
reads, so the two components are one sum. *)

Inductive result (Er A : Type) : Type :=
| Ok (a : A)
| Err (e : Er).
Arguments Ok {Er A} a.
Arguments Err {Er A} e.

Definition is_ok {Er A} (r : result Er A) : bool :=
  match r with Ok _ => true | Err _ => false end.

(** ** Programs over an external interface

A handler of the controller is a finite tree of calls to code outside the
repository (the API server, the git service, the clock).  [Vis e k] performs
the call [e] and continues with whatever it answers; [Panic m] is a Go run-time
panic (a nil dereference, an index out of range), which controller-runtime
recovers and which therefore ends this call of the handler only. *)

Inductive prog (E : Type → Type) (A : Type) : Type :=
| Ret (a : A)
| Panic (m : string)
| Vis (R : Type) (e : E R) (k : R → prog E A).
Arguments Ret {E A} a.
Arguments Panic {E A} m.
Arguments Vis {E A R} e k.

Fixpoint bind {E A B} (p : prog E A) (f : A → prog E B) : prog E B :=
  match p with
  | Ret a => f a
  | Panic m => Panic m
  | Vis e k => Vis e (λ r, bind (k r) f)
  end.

Definition call {E R} (e : E R) : prog E R := Vis e Ret.

Declare Scope prog_scope.
Delimit Scope prog_scope with prog.
Open Scope prog_scope.

Notation "'let*' x ':=' p 'in' k" := (bind p (fun x => k))
  (at level 10, x binder, p at level 200, k at level 200,
   format "'[v' 'let*'  x  ':='  p  'in' '/' k ']'") : prog_scope.

(** [x, err := p; if err != nil { h }; k] *)
Notation "'let?' x ':=' p 'orelse' e '=>' h 'in' k" :=
  (bind p (fun r => match r with Ok x => k | Err e => h end))
  (at level 10, x name, e name, p at level 200, h at level 200, k at level 200,
   format "'[v' 'let?'  x  ':='  p  'orelse'  e  '=>'  h  'in' '/' k ']'") : prog_scope.

(** [if err := p; err != nil { h }; k], for a Go function that returns only an error *)
Notation "'check' p 'orelse' e '=>' h 'in' k" :=
  (bind p (fun r => match r with None => k | Some e => h end))
  (at level 10, e name, p at level 200, h at level 200, k at level 200,
   format "'[v' 'check'  p  'orelse'  e  '=>'  h  'in' '/' k ']'") : prog_scope.

(** A nil pointer dereference: [match o with] on a pointer the code does not test. *)
Definition deref {E A} (what : string) (o : option A) : prog E A :=
  match o with Some a => Ret a | None => Panic what end.

(** [for _, x := range l { ... }] whose body may stop the loop with a value. *)
Fixpoint for_each {E X S B} (l : list X) (s : S) (body : X → S → prog E (S + B))
    : prog E (S + B) :=
  match l with
  | [] => Ret (inl s)
  | x :: l' =>
      let* r := body x s in
      match r with
      | inl s' => for_each l' s' body
      | inr b => Ret (inr b)
      end
  end.

(** ** Histories, and what a program guarantees

A history lists the calls already made with their answers, the latest first. *)

Section logic.
Context {E : Type → Type}.

Inductive obs : Type :=
| Obs (R : Type) (e : E R) (r : R).
Global Arguments Obs {R} e r.

Inductive outcome (A : Type) : Type :=
| Done (a : A)
| Panicked (m : string).
Global Arguments Done {A} a.
Global Arguments Panicked {A} m.

(** What the outside may answer to a call, and what a program may call, after a history. *)
Definition protocol := list obs → ∀ R, E R → R → Prop.
Definition guarantee := list obs → ∀ R, E R → Prop.

Definition any : protocol := λ _ _ _ _, True.
Definition free : guarantee := λ _ _ _, True.

(** [wp Φ G p h Q]: run after [h], against every environment that answers as [Φ]
    allows, [p] makes only calls that [G] permits, and ends as [Q] says. *)
Fixpoint wp {A} (Φ : protocol) (G : guarantee) (p : prog E A) (h : list obs)
    (Q : outcome A → list obs → Prop) : Prop :=
  match p with
  | Ret a => Q (Done a) h
  | Panic m => Q (Panicked m) h
  | Vis e k => G h _ e ∧ ∀ r, Φ h _ e r → wp Φ G (k r) (Obs e r :: h) Q
  end.

(** [emits P p]: whatever is answered, every call [p] makes satisfies [P]. *)
Fixpoint emits {A} (P : ∀ R, E R → Prop) (p : prog E A) : Prop :=
  match p with
  | Ret _ | Panic _ => True
  | Vis e k => P _ e ∧ ∀ r, emits P (k r)
  end.

(** Does the program end without a panic, whatever is answered? *)
Fixpoint total {A} (p : prog E A) : Prop :=
  match p with
  | Ret _ => True
  | Panic _ => False
  | Vis _ k => ∀ r, total (k r)
  end.

(** The calls of a history that satisfy [P]. *)
Definition obs_sat (P : ∀ R, E R → Prop) (o : obs) : Prop :=
  match o with Obs e _ => P _ e end.

(** Run a program against a concrete environment. *)
Fixpoint run {A W} (env : ∀ R, W → E R → R * W) (p : prog E A) (w : W) (h : list obs)
    : outcome A * W * list obs :=
  match p with
  | Ret a => (Done a, w, h)
  | Panic m => (Panicked m, w, h)
  | Vis e k => let '(r, w') := env _ w e in run env (k r) w' (Obs e r :: h)
  end.
End logic.
Arguments obs : clear implicits.
Arguments protocol : clear implicits.
Arguments guarantee : clear implicits.

(** Every call of a history was permitted when it was made. *)
Fixpoint guaranteed {E} (G : guarantee E) (h : list (obs E)) : Prop :=
  match h with
  | [] => True
  | Obs e _ :: h' => G h' _ e ∧ guaranteed G h'
  end.

Lemma guaranteed_mono {E} (G G' : guarantee E) h :
  guaranteed G h → (∀ h R e, G h R e → G' h R e) → guaranteed G' h.
Proof. intros Hg HG. induction h as [|[R e r] h IH]; cbn in *; [done|]. intuition auto. Qed.

Lemma guaranteed_both {E} (G G' : guarantee E) h :
  guaranteed G h → guaranteed G' h → guaranteed (λ h R e, G h R e ∧ G' h R e) h.
Proof. induction h as [|[R e r] h IH]; cbn; [done|]. intuition auto. Qed.

(** Every answer of a history was allowed when it was given. *)
Fixpoint answered {E} (Φ : protocol E) (h : list (obs E)) : Prop :=
  match h with
  | [] => True
  | Obs e r :: h' => Φ h' _ e r ∧ answered Φ h'
  end.

(** Recover from a panic, as controller-runtime does around a reconcile. *)
Fixpoint recover {E A} (p : prog E A) : prog E (option A) :=
  match p with
  | Ret a => Ret (Some a)
  | Panic _ => Ret None
  | Vis e k => Vis e (λ r, recover (k r))
  end.

(** ** Rules for [wp] *)

Section rules.
Context {E : Type → Type}.
Implicit Types (Φ : protocol E) (G : guarantee E) (h : list (obs E)).

Lemma wp_mono {A} Φ G G' (p : prog E A) h Q Q' :
  wp Φ G p h Q → (∀ h R e, G h R e → G' h R e) → (∀ o h, Q o h → Q' o h) →
  wp Φ G' p h Q'.
Proof.
  intros H HG HQ. revert h H.
  induction p as [a|m|R e k IH]; cbn; intros h H; [auto..|].
  destruct H as [He H]; split; [auto|]. intros r Hr. apply IH, H, Hr.
Qed.

Lemma wp_bind {A B} Φ G (p : prog E A) (f : A → prog E B) h Q :
  wp Φ G (bind p f) h Q ↔
  wp Φ G p h (λ o h', match o with
                      | Done a => wp Φ G (f a) h' Q
                      | Panicked m => Q (Panicked m) h'
                      end).
Proof.
  revert h. induction p as [a|m|R e k IH]; cbn; intros h; [done..|].
  setoid_rewrite IH. done.
Qed.

(** Nothing is asked. *)
Lemma wp_free {A} Φ (p : prog E A) h : wp Φ free p h (λ _ _, True).
Proof.
  revert h. induction p as [a|m|R e k IH]; cbn; intros h; [done..|]. by split.
Qed.

(** A history only grows. *)
Lemma wp_extends {A} Φ (p : prog E A) h : wp Φ free p h (λ _ h', ∃ d, h' = d ++ h).
Proof.
  induction p as [a|m|R e k IH] in h |- *; cbn; [by exists []..|].
  split; [done|]. intros r _. eapply wp_mono; [apply IH|done|]. intros o h' [d ->].
  exists (d ++ [Obs e r]). by rewrite <- app_assoc.
Qed.

Lemma wp_call {R} Φ G (e : E R) h Q :
  G h R e → (∀ r, Φ h R e r → Q (Done r) (Obs e r :: h)) → wp Φ G (call e) h Q.
Proof. cbn. auto. Qed.

Definition recovered {A} (o : outcome A) : option A :=
  match o with Done a => Some a | Panicked _ => None end.
Lemma wp_recovered {A} Φ G (p : prog E A) h Q Q' :
  wp Φ G p h Q → (∀ o h', Q o h' → Q' (Done (recovered o)) h') → wp Φ G (recover p) h Q'.
Proof.
  intros Hp HQ. revert h Hp. induction p as [a|m|R e k IH]; cbn; intros h Hp.
  - by apply (HQ (Done a)).
  - by apply (HQ (Panicked m)).
  - destruct Hp as [? Hp]. split; [done|]. auto.
Qed.
Lemma wp_recover {A} Φ G (p : prog E A) h Q Q' :
  wp Φ G p h Q → (∀ o h', Q o h' → ∀ o', Q' (Done o') h') → wp Φ G (recover p) h Q'.
Proof. intros Hp HQ. eapply wp_recovered; [exact Hp|]. eauto. Qed.

Lemma wp_conj {A} Φ G (p : prog E A) h Q Q' :
  wp Φ G p h Q → wp Φ G p h Q' → wp Φ G p h (λ o h', Q o h' ∧ Q' o h').
Proof.
  revert h. induction p as [a|m|R e k IH]; cbn; intros h H H'; [done..|].
  destruct H as [? H], H' as [_ H']. split; [done|]. eauto.
Qed.

Lemma wp_both {A} Φ G G' (p : prog E A) h Q Q' :
  wp Φ G p h Q → wp Φ G' p h Q' →
  wp Φ (λ h R e, G h R e ∧ G' h R e) p h (λ o h, Q o h ∧ Q' o h).
Proof.
  revert h. induction p as [a|m|R e k IH]; cbn; intros h Hp Hp'; [done..|].
  destruct Hp as [He Hk], Hp' as [He' Hk']. split; [done|]. auto.
Qed.

(** Once [K] holds, and it stays, a guarantee may lean on it. *)
Lemma wp_once {A} Φ G (K : list (obs E) → Prop) (p : prog E A) h :
  K h → (∀ h R (e : E R) r, K h → K (Obs e r :: h)) → (∀ h R e, K h → G h R e) →
  wp Φ G p h (λ _ _, True).
Proof. intros HK Hs HG. revert h HK. induction p; cbn; auto. Qed.

(** An invariant of the history that every permitted call keeps, whatever is answered. *)
Lemma wp_invariant {A} Φ G (Inv : list (obs E) → Prop) (p : prog E A) h Q :
  wp Φ G p h Q → Inv h →
  (∀ h R e r, Inv h → G h R e → Φ h R e r → Inv (Obs e r :: h)) →
  wp Φ (λ h R e, G h R e ∧ Inv h) p h (λ o h', Q o h' ∧ Inv h').
Proof.
  intros Hp Hi Hstep. revert h Hp Hi. induction p as [a|m|R e k IH]; cbn; intros h Hp Hi;
    [done..|].
  destruct Hp as [He Hk]. split; [done|]. intros r Hr. eapply IH; eauto.
Qed.

(** An invariant of a loop's state and history; the loop may be left early. *)
Lemma wp_for_each {X S B} Φ G (I : S → list (obs E) → Prop) (l : list X) (s : S)
    (body : X → S → prog E (S + B)) h (Q : outcome (S + B) → list (obs E) → Prop) :
  I s h → (∀ s h, I s h → Q (Done (inl s)) h) →
  (∀ x s h, In x l → I s h →
     wp Φ G (body x s) h
       (λ o h', match o with Done (inl s') => I s' h' | o => Q o h' end)) →
  wp Φ G (for_each l s body) h Q.
Proof.
  revert s h. induction l as [|x l IH]; cbn; intros s h Hi HQ Hbody; [by apply HQ|].
  rewrite wp_bind. eapply wp_mono; [apply Hbody; [by left|exact Hi]|done|].
  intros [[s'|b]|m] h' Ho; cbn; [|done..]. apply IH; [done..|]. intros. apply Hbody; [by right|done].
Qed.

(** A stronger protocol leaves fewer behaviours. *)
Lemma wp_protocol {A} Φ Φ' G (p : prog E A) h Q :
  wp Φ G p h Q → (∀ h R e r, Φ' h R e r → Φ h R e r) → wp Φ' G p h Q.
Proof.
  intros H HΦ. revert h H. induction p as [a|m|R e k IH]; cbn; [done..|].
  intros h [? H]. split; [done|]. eauto.
Qed.
End rules.

(** ** Rules for [emits] and [total] *)

Section emits_rules.
Context {E : Type → Type}.
Implicit Types (P : ∀ R, E R → Prop).

Lemma emits_bind {A B} P (p : prog E A) (f : A → prog E B) :
  emits P p → (∀ a, emits P (f a)) → emits P (bind p f).
Proof.
  intros Hp Hf. induction p as [a|m|R e k IH]; cbn in *; [auto..|].
  destruct Hp as [? Hk]. split; auto.
Qed.

Lemma emits_call {R} P (e : E R) : P R e → emits P (call e).
Proof. cbn. auto. Qed.

Lemma emits_mono {A} P P' (p : prog E A) :
  emits P p → (∀ R e, P R e → P' R e) → emits P' p.
Proof.
  intros H HP. induction p as [a|m|R e k IH]; cbn in *; [auto..|].
  destruct H. split; auto.
Qed.

Lemma emits_deref {A} P m (o : option A) : emits P (deref m o).
Proof. by destruct o. Qed.

Lemma emits_for_each {X S B} P (l : list X) (s : S) (body : X → S → prog E (S + B)) :
  (∀ x s, emits P (body x s)) → emits P (for_each l s body).
Proof.
  intros H. revert s. induction l as [|x l IH]; intros s; cbn; [done|].
  apply emits_bind; [apply H|]. intros []; [apply IH|done].
Qed.

(** A program confined to [P] extends the history by calls in [P] only. *)
Lemma wp_emits {A} P Φ G (p : prog E A) h Q :
  emits P p →
  (∀ d R e, Forall (obs_sat P) d → P R e → G (d ++ h) R e) →
  (∀ o d, Forall (obs_sat P) d → Q o (d ++ h)) →
  wp Φ G p h Q.
Proof.
  intros Hp HG HQ.
  assert (∀ d, Forall (obs_sat P) d → wp Φ G p (d ++ h) Q) as H.
  { induction p as [a|m|R e k IH]; cbn in *; intros d Hd; [by apply HQ..|].
    destruct Hp as [He Hk]. split; [by apply HG|]. intros r _.
    apply (IH r (Hk r) (Obs e r :: d)). by constructor. }
  apply (H []). constructor.
Qed.

Lemma wp_emits_bind {A B} P Φ G (p : prog E A) (f : A → prog E B) h Q :
  emits P p →
  (∀ d R e, Forall (obs_sat P) d → P R e → G (d ++ h) R e) →
  (∀ m d, Forall (obs_sat P) d → Q (Panicked m) (d ++ h)) →
  (∀ a d, Forall (obs_sat P) d → wp Φ G (f a) (d ++ h) Q) →
  wp Φ G (bind p f) h Q.
Proof.
  intros Hp HG Hm Hf. apply wp_bind. eapply wp_emits; [done|done|].
  intros [a|m] d Hd; auto.
Qed.

Lemma obs_sat_mono P P' d :
  Forall (obs_sat P) d → (∀ R e, P R e → P' R e) → Forall (obs_sat P') d.
Proof. intros Hd HP. induction Hd as [|[R e r] d He Hd IH]; constructor; [by apply HP|done]. Qed.

Lemma emits_recover {A} P (p : prog E A) : emits P p → emits P (recover p).
Proof. induction p; cbn; [done..|]. intros [? ?]. auto. Qed.

(** A footprint is also a guarantee. *)
Lemma wp_emits_guard {A} P Φ (p : prog E A) h Q :
  wp Φ free p h Q → emits P p → wp Φ (λ _ R e, P R e) p h Q.
Proof.
  revert h. induction p as [a|m|R e k IH]; cbn; intros h H Hp; [done..|].
  destruct H as [_ H], Hp as [He Hk]. split; auto.
Qed.

Lemma total_bind {A B} (p : prog E A) (f : A → prog E B) :
  total p → (∀ a, total (f a)) → total (bind p f).
Proof. intros Hp Hf. induction p; cbn in *; auto. Qed.

Lemma total_for_each {X S B} (l : list X) (s : S) (body : X → S → prog E (S + B)) :
  (∀ x s, total (body x s)) → total (for_each l s body).
Proof.
  intros H. revert s. induction l as [|x l IH]; intros s; cbn; [done|].
  apply total_bind; [apply H|]. intros []; [apply IH|done].
Qed.

Lemma total_wp {A} Φ (p : prog E A) h :
  total p → wp Φ free p h (λ o _, ∃ a, o = Done a).
Proof.
  revert h. induction p as [a|m|R e k IH]; cbn; intros h Ht; [eauto|done|].
  split; [done|]. intros r _. by apply IH.
Qed.
End emits_rules.

(** ** Runs of a program in a history *)

Section ran.
Context {E : Type → Type}.

(** The calls of a run, the latest first. *)
Inductive ran {A} : prog E A → list (obs E) → A → Prop :=
| RanRet a : ran (Ret a) [] a
| RanVis R (e : E R) k r d a : ran (k r) d a → ran (Vis e k) (d ++ [Obs e r]) a.

(** A program confined to [P]: its run, and its answer. *)
Lemma wp_ran {A} (P : ∀ R, E R → Prop) Φ G (p : prog E A) h :
  emits P p → (∀ h R e, P R e → G h R e) →
  wp Φ G p h (λ o h', ∃ d, h' = d ++ h ∧ Forall (obs_sat P) d ∧ ∀ a, o = Done a → ran p d a).
Proof.
  intros Hp HG. revert h. induction p as [a|m|R e k IH]; intros h; cbn in *.
  - exists []. split; [done|]. split; [by constructor|]. intros ? [= <-]. apply RanRet.
  - exists []. split; [done|]. split; [by constructor|done].
  - destruct Hp as [He Hp]. split; [by apply HG|]. intros r _.
    eapply wp_mono; [by apply IH|done|].
    intros o h' (d & -> & Hf & Hd). exists (d ++ [Obs e r]). rewrite <- app_assoc.
    split; [done|]. split; [|intros a Ha; by apply RanVis, Hd].
    apply List.Forall_app. split; [done|by repeat constructor].
Qed.

Lemma answered_app (Φ : protocol E) d h : answered Φ (d ++ h) → answered Φ h.
Proof. induction d as [|[R e r] d IH]; [done|]. cbn. intros [_ Hd]. auto. Qed.
Lemma answered_any h : answered (any (E:=E)) h.
Proof. by induction h as [|[R e r] h IH]. Qed.
(** What a guarantee may lean on: all answers so far keep to the protocol. *)
Lemma wp_answered {A} Φ G (p : prog E A) h Q :
  wp Φ G p h Q → answered Φ h →
  wp Φ (λ h R e, G h R e ∧ answered Φ h) p h (λ o h', Q o h' ∧ answered Φ h').
Proof. intros Hp Ha. apply wp_invariant; [done..|]. cbn. auto. Qed.

(** What holds of every answer holds of that of a run. *)
Lemma ran_answered {A} Φ (p : prog E A) d a h (Q : A → Prop) :
  ran p d a → answered Φ (d ++ h) → wp Φ free p h (λ o _, ∀ a, o = Done a → Q a) → Q a.
Proof.
  intros Hr. revert h. induction Hr as [a|R e k r d a Hr IH]; cbn; intros h Ha Hp; [by apply Hp|].
  rewrite <- app_assoc in Ha. destruct Hp as [_ Hp].
  apply (IH (Obs e r :: h)); [done|]. apply Hp, (answered_app _ _ _ Ha).
Qed.
Lemma ran_post {A} (p : prog E A) d a h (Q : A → Prop) :
  ran p d a → wp any free p h (λ o _, ∀ a, o = Done a → Q a) → Q a.
Proof. intros Hr. by eapply ran_answered, answered_any. Qed.

Lemma ran_free {A} (p : prog E A) h :
  wp any free p h (λ o h', ∃ d, h' = d ++ h ∧ ∀ a, o = Done a → ran p d a).
Proof.
  assert (emits (λ _ _, True) p) as Hp by by induction p; cbn; auto.
  eapply wp_mono; [by apply (wp_ran (λ _ _, True) any free)|done|].
  intros o h' (d & -> & _ & Hd). by exists d.
Qed.

(** The history holds a run of [p] that answers [a]. *)
Definition ever (h : list (obs E)) {A} (p : prog E A) (a : A) : Prop :=
  ∃ d1 d2 h', h = d1 ++ d2 ++ h' ∧ ran p d2 a.
Lemma ever_app d h A (p : prog E A) a : ever h p a → ever (d ++ h) p a.
Proof. intros (d1 & d2 & h' & -> & ?). exists (d ++ d1), d2, h'. by rewrite <- !app_assoc. Qed.
Lemma ever_cons o h A (p : prog E A) a : ever h p a → ever (o :: h) p a.
Proof. apply (ever_app [o]). Qed.
Lemma ran_ever d h A (p : prog E A) a : ran p d a → ever (d ++ h) p a.
Proof. intros Hd. by exists [], d, h. Qed.
End ran.

(** ** Concrete runs satisfy what [wp] promises *)

Section adequacy.
Context {E : Type → Type} {W : Type}.
Implicit Types (env : ∀ R, W → E R → R * W) (Inv : W → list (obs E) → Prop).

Definition follows (Φ : protocol E) env Inv : Prop :=
  ∀ w h R (e : E R), Inv w h →
    Φ h R e (env R w e).1 ∧ Inv (env R w e).2 (Obs e (env R w e).1 :: h).

Lemma follows_both (Φ Φ' : protocol E) env Inv Inv' :
  follows Φ env Inv → follows Φ' env Inv' →
  follows (λ h R e r, Φ h R e r ∧ Φ' h R e r) env (λ w h, Inv w h ∧ Inv' w h).
Proof. intros H H' w h R e [Hi Hi']. destruct (H w h R e Hi), (H' w h R e Hi'). auto. Qed.

Lemma run_bind {A B} env (p : prog E A) (f : A → prog E B) w h :
  run env (bind p f) w h =
  let '(o, w', h') := run env p w h in
  match o with Done a => run env (f a) w' h' | Panicked m => (Panicked m, w', h') end.
Proof.
  induction p as [a|m|R e k IH] in w, h |- *; cbn; [done..|].
  destruct (env R w e) as [r w']. apply IH.
Qed.

Lemma run_sound {A} Φ G env Inv (p : prog E A) w h Q :
  follows Φ env Inv → Inv w h → guaranteed G h → wp Φ G p h Q →
  let '(o, w', h') := run env p w h in Q o h' ∧ Inv w' h' ∧ guaranteed G h'.
Proof.
  intros Henv. revert w h.
  induction p as [a|m|R e k IH]; cbn; intros w h Hinv Hg Hwp; [done..|].
  destruct Hwp as [He Hwp]. destruct (Henv w h R e Hinv) as [Hr Hinv'].
  destruct (env R w e) as [r w']; cbn in *.
  apply IH; cbn; auto.
Qed.

Lemma run_answered {A} Φ env Inv (p : prog E A) w h :
  follows Φ env Inv → Inv w h → answered Φ h → answered Φ (run env p w h).2.
Proof.
  intros Henv. revert w h. induction p as [a|m|R e k IH]; cbn; intros w h Hi Hh; [done..|].
  destruct (Henv w h R e Hi) as [Hr Hi']. destruct (env R w e) as [r w']. by apply IH.
Qed.

(** No assumption on the environment. *)
Lemma run_any {A} G env (p : prog E A) w h Q :
  guaranteed G h → wp any G p h Q →
  let '(o, _, h') := run env p w h in Q o h' ∧ guaranteed G h'.
Proof.
  intros Hg Hwp.
  pose proof (run_sound any G env (λ _ _, True) p w h Q) as H.
  destruct (run env p w h) as [[o w'] h']. by destruct H as (? & _ & ?).
Qed.
End adequacy.

(** ** Automation

[emits_tac] walks a program's syntax: it splits sequences, branches and loops,
and closes the calls with the [emits] hint database, where each component
registers the footprint of its operations. *)

Create HintDb emits discriminated.
#[export] Hint Constants Opaque : emits.

Ltac emits_step :=
  lazymatch goal with
  | |- emits _ (Ret _) => exact I
  | |- emits _ (Panic _) => exact I
  | |- emits _ (bind _ _) => apply emits_bind; [|intros ?]
  | |- emits _ (for_each _ _ _) => apply emits_for_each; intros ? ?
  | |- emits _ (deref _ _) => apply emits_deref
  | |- emits _ (call _) => apply emits_call
  | |- emits _ (match ?x with _ => _ end) => destruct x eqn:?
  | |- emits _ (let '_ := ?x in _) => destruct x eqn:?
  | |- _ => solve [eauto with emits nocore]
  end.

Ltac emits_tac := repeat (cbn beta iota; emits_step).
