(* ===== verification/GoLib.v ===== *)
(** * The part of Go's standard library that FluxUp uses

Errors with wrapping ([fmt.Errorf] with [%w]), the functions of [strings] on
byte strings, decimal printing and scanning, and [time.Format] for the one
layout the program uses.  Times are Z, nanoseconds since the Unix epoch;
durations are Z, nanoseconds. *)

From S2P Require Import Prelude.

Open Scope stdpp_scope.
Open Scope Z_scope.

(** ** Errors *)

(** An error answered by a service: [ast_reason] is the machine-readable reason of a
    Kubernetes [Status] (empty for services that have none). *)
Record APIStatus := mkAPIStatus { ast_reason : string; ast_message : string }.

Inductive error : Type :=
| ErrAPI (st : APIStatus)
| ErrNew (msg : string)                     (**r [fmt.Errorf] without [%w] *)
| ErrWrap (msg : string) (inner : error)    (**r [fmt.Errorf] with [%w]: the text and the wrapped error *)
| ErrReasoned (reason msg : string).        (**r the controller's own [reasonedError] *)

#[export] Instance APIStatus_eq_dec : EqDecision APIStatus.
Proof. solve_decision. Defined.
#[export] Instance error_eq_dec : EqDecision error.
Proof. solve_decision. Defined.

(** The [Error()] method. *)
Definition Error (e : error) : string :=
  match e with
  | ErrAPI st => ast_message st
  | ErrNew msg => msg
  | ErrWrap msg _ => msg
  | ErrReasoned _ msg => msg
  end.

(** [fmt.Errorf(pre + "%w" + post, e)] *)
Definition Errorf_w (pre : string) (e : error) : error := ErrWrap (pre +:+ Error e) e.

(** ** Booleans of string comparison *)

Definition seqb (a b : string) : bool := String.eqb a b.
Arguments seqb : simpl never.
Notation "a =?s b" := (seqb a b) (at level 70) : stdpp_scope.

Lemma seqb_eq a b : seqb a b = true ↔ a = b.
Proof. apply String.eqb_eq. Qed.
Lemma seqb_neq a b : seqb a b = false ↔ a ≠ b.
Proof. apply String.eqb_neq. Qed.
Lemma seqb_refl a : seqb a a = true.
Proof. by apply seqb_eq. Qed.
Lemma seqb_spec a b : reflect (a = b) (seqb a b).
Proof. apply String.eqb_spec. Qed.

Lemma string_app_nil (s : string) : s +:+ "" = s.
Proof.
  induction s as [|c s IH]; [done|]. change (String c (s +:+ "") = String c s). by rewrite IH.
Qed.
Lemma string_app_assoc (a b c : string) : (a +:+ b) +:+ c = a +:+ (b +:+ c).
Proof.
  induction a as [|x a IH]; [done|].
  change (String x ((a +:+ b) +:+ c) = String x (a +:+ (b +:+ c))). by rewrite IH.
Qed.

(** Decide the comparisons of closed strings. *)
Ltac seqb_lits :=
  repeat match goal with
  | |- context [seqb ?a ?b] =>
      let v := eval vm_compute in (seqb a b) in
      lazymatch v with true => idtac | false => idtac end; change (seqb a b) with v
  | H : context [seqb ?a ?b] |- _ =>
      let v := eval vm_compute in (seqb a b) in
      lazymatch v with true => idtac | false => idtac end; change (seqb a b) with v in H
  end; cbn iota in *.

(** [strings.HasPrefix(s, prefix)] *)
Fixpoint HasPrefix (s prefix : string) : bool :=
  match prefix, s with
  | "", _ => true
  | String c p, String d s' => Ascii.eqb c d && HasPrefix s' p
  | _, _ => false
  end.

(** [s[n:]] for [n <= len(s)] *)
Fixpoint drop_str (n : nat) (s : string) : string :=
  match n, s with
  | S n, String _ s => drop_str n s
  | _, _ => s
  end.

(** [s[:n]] for [n <= len(s)] *)
Fixpoint take_str (n : nat) (s : string) : string :=
  match n, s with
  | S n, String c s => String c (take_str n s)
  | _, _ => ""
  end.

(** [strings.TrimPrefix(s, prefix)] *)
Definition TrimPrefix (s prefix : string) : string :=
  if HasPrefix s prefix then drop_str (String.length prefix) s else s.

Fixpoint string_rev_app (s acc : string) : string :=
  match s with "" => acc | String c s => string_rev_app s (String c acc) end.
Definition string_rev (s : string) : string := string_rev_app s "".

(** [strings.TrimSuffix(s, suffix)] *)
Definition TrimSuffix (s suffix : string) : string :=
  if HasPrefix (string_rev s) (string_rev suffix)
  then take_str (String.length s - String.length suffix) s else s.

(** [strings.Split(s, sep)] for a separator of one byte.  [cur] is the part being read. *)
Fixpoint split_go (sep : Ascii.ascii) (s cur : string) : list string :=
  match s with
  | "" => [string_rev cur]
  | String c s' =>
      if Ascii.eqb c sep then string_rev cur :: split_go sep s' ""
      else split_go sep s' (String c cur)
  end.
Definition Split1 (s : string) (sep : Ascii.ascii) : list string := split_go sep s "".

(** [strings.Join(l, sep)] *)
Fixpoint Join (l : list string) (sep : string) : string :=
  match l with
  | [] => ""
  | [s] => s
  | s :: l' => s +:+ sep +:+ Join l' sep
  end.

(** [strings.LastIndex(s, c)] for one byte: the position, if there is one. *)
Fixpoint LastIndex1 (s : string) (c : Ascii.ascii) : option nat :=
  match s with
  | "" => None
  | String d s' =>
      match LastIndex1 s' c with
      | Some n => Some (S n)
      | None => if Ascii.eqb d c then Some 0%nat else None
      end
  end.

(** [strings.Contains(s, sub)] *)
Fixpoint Contains (s sub : string) : bool :=
  HasPrefix s sub || match s with "" => false | String _ s' => Contains s' sub end.

(** [%d] *)
Definition itoa (n : Z) : string := pretty n.
(** [len(l)] as an [int] *)
Definition len {A} (l : list A) : Z := Z.of_nat (length l).

(** [strings.Split(s, sep)] for a non-empty separator.  [skip] counts the bytes of a
    separator still to be passed over; [cur] is the part being read, reversed. *)
Fixpoint split_gen (sep : string) (s : string) (skip : nat) (cur : string) : list string :=
  match s with
  | "" => [string_rev cur]
  | String c s' =>
      match skip with
      | S k => split_gen sep s' k cur
      | O =>
          if HasPrefix s sep
          then string_rev cur :: split_gen sep s' (String.length sep - 1) ""
          else split_gen sep s' 0 (String c cur)
      end
  end.
Definition Split (s sep : string) : list string := split_gen sep s 0 "".

(** [unicode.IsSpace] on the ASCII range *)
Definition is_space (c : Ascii.ascii) : bool :=
  let n := Ascii.nat_of_ascii c in (Nat.leb 9 n && Nat.leb n 13) || Nat.eqb n 32.

Fixpoint trim_left (s : string) : string :=
  match s with
  | String c s' => if is_space c then trim_left s' else s
  | "" => ""
  end.
(** [strings.TrimSpace], for text whose leading and trailing white space is ASCII *)
Definition TrimSpace (s : string) : string :=
  string_rev (trim_left (string_rev (trim_left s))).

(** [strings.Trim(s, "c")] *)
Fixpoint trim_left_of (c : Ascii.ascii) (s : string) : string :=
  match s with
  | String d s' => if Ascii.eqb d c then trim_left_of c s' else s
  | "" => ""
  end.
Definition Trim1 (s : string) (c : Ascii.ascii) : string :=
  string_rev (trim_left_of c (string_rev (trim_left_of c s))).

(** ** Quoting

[%q] for ASCII text: the quotes, and the escapes of [strconv.Quote]. *)
Definition hex_digit (n : nat) : Ascii.ascii :=
  Ascii.ascii_of_nat (if Nat.ltb n 10 then 48 + n else 87 + n).
Definition quote_byte (c : Ascii.ascii) : string :=
  let n := Ascii.nat_of_ascii c in
  match n with
  | 34%nat => String "092"%char (String c "")
  | 92%nat => String c (String c "")
  | 7%nat => "\a" | 8%nat => "\b" | 12%nat => "\f" | 10%nat => "\n"
  | 13%nat => "\r" | 9%nat => "\t" | 11%nat => "\v"
  | _ =>
      if Nat.ltb n 32 || Nat.eqb n 127 then
        "\x" +:+ String (hex_digit (n / 16)) (String (hex_digit (n mod 16)) "")
      else String c ""
  end.
Fixpoint quote_bytes (s : string) : string :=
  match s with "" => "" | String c s => quote_byte c +:+ quote_bytes s end.
Definition Quote (s : string) : string :=
  String "034"%char (quote_bytes s +:+ String "034"%char "").

(** ** Characters *)
Definition is_digit (c : Ascii.ascii) : bool :=
  let n := Ascii.nat_of_ascii c in Nat.leb 48 n && Nat.leb n 57.
(** [unicode.IsLower] on the ASCII range; the names it is applied to are ASCII *)
Definition is_lower (c : Ascii.ascii) : bool :=
  let n := Ascii.nat_of_ascii c in Nat.leb 97 n && Nat.leb n 122.

Fixpoint string_forallb (p : Ascii.ascii → bool) (s : string) : bool :=
  match s with "" => true | String c s' => p c && string_forallb p s' end.

(** ** [fmt.Sscanf(s, "%d", &n)] with [n] an [int] of 64 bits

Leading blanks are skipped, then an optional sign and the longest run of digits are
read; no digit, or a value out of range, is an error; what follows is not looked at. *)
Fixpoint scan_digits (s : string) (acc : Z) (seen : bool) : option Z :=
  match s with
  | String c s' =>
      if is_digit c
      then scan_digits s' (10 * acc + (Z.of_nat (Ascii.nat_of_ascii c) - 48)) true
      else if seen then Some acc else None
  | "" => if seen then Some acc else None
  end.

Definition max_int64 : Z := 2 ^ 63 - 1.
Definition min_int64 : Z := - 2 ^ 63.

Fixpoint skip_blanks (s : string) : string :=
  match s with
  | String c s' =>
      if Ascii.eqb c " "%char || Ascii.eqb c "009"%char then skip_blanks s' else s
  | "" => ""
  end.

Definition Sscanf_d (s : string) : option Z :=
  let s := skip_blanks s in
  let v := match s with
           | String c s' =>
               if Ascii.eqb c "-"%char then Z.opp <$> scan_digits s' 0 false
               else if Ascii.eqb c "+"%char then scan_digits s' 0 false
               else scan_digits s 0 false
           | "" => None
           end in
  match v with
  | Some n => if (min_int64 <=? n) && (n <=? max_int64) then Some n else None
  | None => None
  end.

(** ** Time *)

Definition Second : Z := 1000000000.
Definition Minute : Z := 60 * Second.

(** Zero-padded decimal of [w] digits, as [time.Format] prints its fields. *)
Fixpoint zeros (n : nat) : string := match n with O => "" | S n => String "0"%char (zeros n) end.
Definition pad (w : nat) (n : Z) : string :=
  let s := itoa n in zeros (w - String.length s) +:+ s.

(** The proleptic Gregorian date of a day number (days since 1970-01-01):
    400-year eras of 146097 days, years starting in March. *)
Definition civil_from_days (days : Z) : Z * Z * Z :=
  let z := days + 719468 in
  let era := z / 146097 in
  let doe := z - era * 146097 in
  let yoe := (doe - doe / 1460 + doe / 36524 - doe / 146096) / 365 in
  let doy := doe - (365 * yoe + yoe / 4 - yoe / 100) in
  let mp := (5 * doy + 2) / 153 in
  let d := doy - (153 * mp + 2) / 5 + 1 in
  let m := if mp <? 10 then mp + 3 else mp - 9 in
  let y := yoe + era * 400 + (if m <=? 2 then 1 else 0) in
  (y, m, d).

(** [t.Format("20060102-150405")] for a [t] whose location is [offset] seconds east of UTC. *)
Definition format_compact (offset t : Z) : string :=
  let secs := t / Second + offset in
  let '(y, m, d) := civil_from_days (secs / 86400) in
  let sod := secs mod 86400 in
  pad 4 y +:+ pad 2 m +:+ pad 2 d +:+ "-" +:+
  pad 2 (sod / 3600) +:+ pad 2 (sod / 60 mod 60) +:+ pad 2 (sod mod 60).

Example format_compact_epoch : format_compact 0 0 = "19700101-000000".
Proof. reflexivity. Qed.
Example format_compact_leap : format_compact 3600 (1709164799 * Second) = "20240229-005959".
Proof. reflexivity. Qed.
Example split_ex : Split "a#---#b#---#" "#---#" = ["a"; "b"; ""].
Proof. reflexivity. Qed.
Example sscanf_ex : Sscanf_d "12.v3" = Some 12.
Proof. reflexivity. Qed.
Example quote_ex : String.length (Quote (String "010"%char "a")) = 5%nat.
Proof. reflexivity. Qed.

(** ** Splitting what was joined *)

Lemma string_rev_app_rev s acc : string_rev_app (string_rev_app s acc) "" = string_rev_app acc s.
Proof.
  revert acc. induction s as [|c s IH]; intros acc; cbn [string_rev_app]; [done|]. apply IH.
Qed.
Lemma string_rev_involutive s : string_rev (string_rev s) = s.
Proof. unfold string_rev. apply string_rev_app_rev. Qed.

(** The byte does not occur. *)
Definition lacks (c : Ascii.ascii) (s : string) : bool :=
  string_forallb (λ d, negb (Ascii.eqb d c)) s.

Lemma cons_app_string c a b : String c a +:+ b = String c (a +:+ b).
Proof. done. Qed.

Lemma split_go_part sep a b cur :
  lacks sep a = true →
  split_go sep (a +:+ String sep b) cur =
  string_rev (string_rev_app a cur) :: split_go sep b "".
Proof.
  revert cur. induction a as [|c a IH]; intros cur Ha.
  - cbn [string_rev_app]. change ("" +:+ String sep b) with (String sep b).
    cbn [split_go]. by rewrite Ascii.eqb_refl.
  - unfold lacks in Ha; cbn [string_forallb] in Ha. apply andb_true_iff in Ha as [Hc%negb_true_iff Ha].
    rewrite cons_app_string. cbn [split_go string_rev_app]. rewrite Hc. by apply IH.
Qed.

Lemma split_go_last sep a cur :
  lacks sep a = true → split_go sep a cur = [string_rev (string_rev_app a cur)].
Proof.
  revert cur. induction a as [|c a IH]; intros cur Ha; [done|].
  unfold lacks in Ha; cbn [string_forallb] in Ha. apply andb_true_iff in Ha as [Hc%negb_true_iff Ha].
  cbn [split_go string_rev_app]. rewrite Hc. by apply IH.
Qed.

Lemma Split1_Join sep l :
  l ≠ [] → Forall (λ s, lacks sep s = true) l → Split1 (Join l (String sep "")) sep = l.
Proof.
  intros Hne Hl. unfold Split1.
  induction Hl as [|s l Hs Hl IH]; [done|]. destruct l as [|t l].
  - cbn [Join]. rewrite split_go_last by done. f_equal. apply string_rev_involutive.
  - change (Join (s :: t :: l) (String sep "")) with
      (s +:+ String sep (Join (t :: l) (String sep ""))).
    rewrite split_go_part by done. rewrite IH by done. f_equal. apply string_rev_involutive.
Qed.

Lemma LastIndex1_none c s : lacks c s = true → LastIndex1 s c = None.
Proof.
  induction s as [|d s IH]; intros Hs; [done|].
  unfold lacks in Hs; cbn [string_forallb] in Hs. apply andb_true_iff in Hs as [Hd%negb_true_iff Hs].
  cbn [LastIndex1]. by rewrite IH, Hd.
Qed.

Lemma LastIndex1_app c a b :
  lacks c b = true → LastIndex1 (a +:+ String c b) c = Some (String.length a).
Proof.
  intros Hb. induction a as [|d a IH].
  - change ("" +:+ String c b) with (String c b). cbn [LastIndex1].
    by rewrite (LastIndex1_none _ _ Hb), Ascii.eqb_refl.
  - rewrite cons_app_string. cbn [LastIndex1]. by rewrite IH.
Qed.

Lemma take_str_app a b : take_str (String.length a) (a +:+ b) = a.
Proof. induction a as [|c a IH]; [done|]. rewrite cons_app_string. cbn. by rewrite IH. Qed.
Lemma drop_str_app a b : drop_str (String.length a) (a +:+ b) = b.
Proof. induction a as [|c a IH]; [by destruct b|]. rewrite cons_app_string. cbn. apply IH. Qed.
Lemma HasPrefix_app a b : HasPrefix (a +:+ b) a = true.
Proof.
  induction a as [|c a IH]; [by destruct b|]. rewrite cons_app_string. cbn.
  by rewrite Ascii.eqb_refl.
Qed.
Lemma drop_str_after a c b : drop_str (S (String.length a)) (a +:+ String c b) = b.
Proof.
  induction a as [|d a IH]; [done|]. rewrite cons_app_string. cbn [String.length].
  cbn [drop_str]. apply IH.
Qed.
