(* ===== verification/Api.v ===== *)
(** * Data: the API types of FluxUp and the Kubernetes objects it reads

The types of [api/v1alpha1], field by field, and of each foreign object (Flux
Kustomization, Deployment, StatefulSet, Pod, PersistentVolumeClaim,
VolumeSnapshot, Secret, ConfigMap) the fields the program reads or writes.
Field names are the Go ones behind a short prefix per struct, because Rocq
projections share one name space.  A Go pointer is an [option], [metav1.Time] is
a time of [GoLib], byte strings are [string]s. *)

From S2P Require Import Prelude GoLib.

Definition Time := Z.
Definition Duration := Z.

(** ** apimachinery *)

Record NamespacedName := mkKey { nn_Name : string; nn_Namespace : string }.
#[export] Instance NamespacedName_eq_dec : EqDecision NamespacedName.
Proof. solve_decision. Defined.
#[export] Instance NamespacedName_countable : Countable NamespacedName.
Proof.
  refine (inj_countable' (λ k, (nn_Name k, nn_Namespace k)) (λ p, mkKey p.1 p.2) _).
  by intros [].
Defined.

Record OwnerReference := mkOwnerReference {
  or_APIVersion : string; or_Kind : string; or_Name : string; or_UID : string }.

Record ObjectMeta := mkObjectMeta {
  om_Name : string;
  om_Namespace : string;
  om_UID : string;
  om_Generation : Z;
  om_CreationTimestamp : Time;
  om_DeletionTimestamp : option Time;
  om_Finalizers : list string;
  om_Labels : gmap string string;
  om_OwnerReferences : list OwnerReference }.

Definition plainMeta (name ns : string) : ObjectMeta :=
  mkObjectMeta name ns "" 0 0 None [] ∅ [].

(** [metav1.Condition]; [lastTransitionTime], which the API machinery stamps and the
    program never reads, is left out. *)
Record Condition := mkCondition {
  c_Type : string; c_Status : string; c_Reason : string; c_Message : string;
  c_ObservedGeneration : Z }.
Definition ConditionTrue : string := "True".
Definition ConditionFalse : string := "False".

(** ** managedapp_types.go *)

Definition ConditionTypeReady : string := "Ready".
Definition ConditionTypeUpdateAvailable : string := "UpdateAvailable".

Record ObjectReference := mkObjectReference { ref_Name : string; ref_Namespace : string }.
Record PVCRef := mkPVCRef { pr_Name : string; pr_Namespace : string }.
Record RetentionPolicy := mkRetentionPolicy { rp_MaxCount : option Z }.
Record VolumeSnapshotConfig := mkVolumeSnapshotConfig {
  vsc_Enabled : bool;
  vsc_VolumeSnapshotClassName : string;
  vsc_PVCs : list PVCRef;
  vsc_ExcludePVCs : list PVCRef;
  vsc_RetentionPolicy : option RetentionPolicy }.
Record VersionPolicy := mkVersionPolicy { vp_AutoUpdate : string; vp_VersionPath : string }.
Record HealthCheckConfig := mkHealthCheckConfig { hcc_Timeout : string }.

Record ManagedAppSpec := mkManagedAppSpec {
  as_GitPath : string;
  as_KustomizationRef : ObjectReference;
  as_SuspendRef : option ObjectReference;
  as_HelmReleaseRef : option ObjectReference;
  as_VolumeSnapshots : option VolumeSnapshotConfig;
  as_VersionPolicy : option VersionPolicy;
  as_HealthCheck : option HealthCheckConfig;
  as_AutoRollback : bool }.

Record ImageInfo := mkImageInfo { ii_Name : string; ii_Tag : string }.
Record VersionInfo := mkVersionInfo { vi_Chart : string; vi_Images : list ImageInfo }.
Record UpgradeInfo := mkUpgradeInfo {
  ui_FromVersion : option VersionInfo;
  ui_ToVersion : option VersionInfo;
  ui_Timestamp : option Time;
  ui_Status : string }.

Record ManagedAppStatus := mkManagedAppStatus {
  ast_CurrentVersion : option VersionInfo;
  ast_AvailableUpdate : option VersionInfo;
  ast_LastUpgrade : option UpgradeInfo;
  ast_Conditions : list Condition }.

Record ManagedApp := mkManagedApp {
  app_Meta : ObjectMeta;
  app_Spec : ManagedAppSpec;
  app_Status : ManagedAppStatus }.

(** ** upgraderequest_types.go *)

Definition ConditionTypeSuspended : string := "Suspended".
Definition ConditionTypeWorkloadStopped : string := "WorkloadStopped".
Definition ConditionTypeSnapshotReady : string := "SnapshotReady".
Definition ConditionTypeGitCommitted : string := "GitCommitted".
Definition ConditionTypeReconciled : string := "Reconciled".
Definition ConditionTypeHealthy : string := "Healthy".
Definition ConditionTypeComplete : string := "Complete".

Record UpgradeRequestSpec := mkUpgradeRequestSpec {
  us_ManagedAppRef : ObjectReference;
  us_TargetVersion : option VersionInfo;
  us_SkipSnapshot : bool;
  us_DryRun : bool }.

Record WorkloadScalingInfo := mkWorkloadScalingInfo {
  wsi_Kind : string; wsi_Name : string; wsi_Namespace : string }.
Record ScalingStatus := mkScalingStatus {
  ss_Workloads : list WorkloadScalingInfo; ss_ScaledDownAt : option Time }.
Record PVCSnapshotInfo := mkPVCSnapshotInfo { psi_PVCName : string; psi_SnapshotName : string }.
Record SnapshotStatus := mkSnapshotStatus {
  sns_PVCSnapshots : list PVCSnapshotInfo;
  sns_CreatedAt : option Time;
  sns_ReadyAt : option Time }.
Record UpgradeStatus := mkUpgradeStatus {
  ups_PreviousVersion : option VersionInfo;
  ups_NewVersion : option VersionInfo;
  ups_GitCommit : string;
  ups_StartedAt : option Time;
  ups_CompletedAt : option Time }.
Record HealthCheckStatus := mkHealthCheckStatus {
  hcs_Status : string; hcs_CheckedAt : option Time; hcs_Message : string }.

Record UpgradeRequestStatus := mkUpgradeRequestStatus {
  ust_Scaling : option ScalingStatus;
  ust_Snapshot : option SnapshotStatus;
  ust_Upgrade : option UpgradeStatus;
  ust_HealthCheck : option HealthCheckStatus;
  ust_PhaseStartedAt : option Time;
  ust_Conditions : list Condition }.

Record UpgradeRequest := mkUpgradeRequest {
  ur_Meta : ObjectMeta;
  ur_Spec : UpgradeRequestSpec;
  ur_Status : UpgradeRequestStatus }.

(** ** rollbackrequest_types.go *)

Definition ConditionTypeVolumesRestored : string := "VolumesRestored".
Definition ConditionTypeGitReverted : string := "GitReverted".

Record RollbackRequestSpec := mkRollbackRequestSpec {
  rs_UpgradeRequestRef : ObjectReference;
  rs_AutoTriggered : bool;
  rs_DryRun : bool }.

Record RestoredFromStatus := mkRestoredFromStatus {
  rf_UpgradeRequestName : string;
  rf_TargetVersion : option VersionInfo;
  rf_RolledBackVersion : option VersionInfo }.
Record RestoredPVCInfo := mkRestoredPVCInfo {
  rpi_PVCName : string; rpi_SnapshotName : string; rpi_RestorationState : string }.
Record VolumeRestoreStatus := mkVolumeRestoreStatus {
  vr_RestoredPVCs : list RestoredPVCInfo;
  vr_StartedAt : option Time;
  vr_CompletedAt : option Time }.
Record GitRevertStatus := mkGitRevertStatus {
  gr_CommitSHA : string; gr_CommittedAt : option Time }.

Record RollbackRequestStatus := mkRollbackRequestStatus {
  rst_RestoredFrom : option RestoredFromStatus;
  rst_Scaling : option ScalingStatus;
  rst_VolumeRestore : option VolumeRestoreStatus;
  rst_GitRevert : option GitRevertStatus;
  rst_StartedAt : option Time;
  rst_CompletedAt : option Time;
  rst_PhaseStartedAt : option Time;
  rst_Conditions : list Condition }.

Record RollbackRequest := mkRollbackRequest {
  rb_Meta : ObjectMeta;
  rb_Spec : RollbackRequestSpec;
  rb_Status : RollbackRequestStatus }.

(** ** Foreign objects *)

(** Flux Kustomization: [spec.suspend], [status.conditions], [status.observedGeneration]
    and the ids of [status.inventory.entries]. *)
Record Kustomization := mkKustomization {
  ks_Meta : ObjectMeta;
  ks_Suspend : bool;
  ks_Conditions : list Condition;
  ks_ObservedGeneration : Z;
  ks_Inventory : option (list string) }.

(** [appsv1.Deployment] and [appsv1.StatefulSet]: replicas are [int32];
    [w_Selector] is [spec.selector.matchLabels]. *)
Record Workload := mkWorkload {
  w_Meta : ObjectMeta;
  w_Replicas : option Z;
  w_Selector : option (gmap string string);
  w_ReadyReplicas : Z }.
Definition Deployment := Workload.
Definition StatefulSet := Workload.

(** A pod's volumes, each with the claim it names when it is backed by a PVC. *)
Record Pod := mkPod { pod_Meta : ObjectMeta; pod_Volumes : list (option string) }.

Record DataSource := mkDataSource { ds_APIGroup : string; ds_Kind : string; ds_Name : string }.
Record PVC := mkPVC {
  pvc_Meta : ObjectMeta;
  pvc_AccessModes : list string;
  pvc_StorageRequest : option string;
  pvc_DataSource : option DataSource;
  pvc_StorageClassName : option string;
  pvc_Phase : string }.

Record VolumeSnapshotStatus := mkVolumeSnapshotStatus {
  vss_ReadyToUse : option bool;
  vss_RestoreSize : option string;
  vss_ErrorMessage : option string }.
Record VolumeSnapshot := mkVolumeSnapshot {
  vs_Meta : ObjectMeta;
  vs_PVCName : option string;
  vs_ClassName : option string;
  vs_Status : option VolumeSnapshotStatus }.

Record Secret := mkSecret { sec_Meta : ObjectMeta; sec_Data : gmap string string }.
Record ConfigMap := mkConfigMap { cm_Meta : ObjectMeta; cm_Data : gmap string string }.

(** ** git/interface.go *)

Record FileChange := mkFileChange { fc_Path : string; fc_Content : string }.
Record CommitInfo := mkCommitInfo {
  ci_SHA : string; ci_Message : string; ci_Author : string; ci_URL : string }.

(** ** Assignments to fields *)

Definition ks_set_Suspend (b : bool) (ks : Kustomization) : Kustomization :=
  mkKustomization (ks_Meta ks) b (ks_Conditions ks) (ks_ObservedGeneration ks) (ks_Inventory ks).
Definition w_set_Replicas (n : Z) (w : Workload) : Workload :=
  mkWorkload (w_Meta w) (Some n) (w_Selector w) (w_ReadyReplicas w).

Definition om_set_Finalizers (fs : list string) (m : ObjectMeta) : ObjectMeta :=
  mkObjectMeta (om_Name m) (om_Namespace m) (om_UID m) (om_Generation m)
    (om_CreationTimestamp m) (om_DeletionTimestamp m) fs (om_Labels m) (om_OwnerReferences m).

Definition ur_set_Meta (m : ObjectMeta) (u : UpgradeRequest) : UpgradeRequest :=
  mkUpgradeRequest m (ur_Spec u) (ur_Status u).
Definition ur_set_Status (s : UpgradeRequestStatus) (u : UpgradeRequest) : UpgradeRequest :=
  mkUpgradeRequest (ur_Meta u) (ur_Spec u) s.
Definition ust_set_Scaling x s := mkUpgradeRequestStatus x (ust_Snapshot s) (ust_Upgrade s)
  (ust_HealthCheck s) (ust_PhaseStartedAt s) (ust_Conditions s).
Definition ust_set_Snapshot x s := mkUpgradeRequestStatus (ust_Scaling s) x (ust_Upgrade s)
  (ust_HealthCheck s) (ust_PhaseStartedAt s) (ust_Conditions s).
Definition ust_set_Upgrade x s := mkUpgradeRequestStatus (ust_Scaling s) (ust_Snapshot s) x
  (ust_HealthCheck s) (ust_PhaseStartedAt s) (ust_Conditions s).
Definition ust_set_HealthCheck x s := mkUpgradeRequestStatus (ust_Scaling s) (ust_Snapshot s)
  (ust_Upgrade s) x (ust_PhaseStartedAt s) (ust_Conditions s).
Definition ust_set_PhaseStartedAt x s := mkUpgradeRequestStatus (ust_Scaling s) (ust_Snapshot s)
  (ust_Upgrade s) (ust_HealthCheck s) x (ust_Conditions s).
Definition ust_set_Conditions x s := mkUpgradeRequestStatus (ust_Scaling s) (ust_Snapshot s)
  (ust_Upgrade s) (ust_HealthCheck s) (ust_PhaseStartedAt s) x.

Definition app_set_Status (s : ManagedAppStatus) (a : ManagedApp) : ManagedApp :=
  mkManagedApp (app_Meta a) (app_Spec a) s.

Definition rb_set_Meta (m : ObjectMeta) (r : RollbackRequest) : RollbackRequest :=
  mkRollbackRequest m (rb_Spec r) (rb_Status r).
Definition rb_set_Status (s : RollbackRequestStatus) (r : RollbackRequest) : RollbackRequest :=
  mkRollbackRequest (rb_Meta r) (rb_Spec r) s.
Definition rst_set_RestoredFrom x s := mkRollbackRequestStatus x (rst_Scaling s)
  (rst_VolumeRestore s) (rst_GitRevert s) (rst_StartedAt s) (rst_CompletedAt s)
  (rst_PhaseStartedAt s) (rst_Conditions s).
Definition rst_set_Scaling x s := mkRollbackRequestStatus (rst_RestoredFrom s) x
  (rst_VolumeRestore s) (rst_GitRevert s) (rst_StartedAt s) (rst_CompletedAt s)
  (rst_PhaseStartedAt s) (rst_Conditions s).
Definition rst_set_VolumeRestore x s := mkRollbackRequestStatus (rst_RestoredFrom s)
  (rst_Scaling s) x (rst_GitRevert s) (rst_StartedAt s) (rst_CompletedAt s)
  (rst_PhaseStartedAt s) (rst_Conditions s).
Definition rst_set_GitRevert x s := mkRollbackRequestStatus (rst_RestoredFrom s)
  (rst_Scaling s) (rst_VolumeRestore s) x (rst_StartedAt s) (rst_CompletedAt s)
  (rst_PhaseStartedAt s) (rst_Conditions s).
Definition rst_set_StartedAt x s := mkRollbackRequestStatus (rst_RestoredFrom s)
  (rst_Scaling s) (rst_VolumeRestore s) (rst_GitRevert s) x (rst_CompletedAt s)
  (rst_PhaseStartedAt s) (rst_Conditions s).
Definition rst_set_CompletedAt x s := mkRollbackRequestStatus (rst_RestoredFrom s)
  (rst_Scaling s) (rst_VolumeRestore s) (rst_GitRevert s) (rst_StartedAt s) x
  (rst_PhaseStartedAt s) (rst_Conditions s).
Definition rst_set_PhaseStartedAt x s := mkRollbackRequestStatus (rst_RestoredFrom s)
  (rst_Scaling s) (rst_VolumeRestore s) (rst_GitRevert s) (rst_StartedAt s) (rst_CompletedAt s)
  x (rst_Conditions s).
Definition rst_set_Conditions x s := mkRollbackRequestStatus (rst_RestoredFrom s)
  (rst_Scaling s) (rst_VolumeRestore s) (rst_GitRevert s) (rst_StartedAt s) (rst_CompletedAt s)
  (rst_PhaseStartedAt s) x.
