(* ===== verification/Platform.v ===== *)
(** * The outside of the controller

[ev] lists the calls the program makes to code that is not in the repository:
the controller-runtime client (one constructor per verb and kind), the clock,
the iteration order of Go maps, and the [git.Manager] interface through which
the controllers reach the git service.  The answers are the environment's.

[Platform] names the pure functions of apimachinery and controller-runtime that
the program applies to values it already holds; [PlatformLaws] is what their
documentation says of them, and [reference] is one concrete implementation,
with which the witnesses of this development are evaluated. *)

From S2P Require Import Prelude GoLib Api.

(** A Go [(T, error)] and a Go [error]. *)
Notation res A := (result error A).

Inductive ev : Type → Type :=
(* clock, scheduler, map iteration *)
| Now : ev Time
| SleepOrDone (d : Duration) : ev (option error)   (**r [select] on [ctx.Done()] and [time.After(d)] *)
| RangeMap {K : Set} (ks : list K) : ev {l : list K | l ≡ₚ ks}
(* the controller's own resources *)
| GetUpgrade (k : NamespacedName) : ev (res UpgradeRequest)
| UpdateUpgrade (u : UpgradeRequest) : ev (res UpgradeRequest)
| StatusUpdateUpgrade (u : UpgradeRequest) : ev (res UpgradeRequest)
| GetRollback (k : NamespacedName) : ev (res RollbackRequest)
| UpdateRollback (r : RollbackRequest) : ev (res RollbackRequest)
| StatusUpdateRollback (r : RollbackRequest) : ev (res RollbackRequest)
| CreateRollback (r : RollbackRequest) : ev (res RollbackRequest)
| GetApp (k : NamespacedName) : ev (res ManagedApp)
| StatusUpdateApp (a : ManagedApp) : ev (res ManagedApp)
| ListApps : ev (res (list ManagedApp))
(* Flux *)
| GetKustomization (k : NamespacedName) : ev (res Kustomization)
| UpdateKustomization (ks : Kustomization) : ev (res Kustomization)
(* workloads and pods *)
| GetDeployment (k : NamespacedName) : ev (res Deployment)
| PatchDeployment (orig upd : Deployment) : ev (res Deployment)
| GetStatefulSet (k : NamespacedName) : ev (res StatefulSet)
| PatchStatefulSet (orig upd : StatefulSet) : ev (res StatefulSet)
| ListPods (ns : string) (selector : option (gmap string string)) : ev (res (list Pod))
(* storage *)
| GetPVC (k : NamespacedName) : ev (res PVC)
| CreatePVC (p : PVC) : ev (res PVC)
| DeletePVCObj (k : NamespacedName) : ev (option error)
| GetSnapshot (k : NamespacedName) : ev (res VolumeSnapshot)
| CreateSnapshotObj (s : VolumeSnapshot) : ev (res VolumeSnapshot)
| DeleteSnapshotObj (k : NamespacedName) : ev (option error)
| ListSnapshots (ns : string) (labels : gmap string string) : ev (res (list VolumeSnapshot))
| GetSnapshotClass (name : string) : ev (option error)
(* configuration *)
| ListSecrets (ns : string) : ev (res (list Secret))
| GetConfigMap (k : NamespacedName) : ev (res ConfigMap)
(* git.Manager *)
| GitReadFile (path : string) : ev (res string)
| GitCommitFile (change : FileChange) (message : string) : ev (res CommitInfo).

Notation M A := (prog ev A).
Notation event := (obs ev).

Definition keyOf (m : ObjectMeta) : NamespacedName := mkKey (om_Name m) (om_Namespace m).

(** The calls that change something outside the controller. *)
Definition mutates R (e : ev R) : bool :=
  match e with
  | UpdateUpgrade _ | StatusUpdateUpgrade _ | UpdateRollback _ | StatusUpdateRollback _
  | CreateRollback _ | StatusUpdateApp _ | UpdateKustomization _ | PatchDeployment _ _
  | PatchStatefulSet _ _ | CreatePVC _ | DeletePVCObj _ | CreateSnapshotObj _
  | DeleteSnapshotObj _ | GitCommitFile _ _ => true
  | _ => false
  end.
Definition reads R (e : ev R) : Prop := mutates R e = false.

(** ** Library functions *)

Class Platform := {
  (* k8s.io/apimachinery/pkg/api/meta *)
  FindStatusCondition : list Condition → string → option Condition;
  IsStatusConditionTrue : list Condition → string → bool;
  SetStatusCondition : list Condition → Condition → list Condition;
  (* sigs.k8s.io/controller-runtime/pkg/controller/controllerutil *)
  ContainsFinalizer : ObjectMeta → string → bool;
  AddFinalizer : ObjectMeta → string → ObjectMeta;
  RemoveFinalizer : ObjectMeta → string → ObjectMeta;
  (* k8s.io/apimachinery/pkg/api/errors, controller-runtime/pkg/client *)
  IsNotFound : error → bool;
  IgnoreNotFound : error → option error;
  (* k8s.io/apimachinery/pkg/labels *)
  ValidatedSelectorFromSet : gmap string string → res (gmap string string);
  (* kustomizev1.GroupVersion.String(), fluxupv1alpha1.GroupVersion.String() *)
  KustomizeGroupVersion : string;
  FluxupGroupVersion : string;
  (* time.ParseDuration; its fractional part is floating-point arithmetic *)
  ParseDuration : string → res Duration;
  (* the zone of time.Local at an instant, seconds east of UTC *)
  LocalOffset : Time → Z
}.

Class PlatformLaws (P : Platform) : Prop := {
  find_set_same cs c : FindStatusCondition (SetStatusCondition cs c) (c_Type c) = Some c;
  find_set_other cs c t :
    t ≠ c_Type c → FindStatusCondition (SetStatusCondition cs c) t = FindStatusCondition cs t;
  is_true_find cs t :
    IsStatusConditionTrue cs t =
    match FindStatusCondition cs t with
    | Some c => c_Status c =?s ConditionTrue
    | None => false
    end;
  contains_add m f : ContainsFinalizer (AddFinalizer m f) f = true;
  contains_remove m f : ContainsFinalizer (RemoveFinalizer m f) f = false;
  contains_remove_other m f g :
    f ≠ g → ContainsFinalizer (RemoveFinalizer m f) g = ContainsFinalizer m g;
  contains_add_other m f g :
    f ≠ g → ContainsFinalizer (AddFinalizer m f) g = ContainsFinalizer m g;
  remove_meta m f : om_set_Finalizers [] (RemoveFinalizer m f) = om_set_Finalizers [] m;
  add_meta m f : om_set_Finalizers [] (AddFinalizer m f) = om_set_Finalizers [] m;
  not_found_wrap msg e : IsNotFound (ErrWrap msg e) = IsNotFound e;
  not_found_api st : IsNotFound (ErrAPI st) = (ast_reason st =?s "NotFound");
  not_found_new msg : IsNotFound (ErrNew msg) = false;
  ignore_not_found e : IgnoreNotFound e = if IsNotFound e then None else Some e
}.

(** Set, then test for True. *)
Section conditions.
Context {P : Platform} {PL : PlatformLaws P}.

Lemma is_true_set_same cs c :
  IsStatusConditionTrue (SetStatusCondition cs c) (c_Type c) = (c_Status c =?s ConditionTrue).
Proof. by rewrite is_true_find, find_set_same. Qed.

Lemma is_true_set_other cs c t :
  t ≠ c_Type c →
  IsStatusConditionTrue (SetStatusCondition cs c) t = IsStatusConditionTrue cs t.
Proof. intros ?. by rewrite !is_true_find, find_set_other. Qed.
End conditions.

(** Finalizers are added and removed without touching the rest of the metadata. *)
Section finalizers.
Context {P : Platform} {PL : PlatformLaws P}.

Lemma remove_deletion m f :
  om_DeletionTimestamp (RemoveFinalizer m f) = om_DeletionTimestamp m.
Proof. exact (f_equal om_DeletionTimestamp (remove_meta m f)). Qed.
Lemma keyOf_add m f : keyOf (AddFinalizer m f) = keyOf m.
Proof. exact (f_equal keyOf (add_meta m f)). Qed.
Lemma keyOf_remove m f : keyOf (RemoveFinalizer m f) = keyOf m.
Proof. exact (f_equal keyOf (remove_meta m f)). Qed.
End finalizers.

(** ** A reference implementation *)

Module Ref.
Fixpoint find (cs : list Condition) (t : string) : option Condition :=
  match cs with
  | [] => None
  | c :: cs' => if c_Type c =?s t then Some c else find cs' t
  end.
Fixpoint set (cs : list Condition) (c : Condition) : list Condition :=
  match cs with
  | [] => [c]
  | d :: cs' => if c_Type d =?s c_Type c then c :: cs' else d :: set cs' c
  end.
Definition is_true (cs : list Condition) (t : string) : bool :=
  match find cs t with Some c => c_Status c =?s ConditionTrue | None => false end.

Definition has (m : ObjectMeta) (f : string) : bool := existsb (seqb f) (om_Finalizers m).
Definition add (m : ObjectMeta) (f : string) : ObjectMeta :=
  if has m f then m else om_set_Finalizers (om_Finalizers m ++ [f]) m.
Definition remove (m : ObjectMeta) (f : string) : ObjectMeta :=
  om_set_Finalizers (List.filter (λ g, negb (f =?s g)) (om_Finalizers m)) m.

Fixpoint not_found (e : error) : bool :=
  match e with
  | ErrAPI st => ast_reason st =?s "NotFound"
  | ErrWrap _ e => not_found e
  | _ => false
  end.
Definition ignore (e : error) : option error := if not_found e then None else Some e.
End Ref.

Definition reference : Platform := {|
  FindStatusCondition := Ref.find;
  IsStatusConditionTrue := Ref.is_true;
  SetStatusCondition := Ref.set;
  ContainsFinalizer := Ref.has;
  AddFinalizer := Ref.add;
  RemoveFinalizer := Ref.remove;
  IsNotFound := Ref.not_found;
  IgnoreNotFound := Ref.ignore;
  ValidatedSelectorFromSet := Ok;
  KustomizeGroupVersion := "kustomize.toolkit.fluxcd.io/v1";
  FluxupGroupVersion := "fluxup.dev/v1alpha1";
  ParseDuration := λ s, if s =?s "5m" then Ok (5 * Minute) else Err (ErrNew "invalid duration");
  LocalOffset := λ _, 0
|}.

Section reference_laws.
Lemma ref_find_set_same cs c : Ref.find (Ref.set cs c) (c_Type c) = Some c.
Proof.
  induction cs as [|d cs IH]; cbn; [by rewrite seqb_refl|].
  destruct (seqb_spec (c_Type d) (c_Type c)) as [Heq|Hne]; cbn; [by rewrite seqb_refl|].
  by rewrite (proj2 (seqb_neq _ _) Hne).
Qed.

Lemma ref_find_set_other cs c t :
  t ≠ c_Type c → Ref.find (Ref.set cs c) t = Ref.find cs t.
Proof.
  intros Ht. induction cs as [|d cs IH]; cbn.
  - by rewrite (proj2 (seqb_neq _ _) (not_eq_sym Ht)).
  - destruct (seqb_spec (c_Type d) (c_Type c)) as [Heq|Hne]; cbn.
    + by rewrite Heq, (proj2 (seqb_neq _ _) (not_eq_sym Ht)).
    + by rewrite IH.
Qed.

Lemma ref_has_app fs gs f : existsb (seqb f) (fs ++ gs) = existsb (seqb f) fs || existsb (seqb f) gs.
Proof. apply existsb_app. Qed.

Lemma ref_has_filter fs f g :
  existsb (seqb g) (List.filter (λ x, negb (f =?s x)) fs) =
  negb (f =?s g) && existsb (seqb g) fs.
Proof.
  induction fs as [|x fs IH]; cbn; [by rewrite andb_false_r|].
  destruct (seqb_spec f x) as [->|Hfx]; cbn; rewrite IH.
  - destruct (seqb_spec g x) as [->|Hgx]; [by rewrite seqb_refl|done].
  - destruct (seqb_spec g x) as [->|Hgx]; cbn; [|done].
    by rewrite (proj2 (seqb_neq _ _) Hfx).
Qed.
End reference_laws.

#[export] Instance reference_laws : PlatformLaws reference.
Proof.
  split; cbn.
  - apply ref_find_set_same.
  - apply ref_find_set_other.
  - done.
  - intros m f. unfold Ref.add. destruct (Ref.has m f) eqn:Hm; [done|].
    unfold Ref.has; cbn. rewrite ref_has_app; cbn. by rewrite seqb_refl, orb_true_r.
  - intros m f. unfold Ref.has, Ref.remove; cbn. by rewrite ref_has_filter, seqb_refl.
  - intros m f g Hfg. unfold Ref.has, Ref.remove; cbn.
    by rewrite ref_has_filter, (proj2 (seqb_neq _ _) Hfg).
  - intros m f g Hfg. unfold Ref.add. destruct (Ref.has m f); [done|].
    unfold Ref.has; cbn. rewrite ref_has_app; cbn.
    by rewrite (proj2 (seqb_neq g f) (not_eq_sym Hfg)), !orb_false_r.
  - done.
  - intros m f. unfold Ref.add. by destruct (Ref.has m f).
  - done.
  - done.
  - done.
  - done.
Qed.
