(* ===== verification/Poll.v ===== *)
(** * Polling loops

The helpers [WaitFor...] of [internal/flux], [internal/workload] and
[internal/snapshot] share one shape: until a deadline, look at the cluster, then
sleep five seconds or stop when the context is done.  [poll] is that loop, with
fuel; [poll_finishes] shows that fuel for the deadline is enough when the clock
does not run backwards and a sleep takes its time. *)

From S2P Require Import Prelude GoLib Api Platform.

Definition poll_interval : Duration := 5 * Second.

(** One look at the cluster: [Some r] returns [r] from the helper, [None] keeps polling.
    The answer of [poll] itself is [None] when the fuel ran out. *)
Fixpoint poll (fuel : nat) (deadline : Time) (timeout : error)
    (look : M (option (option error))) : M (option (option error)) :=
  match fuel with
  | O => Ret None
  | S fuel =>
      let* now := call Now in
      if now <? deadline then
        let* r := look in
        match r with
        | Some r => Ret (Some r)
        | None =>
            let* done := call (SleepOrDone poll_interval) in
            match done with
            | Some e => Ret (Some (Some e))
            | None => poll fuel deadline timeout look
            end
        end
      else Ret (Some (Some timeout))
  end.

(** [deadline := time.Now().Add(timeout)], then the loop. *)
Definition poll_until (fuel : nat) (timeout : Duration) (err : error)
    (look : M (option (option error))) : M (option (option error)) :=
  let* now := call Now in
  poll fuel (now + timeout) err look.

(** The earliest instant the clock may show next. *)
Fixpoint clock_floor (h : list event) : option Time :=
  match h with
  | [] => None
  | Obs e r :: h' =>
      (match e in ev R return R → option Time with
       | Now => λ t, Some t
       | SleepOrDone d => λ a, match a with
                               | None => Z.add d <$> clock_floor h'
                               | Some _ => clock_floor h'
                               end
       | _ => λ _, clock_floor h'
       end) r
  end.

(** The monotonic clock of the Go run time, and sleeps that last. *)
Definition monotonic : protocol ev := λ h R e,
  match e in ev R return R → Prop with
  | Now => λ t, match clock_floor h with Some f => f ≤ t | None => True end
  | _ => λ _, True
  end.

Definition timeless R (e : ev R) : Prop :=
  match e with Now | SleepOrDone _ => False | _ => True end.

Lemma clock_floor_timeless d h :
  Forall (obs_sat timeless) d → clock_floor (d ++ h) = clock_floor h.
Proof.
  induction 1 as [|[R e r] d He Hd IH]; [done|]. destruct e; cbn in *; done.
Qed.

(** How many rounds fit before the deadline. *)
Definition rounds (timeout : Duration) : nat := S (Z.to_nat (timeout / poll_interval + 1)).

Lemma poll_fuel deadline err look : emits timeless look → ∀ fuel h t,
  clock_floor h = Some t → (deadline - t <= 5000000000 * Z.of_nat fuel) →
  wp monotonic free (poll (S fuel) deadline err look) h (λ o _, o ≠ Done None).
Proof.
  intros Hlook fuel. induction fuel as [|fuel IH]; intros h t Ht Hfuel.
  all: cbn [poll]; cbn; split; [done|]; intros now; rewrite Ht; intros Hnow.
  - destruct (Z.ltb_spec now deadline); [exfalso; lia|done].
  - destruct (Z.ltb_spec now deadline); [|done].
    eapply wp_emits_bind; [exact Hlook|done|done|].
    intros [r|] d Hd; cbn; [done|]. split; [done|]. intros [e|] _; [done|].
    apply IH with (now + poll_interval).
    + cbn. rewrite clock_floor_timeless by done. cbn. f_equal. lia.
    + unfold poll_interval, Second. lia.
Qed.

Lemma rounds_enough timeout now :
  now + timeout - now <= 5000000000 * Z.of_nat (Z.to_nat (timeout / poll_interval + 1)).
Proof.
  unfold poll_interval, Second.
  pose proof (Z.div_mod timeout (5 * 1000000000)).
  pose proof (Z.mod_pos_bound timeout (5 * 1000000000)). lia.
Qed.

(** A polling helper always comes to an end. *)
Lemma poll_until_finishes timeout err look h :
  emits timeless look →
  wp monotonic free (poll_until (rounds timeout) timeout err look) h (λ o _, o ≠ Done None).
Proof.
  intros Hlook. unfold poll_until, rounds. cbn [bind call]. split; [done|]. intros now _.
  eapply poll_fuel with (t := now); [done|done|apply rounds_enough].
Qed.
