(* ===== verification/Footprint.v ===== *)
(** * Footprints: which kinds of calls a program makes

Each call to the outside has a [kind]; [emits (within ks) p] says that [p] makes
calls of the kinds [ks] only, whatever is answered.  Every operation of a component
has a footprint lemma of the shape
[subk needed ks = true → emits (within ks) operation], which the [emits] hint
database applies to programs that use the operation, with the inclusion of the two
lists decided by computation. *)

From S2P Require Import Prelude GoLib Api Platform Poll.

Inductive kind : Set :=
| KClock | KSleep | KRange
| KGetUpgrade | KUpdateUpgrade | KStatusUpgrade
| KGetRollback | KUpdateRollback | KStatusRollback | KCreateRollback
| KGetApp | KStatusApp | KListApps
| KGetKs | KUpdateKs
| KGetWorkload | KPatchWorkload | KListPods
| KGetPVC | KCreatePVC | KDeletePVC
| KGetSnapshot | KCreateSnapshot | KDeleteSnapshot | KListSnapshots
| KListSecrets | KGetConfigMap
| KGitRead | KGitCommit.

#[export] Instance kind_eq_dec : EqDecision kind.
Proof. solve_decision. Defined.

Definition kind_of {R} (e : ev R) : kind :=
  match e with
  | Now => KClock
  | SleepOrDone _ => KSleep
  | RangeMap _ => KRange
  | GetUpgrade _ => KGetUpgrade
  | UpdateUpgrade _ => KUpdateUpgrade
  | StatusUpdateUpgrade _ => KStatusUpgrade
  | GetRollback _ => KGetRollback
  | UpdateRollback _ => KUpdateRollback
  | StatusUpdateRollback _ => KStatusRollback
  | CreateRollback _ => KCreateRollback
  | GetApp _ => KGetApp
  | StatusUpdateApp _ => KStatusApp
  | ListApps => KListApps
  | GetKustomization _ => KGetKs
  | UpdateKustomization _ => KUpdateKs
  | GetDeployment _ | GetStatefulSet _ => KGetWorkload
  | PatchDeployment _ _ | PatchStatefulSet _ _ => KPatchWorkload
  | ListPods _ _ => KListPods
  | GetPVC _ => KGetPVC
  | CreatePVC _ => KCreatePVC
  | DeletePVCObj _ => KDeletePVC
  | GetSnapshot _ | GetSnapshotClass _ => KGetSnapshot
  | CreateSnapshotObj _ => KCreateSnapshot
  | DeleteSnapshotObj _ => KDeleteSnapshot
  | ListSnapshots _ _ => KListSnapshots
  | ListSecrets _ => KListSecrets
  | GetConfigMap _ => KGetConfigMap
  | GitReadFile _ => KGitRead
  | GitCommitFile _ _ => KGitCommit
  end.

Definition kmem (k : kind) (ks : list kind) : bool := existsb (λ k', bool_decide (k = k')) ks.
Definition subk (l ks : list kind) : bool := forallb (λ k, kmem k ks) l.
Definition within (ks : list kind) R (e : ev R) : Prop := kmem (kind_of e) ks = true.

Lemma kmem_In k ks : kmem k ks = true ↔ In k ks.
Proof.
  unfold kmem. rewrite existsb_exists. split.
  - intros (k' & Hin & He%bool_decide_eq_true). by subst.
  - intros Hin. exists k. by rewrite bool_decide_eq_true.
Qed.

Lemma subk_incl l ks : subk l ks = true ↔ incl l ks.
Proof.
  unfold subk. rewrite forallb_forall. unfold incl. by setoid_rewrite kmem_In.
Qed.

Lemma kmem_sub k l ks : kmem k l = true → subk l ks = true → kmem k ks = true.
Proof. rewrite !kmem_In, subk_incl. auto. Qed.

Lemma subk_trans l m ks : subk l m = true → subk m ks = true → subk l ks = true.
Proof. rewrite !subk_incl. apply incl_tran. Qed.

Lemma emits_sub {A} l ks (p : M A) :
  emits (within l) p → subk l ks = true → emits (within ks) p.
Proof.
  intros Hp Hs. eapply emits_mono; [exact Hp|]. intros R e He. by eapply kmem_sub.
Qed.

(** A kind the footprint leaves out does not occur. *)
Lemma within_not ks k R (e : ev R) : within ks R e → kmem k ks = false → kind_of e ≠ k.
Proof. unfold within. intros He Hk Heq. congruence. Qed.

(** The kinds that change something. *)
Definition kmut (k : kind) : bool :=
  match k with
  | KUpdateUpgrade | KStatusUpgrade | KUpdateRollback | KStatusRollback | KCreateRollback
  | KStatusApp | KUpdateKs | KPatchWorkload | KCreatePVC | KDeletePVC | KCreateSnapshot
  | KDeleteSnapshot | KGitCommit => true
  | _ => false
  end.
Lemma mutates_kind R (e : ev R) : mutates R e = kmut (kind_of e).
Proof. by destruct e. Qed.

(** A footprint without such kinds is read-only. *)
Lemma within_reads ks R (e : ev R) :
  forallb (λ k, negb (kmut k)) ks = true → within ks R e → mutates R e = false.
Proof.
  rewrite forallb_forall. intros Hks He. rewrite mutates_kind.
  apply negb_true_iff, Hks, kmem_In, He.
Qed.

(** The calls of kind [k] in a history. *)
Definition obs_kind (o : event) : kind := match o with Obs e _ => kind_of e end.
Definition calls (k : kind) (h : list event) : list event :=
  List.filter (λ o, bool_decide (obs_kind o = k)) h.

Lemma calls_within ks k d :
  kmem k ks = false → Forall (obs_sat (within ks)) d → calls k d = [].
Proof.
  intros Hk. induction 1 as [|[R e r] d He Hd IH]; [done|]. cbn.
  rewrite bool_decide_eq_false_2; [done|]. by eapply within_not.
Qed.

Lemma calls_app k d h : calls k (d ++ h) = calls k d ++ calls k h.
Proof. apply List.filter_app. Qed.

#[export] Hint Extern 1 (subk _ _ = true) =>
  first [assumption | vm_compute; reflexivity
        | eapply subk_trans; [|eassumption]; vm_compute; reflexivity] : emits.
#[export] Hint Extern 1 (kmem _ _ = true) =>
  first [assumption | vm_compute; reflexivity
        | eapply kmem_sub; [|eassumption]; vm_compute; reflexivity] : emits.
#[export] Hint Extern 1 (within _ _ _) => unfold within; cbn [kind_of] : emits.

Lemma poll_within ks fuel deadline err look :
  emits (within ks) look → subk [KClock; KSleep] ks = true →
  emits (within ks) (poll fuel deadline err look).
Proof.
  intros Hl Hs. induction fuel as [|fuel IH]; cbn [poll]; [exact I|].
  emits_tac; apply IH.
Qed.
#[export] Hint Resolve poll_within : emits.

Lemma poll_until_within ks fuel timeout err look :
  emits (within ks) look → subk [KClock; KSleep] ks = true →
  emits (within ks) (poll_until fuel timeout err look).
Proof. intros Hl Hs. unfold poll_until. emits_tac. Qed.
#[export] Hint Resolve poll_until_within : emits.

Lemma within_timeless ks R (e : ev R) :
  within ks R e → kmem KClock ks = false → kmem KSleep ks = false → timeless R e.
Proof. unfold within. destruct e; cbn [kind_of timeless]; first [done|congruence]. Qed.

Lemma emits_timeless {A} ks (p : M A) :
  emits (within ks) p → kmem KClock ks = false → kmem KSleep ks = false → emits timeless p.
Proof. intros. eapply emits_mono; [done|]. intros R e He. by eapply within_timeless. Qed.

(** [emits_tac] that also enters polling loops. *)
Ltac fp_tac :=
  repeat (emits_tac;
          try lazymatch goal with
          | |- emits _ (poll _ _ _ _) => apply poll_within
          | |- emits _ (poll_until _ _ _ _) => apply poll_until_within
          end).

(** A single call, from the footprint of the program it is part of. *)
Ltac kind_tac :=
  intros; unfold within; eapply kmem_sub; [|eassumption]; vm_compute; reflexivity.
