(* ===== verification/Flux.v ===== *)
(** * internal/flux/suspend.go: suspending and resuming a Flux Kustomization *)

From S2P Require Import Prelude GoLib Api Platform Poll Footprint.

Section flux.
Context {P : Platform}.

Definition SuspendKustomization (name namespace : string) : M (option error) :=
  let key := mkKey name namespace in
  let? ks := call (GetKustomization key)
    orelse err => Ret (Some (Errorf_w "getting kustomization: " err)) in
  if ks_Suspend ks then Ret None
  else
    let? _ks := call (UpdateKustomization (ks_set_Suspend true ks))
      orelse err => Ret (Some (Errorf_w "suspending kustomization: " err)) in
    Ret None.

(** The read-back at the end is only logged. *)
Definition ResumeKustomization (name namespace : string) : M (option error) :=
  let key := mkKey name namespace in
  let? ks := call (GetKustomization key)
    orelse err => Ret (Some (Errorf_w "getting kustomization: " err)) in
  if negb (ks_Suspend ks) then Ret None
  else
    let? _ks := call (UpdateKustomization (ks_set_Suspend false ks))
      orelse err => Ret (Some (Errorf_w "resuming kustomization: " err)) in
    let* _ := call (GetKustomization key) in
    Ret None.

Definition IsSuspended (name namespace : string) : M (res bool) :=
  let? ks := call (GetKustomization (mkKey name namespace))
    orelse err => Ret (Err (Errorf_w "getting kustomization: " err)) in
  Ret (Ok (ks_Suspend ks)).

(** The conditions loop of [WaitForReconciliation]: the first Ready condition that is
    True or False decides. *)
Fixpoint ready_verdict (conds : list Condition) : option (option error) :=
  match conds with
  | [] => None
  | cond :: conds =>
      if c_Type cond =?s "Ready" then
        if c_Status cond =?s "True" then Some None
        else if c_Status cond =?s "False"
        then Some (Some (ErrNew ("kustomization reconciliation failed: " +:+ c_Message cond)))
        else ready_verdict conds
      else ready_verdict conds
  end.

Definition WaitForReconciliation (fuel : nat) (name namespace : string) (timeout : Duration)
    : M (option (option error)) :=
  let* now := call Now in
  let deadline := now + timeout in
  let key := mkKey name namespace in
  let? initial := call (GetKustomization key)
    orelse err => Ret (Some (Some (Errorf_w "getting initial kustomization state: " err))) in
  let initialGeneration := ks_ObservedGeneration initial in
  poll fuel deadline
    (ErrNew ("timeout waiting for kustomization " +:+ namespace +:+ "/" +:+ name
             +:+ " reconciliation"))
    (let? ks := call (GetKustomization key)
       orelse err => Ret (Some (Some (Errorf_w "getting kustomization: " err))) in
     if initialGeneration <? ks_ObservedGeneration ks
     then Ret (ready_verdict (ks_Conditions ks)) else Ret None).

Fixpoint is_ready (conds : list Condition) : bool :=
  match conds with
  | [] => false
  | cond :: conds =>
      if c_Type cond =?s "Ready" then c_Status cond =?s "True" else is_ready conds
  end.

Definition IsReconciled (name namespace : string) : M (res bool) :=
  let? ks := call (GetKustomization (mkKey name namespace))
    orelse err => Ret (Err (Errorf_w "getting kustomization: " err)) in
  Ret (Ok (is_ready (ks_Conditions ks))).

Record ManagedByInfo := mkManagedByInfo {
  IsManaged : bool; ParentName : string; ParentNamespace : string }.

(** The loop over the owner references: the first Kustomization owner. *)
Fixpoint kustomization_owner (refs : list OwnerReference) : option OwnerReference :=
  match refs with
  | [] => None
  | ref :: refs =>
      if (or_APIVersion ref =?s KustomizeGroupVersion) && (or_Kind ref =?s "Kustomization")
      then Some ref else kustomization_owner refs
  end.

Definition managed_by (ks : Kustomization) (namespace : string) : ManagedByInfo :=
  match kustomization_owner (om_OwnerReferences (ks_Meta ks)) with
  | Some ref => mkManagedByInfo true (or_Name ref) namespace
  | None =>
      match om_Labels (ks_Meta ks) !! "kustomize.toolkit.fluxcd.io/name" with
      | Some parentName =>
          mkManagedByInfo true parentName
            (match om_Labels (ks_Meta ks) !! "kustomize.toolkit.fluxcd.io/namespace" with
             | Some ns => ns
             | None => namespace
             end)
      | None => mkManagedByInfo false "" ""
      end
  end.

Definition IsManagedByKustomization (name namespace : string) : M (res ManagedByInfo) :=
  let? ks := call (GetKustomization (mkKey name namespace))
    orelse err => Ret (Err (Errorf_w "getting kustomization: " err)) in
  Ret (Ok (managed_by ks namespace)).

Definition ValidateSuspendTarget (kustomizationRef : NamespacedName)
    (suspendRef : option NamespacedName) : M (option error) :=
  let target := default kustomizationRef suspendRef in
  let exists_ :=
    let? _ks := call (GetKustomization target)
      orelse err =>
        Ret (Some (Errorf_w ("suspend target Kustomization '" +:+ nn_Namespace target +:+ "/"
                             +:+ nn_Name target +:+ "' not found: ") err)) in
    Ret None in
  match suspendRef with
  | Some _ => exists_
  | None =>
      let? managedBy := IsManagedByKustomization (nn_Name kustomizationRef)
                          (nn_Namespace kustomizationRef)
        orelse err =>
          Ret (Some (Errorf_w "checking if kustomization is managed: " err)) in
      if IsManaged managedBy then
        Ret (Some (ErrNew ("kustomization '" +:+ nn_Namespace kustomizationRef +:+ "/"
          +:+ nn_Name kustomizationRef +:+ "' is managed by '"
          +:+ ParentNamespace managedBy +:+ "/" +:+ ParentName managedBy
          +:+ "': set spec.suspendRef to a root Kustomization to prevent the parent from un-suspending the child during operations")))
      else exists_
  end.

Definition VerifyStillSuspended (name namespace : string) : M (option error) :=
  let? suspended := IsSuspended name namespace
    orelse err => Ret (Some (Errorf_w "checking suspend state: " err)) in
  if negb suspended then
    Ret (Some (ErrNew ("kustomization '" +:+ namespace +:+ "/" +:+ name
      +:+ "' was un-suspended externally: ensure no parent Kustomization or external automation manages the suspend state")))
  else Ret None.
End flux.

(** ** Footprints: only Kustomizations are touched, and only suspend and resume write *)

Section footprints.
Context {P : Platform}.

Lemma SuspendKustomization_within ks n ns :
  subk [KGetKs; KUpdateKs] ks = true → emits (within ks) (SuspendKustomization n ns).
Proof. intros. unfold SuspendKustomization. emits_tac. Qed.
Lemma ResumeKustomization_within ks n ns :
  subk [KGetKs; KUpdateKs] ks = true → emits (within ks) (ResumeKustomization n ns).
Proof. intros. unfold ResumeKustomization. emits_tac. Qed.
Lemma IsSuspended_within ks n ns :
  subk [KGetKs] ks = true → emits (within ks) (IsSuspended n ns).
Proof. intros. unfold IsSuspended. emits_tac. Qed.
Lemma IsReconciled_within ks n ns :
  subk [KGetKs] ks = true → emits (within ks) (IsReconciled n ns).
Proof. intros. unfold IsReconciled. emits_tac. Qed.
Lemma IsManagedByKustomization_within ks n ns :
  subk [KGetKs] ks = true → emits (within ks) (IsManagedByKustomization n ns).
Proof. intros. unfold IsManagedByKustomization. emits_tac. Qed.
End footprints.
#[export] Hint Resolve SuspendKustomization_within ResumeKustomization_within
  IsSuspended_within IsReconciled_within IsManagedByKustomization_within : emits.

Section footprints2.
Context {P : Platform}.

Lemma ValidateSuspendTarget_within ks k s :
  subk [KGetKs] ks = true → emits (within ks) (ValidateSuspendTarget k s).
Proof. intros. unfold ValidateSuspendTarget. emits_tac. Qed.
Lemma VerifyStillSuspended_within ks n ns :
  subk [KGetKs] ks = true → emits (within ks) (VerifyStillSuspended n ns).
Proof. intros. unfold VerifyStillSuspended. emits_tac. Qed.
Lemma WaitForReconciliation_within ks fuel n ns t :
  subk [KGetKs; KClock; KSleep] ks = true →
  emits (within ks) (WaitForReconciliation fuel n ns t).
Proof. intros. unfold WaitForReconciliation. fp_tac. Qed.
End footprints2.
#[export] Hint Resolve ValidateSuspendTarget_within VerifyStillSuspended_within
  WaitForReconciliation_within : emits.

(** ** What the operations promise

The laws are stated against [ks_server]: a Kustomization that is written by this program
only, so that a read answers what was last stored. *)

(** The Kustomization at [key] as the history last saw it. *)
Fixpoint ks_seen (key : NamespacedName) (h : list event) : option Kustomization :=
  match h with
  | [] => None
  | Obs e r :: h' =>
      (match e in ev R return R → option Kustomization with
       | GetKustomization k => λ a, match a with
           | Ok ks => if decide (k = key) then Some ks else ks_seen key h'
           | Err _ => ks_seen key h'
           end
       | UpdateKustomization x => λ a, match a with
           | Ok ks => if decide (keyOf (ks_Meta x) = key) then Some ks else ks_seen key h'
           | Err _ => ks_seen key h'
           end
       | _ => λ _, ks_seen key h'
       end) r
  end.

Definition ks_server : protocol ev := λ h R e,
  match e in ev R return R → Prop with
  | GetKustomization k => λ a, match a with
      | Ok ks => keyOf (ks_Meta ks) = k
                 ∧ match ks_seen k h with Some ks' => ks = ks' | None => True end
      | Err _ => True
      end
  | UpdateKustomization x => λ a, match a with Ok ks => ks = x | Err _ => True end
  | _ => λ _, True
  end.

Section laws.
Context {P : Platform}.

(** Set the suspend flag to [b]. *)
Definition set_suspend (b : bool) (name namespace : string) : M (option error) :=
  if b then SuspendKustomization name namespace else ResumeKustomization name namespace.

(** The only write sets the flag, of the object just read, if it was not set already. *)
Definition suspend_calls (b : bool) (key : NamespacedName) : guarantee ev := λ h R e,
  match e with
  | GetKustomization k => k = key
  | UpdateKustomization ks =>
      ∃ ks0 h', h = Obs (GetKustomization key) (Ok ks0) :: h'
                ∧ ks_Suspend ks0 = negb b ∧ ks = ks_set_Suspend b ks0
  | _ => False
  end.

(** Ended without a panic, and without an error only if the flag is [b]. *)
Definition flag_stored (b : bool) (key : NamespacedName) (o : outcome (option error))
    (h : list event) : Prop :=
  ∃ res, o = Done res
    ∧ (res = None → ∃ ks, ks_seen key h = Some ks ∧ ks_Suspend ks = b).

Lemma set_suspend_wp b n ns h :
  wp ks_server (suspend_calls b (mkKey n ns)) (set_suspend b n ns) h
    (flag_stored b (mkKey n ns)).
Proof.
  assert (∀ e h', flag_stored b (mkKey n ns) (Done (Some e)) h') as Herr.
  { intros e h'. by exists (Some e). }
  assert (∀ ks h', ks_seen (mkKey n ns) h' = Some ks → ks_Suspend ks = b →
            flag_stored b (mkKey n ns) (Done None) h') as Hok.
  { intros ks h' Hs Hb. exists None. split; [done|]. by exists ks. }
  unfold set_suspend. destruct b; cbn; (split; [done|]); intros [ks|e] Hget; cbn; try apply Herr.
  - destruct Hget as [Hkey _]. destruct (ks_Suspend ks) eqn:Hs; cbn.
    { apply (Hok ks); [|done]. cbn. by rewrite decide_True. }
    split; [by exists ks, h|]. intros [ks'|e] Hup; cbn; [|apply Herr]. subst ks'.
    apply (Hok (ks_set_Suspend true ks)); [|done]. cbn. by rewrite decide_True.
  - destruct Hget as [Hkey _]. destruct (ks_Suspend ks) eqn:Hs; cbn.
    2:{ apply (Hok ks); [|done]. cbn. by rewrite decide_True. }
    split; [by exists ks, h|]. intros [ks'|e] Hup; cbn; [|apply Herr]. subst ks'.
    split; [done|]. intros [k|e] Hk; cbn.
    + rewrite decide_True in Hk by done. destruct Hk as [Hkk ->].
      apply (Hok (ks_set_Suspend false ks)); [|done]. cbn. by rewrite decide_True.
    + apply (Hok (ks_set_Suspend false ks)); [|done]. cbn. by rewrite decide_True.
Qed.

(** Suspending and resuming.  Whatever happens, the only write flips the flag of the
    Kustomization just read; and when it succeeds, a look at the flag, if it is answered,
    shows the value asked for. *)
Theorem set_suspend_then_IsSuspended b n ns h :
  wp ks_server
    (λ h R e, suspend_calls b (mkKey n ns) h R e)
    (check set_suspend b n ns orelse _err => Ret None in
     let* shown := IsSuspended n ns in Ret (Some shown)) h
    (λ o _, o = Done None ∨ (∃ e, o = Done (Some (Err e))) ∨ o = Done (Some (Ok b))).
Proof.
  rewrite wp_bind. eapply wp_mono; [apply set_suspend_wp|done|].
  intros o h' ([e|] & -> & Hres); cbn; [by left|].
  destruct (Hres eq_refl) as (ks & Hseen & Hb).
  split; [done|]. intros [ks'|e] Hk; cbn; [|by eauto].
  rewrite Hseen in Hk. destruct Hk as [_ ->]. rewrite Hb. auto.
Qed.

(** A read-only view of the cluster's Kustomizations. *)
Definition ks_view (g : NamespacedName → res Kustomization) : protocol ev := λ _ R e,
  match e in ev R return R → Prop with
  | GetKustomization k => λ a, a = g k
  | _ => λ _, True
  end.

Lemma kustomization_owner_spec refs :
  kustomization_owner refs = None ↔
  ∀ ref, In ref refs →
    or_APIVersion ref ≠ KustomizeGroupVersion ∨ or_Kind ref ≠ "Kustomization".
Proof.
  induction refs as [|ref refs IH]; cbn; [done|].
  destruct (seqb_spec (or_APIVersion ref) KustomizeGroupVersion) as [Ha|Ha];
    destruct (seqb_spec (or_Kind ref) "Kustomization") as [Hk|Hk]; cbn.
  - split; [done|]. intros H. destruct (H ref (or_introl eq_refl)); done.
  - rewrite IH. naive_solver.
  - rewrite IH. naive_solver.
  - rewrite IH. naive_solver.
Qed.

(** Nobody else drives this Kustomization: no Kustomization owns it and no Flux label
    names a parent. *)
Definition standalone (ks : Kustomization) : Prop :=
  (∀ ref, In ref (om_OwnerReferences (ks_Meta ks)) →
     or_APIVersion ref ≠ KustomizeGroupVersion ∨ or_Kind ref ≠ "Kustomization")
  ∧ om_Labels (ks_Meta ks) !! "kustomize.toolkit.fluxcd.io/name" = None.

Lemma managed_by_spec ks ns : IsManaged (managed_by ks ns) = false ↔ standalone ks.
Proof.
  unfold managed_by, standalone. rewrite <- kustomization_owner_spec.
  destruct (kustomization_owner _); cbn; [naive_solver|].
  destruct (_ !! _); cbn; naive_solver.
Qed.

(** A suspend target is accepted exactly when it can be read and, unless it was
    named explicitly, nothing else would un-suspend it. *)
Theorem ValidateSuspendTarget_accepts g k s h :
  wp (ks_view g) (λ _ R e, kind_of e = KGetKs) (ValidateSuspendTarget k s) h
    (λ o _, ∃ res, o = Done res ∧
       (res = None ↔
        match s with
        | Some target => ∃ ks, g target = Ok ks
        | None => ∃ ks, g k = Ok ks ∧ standalone ks
        end)).
Proof.
  unfold ValidateSuspendTarget. destruct s as [target|]; cbn; (split; [done|]); intros a ->.
  - destruct (g target) as [ks|e]; cbn; eexists; (split; [done|]); naive_solver.
  - destruct k as [n ns]; cbn. destruct (g (mkKey n ns)) as [ks|e] eqn:Hg; cbn.
    2:{ eexists. split; [done|]. naive_solver. }
    pose proof (managed_by_spec ks ns) as Hm.
    destruct (IsManaged (managed_by ks ns)); cbn.
    { eexists. split; [done|]. naive_solver. }
    split; [done|]. intros a ->. rewrite Hg; cbn. eexists. split; [done|]. naive_solver.
Qed.
End laws.
