(* ===== verification/Workload.v ===== *)
(** * internal/workload/scaler.go: scaling Deployments and StatefulSets *)

From S2P Require Import Prelude GoLib Api Platform Poll Footprint.

Definition KindDeployment : string := "Deployment".
Definition KindStatefulSet : string := "StatefulSet".

Record ScaleInfo := mkScaleInfo {
  si_Kind : string; si_Name : string; si_Namespace : string; si_OriginalReplicas : Z }.

Section workload.
Context {P : Platform}.

Definition unsupported_kind (kind : string) : error :=
  ErrNew ("unsupported workload kind: " +:+ kind).

(** [*spec.replicas], which Kubernetes defaults to 1 *)
Definition replicas_or_1 (w : Workload) : Z := default 1 (w_Replicas w).

(** [spec.replicas != nil && *spec.replicas == replicas] *)
Definition at_replicas (w : Workload) (replicas : Z) : bool :=
  match w_Replicas w with Some n => n =? replicas | None => false end.

Definition scaleDeployment (name namespace : string) (replicas : Z) : M (res ScaleInfo) :=
  let key := mkKey name namespace in
  let? deploy := call (GetDeployment key)
    orelse err => Ret (Err (Errorf_w "getting deployment: " err)) in
  let originalReplicas := replicas_or_1 deploy in
  let info := mkScaleInfo "Deployment" name namespace originalReplicas in
  if at_replicas deploy replicas then Ret (Ok info)
  else
    let? _d := call (PatchDeployment deploy (w_set_Replicas replicas deploy))
      orelse err => Ret (Err (Errorf_w "scaling deployment: " err)) in
    Ret (Ok info).

Definition scaleStatefulSet (name namespace : string) (replicas : Z) : M (res ScaleInfo) :=
  let key := mkKey name namespace in
  let? sts := call (GetStatefulSet key)
    orelse err => Ret (Err (Errorf_w "getting statefulset: " err)) in
  let originalReplicas := replicas_or_1 sts in
  let info := mkScaleInfo "StatefulSet" name namespace originalReplicas in
  if at_replicas sts replicas then Ret (Ok info)
  else
    let? _s := call (PatchStatefulSet sts (w_set_Replicas replicas sts))
      orelse err => Ret (Err (Errorf_w "scaling statefulset: " err)) in
    Ret (Ok info).

Definition ScaleDown (kind name namespace : string) : M (res ScaleInfo) :=
  if kind =?s KindDeployment then scaleDeployment name namespace 0
  else if kind =?s KindStatefulSet then scaleStatefulSet name namespace 0
  else Ret (Err (unsupported_kind kind)).

Definition ScaleUp (kind name namespace : string) (replicas : Z) : M (option error) :=
  if kind =?s KindDeployment then
    let? _i := scaleDeployment name namespace replicas orelse err => Ret (Some err) in
    Ret None
  else if kind =?s KindStatefulSet then
    let? _i := scaleStatefulSet name namespace replicas orelse err => Ret (Some err) in
    Ret None
  else Ret (Some (unsupported_kind kind)).

Definition getReadyReplicas (kind name namespace : string) : M (res Z) :=
  let key := mkKey name namespace in
  if kind =?s KindDeployment then
    let? deploy := call (GetDeployment key)
      orelse err => Ret (Err (Errorf_w "getting deployment: " err)) in
    Ret (Ok (w_ReadyReplicas deploy))
  else if kind =?s KindStatefulSet then
    let? sts := call (GetStatefulSet key)
      orelse err => Ret (Err (Errorf_w "getting statefulset: " err)) in
    Ret (Ok (w_ReadyReplicas sts))
  else Ret (Err (unsupported_kind kind)).

(** The common end of [getWorkloadPods]: the selector of the workload read, if it has
    one, then the pods it selects; a workload without a selector has no pods. *)
Definition selectedPods (namespace what : string) (w : Workload) : M (res (list Pod)) :=
  match w_Selector w with
  | None => Ret (Ok [])
  | Some matchLabels =>
      match ValidatedSelectorFromSet matchLabels with
      | Err err => Ret (Err (Errorf_w ("parsing " +:+ what +:+ " selector: ") err))
      | Ok selector =>
          let? pods := call (ListPods namespace (Some selector))
            orelse err => Ret (Err (Errorf_w "listing pods: " err)) in
          Ret (Ok pods)
      end
  end.

Definition getWorkloadPods (kind name namespace : string) : M (res (list Pod)) :=
  let key := mkKey name namespace in
  if kind =?s KindDeployment then
    let? deploy := call (GetDeployment key)
      orelse err => Ret (Err (Errorf_w "getting deployment: " err)) in
    selectedPods namespace "deployment" deploy
  else if kind =?s KindStatefulSet then
    let? sts := call (GetStatefulSet key)
      orelse err => Ret (Err (Errorf_w "getting statefulset: " err)) in
    selectedPods namespace "statefulset" sts
  else Ret (Err (unsupported_kind kind)).

Definition GetCurrentReplicas (kind name namespace : string) : M (res Z) :=
  let key := mkKey name namespace in
  if kind =?s KindDeployment then
    let? deploy := call (GetDeployment key)
      orelse err => Ret (Err (Errorf_w "getting deployment: " err)) in
    Ret (Ok (replicas_or_1 deploy))
  else if kind =?s KindStatefulSet then
    let? sts := call (GetStatefulSet key)
      orelse err => Ret (Err (Errorf_w "getting statefulset: " err)) in
    Ret (Ok (replicas_or_1 sts))
  else Ret (Err (unsupported_kind kind)).

Definition IsScaledDown (kind name namespace : string) : M (res bool) :=
  let? ready := getReadyReplicas kind name namespace orelse err => Ret (Err err) in
  if 0 <? ready then Ret (Ok false)
  else
    let? pods := getWorkloadPods kind name namespace orelse err => Ret (Err err) in
    Ret (Ok (len pods =? 0)).

(** One round of [WaitForScaleDown]. *)
Definition scaled_down_yet (kind name namespace : string) : M (option (option error)) :=
  let? ready := getReadyReplicas kind name namespace orelse err => Ret (Some (Some err)) in
  if ready =? 0 then
    let? pods := getWorkloadPods kind name namespace orelse err => Ret (Some (Some err)) in
    if len pods =? 0 then Ret (Some None) else Ret None
  else Ret None.

Definition WaitForScaleDown (fuel : nat) (kind name namespace : string) (timeout : Duration)
    : M (option (option error)) :=
  poll_until fuel timeout
    (ErrNew ("timeout waiting for workload " +:+ namespace +:+ "/" +:+ name +:+ " to scale down"))
    (scaled_down_yet kind name namespace).

(** One round of [WaitForScaleUp]. *)
Definition scaled_up_yet (kind name namespace : string) (targetReplicas : Z)
    : M (option (option error)) :=
  let? ready := getReadyReplicas kind name namespace orelse err => Ret (Some (Some err)) in
  if targetReplicas <=? ready then Ret (Some None) else Ret None.

Definition WaitForScaleUp (fuel : nat) (kind name namespace : string) (targetReplicas : Z)
    (timeout : Duration) : M (option (option error)) :=
  poll_until fuel timeout
    (ErrNew ("timeout waiting for workload " +:+ namespace +:+ "/" +:+ name +:+ " to scale up to "
             +:+ itoa targetReplicas +:+ " replicas"))
    (scaled_up_yet kind name namespace targetReplicas).
End workload.

(** ** Footprints *)

Section footprints.
Context {P : Platform}.

Lemma scaleDeployment_within ks n ns k :
  subk [KGetWorkload; KPatchWorkload] ks = true → emits (within ks) (scaleDeployment n ns k).
Proof. intros. unfold scaleDeployment. emits_tac. Qed.
Lemma scaleStatefulSet_within ks n ns k :
  subk [KGetWorkload; KPatchWorkload] ks = true → emits (within ks) (scaleStatefulSet n ns k).
Proof. intros. unfold scaleStatefulSet. emits_tac. Qed.
Lemma getReadyReplicas_within ks kd n ns :
  subk [KGetWorkload] ks = true → emits (within ks) (getReadyReplicas kd n ns).
Proof. intros. unfold getReadyReplicas. emits_tac. Qed.
Lemma selectedPods_within ks ns what w :
  subk [KListPods] ks = true → emits (within ks) (selectedPods ns what w).
Proof. intros. unfold selectedPods. emits_tac. Qed.
Lemma GetCurrentReplicas_within ks kd n ns :
  subk [KGetWorkload] ks = true → emits (within ks) (GetCurrentReplicas kd n ns).
Proof. intros. unfold GetCurrentReplicas. emits_tac. Qed.
End footprints.
#[export] Hint Resolve scaleDeployment_within scaleStatefulSet_within getReadyReplicas_within
  selectedPods_within GetCurrentReplicas_within : emits.

Section footprints2.
Context {P : Platform}.

Lemma getWorkloadPods_within ks kd n ns :
  subk [KGetWorkload; KListPods] ks = true → emits (within ks) (getWorkloadPods kd n ns).
Proof. intros. unfold getWorkloadPods. emits_tac. Qed.
Lemma ScaleDown_within ks kd n ns :
  subk [KGetWorkload; KPatchWorkload] ks = true → emits (within ks) (ScaleDown kd n ns).
Proof. intros. unfold ScaleDown. emits_tac. Qed.
Lemma ScaleUp_within ks kd n ns k :
  subk [KGetWorkload; KPatchWorkload] ks = true → emits (within ks) (ScaleUp kd n ns k).
Proof. intros. unfold ScaleUp. emits_tac. Qed.
End footprints2.
#[export] Hint Resolve getWorkloadPods_within ScaleDown_within ScaleUp_within : emits.

Section footprints3.
Context {P : Platform}.

Lemma IsScaledDown_within ks kd n ns :
  subk [KGetWorkload; KListPods] ks = true → emits (within ks) (IsScaledDown kd n ns).
Proof. intros. unfold IsScaledDown. emits_tac. Qed.
Lemma scaled_down_yet_within ks kd n ns :
  subk [KGetWorkload; KListPods] ks = true → emits (within ks) (scaled_down_yet kd n ns).
Proof. intros. unfold scaled_down_yet. emits_tac. Qed.
Lemma scaled_up_yet_within ks kd n ns k :
  subk [KGetWorkload] ks = true → emits (within ks) (scaled_up_yet kd n ns k).
Proof. intros. unfold scaled_up_yet. emits_tac. Qed.
End footprints3.
#[export] Hint Resolve IsScaledDown_within scaled_down_yet_within scaled_up_yet_within : emits.

(** ** What scaling promises *)

(** The workload of this kind was read, and was [w]; it was patched from [w] to [n] replicas. *)
Definition got (kind : string) (key : NamespacedName) (w : Workload) : event :=
  if kind =?s KindDeployment then Obs (GetDeployment key) (Ok w)
  else Obs (GetStatefulSet key) (Ok w).
Definition patched (kind : string) (w : Workload) (n : Z) (w' : Workload) : event :=
  if kind =?s KindDeployment then Obs (PatchDeployment w (w_set_Replicas n w)) (Ok w')
  else Obs (PatchStatefulSet w (w_set_Replicas n w)) (Ok w').
Definition supported (kind : string) : bool :=
  (kind =?s KindDeployment) || (kind =?s KindStatefulSet).

(** From [h0] to [h] the workload [w] came to [n] replicas: it was there, or it was patched. *)
Definition came_to (kind : string) (key : NamespacedName) (n : Z) (w : Workload)
    (h0 h : list event) : Prop :=
  (w_Replicas w = Some n ∧ h = got kind key w :: h0)
  ∨ (w_Replicas w ≠ Some n ∧ ∃ w', h = patched kind w n w' :: got kind key w :: h0).

Section laws.
Context {P : Platform}.

Lemma at_replicas_spec w n : at_replicas w n = true ↔ w_Replicas w = Some n.
Proof.
  unfold at_replicas. destruct (w_Replicas w) as [m|]; [|done].
  rewrite Z.eqb_eq. naive_solver.
Qed.

Definition scale_result (kind name ns : string) (n : Z) (h0 : list event)
    (o : outcome (res ScaleInfo)) (h : list event) : Prop :=
  ∃ r, o = Done r ∧
  ∀ info, r = Ok info →
  ∃ w, info = mkScaleInfo kind name ns (replicas_or_1 w)
       ∧ came_to kind (mkKey name ns) n w h0 h.

Lemma scale_wp kind name ns n h0 :
  supported kind = true →
  wp any free
    (if kind =?s KindDeployment then scaleDeployment name ns n
     else if kind =?s KindStatefulSet then scaleStatefulSet name ns n
     else Ret (Err (unsupported_kind kind))) h0
    (scale_result kind name ns n h0).
Proof.
  assert (∀ e h, scale_result kind name ns n h0 (Done (Err e)) h) as Herr.
  { intros e h. by exists (Err e). }
  unfold supported, scale_result, came_to, got, patched.
  destruct (seqb_spec kind KindDeployment) as [->|_].
  - intros _. unfold scaleDeployment. cbn. split; [done|]. intros [w|e] _; cbn; [|apply Herr].
    pose proof (at_replicas_spec w n) as Hat. destruct (at_replicas w n); cbn.
    + eexists. split; [done|]. intros info [= <-]. exists w. split; [done|]. left. naive_solver.
    + split; [done|]. intros [w'|e] _; cbn; [|apply Herr].
      eexists. split; [done|]. intros info [= <-]. exists w. split; [done|]. right. naive_solver.
  - destruct (seqb_spec kind KindStatefulSet) as [->|_]; [|done].
    intros _. unfold scaleStatefulSet. cbn. split; [done|]. intros [w|e] _; cbn; [|apply Herr].
    pose proof (at_replicas_spec w n) as Hat. destruct (at_replicas w n); cbn.
    + eexists. split; [done|]. intros info [= <-]. exists w. split; [done|]. left. naive_solver.
    + split; [done|]. intros [w'|e] _; cbn; [|apply Herr].
      eexists. split; [done|]. intros info [= <-]. exists w. split; [done|]. right. naive_solver.
Qed.

(** Scaling down.  A kind other than Deployment and StatefulSet is refused without a
    call; otherwise success means that the workload just read was at zero replicas, and
    nothing was written, or that it was patched to zero and nothing else of it changed;
    the answer holds its replicas as they were, 1 when unset. *)
Theorem ScaleDown_spec kind name ns h0 :
  wp any free (ScaleDown kind name ns) h0
    (λ o h,
      (supported kind = false → o = Done (Err (unsupported_kind kind)) ∧ h = h0)
      ∧ ∀ info, o = Done (Ok info) →
        ∃ w, info = mkScaleInfo kind name ns (replicas_or_1 w)
             ∧ came_to kind (mkKey name ns) 0 w h0 h).
Proof.
  unfold ScaleDown. destruct (supported kind) eqn:Hs.
  - eapply wp_mono; [by apply scale_wp|done|].
    intros o h (r & -> & Hr). split; [done|]. intros info Hi. apply Hr. congruence.
  - unfold supported in Hs. apply orb_false_iff in Hs as [-> ->]. cbn. by split.
Qed.

(** The pods that count for a workload: those its selector selects; none without one. *)
Definition no_pods_seen (ns : string) (w : Workload) (h : list event) : Prop :=
  w_Selector w = None ∨ ∃ sel, In (Obs (ListPods ns (Some sel)) (Ok [])) h.

(** A workload counts as scaled down exactly when it reports no ready replica and
    the pods it selects are gone. *)
Theorem IsScaledDown_spec kind name ns h0 :
  wp any (λ _ R e, mutates R e = false) (IsScaledDown kind name ns) h0
    (λ o h, ∀ b, o = Done (Ok b) →
      ∃ w, In (got kind (mkKey name ns) w) h ∧
      if b then w_ReadyReplicas w <= 0
                ∧ ∃ w', In (got kind (mkKey name ns) w') h ∧ no_pods_seen ns w' h
      else 0 < w_ReadyReplicas w
           ∨ ∃ sel pod pods, In (Obs (ListPods ns (Some sel)) (Ok (pod :: pods))) h).
Proof.
  unfold IsScaledDown, getReadyReplicas, getWorkloadPods, selectedPods, no_pods_seen, got.
  destruct (seqb_spec kind KindDeployment) as [->|_];
    [|destruct (seqb_spec kind KindStatefulSet) as [->|_]; [|by cbn]].
  all: cbn; (split; [done|]); intros [w|e] _; cbn; [|done];
    destruct (Z.ltb_spec 0 (w_ReadyReplicas w)); cbn;
    [intros b [= <-]; exists w; by auto|].
  all: (split; [done|]); intros [w'|e] _; cbn; [|done];
    destruct (w_Selector w') as [ls|] eqn:Hsel; cbn;
    [|intros b [= <-]; exists w; split; [by auto|]; split; [lia|]; exists w'; by auto].
  all: destruct (ValidatedSelectorFromSet ls) as [sel|e]; cbn; [|done];
    (split; [done|]); intros [[|pod pods]|e] _; cbn; [| |done].
  all: intros b [= <-]; exists w; split; [by auto 10|].
  all: try (split; [lia|]; exists w'; split; [by auto|]; right; exists sel; by left).
  all: right; exists sel, pod, pods; by left.
Qed.
End laws.
