(* ===== verification/Discovery.v ===== *)
(** * internal/discovery: which PVCs and workloads belong to an application *)

From S2P Require Import Prelude GoLib Api Platform Poll Footprint.

Record PVCInfo := mkPVCInfo {
  pi_Name : string; pi_Namespace : string; pi_AccessModes : list string }.
Record WorkloadInfo := mkWorkloadInfo {
  wi_Kind : string; wi_Name : string; wi_Namespace : string }.
#[export] Instance PVCInfo_eq_dec : EqDecision PVCInfo.
Proof. solve_decision. Defined.
#[export] Instance WorkloadInfo_eq_dec : EqDecision WorkloadInfo.
Proof. solve_decision. Defined.

Definition DefaultFluxNamespace : string := "flux-system".
Definition kindDeployment : string := "Deployment".
Definition kindStatefulSet : string := "StatefulSet".
Definition ReadWriteOnce : string := "ReadWriteOnce".

(** [ns := x; if ns == "" { ns = d }], the defaulting idiom of the whole program *)
Definition or_default (x d : string) : string := if x =?s "" then d else x.

(** Decoders of the standard library and of [sigs.k8s.io/yaml] that the Helm path uses.
    [yaml_manifest] answers, for a document that unmarshals into a map, the values of
    [kind], [metadata.name] and [metadata.namespace] where they are strings, with
    [None] for a missing or ill-typed [kind] or [metadata]. *)
Class Decoders := {
  base64_decode : string → res string;
  gzip_stream : Type;
  gzip_NewReader : string → res gzip_stream;
  gzip_ReadAll : gzip_stream → res string;
  json_manifest : string → res string;
  yaml_document : string → res (option string * option (option string * option string))
}.

(** ** helm.go and kustomization.go: names *)

(** [isReplicaSetOwnedByDeployment] *)
Definition isReplicaSetOwnedByDeployment (rsName deploymentName : string) : bool :=
  HasPrefix rsName (deploymentName +:+ "-").

Definition findDeploymentForReplicaSet (rsName : string) : string :=
  match LastIndex1 rsName "-"%char with
  | None => ""
  | Some lastDash =>
      let hash := drop_str (S lastDash) rsName in
      if Nat.ltb (String.length hash) 5 || Nat.ltb 12 (String.length hash) then ""
      else if string_forallb (λ c, is_lower c || is_digit c) hash
      then take_str lastDash rsName
      else ""
  end.

(** The loop of [getOwningWorkload] over the owner references of a pod. *)
Fixpoint owning_workload (refs : list OwnerReference) (ns : string) : option WorkloadInfo :=
  match refs with
  | [] => None
  | owner :: refs =>
      if or_Kind owner =?s kindStatefulSet then
        Some (mkWorkloadInfo kindStatefulSet (or_Name owner) ns)
      else if or_Kind owner =?s "ReplicaSet" then
        let deployment := findDeploymentForReplicaSet (or_Name owner) in
        if negb (deployment =?s "")
        then Some (mkWorkloadInfo kindDeployment deployment ns)
        else owning_workload refs ns
      else owning_workload refs ns
  end.
Definition getOwningWorkload (pod : Pod) : option WorkloadInfo :=
  owning_workload (om_OwnerReferences (pod_Meta pod)) (om_Namespace (pod_Meta pod)).

(** The inner test of [findPodsForWorkload]. *)
Definition owns_pod (kind name : string) (owner : OwnerReference) : bool :=
  ((kind =?s kindStatefulSet) && (or_Kind owner =?s kindStatefulSet) && (or_Name owner =?s name))
  || ((kind =?s kindDeployment) && (or_Kind owner =?s "ReplicaSet")
      && isReplicaSetOwnedByDeployment (or_Name owner) name).

(** [extractWorkloadsFromInventory] *)
Fixpoint extractWorkloadsFromInventory (entries : list string) (defaultNamespace : string)
    : list WorkloadInfo :=
  match entries with
  | [] => []
  | id :: entries =>
      let rest := extractWorkloadsFromInventory entries defaultNamespace in
      match Split1 id "_"%char with
      | namespace :: name :: _ :: kind :: _ =>
          if negb (kind =?s kindDeployment) && negb (kind =?s kindStatefulSet) then rest
          else mkWorkloadInfo kind name (or_default namespace defaultNamespace) :: rest
      | _ => rest
      end
  end.

(** [filterPVCs] *)
Definition excluded_keys (app : ManagedApp) : list string :=
  match as_VolumeSnapshots (app_Spec app) with
  | Some vs =>
      map (λ excl, or_default (pr_Namespace excl) (om_Namespace (app_Meta app)) +:+ "/"
                   +:+ pr_Name excl) (vsc_ExcludePVCs vs)
  | None => []
  end.
Definition filterPVCs (pvcs : list PVCInfo) (app : ManagedApp) : list PVCInfo :=
  List.filter
    (λ pvc, negb (existsb (seqb (pi_Namespace pvc +:+ "/" +:+ pi_Name pvc)) (excluded_keys app))
            && existsb (seqb ReadWriteOnce) (pi_AccessModes pvc)) pvcs.

Section discovery.
Context {P : Platform} {D : Decoders}.

(** The items of a Go map, in whatever order [range] visits them. *)
Definition map_values {K : Set} `{Countable K} {A} (m : gmap K A) : M (list A) :=
  let* order := call (RangeMap (map_to_list m).*1) in
  Ret (omap (λ k, m !! k) (`order)).

Definition findPodsForWorkload (kind name namespace : string) : M (res (list Pod)) :=
  let? pods := call (ListPods namespace None)
    orelse err => Ret (Err (Errorf_w "listing pods: " err)) in
  Ret (Ok (List.filter
             (λ pod, existsb (owns_pod kind name) (om_OwnerReferences (pod_Meta pod))) pods)).

(** The loop over one pod's volumes in [findPVCsForWorkloads]. *)
Fixpoint collect_volumes (ns : string) (vols : list (option string))
    (pvcSet : gmap string PVCInfo) : M (gmap string PVCInfo) :=
  match vols with
  | [] => Ret pvcSet
  | None :: vols => collect_volumes ns vols pvcSet
  | Some pvcName :: vols =>
      let? pvc := call (GetPVC (mkKey pvcName ns))
        orelse _err => collect_volumes ns vols pvcSet in
      let key := ns +:+ "/" +:+ pvcName in
      collect_volumes ns vols
        (match pvcSet !! key with
         | Some _ => pvcSet
         | None => <[key := mkPVCInfo pvcName ns (pvc_AccessModes pvc)]> pvcSet
         end)
  end.

Fixpoint collect_pods (ns : string) (pods : list Pod) (pvcSet : gmap string PVCInfo)
    : M (gmap string PVCInfo) :=
  match pods with
  | [] => Ret pvcSet
  | pod :: pods =>
      let* pvcSet := collect_volumes ns (pod_Volumes pod) pvcSet in
      collect_pods ns pods pvcSet
  end.

Fixpoint collect_workloads (workloads : list WorkloadInfo) (defaultNamespace : string)
    (pvcSet : gmap string PVCInfo) : M (gmap string PVCInfo) :=
  match workloads with
  | [] => Ret pvcSet
  | workload :: workloads =>
      let ns := or_default (wi_Namespace workload) defaultNamespace in
      let? pods := findPodsForWorkload (wi_Kind workload) (wi_Name workload) ns
        orelse _err => collect_workloads workloads defaultNamespace pvcSet in
      let* pvcSet := collect_pods ns pods pvcSet in
      collect_workloads workloads defaultNamespace pvcSet
  end.

Definition findPVCsForWorkloads (workloads : list WorkloadInfo) (defaultNamespace : string)
    : M (res (list PVCInfo)) :=
  let* pvcSet := collect_workloads workloads defaultNamespace ∅ in
  let* result := map_values pvcSet in
  Ret (Ok result).

Definition discoverPVCsFromKustomization (app : ManagedApp) : M (res (list PVCInfo)) :=
  let ksRef := as_KustomizationRef (app_Spec app) in
  let ksNamespace := or_default (ref_Namespace ksRef) DefaultFluxNamespace in
  let? ks := call (GetKustomization (mkKey (ref_Name ksRef) ksNamespace))
    orelse err => Ret (Err (Errorf_w ("getting Kustomization " +:+ ksNamespace +:+ "/"
                                      +:+ ref_Name ksRef +:+ ": ") err)) in
  match ks_Inventory ks with
  | None | Some [] => Ret (Ok [])
  | Some entries =>
      let ns := om_Namespace (app_Meta app) in
      findPVCsForWorkloads (extractWorkloadsFromInventory entries ns) ns
  end.

(** ** helm.go: the release secret *)

(** The scan of [findHelmReleaseSecret]: the secret of the highest revision so far. *)
Fixpoint latest_secret (prefix : string) (secrets : list Secret)
    (latestRevision : Z) (latestSecret : option Secret) : option Secret :=
  match secrets with
  | [] => latestSecret
  | secret :: secrets =>
      let name := om_Name (sec_Meta secret) in
      if negb (HasPrefix name prefix) then
        latest_secret prefix secrets latestRevision latestSecret
      else
        match Sscanf_d (TrimPrefix name prefix) with
        | None => latest_secret prefix secrets latestRevision latestSecret
        | Some rev =>
            if latestRevision <? rev
            then latest_secret prefix secrets rev (Some secret)
            else latest_secret prefix secrets latestRevision latestSecret
        end
  end.

Definition findHelmReleaseSecret (releaseName namespace : string) : M (res Secret) :=
  let prefix := "sh.helm.release.v1." +:+ releaseName +:+ ".v" in
  let? secrets := call (ListSecrets namespace)
    orelse err => Ret (Err (Errorf_w "listing secrets: " err)) in
  match latest_secret prefix secrets 0 None with
  | None => Ret (Err (ErrNew ("no Helm release secret found for " +:+ releaseName
                              +:+ " in namespace " +:+ namespace)))
  | Some secret => Ret (Ok secret)
  end.

Definition decodeHelmReleaseSecret (secret : Secret) : res string :=
  match sec_Data secret !! "release" with
  | None => Err (ErrNew ("secret " +:+ om_Name (sec_Meta secret) +:+ " has no 'release' key"))
  | Some releaseData =>
      match base64_decode releaseData with
      | Err err => Err (Errorf_w "first base64 decode: " err)
      | Ok decoded1 =>
          match base64_decode decoded1 with
          | Err err => Err (Errorf_w "second base64 decode: " err)
          | Ok decoded2 =>
              match gzip_NewReader decoded2 with
              | Err err => Err (Errorf_w "creating gzip reader: " err)
              | Ok gzReader =>
                  match gzip_ReadAll gzReader with
                  | Err err => Err (Errorf_w "decompressing: " err)
                  | Ok decompressed =>
                      match json_manifest decompressed with
                      | Err err => Err (Errorf_w "parsing JSON: " err)
                      | Ok manifest => Ok manifest
                      end
                  end
              end
          end
      end
  end.

Definition newline : Ascii.ascii := "010"%char.
Definition doc_separator : string := String newline (("---" +:+ String newline "")).

Definition splitYAMLDocuments (manifest : string) : list string :=
  List.filter (λ doc, negb (doc =?s "")) (map TrimSpace (Split manifest doc_separator)).

Definition parse_document (doc : string) : option WorkloadInfo :=
  match yaml_document doc with
  | Err _ => None
  | Ok (None, _) => None
  | Ok (Some kind, metadata) =>
      if negb (kind =?s kindDeployment) && negb (kind =?s kindStatefulSet) then None
      else
        match metadata with
        | None => None
        | Some (name, namespace) =>
            let name := default "" name in
            if negb (name =?s "")
            then Some (mkWorkloadInfo kind name (default "" namespace)) else None
        end
  end.

Definition parseManifestForWorkloads (manifest : string) : list WorkloadInfo :=
  omap parse_document (splitYAMLDocuments manifest).

Definition discoverPVCsFromHelmRelease (app : ManagedApp) : M (res (list PVCInfo)) :=
  match as_HelmReleaseRef (app_Spec app) with
  | None => Ret (Err (ErrNew "helmReleaseRef is not set"))
  | Some ref =>
      let ns := or_default (ref_Namespace ref) (om_Namespace (app_Meta app)) in
      let? secret := findHelmReleaseSecret (ref_Name ref) ns
        orelse err => Ret (Err (Errorf_w "finding Helm release secret: " err)) in
      match decodeHelmReleaseSecret secret with
      | Err err => Ret (Err (Errorf_w "decoding Helm release secret: " err))
      | Ok manifest => findPVCsForWorkloads (parseManifestForWorkloads manifest) ns
      end
  end.

(** ** discovery.go *)

Fixpoint explicit_pvcs (refs : list PVCRef) (appNamespace : string) (acc : list PVCInfo)
    : M (res (list PVCInfo)) :=
  match refs with
  | [] => Ret (Ok acc)
  | pvcRef :: refs =>
      let ns := or_default (pr_Namespace pvcRef) appNamespace in
      let? pvc := call (GetPVC (mkKey (pr_Name pvcRef) ns))
        orelse err => Ret (Err (Errorf_w ("getting PVC " +:+ ns +:+ "/" +:+ pr_Name pvcRef
                                          +:+ ": ") err)) in
      explicit_pvcs refs appNamespace
        (acc ++ [mkPVCInfo (om_Name (pvc_Meta pvc)) (om_Namespace (pvc_Meta pvc))
                   (pvc_AccessModes pvc)])
  end.

Definition getExplicitPVCs (app : ManagedApp) : M (res (list PVCInfo)) :=
  let* vs := deref "app.Spec.VolumeSnapshots" (as_VolumeSnapshots (app_Spec app)) in
  explicit_pvcs (vsc_PVCs vs) (om_Namespace (app_Meta app)) [].

(** [app.Spec.VolumeSnapshots != nil && len(app.Spec.VolumeSnapshots.PVCs) > 0] *)
Definition has_explicit_pvcs (app : ManagedApp) : bool :=
  match as_VolumeSnapshots (app_Spec app) with
  | Some vs => 0 <? len (vsc_PVCs vs)
  | None => false
  end.

Definition DiscoverPVCs (app : ManagedApp) : M (res (list PVCInfo)) :=
  if has_explicit_pvcs app then getExplicitPVCs app
  else
    let? pvcs := (match as_HelmReleaseRef (app_Spec app) with
                  | Some _ => discoverPVCsFromHelmRelease app
                  | None => discoverPVCsFromKustomization app
                  end)
      orelse err => Ret (Err err) in
    Ret (Ok (filterPVCs pvcs app)).

Definition mounts_any (pvcSet : gmap string bool) (pod : Pod) : bool :=
  existsb (λ vol, match vol with
                  | Some claim => default false (pvcSet !! claim)
                  | None => false
                  end) (pod_Volumes pod).

Definition workload_key (w : WorkloadInfo) : string :=
  wi_Kind w +:+ "/" +:+ wi_Namespace w +:+ "/" +:+ wi_Name w.

(** The loop of [discoverWorkloadsFromPVCs] over the pods. *)
Fixpoint collect_owners (pods : list Pod) (pvcSet : gmap string bool)
    (workloadSet : gmap string WorkloadInfo) : gmap string WorkloadInfo :=
  match pods with
  | [] => workloadSet
  | pod :: pods =>
      collect_owners pods pvcSet
        (if negb (mounts_any pvcSet pod) then workloadSet
         else match getOwningWorkload pod with
              | Some workload =>
                  match workloadSet !! workload_key workload with
                  | Some _ => workloadSet
                  | None => <[workload_key workload := workload]> workloadSet
                  end
              | None => workloadSet
              end)
  end.

Definition discoverWorkloadsFromPVCs (pvcNames : list string) (namespace : string)
    : M (res (list WorkloadInfo)) :=
  let pvcSet : gmap string bool := foldr (λ name m, <[name := true]> m) ∅ pvcNames in
  let? pods := call (ListPods namespace None)
    orelse err => Ret (Err (Errorf_w "listing pods: " err)) in
  let* result := map_values (collect_owners pods pvcSet ∅) in
  Ret (Ok result).

Definition DiscoverWorkloadsForPVCs (pvcNames : list string) (namespace : string)
    : M (res (list WorkloadInfo)) :=
  discoverWorkloadsFromPVCs pvcNames namespace.

Definition DiscoverWorkloads (app : ManagedApp) : M (res (list WorkloadInfo)) :=
  let? pvcs := DiscoverPVCs app
    orelse err => Ret (Err (Errorf_w "discovering PVCs: " err)) in
  if len pvcs =? 0 then Ret (Ok [])
  else DiscoverWorkloadsForPVCs (map pi_Name pvcs) (om_Namespace (app_Meta app)).
End discovery.

(** ** Footprints: discovery only reads *)

Section footprints.
Context {P : Platform} {D : Decoders}.

Lemma map_values_within ks {K : Set} `{Countable K} {A} (m : gmap K A) :
  subk [KRange] ks = true → emits (within ks) (map_values m).
Proof. intros. unfold map_values. emits_tac. Qed.
Lemma findPodsForWorkload_within ks kd n ns :
  subk [KListPods] ks = true → emits (within ks) (findPodsForWorkload kd n ns).
Proof. intros. unfold findPodsForWorkload. emits_tac. Qed.
Lemma collect_volumes_within ks ns vols m :
  subk [KGetPVC] ks = true → emits (within ks) (collect_volumes ns vols m).
Proof.
  intros. revert m. induction vols as [|[v|] vols IH]; intros m; cbn [collect_volumes];
    emits_tac; apply IH.
Qed.
Lemma findHelmReleaseSecret_within ks n ns :
  subk [KListSecrets] ks = true → emits (within ks) (findHelmReleaseSecret n ns).
Proof. intros. unfold findHelmReleaseSecret. emits_tac. Qed.
Lemma explicit_pvcs_within ks refs ns acc :
  subk [KGetPVC] ks = true → emits (within ks) (explicit_pvcs refs ns acc).
Proof.
  intros. revert acc. induction refs as [|ref refs IH]; intros acc; cbn [explicit_pvcs];
    emits_tac; apply IH.
Qed.
End footprints.
#[export] Hint Resolve map_values_within findPodsForWorkload_within collect_volumes_within
  findHelmReleaseSecret_within explicit_pvcs_within : emits.

(** The kinds of calls discovery makes. *)
Definition discovery_kinds : list kind :=
  [KGetKs; KListPods; KGetPVC; KListSecrets; KRange].

Section footprints2.
Context {P : Platform} {D : Decoders}.

Lemma collect_pods_within ks ns pods m :
  subk [KGetPVC] ks = true → emits (within ks) (collect_pods ns pods m).
Proof.
  intros. revert m. induction pods as [|p pods IH]; intros m; cbn [collect_pods];
    emits_tac; apply IH.
Qed.
Lemma discoverWorkloadsFromPVCs_within ks names ns :
  subk [KListPods; KRange] ks = true → emits (within ks) (discoverWorkloadsFromPVCs names ns).
Proof. intros. unfold discoverWorkloadsFromPVCs. emits_tac. Qed.
Lemma DiscoverWorkloadsForPVCs_within ks names ns :
  subk [KListPods; KRange] ks = true → emits (within ks) (DiscoverWorkloadsForPVCs names ns).
Proof. apply discoverWorkloadsFromPVCs_within. Qed.
Lemma getExplicitPVCs_within ks app :
  subk [KGetPVC] ks = true → emits (within ks) (getExplicitPVCs app).
Proof. intros. unfold getExplicitPVCs. emits_tac. Qed.
End footprints2.
#[export] Hint Resolve collect_pods_within discoverWorkloadsFromPVCs_within
  DiscoverWorkloadsForPVCs_within getExplicitPVCs_within : emits.

Section footprints3.
Context {P : Platform} {D : Decoders}.

Lemma collect_workloads_within ks ws ns m :
  subk [KListPods; KGetPVC] ks = true → emits (within ks) (collect_workloads ws ns m).
Proof.
  intros. revert m. induction ws as [|w ws IH]; intros m; cbn [collect_workloads];
    emits_tac; apply IH.
Qed.
End footprints3.
#[export] Hint Resolve collect_workloads_within : emits.

Section footprints4.
Context {P : Platform} {D : Decoders}.

Lemma findPVCsForWorkloads_within ks ws ns :
  subk [KListPods; KGetPVC; KRange] ks = true → emits (within ks) (findPVCsForWorkloads ws ns).
Proof. intros. unfold findPVCsForWorkloads. emits_tac. Qed.
End footprints4.
#[export] Hint Resolve findPVCsForWorkloads_within : emits.

Section footprints5.
Context {P : Platform} {D : Decoders}.

Lemma discoverPVCsFromKustomization_within ks app :
  subk discovery_kinds ks = true → emits (within ks) (discoverPVCsFromKustomization app).
Proof. intros. unfold discoverPVCsFromKustomization. emits_tac. Qed.
Lemma discoverPVCsFromHelmRelease_within ks app :
  subk discovery_kinds ks = true → emits (within ks) (discoverPVCsFromHelmRelease app).
Proof. intros. unfold discoverPVCsFromHelmRelease. emits_tac. Qed.
End footprints5.
#[export] Hint Resolve discoverPVCsFromKustomization_within discoverPVCsFromHelmRelease_within
  : emits.

Section footprints6.
Context {P : Platform} {D : Decoders}.

Lemma DiscoverPVCs_within ks app :
  subk discovery_kinds ks = true → emits (within ks) (DiscoverPVCs app).
Proof. intros. unfold DiscoverPVCs. emits_tac. Qed.
End footprints6.
#[export] Hint Resolve DiscoverPVCs_within : emits.

Section footprints7.
Context {P : Platform} {D : Decoders}.

Lemma DiscoverWorkloads_within ks app :
  subk discovery_kinds ks = true → emits (within ks) (DiscoverWorkloads app).
Proof. intros. unfold DiscoverWorkloads. emits_tac. Qed.
End footprints7.
#[export] Hint Resolve DiscoverWorkloads_within : emits.

(** ** Iterating over a map *)

Section map_order.
(** The items [map_values] visits are those of the map. *)
Lemma map_values_wp {K : Set} `{Countable K} {A} (m : gmap K A) h :
  wp any (λ _ R e, mutates R e = false) (map_values m) h
    (λ o h', ∃ l, o = Done l ∧ (∃ d, h' = d ++ h)
                  ∧ ∀ a, In a l ↔ ∃ k, m !! k = Some a).
Proof.
  unfold map_values. cbn. split; [done|]. intros [l Hl] _. eexists. split; [done|].
  split; [by eexists [_]|]. intros a. rewrite <- list_elem_of_In, list_elem_of_omap; cbn.
  split; [naive_solver|]. intros (k & Hk). exists k. split; [|done].
  rewrite Hl. apply list_elem_of_fmap. exists (k, a). by rewrite elem_of_map_to_list.
Qed.
End map_order.

(** ** What discovery promises *)

Section laws.
Context {P : Platform} {D : Decoders}.

(** Of the claims found automatically, exactly those are kept, in order, that are
    read-write-once and not excluded by the application (an exclusion without a
    namespace means the application's). *)
Theorem filterPVCs_spec pvcs app pvc :
  In pvc (filterPVCs pvcs app) ↔
  In pvc pvcs ∧ In ReadWriteOnce (pi_AccessModes pvc)
  ∧ ∀ vs excl, as_VolumeSnapshots (app_Spec app) = Some vs → In excl (vsc_ExcludePVCs vs) →
      pi_Namespace pvc +:+ "/" +:+ pi_Name pvc ≠
      or_default (pr_Namespace excl) (om_Namespace (app_Meta app)) +:+ "/" +:+ pr_Name excl.
Proof.
  unfold filterPVCs, excluded_keys. rewrite filter_In, andb_true_iff, negb_true_iff.
  assert (∀ s l, existsb (seqb s) l = true ↔ In s l) as Hex.
  { intros s l. rewrite existsb_exists. setoid_rewrite seqb_eq. naive_solver. }
  rewrite <- not_true_iff_false, !Hex.
  destruct (as_VolumeSnapshots (app_Spec app)) as [vs|].
  - rewrite in_map_iff. split.
    + intros (Hin & Hexcl & Hrwo). split; [done|]. split; [done|].
      intros vs' excl [= <-] He Heq. apply Hexcl. by exists excl.
    + intros (Hin & Hrwo & Hexcl). split; [done|]. split; [|done].
      intros (excl & Heq & He). by apply (Hexcl vs excl).
  - cbn. naive_solver.
Qed.

(** ** Workloads that mount the claims *)

(** [w] owns a pod of the list that mounts one of the claims. *)
Definition owner_of (pods : list Pod) (pvcSet : gmap string bool) (w : WorkloadInfo) : Prop :=
  ∃ pod, In pod pods ∧ mounts_any pvcSet pod = true ∧ getOwningWorkload pod = Some w.

Lemma collect_owners_sound pods pvcSet m k w :
  collect_owners pods pvcSet m !! k = Some w →
  m !! k = Some w ∨ (k = workload_key w ∧ owner_of pods pvcSet w).
Proof.
  revert m. induction pods as [|pod pods IH]; intros m; cbn [collect_owners]; [by left|].
  intros Hk. apply IH in Hk as [Hk|[-> (pod' & Hin & Hm & Ho)]].
  2:{ right. split; [done|]. exists pod'. split; [by right|done]. }
  destruct (mounts_any pvcSet pod) eqn:Hm; cbn in Hk; [|by left].
  destruct (getOwningWorkload pod) as [v|] eqn:Ho; [|by left].
  destruct (m !! workload_key v) eqn:Hv; [by left|].
  destruct (decide (k = workload_key v)) as [->|Hne].
  - rewrite lookup_insert_eq in Hk. simplify_eq. right. split; [done|].
    exists pod. split; [by left|done].
  - rewrite lookup_insert_ne in Hk by done. by left.
Qed.

Lemma collect_owners_mono pods pvcSet m k w :
  m !! k = Some w → collect_owners pods pvcSet m !! k = Some w.
Proof.
  revert m. induction pods as [|pod pods IH]; intros m Hk; cbn [collect_owners]; [done|].
  apply IH. destruct (negb _); [done|]. destruct (getOwningWorkload pod) as [v|]; [|done].
  destruct (m !! workload_key v) eqn:Hv; [done|].
  rewrite lookup_insert_ne; [done|]. intros Heq. congruence.
Qed.

Lemma collect_owners_complete pods pvcSet m w :
  owner_of pods pvcSet w → is_Some (collect_owners pods pvcSet m !! workload_key w).
Proof.
  intros (pod & Hin & Hm & Ho). revert m. induction pods as [|p pods IH]; intros m; [done|].
  cbn [collect_owners]. destruct Hin as [->|Hin]; [|by apply IH].
  rewrite Hm, Ho. cbn [negb]. destruct (m !! workload_key w) as [v|] eqn:Hv.
  - exists v. by apply collect_owners_mono.
  - exists w. apply collect_owners_mono, lookup_insert_eq.
Qed.

Lemma pvc_set_spec (names : list string) (claim : string) :
  default false (foldr (λ name (m : gmap string bool), <[name := true]> m) ∅ names !! claim)
  = true ↔ In claim names.
Proof.
  induction names as [|name names IH]; cbn; [by rewrite lookup_empty|].
  destruct (decide (name = claim)) as [->|Hne].
  - rewrite lookup_insert_eq. cbn. naive_solver.
  - rewrite lookup_insert_ne by done. rewrite IH. naive_solver.
Qed.

Lemma mounts_any_spec names pod :
  mounts_any (foldr (λ name m, <[name := true]> m) ∅ names) pod = true ↔
  ∃ claim, In (Some claim) (pod_Volumes pod) ∧ In claim names.
Proof.
  unfold mounts_any. rewrite existsb_exists. split.
  - intros ([claim|] & Hin & Hc); [|done]. exists claim. by rewrite <- pvc_set_spec.
  - intros (claim & Hin & Hc). exists (Some claim). by rewrite pvc_set_spec.
Qed.

(** Workload discovery.  From the pods just listed: each workload answered owns a pod
    that mounts one of the claims, and each owner of such a pod is answered, up to its
    kind, namespace and name written as one key. *)
Theorem discoverWorkloadsFromPVCs_spec names ns h0 :
  wp any (λ _ R e, mutates R e = false) (discoverWorkloadsFromPVCs names ns) h0
    (λ o h, ∀ l, o = Done (Ok l) →
      ∃ pods, In (Obs (ListPods ns None) (Ok pods)) h ∧
      let owner w := ∃ pod claim, In pod pods ∧ In (Some claim) (pod_Volumes pod)
                       ∧ In claim names ∧ getOwningWorkload pod = Some w in
      (∀ w, In w l → owner w)
      ∧ (∀ w, owner w → ∃ v, In v l ∧ workload_key v = workload_key w)).
Proof.
  unfold discoverWorkloadsFromPVCs. cbn [bind call wp]. split; [done|].
  intros [pods|e] _; cbn [wp]; [|done]. rewrite wp_bind.
  eapply wp_mono; [apply map_values_wp|done|].
  intros o h (l & -> & (d & ->) & Hl) l' [= <-]. exists pods.
  split; [apply in_app_iff; right; by left|].
  set (pvcSet := foldr _ _ _) in *.
  assert (∀ w, owner_of pods pvcSet w ↔
            ∃ pod claim, In pod pods ∧ In (Some claim) (pod_Volumes pod)
                         ∧ In claim names ∧ getOwningWorkload pod = Some w) as Hown.
  { intros w. unfold owner_of. split.
    - intros (pod & Hp & Hm & Ho). apply mounts_any_spec in Hm as (c & ? & ?).
      by exists pod, c.
    - intros (pod & c & Hp & Hv & Hc & Ho). exists pod. split; [done|].
      split; [|done]. apply mounts_any_spec. by exists c. }
  split.
  - intros w Hw. apply Hl in Hw as [k Hk]. apply Hown.
    apply collect_owners_sound in Hk as [Hk|[_ Hk]]; [by rewrite lookup_empty in Hk|done].
  - intros w Hw. apply Hown in Hw.
    destruct (collect_owners_complete pods pvcSet ∅ w Hw) as [v Hv].
    exists v. split; [apply Hl; by eexists|].
    apply collect_owners_sound in Hv as [Hv|[Hk _]]; [by rewrite lookup_empty in Hv|done].
Qed.
End laws.

(** ** The Helm release secret *)

Section helm.
Context {P : Platform} {D : Decoders}.

(** The revision a secret of the release carries in its name, if it has one. *)
Definition revision (prefix : string) (s : Secret) : option Z :=
  let name := om_Name (sec_Meta s) in
  if HasPrefix name prefix then Sscanf_d (TrimPrefix name prefix) else None.

Lemma latest_secret_step prefix s l rev best :
  latest_secret prefix (s :: l) rev best =
  match revision prefix s with
  | Some v => if rev <? v then latest_secret prefix l v (Some s)
              else latest_secret prefix l rev best
  | None => latest_secret prefix l rev best
  end.
Proof.
  cbn [latest_secret]. unfold revision. destruct (HasPrefix _ prefix); cbn [negb]; [|done].
  by destruct (Sscanf_d _).
Qed.

Lemma latest_secret_spec prefix l rev best :
  match latest_secret prefix l rev best with
  | res =>
      (res = best ∧ Forall (λ s, ∀ v, revision prefix s = Some v → v <= rev) l)
      ∨ ∃ s v, res = Some s ∧ In s l ∧ revision prefix s = Some v ∧ rev < v
               ∧ Forall (λ t, ∀ w, revision prefix t = Some w → w <= v) l
  end.
Proof.
  revert rev best. induction l as [|s l IH]; intros rev best; [by left|].
  rewrite latest_secret_step. destruct (revision prefix s) as [v|] eqn:Hv.
  - destruct (Z.ltb_spec rev v).
    + right. destruct (IH v (Some s)) as [[-> Hall]|(t & w & -> & Hin & Ht & Hlt & Hall)].
      * exists s, v. split; [done|]. split; [by left|]. split; [done|]. split; [done|].
        constructor; [|done]. intros w Hw. simplify_eq. lia.
      * exists t, w. split; [done|]. split; [by right|]. split; [done|]. split; [lia|].
        constructor; [|done]. intros x Hx. simplify_eq. lia.
    + destruct (IH rev best) as [[-> Hall]|(t & w & -> & Hin & Ht & Hlt & Hall)].
      * left. split; [done|]. constructor; [|done]. intros x Hx. simplify_eq. lia.
      * right. exists t, w. split; [done|]. split; [by right|]. split; [done|].
        split; [done|]. constructor; [|done]. intros x Hx. simplify_eq. lia.
  - destruct (IH rev best) as [[-> Hall]|(t & w & -> & Hin & Ht & Hlt & Hall)].
    + left. split; [done|]. constructor; [|done]. intros x Hx. simplify_eq.
    + right. exists t, w. split; [done|]. split; [by right|]. split; [done|].
      split; [done|]. constructor; [|done]. intros x Hx. simplify_eq.
Qed.

(** The Helm release secret that is decoded is one of the namespace whose name is the
    release's with a positive revision, and no other has a higher one; if there is none,
    the answer is an error. *)
Theorem findHelmReleaseSecret_spec releaseName ns h0 :
  let rev := revision ("sh.helm.release.v1." +:+ releaseName +:+ ".v") in
  wp any (λ _ R e, mutates R e = false) (findHelmReleaseSecret releaseName ns) h0
    (λ o h,
      (∃ e, h = Obs (ListSecrets ns) (Err e) :: h0 ∧ ∃ e', o = Done (Err e'))
      ∨ ∃ secrets, h = Obs (ListSecrets ns) (Ok secrets) :: h0 ∧
          match o with
          | Done (Ok s) => ∃ v, In s secrets ∧ rev s = Some v ∧ 0 < v
                                ∧ ∀ t w, In t secrets → rev t = Some w → w <= v
          | Done (Err _) => ∀ t w, In t secrets → rev t = Some w → w <= 0
          | Panicked _ => False
          end).
Proof.
  unfold findHelmReleaseSecret. cbn [bind call wp]. split; [done|].
  intros [secrets|e] _; cbn [wp].
  2:{ left. exists e. split; [done|by eexists]. }
  pose proof (latest_secret_spec ("sh.helm.release.v1." +:+ releaseName +:+ ".v") secrets 0 None)
    as Hspec.
  destruct (latest_secret _ secrets 0 None) as [s|] eqn:Hl; cbn [wp];
    right; exists secrets; (split; [done|]).
  - destruct Hspec as [[? _]|(t & v & [= <-] & Hin & Hv & Hlt & Hall)]; [done|].
    exists v. repeat split; try done. intros t w Ht. rewrite Forall_forall in Hall.
    apply Hall. by apply list_elem_of_In.
  - destruct Hspec as [[_ Hall]|(t & v & ? & _)]; [|done].
    intros t w Ht. rewrite Forall_forall in Hall. apply Hall. by apply list_elem_of_In.
Qed.
End helm.

(** ** Names *)

(** The id under which Flux lists an object in its inventory. *)
Record InventoryEntry := mkInventoryEntry {
  ie_Namespace : string; ie_Name : string; ie_Group : string; ie_Kind : string }.
Definition inventory_id (e : InventoryEntry) : string :=
  Join [ie_Namespace e; ie_Name e; ie_Group e; ie_Kind e] "_".
Definition plain_entry (e : InventoryEntry) : Prop :=
  Forall (λ s, lacks "_"%char s = true) [ie_Namespace e; ie_Name e; ie_Group e; ie_Kind e].
Definition entry_workload (defaultNS : string) (e : InventoryEntry) : option WorkloadInfo :=
  if (ie_Kind e =?s kindDeployment) || (ie_Kind e =?s kindStatefulSet)
  then Some (mkWorkloadInfo (ie_Kind e) (ie_Name e) (or_default (ie_Namespace e) defaultNS))
  else None.

(** Reading an inventory gives back exactly the Deployments and StatefulSets it was
    written from, in order, whatever their API group. *)
Theorem inventory_roundtrip entries defaultNS :
  Forall plain_entry entries →
  extractWorkloadsFromInventory (map inventory_id entries) defaultNS =
  omap (entry_workload defaultNS) entries.
Proof.
  induction 1 as [|e entries He Hall IH]; [done|].
  cbn [map extractWorkloadsFromInventory]. unfold inventory_id at 1.
  rewrite (Split1_Join "_"%char _) by done. cbn [omap list_omap]. unfold entry_workload at 1.
  rewrite IH. by destruct (ie_Kind e =?s kindDeployment), (ie_Kind e =?s kindStatefulSet).
Qed.

Lemma inventory_roundtrip_witness :
  extractWorkloadsFromInventory
    (map inventory_id [mkInventoryEntry "apps" "web" "apps" "Deployment";
                       mkInventoryEntry "" "db" "apps" "StatefulSet";
                       mkInventoryEntry "apps" "cfg" "" "ConfigMap"]) "dflt"
  = [mkWorkloadInfo "Deployment" "web" "apps"; mkWorkloadInfo "StatefulSet" "db" "dflt"].
Proof. rewrite inventory_roundtrip; [reflexivity|]. repeat constructor. Defined.

(** The suffix the Deployment controller gives a ReplicaSet. *)
Definition template_hash (hash : string) : Prop :=
  (5 <= String.length hash <= 12)%nat
  ∧ string_forallb (λ c, is_lower c || is_digit c) hash = true.

Lemma template_hash_lacks hash : template_hash hash → lacks "-"%char hash = true.
Proof.
  intros [_ Hall]. revert Hall. unfold lacks. induction hash as [|c hash IH]; [done|].
  cbn [string_forallb]. intros [Hc Hr]%andb_true_iff. rewrite (IH Hr), andb_true_r.
  apply negb_true_iff. apply not_true_iff_false. intros Heq.
  apply Ascii.eqb_eq in Heq. subst. by vm_compute in Hc.
Qed.

(** The Deployment of a ReplicaSet.  From the pod's side the name is recovered exactly,
    dashes included.  From the workload's side the test is only a prefix: the ReplicaSets of
    [web-api] count as [web]'s too, so the pods, and the claims, of another application can
    be taken for its own. *)
Theorem replica_set_names deployment more hash owner :
  template_hash hash →
  or_Kind owner = "ReplicaSet" →
  or_Name owner = (deployment +:+ "-" +:+ more) +:+ "-" +:+ hash →
  findDeploymentForReplicaSet (or_Name owner) = deployment +:+ "-" +:+ more
  ∧ owns_pod kindDeployment (deployment +:+ "-" +:+ more) owner = true
  ∧ owns_pod kindDeployment deployment owner = true.
Proof.
  intros Hhash Hkind Hname. split; [|split].
  - rewrite Hname. set (d := deployment +:+ "-" +:+ more).
    change ("-" +:+ hash) with (String "-"%char hash).
    unfold findDeploymentForReplicaSet.
    rewrite LastIndex1_app by by apply template_hash_lacks.
    rewrite drop_str_after. destruct Hhash as [Hlen ->].
    rewrite (proj2 (Nat.ltb_ge _ _)), (proj2 (Nat.ltb_ge _ _)) by lia. cbn [orb].
    apply take_str_app.
  - unfold owns_pod, isReplicaSetOwnedByDeployment. rewrite Hkind, Hname. seqb_lits.
    cbn [andb orb]. set (d := deployment +:+ "-" +:+ more).
    rewrite <- (string_app_assoc d "-" hash). apply HasPrefix_app.
  - unfold owns_pod, isReplicaSetOwnedByDeployment. rewrite Hkind, Hname. seqb_lits.
    cbn [andb orb]. rewrite <- (string_app_assoc deployment "-" more).
    rewrite (string_app_assoc (deployment +:+ "-")). apply HasPrefix_app.
Qed.

Lemma replica_set_names_witness :
  findDeploymentForReplicaSet "web-api-5d4c9b" = "web-api"
  ∧ owns_pod kindDeployment "web-api" (mkOwnerReference "apps/v1" "ReplicaSet" "web-api-5d4c9b" "")
    = true
  ∧ owns_pod kindDeployment "web" (mkOwnerReference "apps/v1" "ReplicaSet" "web-api-5d4c9b" "")
    = true.
Proof.
  apply (replica_set_names "web" "api" "5d4c9b"
           (mkOwnerReference "apps/v1" "ReplicaSet" "web-api-5d4c9b" ""));
    [|reflexivity..].
  split; [cbn; lia|reflexivity].
Defined.
