(* ===== verification/Snapshot.v ===== *)
(** * internal/snapshot/manager.go: VolumeSnapshots, retention, PVC restore *)

From S2P Require Import Prelude GoLib Api Platform Poll Footprint Discovery.

Record SnapshotRequest := mkSnapshotRequest {
  sr_PVCName : string;
  sr_PVCNamespace : string;
  sr_SnapshotName : string;
  sr_VolumeSnapshotClassName : string;
  sr_Labels : gmap string string }.
Record SnapshotInfo := mkSnapshotInfo {
  sni_PVCName : string; sni_SnapshotName : string; sni_Namespace : string }.
Record RestoreRequest := mkRestoreRequest {
  rr_SnapshotName : string;
  rr_SnapshotNamespace : string;
  rr_NewPVCName : string;
  rr_NewPVCNamespace : string;
  rr_StorageClassName : string;
  rr_Labels : gmap string string }.

Definition DefaultMaxSnapshotCount : Z := 3.
Definition managed_app_label : string := "fluxup.dev/managed-app".

(** [if s != "" { p = &s }] *)
Definition ptr_if_set (s : string) : option string := if s =?s "" then None else Some s.

Definition labelledMeta (name ns : string) (labels : gmap string string) : ObjectMeta :=
  mkObjectMeta name ns "" 0 0 None [] labels [].

(** ** Sorting, newest first *)

(** The inner loop of [sortSnapshotsByCreationTime] for one [i]: [x] is the element at
    [i], and every [snapshots[j]] after it that is strictly newer changes places with it.
    The answer is the element left at [i] and the rest, in place. *)
Fixpoint bubble (x : VolumeSnapshot) (l : list VolumeSnapshot)
    : VolumeSnapshot * list VolumeSnapshot :=
  match l with
  | [] => (x, [])
  | y :: l =>
      let '(a, b) :=
        if om_CreationTimestamp (vs_Meta x) <? om_CreationTimestamp (vs_Meta y)
        then (y, x) else (x, y) in
      let '(m, l') := bubble a l in
      (m, b :: l')
  end.

(** The outer loop: [n] is [len(snapshots) - i]. *)
Fixpoint exchange_sort (n : nat) (l : list VolumeSnapshot) : list VolumeSnapshot :=
  match n, l with
  | S n, x :: l => let '(m, l') := bubble x l in m :: exchange_sort n l'
  | _, _ => l
  end.
Definition sortSnapshotsByCreationTime (snapshots : list VolumeSnapshot) : list VolumeSnapshot :=
  exchange_sort (length snapshots) snapshots.

(** The grouping loop of [ApplyRetentionPolicy]: appending to [byPVC[pvcName]]. *)
Fixpoint group_by_pvc (items : list VolumeSnapshot) (byPVC : gmap string (list VolumeSnapshot))
    : gmap string (list VolumeSnapshot) :=
  match items with
  | [] => byPVC
  | snap :: items =>
      match vs_PVCName snap with
      | None => group_by_pvc items byPVC
      | Some pvcName =>
          group_by_pvc items (<[pvcName := default [] (byPVC !! pvcName) ++ [snap]]> byPVC)
      end
  end.

Section snapshot.
Context {P : Platform}.

Definition CreateSnapshot (req : SnapshotRequest) : M (res VolumeSnapshot) :=
  let? _pvc := call (GetPVC (mkKey (sr_PVCName req) (sr_PVCNamespace req)))
    orelse err => Ret (Err (Errorf_w ("PVC not found " +:+ sr_PVCNamespace req +:+ "/"
                                      +:+ sr_PVCName req +:+ ": ") err)) in
  let snapshot :=
    mkVolumeSnapshot
      (labelledMeta (sr_SnapshotName req) (sr_PVCNamespace req) (sr_Labels req))
      (Some (sr_PVCName req)) (ptr_if_set (sr_VolumeSnapshotClassName req)) None in
  let? created := call (CreateSnapshotObj snapshot)
    orelse err => Ret (Err (Errorf_w "creating snapshot: " err)) in
  Ret (Ok created).

(** One round of [WaitForSnapshotReady]. *)
Definition snapshot_ready_yet (name namespace : string) : M (option (option error)) :=
  let? snapshot := call (GetSnapshot (mkKey name namespace))
    orelse err => Ret (Some (Some (Errorf_w "getting snapshot: " err))) in
  match vs_Status snapshot with
  | None => Ret None
  | Some st =>
      match vss_ReadyToUse st with
      | Some true => Ret (Some None)
      | _ =>
          match vss_ErrorMessage st with
          | Some msg => Ret (Some (Some (ErrNew ("snapshot error: " +:+ msg))))
          | None => Ret None
          end
      end
  end.

Definition WaitForSnapshotReady (fuel : nat) (name namespace : string) (timeout : Duration)
    : M (option (option error)) :=
  poll_until fuel timeout
    (ErrNew ("timeout waiting for snapshot " +:+ namespace +:+ "/" +:+ name +:+ " to be ready"))
    (snapshot_ready_yet name namespace).

Definition IsSnapshotReady (name namespace : string) : M (res bool) :=
  let? snapshot := call (GetSnapshot (mkKey name namespace))
    orelse err => Ret (Err (Errorf_w "getting snapshot: " err)) in
  match vs_Status snapshot with
  | Some st => Ret (Ok (default false (vss_ReadyToUse st)))
  | None => Ret (Ok false)
  end.

Definition snapshotName (appName pvcName timestamp : string) : string :=
  appName +:+ "-" +:+ pvcName +:+ "-pre-upgrade-" +:+ timestamp.

Fixpoint create_snapshots (appName appNamespace timestamp snapshotClass : string)
    (pvcs : list PVCRef) (snapshots : list SnapshotInfo) : M (res (list SnapshotInfo)) :=
  match pvcs with
  | [] => Ret (Ok snapshots)
  | pvc :: pvcs =>
      let ns := or_default (pr_Namespace pvc) appNamespace in
      let req :=
        mkSnapshotRequest (pr_Name pvc) ns (snapshotName appName (pr_Name pvc) timestamp)
          snapshotClass
          {[ managed_app_label := appName; "fluxup.dev/purpose" := "pre-upgrade" ]} in
      let? snapshot := CreateSnapshot req
        orelse err => Ret (Err (Errorf_w ("creating snapshot for PVC " +:+ pr_Name pvc +:+ ": ")
                                  err)) in
      create_snapshots appName appNamespace timestamp snapshotClass pvcs
        (snapshots ++ [mkSnapshotInfo (pr_Name pvc) (om_Name (vs_Meta snapshot))
                         (om_Namespace (vs_Meta snapshot))])
  end.

Definition CreateSnapshotsForUpgrade (appName appNamespace : string) (pvcs : list PVCRef)
    (snapshotClass : string) : M (res (list SnapshotInfo)) :=
  let* now := call Now in
  create_snapshots appName appNamespace (format_compact (LocalOffset now) now) snapshotClass
    pvcs [].

Definition DeleteSnapshot (name namespace : string) : M (option error) :=
  check call (DeleteSnapshotObj (mkKey name namespace)) orelse err => Ret (Some err) in
  Ret None.

(** The inner loop of [ApplyRetentionPolicy]: failures are logged and skipped. *)
Fixpoint delete_all (snaps : list VolumeSnapshot) (deleted : Z) : M Z :=
  match snaps with
  | [] => Ret deleted
  | snap :: snaps =>
      check call (DeleteSnapshotObj (keyOf (vs_Meta snap)))
        orelse _err => delete_all snaps deleted in
      delete_all snaps (deleted + 1)
  end.

(** [pvcSnapshots[maxCount:]] panics for a negative bound. *)
Definition slice_from (l : list VolumeSnapshot) (n : Z) : M (list VolumeSnapshot) :=
  if n <? 0 then Panic "slice bounds out of range" else Ret (drop (Z.to_nat n) l).

Fixpoint prune_groups (groups : list (list VolumeSnapshot)) (maxCount deleted : Z) : M Z :=
  match groups with
  | [] => Ret deleted
  | pvcSnapshots :: groups =>
      if len pvcSnapshots <=? maxCount then prune_groups groups maxCount deleted
      else
        let* old := slice_from (sortSnapshotsByCreationTime pvcSnapshots) maxCount in
        let* deleted := delete_all old deleted in
        prune_groups groups maxCount deleted
  end.

Definition ApplyRetentionPolicy (appName namespace : string) (maxCount : Z) : M (res Z) :=
  if maxCount =? 0 then Ret (Ok 0)
  else
    let? items := call (ListSnapshots namespace {[ managed_app_label := appName ]})
      orelse err => Ret (Err (Errorf_w "listing snapshots: " err)) in
    if len items =? 0 then Ret (Ok 0)
    else
      let* groups := map_values (group_by_pvc items ∅) in
      let* deleted := prune_groups groups maxCount 0 in
      Ret (Ok deleted).

(** ** Restoring a PVC *)

Definition RestorePVCFromSnapshot (req : RestoreRequest) : M (res PVC) :=
  let? snapshot := call (GetSnapshot (mkKey (rr_SnapshotName req) (rr_SnapshotNamespace req)))
    orelse err => Ret (Err (Errorf_w "snapshot not found: " err)) in
  let not_ready := Ret (Err (ErrNew ("snapshot " +:+ rr_SnapshotName req +:+ " is not ready"))) in
  match vs_Status snapshot with
  | None => not_ready
  | Some st =>
      if negb (default false (vss_ReadyToUse st)) then not_ready
      else
        match vss_RestoreSize st with
        | None =>
            Ret (Err (ErrNew ("snapshot " +:+ rr_SnapshotName req +:+ " has no restore size")))
        | Some restoreSize =>
            let pvc :=
              mkPVC (labelledMeta (rr_NewPVCName req) (rr_NewPVCNamespace req) (rr_Labels req))
                [ReadWriteOnce] (Some restoreSize)
                (Some (mkDataSource "snapshot.storage.k8s.io" "VolumeSnapshot"
                         (rr_SnapshotName req)))
                (ptr_if_set (rr_StorageClassName req)) "" in
            let? created := call (CreatePVC pvc)
              orelse err => Ret (Err (Errorf_w "creating PVC from snapshot: " err)) in
            Ret (Ok created)
        end
  end.

Definition ClaimBound : string := "Bound".

Definition pvc_bound_yet (name namespace : string) : M (option (option error)) :=
  let? pvc := call (GetPVC (mkKey name namespace))
    orelse err => Ret (Some (Some (Errorf_w "getting PVC: " err))) in
  if pvc_Phase pvc =?s ClaimBound then Ret (Some None) else Ret None.

Definition WaitForPVCBound (fuel : nat) (name namespace : string) (timeout : Duration)
    : M (option (option error)) :=
  poll_until fuel timeout
    (ErrNew ("timeout waiting for PVC " +:+ namespace +:+ "/" +:+ name +:+ " to be bound"))
    (pvc_bound_yet name namespace).

Definition DeletePVC (name namespace : string) : M (option error) :=
  check call (DeletePVCObj (mkKey name namespace))
    orelse err => Ret (Some (Errorf_w ("deleting PVC " +:+ namespace +:+ "/" +:+ name +:+ ": ")
                               err)) in
  Ret None.

Definition pvc_deleted_yet (name namespace : string) : M (option (option error)) :=
  let? _pvc := call (GetPVC (mkKey name namespace))
    orelse err => match IgnoreNotFound err with
                  | None => Ret (Some None)
                  | Some _ => Ret (Some (Some (Errorf_w "getting PVC: " err)))
                  end in
  Ret None.

Definition WaitForPVCDeleted (fuel : nat) (name namespace : string) (timeout : Duration)
    : M (option (option error)) :=
  poll_until fuel timeout
    (ErrNew ("timeout waiting for PVC " +:+ namespace +:+ "/" +:+ name +:+ " to be deleted"))
    (pvc_deleted_yet name namespace).

Definition IsPVCDeleted (name namespace : string) : M (res bool) :=
  let? _pvc := call (GetPVC (mkKey name namespace))
    orelse err => match IgnoreNotFound err with
                  | None => Ret (Ok true)
                  | Some _ => Ret (Err (Errorf_w "getting PVC: " err))
                  end in
  Ret (Ok false).

Definition IsPVCBound (name namespace : string) : M (res bool) :=
  let? pvc := call (GetPVC (mkKey name namespace))
    orelse err => Ret (Err (Errorf_w "getting PVC: " err)) in
  Ret (Ok (pvc_Phase pvc =?s ClaimBound)).
End snapshot.

(** ** Footprints *)

Section footprints.
Context {P : Platform}.

Lemma CreateSnapshot_within ks req :
  subk [KGetPVC; KCreateSnapshot] ks = true → emits (within ks) (CreateSnapshot req).
Proof. intros. unfold CreateSnapshot. emits_tac. Qed.
Lemma snapshot_ready_yet_within ks n ns :
  subk [KGetSnapshot] ks = true → emits (within ks) (snapshot_ready_yet n ns).
Proof. intros. unfold snapshot_ready_yet. emits_tac. Qed.
Lemma IsSnapshotReady_within ks n ns :
  subk [KGetSnapshot] ks = true → emits (within ks) (IsSnapshotReady n ns).
Proof. intros. unfold IsSnapshotReady. emits_tac. Qed.
Lemma DeleteSnapshot_within ks n ns :
  subk [KDeleteSnapshot] ks = true → emits (within ks) (DeleteSnapshot n ns).
Proof. intros. unfold DeleteSnapshot. emits_tac. Qed.
Lemma delete_all_within ks snaps n :
  subk [KDeleteSnapshot] ks = true → emits (within ks) (delete_all snaps n).
Proof.
  intros. revert n. induction snaps as [|s snaps IH]; intros n; cbn [delete_all];
    emits_tac; apply IH.
Qed.
Lemma slice_from_within ks l n : emits (within ks) (slice_from l n).
Proof. unfold slice_from. emits_tac. Qed.
Lemma RestorePVCFromSnapshot_within ks req :
  subk [KGetSnapshot; KCreatePVC] ks = true → emits (within ks) (RestorePVCFromSnapshot req).
Proof. intros. unfold RestorePVCFromSnapshot. emits_tac. Qed.
Lemma pvc_bound_yet_within ks n ns :
  subk [KGetPVC] ks = true → emits (within ks) (pvc_bound_yet n ns).
Proof. intros. unfold pvc_bound_yet. emits_tac. Qed.
Lemma pvc_deleted_yet_within ks n ns :
  subk [KGetPVC] ks = true → emits (within ks) (pvc_deleted_yet n ns).
Proof. intros. unfold pvc_deleted_yet. emits_tac. Qed.
Lemma DeletePVC_within ks n ns :
  subk [KDeletePVC] ks = true → emits (within ks) (DeletePVC n ns).
Proof. intros. unfold DeletePVC. emits_tac. Qed.
Lemma IsPVCDeleted_within ks n ns :
  subk [KGetPVC] ks = true → emits (within ks) (IsPVCDeleted n ns).
Proof. intros. unfold IsPVCDeleted. emits_tac. Qed.
Lemma IsPVCBound_within ks n ns :
  subk [KGetPVC] ks = true → emits (within ks) (IsPVCBound n ns).
Proof. intros. unfold IsPVCBound. emits_tac. Qed.
End footprints.
#[export] Hint Resolve CreateSnapshot_within snapshot_ready_yet_within IsSnapshotReady_within
  DeleteSnapshot_within delete_all_within slice_from_within RestorePVCFromSnapshot_within
  pvc_bound_yet_within pvc_deleted_yet_within DeletePVC_within IsPVCDeleted_within
  IsPVCBound_within : emits.

Section footprints2.
Context {P : Platform}.

Lemma create_snapshots_within ks a ns t c pvcs acc :
  subk [KGetPVC; KCreateSnapshot] ks = true →
  emits (within ks) (create_snapshots a ns t c pvcs acc).
Proof.
  intros. revert acc. induction pvcs as [|p pvcs IH]; intros acc; cbn [create_snapshots];
    emits_tac; apply IH.
Qed.
Lemma prune_groups_within ks groups n d :
  subk [KDeleteSnapshot] ks = true → emits (within ks) (prune_groups groups n d).
Proof.
  intros. revert d. induction groups as [|g groups IH]; intros d; cbn [prune_groups];
    emits_tac; apply IH.
Qed.
End footprints2.
#[export] Hint Resolve create_snapshots_within prune_groups_within : emits.

Section footprints3.
Context {P : Platform}.

Lemma CreateSnapshotsForUpgrade_within ks a ns pvcs c :
  subk [KClock; KGetPVC; KCreateSnapshot] ks = true →
  emits (within ks) (CreateSnapshotsForUpgrade a ns pvcs c).
Proof. intros. unfold CreateSnapshotsForUpgrade. emits_tac. Qed.
Lemma ApplyRetentionPolicy_within ks a ns n :
  subk [KListSnapshots; KRange; KDeleteSnapshot] ks = true →
  emits (within ks) (ApplyRetentionPolicy a ns n).
Proof. intros. unfold ApplyRetentionPolicy. emits_tac. Qed.
End footprints3.
#[export] Hint Resolve CreateSnapshotsForUpgrade_within ApplyRetentionPolicy_within : emits.

(** ** The order of snapshots *)

Definition created (s : VolumeSnapshot) : Time := om_CreationTimestamp (vs_Meta s).
(** [a] is at least as new as [b]. *)
Definition newer (a b : VolumeSnapshot) : Prop := created b <= created a.

Lemma bubble_spec x l :
  let '(m, l') := bubble x l in
  m :: l' ≡ₚ x :: l ∧ Forall (newer m) l' ∧ length l' = length l.
Proof.
  revert x. induction l as [|y l IH]; intros x; cbn [bubble]; [done|].
  destruct (Z.ltb_spec (created x) (created y)) as [Hlt|Hge]; unfold created in *.
  - rewrite (proj2 (Z.ltb_lt _ _) Hlt). specialize (IH y). destruct (bubble y l) as [m l'].
    destruct IH as (Hp & Hm & Hl). split; [|split; [|cbn; by rewrite Hl]].
    + rewrite (Permutation_swap x m l'), Hp. by rewrite Permutation_swap.
    + constructor; [|done]. assert (newer m y) as Hy.
      { assert (y ∈ m :: l') as Hin by (rewrite Hp; left).
        apply elem_of_cons in Hin as [->|Hin]; [unfold newer; lia|].
        by eapply Forall_forall in Hm. }
      unfold newer, created in *. lia.
  - rewrite (proj2 (Z.ltb_ge _ _) Hge). specialize (IH x). destruct (bubble x l) as [m l'].
    destruct IH as (Hp & Hm & Hl). split; [|split; [|cbn; by rewrite Hl]].
    + rewrite (Permutation_swap y m l'), Hp. by rewrite Permutation_swap.
    + constructor; [|done]. assert (newer m x) as Hx.
      { assert (x ∈ m :: l') as Hin by (rewrite Hp; left).
        apply elem_of_cons in Hin as [->|Hin]; [unfold newer; lia|].
        by eapply Forall_forall in Hm. }
      unfold newer, created in *. lia.
Qed.

Lemma exchange_sort_spec n l :
  (length l ≤ n)%nat → exchange_sort n l ≡ₚ l ∧ StronglySorted newer (exchange_sort n l).
Proof.
  revert l. induction n as [|n IH]; intros [|x l] Hn; cbn in *; try lia;
    [split; [done|constructor]..|].
  pose proof (bubble_spec x l) as Hb. destruct (bubble x l) as [m l'].
  destruct Hb as (Hp & Hm & Hl). destruct (IH l') as [IHp IHs]; [lia|].
  split; [by rewrite IHp|]. constructor; [done|]. by rewrite IHp.
Qed.

(** Sorting by age keeps exactly the same snapshots and puts the newest first. *)
Theorem sortSnapshotsByCreationTime_spec l :
  sortSnapshotsByCreationTime l ≡ₚ l ∧ StronglySorted newer (sortSnapshotsByCreationTime l).
Proof. by apply exchange_sort_spec. Qed.

(** ** Retention *)

Definition of_pvc (p : string) (s : VolumeSnapshot) : bool := bool_decide (vs_PVCName s = Some p).

Lemma group_by_pvc_spec items m p :
  default [] (group_by_pvc items m !! p) =
  default [] (m !! p) ++ List.filter (of_pvc p) items.
Proof.
  revert m. induction items as [|s items IH]; intros m; cbn [group_by_pvc List.filter].
  - by rewrite app_nil_r.
  - unfold of_pvc at 1. destruct (vs_PVCName s) as [q|] eqn:Hq; rewrite IH.
    + destruct (decide (q = p)) as [->|Hne].
      * rewrite lookup_insert_eq, bool_decide_eq_true_2 by done. cbn. by rewrite <- app_assoc.
      * rewrite lookup_insert_ne, bool_decide_eq_false_2 by congruence. done.
    + by rewrite bool_decide_eq_false_2.
Qed.

Lemma group_all items p :
  default [] (group_by_pvc items ∅ !! p) = List.filter (of_pvc p) items.
Proof. rewrite group_by_pvc_spec. by rewrite lookup_empty. Qed.

(** The groups are the snapshots of each claim, in the order they were listed. *)
Lemma group_of items p g :
  group_by_pvc items ∅ !! p = Some g → g = List.filter (of_pvc p) items.
Proof. intros Hg. pose proof (group_all items p) as H. by rewrite Hg in H. Qed.

Lemma grouped items s p :
  In s items → vs_PVCName s = Some p → ∃ g, group_by_pvc items ∅ !! p = Some g ∧ In s g.
Proof.
  intros Hin Hp. pose proof (group_all items p) as H.
  assert (In s (List.filter (of_pvc p) items)) as Hs.
  { apply filter_In. split; [done|]. unfold of_pvc. by apply bool_decide_eq_true_2. }
  destruct (group_by_pvc items ∅ !! p) as [g|]; cbn in H; [|by rewrite <- H in Hs].
  exists g. split; [done|]. by rewrite H.
Qed.

Section retention.
Context {P : Platform}.
Variable maxCount : Z.
Hypothesis Hmax : 0 <= maxCount.
Notation n := (Z.to_nat maxCount).

(** [s] is one of the snapshots of [group] past the [n] newest: those are as new as it. *)
Definition surplus (group : list VolumeSnapshot) (s : VolumeSnapshot) : Prop :=
  ∃ kept, length kept = n ∧ s :: kept ⊆+ group ∧ Forall (λ k, newer k s) kept.

Lemma sorted_split (l1 l2 : list VolumeSnapshot) s :
  StronglySorted newer (l1 ++ l2) → In s l2 → Forall (λ k, newer k s) l1.
Proof.
  intros Hs Hin. induction l1 as [|k l1 IH]; cbn in *; [constructor|].
  inversion Hs; subst. constructor; [|by apply IH].
  eapply Forall_forall; [eassumption|]. apply list_elem_of_In, in_app_iff. by right.
Qed.

Lemma dropped_surplus g s :
  In s (drop n (sortSnapshotsByCreationTime g)) → surplus g s.
Proof.
  intros Hin. destruct (exchange_sort_spec (length g) g) as [Hp Hs]; [done|].
  fold (sortSnapshotsByCreationTime g) in Hp, Hs. set (l := sortSnapshotsByCreationTime g) in *.
  exists (take n l). rewrite <- (take_drop n l) in Hs, Hp. repeat split.
  - rewrite length_take. pose proof (length_drop l n) as Hd.
    destruct (drop n l); [done|]. cbn in Hd. lia.
  - rewrite <- Hp. apply list_elem_of_In, elem_of_Permutation in Hin as [k ->].
    rewrite Permutation_app_comm. cbn. apply submseteq_skip, submseteq_inserts_l. done.
  - by eapply sorted_split.
Qed.

(** Deletions asked for, with or without success. *)
Definition attempted (s : VolumeSnapshot) (h : list event) : Prop :=
  ∃ a, In (Obs (DeleteSnapshotObj (keyOf (vs_Meta s))) a) h.

Lemma attempted_app d h s : attempted s h → attempted s (d ++ h).
Proof. intros [a Ha]. exists a. apply in_app_iff. auto. Qed.

Definition deletes (Q : VolumeSnapshot → Prop) : guarantee ev := λ _ R e,
  match e with
  | DeleteSnapshotObj k => ∃ s, Q s ∧ k = keyOf (vs_Meta s)
  | _ => mutates R e = false
  end.

(** Ends with a count, after more calls, all of [l] attempted. *)
Definition attempts (l : list VolumeSnapshot) (h0 : list event) (o : outcome Z) (h : list event)
    : Prop :=
  (∃ c, o = Done c) ∧ (∃ d, h = d ++ h0) ∧ ∀ s, In s l → attempted s h.

Lemma delete_all_wp (Q : VolumeSnapshot → Prop) l c h0 :
  (∀ s, In s l → Q s) →
  wp any (deletes Q) (delete_all l c) h0 (attempts l h0).
Proof.
  revert c h0. induction l as [|s l IH]; intros c h0 HQ; cbn [delete_all].
  - cbn. split; [by eexists|]. split; [by exists []|done].
  - cbn [bind call wp]. split; [exists s; split; [apply HQ; by left|done]|].
    assert (∀ c a, wp any (deletes Q) (delete_all l c)
              (Obs (DeleteSnapshotObj (keyOf (vs_Meta s))) a :: h0) (attempts (s :: l) h0)) as Hgo.
    { intros c' a. eapply wp_mono; [apply IH; intros; apply HQ; by right|done|].
      intros o h (Hc & (d & ->) & Hall). split; [done|].
      split; [exists (d ++ [Obs (DeleteSnapshotObj (keyOf (vs_Meta s))) a]);
              by rewrite <- app_assoc|].
      intros x [<-|Hx]; [|by apply Hall]. exists a. apply in_app_iff. right. by left. }
    intros [e|] _; apply Hgo.
Qed.

Lemma prune_groups_wp (Q : VolumeSnapshot → Prop) groups c h0 :
  (∀ g s, In g groups → In s (drop n (sortSnapshotsByCreationTime g)) → Q s) →
  wp any (deletes Q) (prune_groups groups maxCount c) h0
    (attempts (mjoin (map (λ g, drop n (sortSnapshotsByCreationTime g)) groups)) h0).
Proof.
  revert c h0. induction groups as [|g groups IH]; intros c h0 HQ; cbn [prune_groups].
  - cbn. split; [by eexists|]. split; [by exists []|done].
  - assert (∀ c d, (∀ s, In s (drop n (sortSnapshotsByCreationTime g)) → attempted s (d ++ h0)) →
      wp any (deletes Q) (prune_groups groups maxCount c) (d ++ h0)
        (attempts (mjoin (map (λ g, drop n (sortSnapshotsByCreationTime g)) (g :: groups))) h0))
      as Hgo.
    { intros c' d Hg. eapply wp_mono; [apply IH|done|].
      - intros g' s Hin. apply HQ. by right.
      - intros o h (Hc & (d' & ->) & Hall). split; [done|].
        split; [exists (d' ++ d); by rewrite app_assoc|].
        intros s Hs. cbn in Hs. apply in_app_iff in Hs as [Hs|Hs]; [|by apply Hall].
        by apply attempted_app, Hg. }
    destruct (Z.leb_spec (len g) maxCount) as [Hle|Hgt].
    + apply (Hgo c []). intros s Hs. exfalso.
      destruct (exchange_sort_spec (length g) g) as [Hp _]; [done|].
      apply Permutation_length in Hp. unfold sortSnapshotsByCreationTime in Hs.
      rewrite drop_ge in Hs; [done|]. unfold len in Hle. lia.
    + unfold slice_from. rewrite (proj2 (Z.ltb_ge _ _) Hmax). cbn [bind].
      rewrite wp_bind. eapply wp_mono; [apply (delete_all_wp Q)|done|].
      * intros s. apply HQ. by left.
      * intros o h ((c' & ->) & (d & ->) & Hall). by apply Hgo.
Qed.
End retention.

Section retention_spec.
Context {P : Platform}.

Definition listed (appName ns : string) (items : list VolumeSnapshot) : event :=
  Obs (ListSnapshots ns {[ managed_app_label := appName ]}) (Ok items).

(** Every snapshot of the claim [p] was asked to be deleted, up to [n] of them. *)
Definition pruned (n : nat) (items : list VolumeSnapshot) (h : list event) (p : string) : Prop :=
  ∃ kept, (length kept <= n)%nat ∧
  ∀ s, In s items → vs_PVCName s = Some p → In s kept ∨ attempted s h.

Lemma pruned_all items groups n h0 o h :
  (∀ g, In g groups ↔ ∃ p, group_by_pvc items ∅ !! p = Some g) →
  attempts (mjoin (map (λ g, drop n (sortSnapshotsByCreationTime g)) groups)) h0 o h →
  ∀ p, pruned n items h p.
Proof.
  intros Hgroups (_ & _ & Hall) p.
  destruct (group_by_pvc items ∅ !! p) as [g|] eqn:Hg.
  - exists (take n (sortSnapshotsByCreationTime g)). split; [rewrite length_take; lia|].
    intros s Hin Hp. destruct (grouped items s p Hin Hp) as (g' & Hg' & Hs).
    rewrite Hg in Hg'. injection Hg' as <-.
    destruct (exchange_sort_spec (length g) g) as [Hperm _]; [done|].
    assert (In s (sortSnapshotsByCreationTime g)) as Hsort.
    { apply list_elem_of_In. unfold sortSnapshotsByCreationTime. rewrite Hperm.
      by apply list_elem_of_In. }
    rewrite <- (take_drop n) in Hsort. apply in_app_iff in Hsort as [?|Hd]; [by left|].
    right. apply Hall. apply list_elem_of_In, list_elem_of_join.
    exists (drop n (sortSnapshotsByCreationTime g)). split; [by apply list_elem_of_In|].
    apply list_elem_of_In, in_map_iff. exists g. split; [done|]. apply Hgroups. by exists p.
  - exists []. split; [cbn; lia|]. intros s Hin Hp.
    destruct (grouped items s p Hin Hp) as (g & Hg' & _). congruence.
Qed.

(** A snapshot is deleted only if the list just read holds enough newer ones. *)
Definition retention_guard (appName ns : string) (maxCount : Z) : guarantee ev := λ h R e,
  match e with
  | DeleteSnapshotObj k =>
      ∃ items p s, In (listed appName ns items) h ∧ vs_PVCName s = Some p
        ∧ k = keyOf (vs_Meta s)
        ∧ surplus maxCount (List.filter (of_pvc p) items) s
  | _ => mutates R e = false
  end.

(** No panic; nothing asked at limit zero; and otherwise every claim pruned. *)
Definition retention_done (appName ns : string) (maxCount : Z) (o : outcome (res Z))
    (h : list event) : Prop :=
  (∃ r, o = Done r) ∧ (maxCount = 0 → h = [])
  ∧ ∀ c, o = Done (Ok c) → 0 < maxCount →
      ∃ items, In (listed appName ns items) h ∧ ∀ p, pruned (Z.to_nat maxCount) items h p.

(** C38: retention.  With a limit of zero nothing is listed and nothing deleted.  With a
    limit [n], a snapshot is deleted only if the list just read holds [n] other
    snapshots of the same claim at least as new; and in the end all but at most [n]
    snapshots of every claim were asked to be deleted.  It never panics. *)
Theorem ApplyRetentionPolicy_spec appName ns maxCount :
  0 <= maxCount →
  wp any (retention_guard appName ns maxCount) (ApplyRetentionPolicy appName ns maxCount) []
    (retention_done appName ns maxCount).
Proof.
  intros Hmax. unfold ApplyRetentionPolicy. destruct (Z.eqb_spec maxCount 0) as [->|Hne].
  { cbn. split; [by eexists|]. split; [done|]. intros; lia. }
  cbn [bind call wp]. split; [done|]. intros [items|e] _; cbn [wp].
  2:{ split; [by eexists|]. by split. }
  set (h1 := [Obs _ _]).
  destruct (Z.eqb_spec (len items) 0) as [Hlen|_].
  { destruct items; [|unfold len in Hlen; cbn [length] in Hlen; lia]. cbn. split; [by eexists|]. split; [done|].
    intros c _ _. exists []. split; [by left|]. intros p. exists []. split; [cbn; lia|done]. }
  set (Q := λ s, ∃ p, vs_PVCName s = Some p
                      ∧ surplus maxCount (List.filter (of_pvc p) items) s).
  set (Inv := λ h : list event, In (listed appName ns items) h).
  set (post := λ (o : outcome (res Z)) h, (∃ c, o = Done (Ok c))
                 ∧ ∀ p, pruned (Z.to_nat maxCount) items h p).
  eapply wp_mono; [apply (wp_invariant any (deletes Q) Inv _ _ post)| |].
  - rewrite wp_bind. eapply wp_mono; [apply map_values_wp| |].
    { intros h R e He. by destruct e. }
    intros o h (groups & -> & _ & Hgroups). rewrite wp_bind.
    eapply wp_mono; [apply (prune_groups_wp maxCount Hmax Q)|done|].
    + intros g s Hg Hs. apply Hgroups in Hg as [p Hp].
      pose proof (dropped_surplus maxCount g s Hs) as Hsur.
      rewrite (group_of _ _ _ Hp) in Hsur, Hs. exists p. split; [|done]. clear Hs.
      destruct Hsur as (kept & _ & Hsub & _).
      assert (s ∈ List.filter (of_pvc p) items) as Hin
        by (eapply elem_of_submseteq; [|exact Hsub]; left).
      apply list_elem_of_In, filter_In in Hin as [_ Hpvc].
      by apply bool_decide_eq_true in Hpvc.
    + intros o h' Hatt. pose proof (pruned_all items groups _ _ _ _ Hgroups Hatt) as Hall.
      destruct Hatt as ((c & ->) & _ & _). cbn [wp].
      split; [by eexists|done].
  - by left.
  - intros h R e r Hi _ _. by right.
  - intros h R e [He Hi]. destruct e; try exact He.
    destruct He as (s & (p & Hp & Hs) & ->). by exists items, p, s.
  - intros o h [[(c & ->) Hall] Hi]. split; [by eexists|]. split; [done|].
    intros _ _ _. by exists items.
Qed.
End retention_spec.

(** ** Creating and restoring *)

Section create_restore.
Context {P : Platform}.

(** The snapshot asked for a claim of an application at a given time. *)
Definition upgrade_snapshot (appName appNS class timestamp : string) (pvc : PVCRef)
    : VolumeSnapshot :=
  mkVolumeSnapshot
    (labelledMeta (snapshotName appName (pr_Name pvc) timestamp)
       (or_default (pr_Namespace pvc) appNS)
       {[ managed_app_label := appName; "fluxup.dev/purpose" := "pre-upgrade" ]})
    (Some (pr_Name pvc)) (ptr_if_set class) None.

(** The claim was there, its snapshot was created, and this is how it is reported. *)
Definition snapshot_taken (appName appNS class timestamp : string) (h : list event)
    (pvc : PVCRef) (info : SnapshotInfo) : Prop :=
  ∃ v, In (Obs (CreateSnapshotObj (upgrade_snapshot appName appNS class timestamp pvc)) (Ok v)) h
       ∧ info = mkSnapshotInfo (pr_Name pvc) (om_Name (vs_Meta v)) (om_Namespace (vs_Meta v)).

(** A snapshot is created only of a claim of the list, seen to exist just before. *)
Definition create_guard (appName appNS class timestamp : string) (pvcs : list PVCRef)
    : guarantee ev := λ h R e,
  match e with
  | CreateSnapshotObj s =>
      ∃ pvc obj h', In pvc pvcs ∧ s = upgrade_snapshot appName appNS class timestamp pvc
        ∧ h = Obs (GetPVC (mkKey (pr_Name pvc) (or_default (pr_Namespace pvc) appNS))) (Ok obj)
              :: h'
  | _ => mutates R e = false
  end.

Lemma create_snapshots_wp appName appNS class timestamp all pvcs done acc h0 :
  (∀ pvc, In pvc pvcs → In pvc all) →
  Forall2 (snapshot_taken appName appNS class timestamp h0) done acc →
  wp any (create_guard appName appNS class timestamp all)
    (create_snapshots appName appNS timestamp class pvcs acc) h0
    (λ o h, (∃ r, o = Done r) ∧ ∀ l, o = Done (Ok l) →
      Forall2 (snapshot_taken appName appNS class timestamp h) (done ++ pvcs) l).
Proof.
  revert done acc h0. induction pvcs as [|pvc pvcs IH]; intros done acc h0 Hin Hacc;
    cbn [create_snapshots].
  - cbn. split; [by eexists|]. intros l [= <-]. by rewrite app_nil_r.
  - unfold CreateSnapshot. cbn [sr_PVCName sr_PVCNamespace bind call wp].
    split; [done|]. intros [obj|e] _; cbn [bind wp]; [|by split; [eexists|]].
    split.
    { exists pvc, obj, h0. split; [apply Hin; by left|done]. }
    intros [v|e] _; cbn [bind wp]; [|by split; [eexists|]].
    set (h1 := Obs _ (Ok v) :: _).
    eapply wp_mono; [apply (IH (done ++ [pvc]))|done|].
    + intros. apply Hin. by right.
    + apply Forall2_app.
      * eapply Forall2_impl; [exact Hacc|]. intros q i (w & Hw & ->).
        exists w. split; [by right; right|done].
      * constructor; [|constructor]. exists v. split; [by left|done].
    + intros o h [Hr Hl]. split; [done|]. intros l Ho. specialize (Hl l Ho).
      by rewrite <- app_assoc in Hl.
Qed.

(** Taking the snapshots of an upgrade.  Each snapshot is created from a claim of the
    list seen just before, labelled for the application and named after the claim and one
    common timestamp; success means one per claim, in the order of the list. *)
Theorem CreateSnapshotsForUpgrade_spec appName appNS pvcs class :
  wp any
    (λ h R e, match e with
              | CreateSnapshotObj s =>
                  ∃ now h1 h2, h = h1 ++ [Obs Now now] ++ h2 ∧
                    create_guard appName appNS class (format_compact (LocalOffset now) now)
                      pvcs h R e
              | _ => mutates R e = false
              end)
    (CreateSnapshotsForUpgrade appName appNS pvcs class) []
    (λ o h, (∃ r, o = Done r) ∧ ∀ l, o = Done (Ok l) →
       ∃ now, In (Obs Now now) h
              ∧ Forall2 (snapshot_taken appName appNS class
                           (format_compact (LocalOffset now) now) h) pvcs l).
Proof.
  unfold CreateSnapshotsForUpgrade. cbn [bind call wp]. split; [done|]. intros now _.
  set (t := format_compact _ _). set (Inv := λ h : list event, In (Obs Now now) h).
  eapply wp_mono;
    [apply (wp_invariant any (create_guard appName appNS class t pvcs) Inv _ _
              (λ o h, (∃ r, o = Done r) ∧ ∀ l, o = Done (Ok l) →
                 Forall2 (snapshot_taken appName appNS class t h) pvcs l))| |].
  - apply (create_snapshots_wp _ _ _ _ pvcs pvcs [] []); [done|constructor].
  - by left.
  - intros h R e r Hi _ _. by right.
  - intros h R e [He Hi]. destruct e; try exact He.
    apply in_split in Hi as (h1 & h2 & ->). by exists now, h1, h2.
  - intros o h [[Hr Hl] Hi]. split; [done|]. intros l Ho. exists now. auto.
Qed.

(** Restoring.  A claim is created only from a snapshot just seen to be ready, with a
    known size: it asks for that size, read-write-once, and names the snapshot as its
    source; anything else is an error and writes nothing. *)
Theorem RestorePVCFromSnapshot_spec req :
  wp any
    (λ h R e, match e with
              | CreatePVC p =>
                  ∃ snap st size,
                    h = [Obs (GetSnapshot (mkKey (rr_SnapshotName req)
                                             (rr_SnapshotNamespace req))) (Ok snap)]
                    ∧ vs_Status snap = Some st ∧ vss_ReadyToUse st = Some true
                    ∧ vss_RestoreSize st = Some size
                    ∧ keyOf (pvc_Meta p) = mkKey (rr_NewPVCName req) (rr_NewPVCNamespace req)
                    ∧ pvc_AccessModes p = [ReadWriteOnce] ∧ pvc_StorageRequest p = Some size
                    ∧ pvc_DataSource p =
                        Some (mkDataSource "snapshot.storage.k8s.io" "VolumeSnapshot"
                                (rr_SnapshotName req))
              | _ => mutates R e = false
              end)
    (RestorePVCFromSnapshot req) []
    (λ o h, ∃ r, o = Done r ∧ (is_ok r = true ↔
       ∃ p v h', h = Obs (CreatePVC p) (Ok v) :: h' ∧ r = Ok v)).
Proof.
  unfold RestorePVCFromSnapshot. cbn [bind call wp]. split; [done|].
  intros [snap|e] _; cbn [wp].
  2:{ eexists. split; [done|]. cbn. naive_solver. }
  destruct (vs_Status snap) as [st|] eqn:Hst; cbn [wp].
  2:{ eexists. split; [done|]. cbn. naive_solver. }
  destruct (vss_ReadyToUse st) as [[]|] eqn:Hready; cbn [default negb wp];
    try (eexists; split; [done|]; cbn; naive_solver).
  destruct (vss_RestoreSize st) as [size|] eqn:Hsize; cbn [wp];
    [|eexists; split; [done|]; cbn; naive_solver].
  split; [by exists snap, st, size|].
  intros [v|e] _; cbn [bind wp]; eexists; (split; [done|]); cbn; [|naive_solver].
  split; [|done]. intros _. by eexists _, v, _.
Qed.
End create_restore.

Lemma ApplyRetentionPolicy_spec_witness :
  wp any (retention_guard "shop" "apps" 2) (ApplyRetentionPolicy "shop" "apps" 2) []
    (retention_done "shop" "apps" 2).
Proof. apply (ApplyRetentionPolicy_spec "shop" "apps" 2). lia. Defined.
