(* ===== verification/Health.v ===== *)
(** * internal/health/check.go: is an application healthy? *)

From S2P Require Import Prelude GoLib Api Platform Footprint Discovery Workload.

Record WorkloadStatus := mkWorkloadStatus {
  ws_Kind : string;
  ws_Name : string;
  ws_Namespace : string;
  ws_DesiredReplicas : Z;
  ws_ReadyReplicas : Z;
  ws_Ready : bool }.

Record Result := mkResult {
  hr_Healthy : bool;
  hr_FluxReady : bool;
  hr_WorkloadsReady : bool;
  hr_Message : string;
  hr_WorkloadStatuses : list WorkloadStatus }.

Section health.
Context {P : Platform} {D : Decoders}.

(** The loop over the conditions: the first Ready condition decides. *)
Fixpoint flux_verdict (conds : list Condition) : bool * string :=
  match conds with
  | [] => (false, "Kustomization has no Ready condition")
  | cond :: conds =>
      if c_Type cond =?s "Ready" then
        if c_Status cond =?s ConditionTrue then (true, "Kustomization is ready")
        else (false, "Kustomization not ready: " +:+ c_Message cond)
      else flux_verdict conds
  end.

Definition checkFluxResourceReady (app : ManagedApp) : M (res (bool * string)) :=
  let ref := as_KustomizationRef (app_Spec app) in
  let ns := or_default (ref_Namespace ref) DefaultFluxNamespace in
  let? ks := call (GetKustomization (mkKey (ref_Name ref) ns)) orelse err => Ret (Err err) in
  Ret (Ok (flux_verdict (ks_Conditions ks))).

Definition workload_status (kind name namespace : string) (w : Workload) : WorkloadStatus :=
  let desired := replicas_or_1 w in
  let ready := w_ReadyReplicas w in
  mkWorkloadStatus kind name namespace desired ready ((desired =? 0) || (desired <=? ready)).

Definition checkWorkloadReady (kind name namespace : string) : M (res WorkloadStatus) :=
  let key := mkKey name namespace in
  if kind =?s "Deployment" then
    let? deploy := call (GetDeployment key)
      orelse err => Ret (Err (Errorf_w "getting deployment: " err)) in
    Ret (Ok (workload_status kind name namespace deploy))
  else if kind =?s "StatefulSet" then
    let? sts := call (GetStatefulSet key)
      orelse err => Ret (Err (Errorf_w "getting statefulset: " err)) in
    Ret (Ok (workload_status kind name namespace sts))
  else Ret (Err (unsupported_kind kind)).

(** The loop of [CheckHealth] over the discovered workloads. *)
Fixpoint check_workloads (workloads : list WorkloadInfo) (appNamespace : string)
    (statuses : list WorkloadStatus) : M (res (list WorkloadStatus)) :=
  match workloads with
  | [] => Ret (Ok statuses)
  | w :: workloads =>
      let ns := or_default (wi_Namespace w) appNamespace in
      let? status := checkWorkloadReady (wi_Kind w) (wi_Name w) ns
        orelse err => Ret (Err (Errorf_w ("checking workload " +:+ ns +:+ "/" +:+ wi_Name w
                                          +:+ ": ") err)) in
      check_workloads workloads appNamespace (statuses ++ [status])
  end.

Definition count_not_ready (statuses : list WorkloadStatus) : Z :=
  len (List.filter (λ ws, negb (ws_Ready ws)) statuses).

Definition CheckHealth (app : ManagedApp) : M (res Result) :=
  let? flux := checkFluxResourceReady app
    orelse err => Ret (Err (Errorf_w "checking Flux resource: " err)) in
  let '(fluxReady, fluxMsg) := flux in
  if negb fluxReady then Ret (Ok (mkResult false fluxReady false fluxMsg []))
  else
    let? workloads := DiscoverWorkloads app
      orelse err => Ret (Err (Errorf_w "discovering workloads: " err)) in
    if len workloads =? 0 then
      Ret (Ok (mkResult true fluxReady true "Flux resource is ready, no workloads to check" []))
    else
      let? statuses := check_workloads workloads (om_Namespace (app_Meta app)) []
        orelse err => Ret (Err err) in
      let workloadsReady := forallb ws_Ready statuses in
      let healthy := fluxReady && workloadsReady in
      let message :=
        if healthy then
          "All checks passed: Flux ready, " +:+ itoa (len statuses) +:+ "/"
          +:+ itoa (len statuses) +:+ " workloads ready"
        else if negb workloadsReady then
          "Flux ready, but " +:+ itoa (count_not_ready statuses) +:+ "/"
          +:+ itoa (len statuses) +:+ " workloads not ready"
        else "" in
      Ret (Ok (mkResult healthy fluxReady workloadsReady message statuses)).

Definition IsHealthy (app : ManagedApp) : M (res bool) :=
  let? result := CheckHealth app orelse err => Ret (Err err) in
  Ret (Ok (hr_Healthy result)).
End health.

(** ** Footprints: health checks only read *)

Definition health_kinds : list kind := KGetWorkload :: discovery_kinds.

Section footprints.
Context {P : Platform} {D : Decoders}.

Lemma checkFluxResourceReady_within ks app :
  subk [KGetKs] ks = true → emits (within ks) (checkFluxResourceReady app).
Proof. intros. unfold checkFluxResourceReady. emits_tac. Qed.
Lemma checkWorkloadReady_within ks kd n ns :
  subk [KGetWorkload] ks = true → emits (within ks) (checkWorkloadReady kd n ns).
Proof. intros. unfold checkWorkloadReady. emits_tac. Qed.
End footprints.
#[export] Hint Resolve checkFluxResourceReady_within checkWorkloadReady_within : emits.

Section footprints2.
Context {P : Platform} {D : Decoders}.

Lemma check_workloads_within ks ws ns acc :
  subk [KGetWorkload] ks = true → emits (within ks) (check_workloads ws ns acc).
Proof.
  intros. revert acc. induction ws as [|w ws IH]; intros acc; cbn [check_workloads];
    emits_tac; apply IH.
Qed.
End footprints2.
#[export] Hint Resolve check_workloads_within : emits.

Section footprints3.
Context {P : Platform} {D : Decoders}.

Lemma CheckHealth_within ks app :
  subk health_kinds ks = true → emits (within ks) (CheckHealth app).
Proof. intros. unfold CheckHealth. emits_tac. Qed.
End footprints3.
#[export] Hint Resolve CheckHealth_within : emits.

(** ** What a health check promises *)

Section laws.
Context {P : Platform} {D : Decoders}.

(** The first Ready condition is True. *)
Lemma flux_verdict_ready conds :
  (flux_verdict conds).1 = true ↔
  ∃ before c after, conds = before ++ c :: after ∧ c_Type c = "Ready"
    ∧ c_Status c = ConditionTrue ∧ Forall (λ d, c_Type d ≠ "Ready") before.
Proof.
  induction conds as [|c conds IH]; cbn.
  - split; [done|]. intros (before & c & after & Heq & _). by destruct before.
  - destruct (seqb_spec (c_Type c) "Ready") as [Ht|Ht].
    + destruct (seqb_spec (c_Status c) ConditionTrue) as [Hs|Hs]; cbn.
      * split; [|done]. intros _. by exists [], c, conds.
      * split; [done|]. intros (before & d & after & Heq & _ & Hd & Hall).
        destruct before as [|d' before]; simplify_eq/=. by inversion Hall.
    + rewrite IH. split; intros (before & d & after & Heq & Hty & Hst & Hall).
      * subst. exists (c :: before), d, after. repeat split; auto.
      * destruct before as [|d' before]; simplify_eq/=.
        inversion Hall; subst. by exists before, d, after.
Qed.

(** The status reported for a workload is that of the workload read. *)
Definition status_read (h : list event) (s : WorkloadStatus) : Prop :=
  ∃ w, In (got (ws_Kind s) (mkKey (ws_Name s) (ws_Namespace s)) w) h
       ∧ s = workload_status (ws_Kind s) (ws_Name s) (ws_Namespace s) w.

Lemma status_read_app d h s : status_read h s → status_read (d ++ h) s.
Proof. intros (w & Hin & Hs). exists w. rewrite in_app_iff. auto. Qed.

Lemma checkWorkloadReady_wp kind name ns h0 :
  wp any free (checkWorkloadReady kind name ns) h0
    (λ o h, (∃ d, h = d ++ h0) ∧ ∀ s, o = Done (Ok s) →
      (ws_Kind s, ws_Name s, ws_Namespace s) = (kind, name, ns) ∧ status_read h s).
Proof.
  unfold checkWorkloadReady, status_read, got, workload_status.
  destruct (seqb_spec kind "Deployment") as [->|_];
    [|destruct (seqb_spec kind "StatefulSet") as [->|_]; [|by split; [exists []|]]].
  all: cbn; (split; [done|]); intros [w|e] _; cbn; (split; [by eexists [_]|]); [|done];
    intros s [= <-]; cbn; (split; [done|]); exists w; by auto.
Qed.

(** The status of a workload that was discovered, as it was read. *)
Definition workload_checked (appNS : string) (h : list event) (w : WorkloadInfo)
    (s : WorkloadStatus) : Prop :=
  (ws_Kind s, ws_Name s, ws_Namespace s) = (wi_Kind w, wi_Name w, or_default (wi_Namespace w) appNS)
  ∧ status_read h s.
(** A workload that could not be read, and the error it gives. *)
Definition workload_unread (appNS : string) (h : list event) (w : WorkloadInfo) (e : error) : Prop :=
  let ns := or_default (wi_Namespace w) appNS in
  ∃ e0, ever h (checkWorkloadReady (wi_Kind w) (wi_Name w) ns) (Err e0)
        ∧ e = Errorf_w ("checking workload " +:+ ns +:+ "/" +:+ wi_Name w +:+ ": ") e0.

(** The loop answers one status per workload, in order, each as read, or the error of one. *)
Lemma check_workloads_wp ws appNS h0 done acc :
  Forall2 (workload_checked appNS h0) done acc →
  wp any free (check_workloads ws appNS acc) h0
    (λ o h, match o with
            | Done (Ok l) => Forall2 (workload_checked appNS h) (done ++ ws) l
            | Done (Err e) => ∃ w, In w ws ∧ workload_unread appNS h w e
            | Panicked _ => True
            end).
Proof.
  revert done acc h0. induction ws as [|w ws IH]; intros before acc h0 Hacc; cbn [check_workloads wp].
  { by rewrite app_nil_r. }
  rewrite wp_bind. eapply wp_mono; [apply wp_conj; [apply checkWorkloadReady_wp|apply ran_free]|done|].
  intros [[s|e]|m] h [[[d ->] Hs] (d' & Hd & Hran)]; cbn [wp]; [| |done].
  - destruct (Hs s eq_refl) as [Hid Hread].
    eapply wp_mono; [apply (IH (before ++ [w]))|done|].
    + apply Forall2_app; [|by repeat constructor].
      eapply Forall2_impl; [exact Hacc|]. intros x y [? ?]. split; [done|]. by apply status_read_app.
    + intros [[l|e]|m] h'; cbn; [by rewrite <- app_assoc| |done].
      intros (w' & Hin & Hw'). exists w'. by auto.
  - exists w. split; [by left|]. exists e. split; [|done]. rewrite Hd. by apply ran_ever, Hran.
Qed.

Lemma ready_desired h s :
  status_read h s →
  ws_Ready s = true ↔ ws_DesiredReplicas s = 0 ∨ ws_DesiredReplicas s <= ws_ReadyReplicas s.
Proof.
  intros (w & _ & ->). cbn. rewrite orb_true_iff, Z.eqb_eq, Z.leb_le. done.
Qed.

Lemma all_ready h l :
  Forall (status_read h) l →
  forallb ws_Ready l = true ↔
  Forall (λ s, ws_DesiredReplicas s = 0 ∨ ws_DesiredReplicas s <= ws_ReadyReplicas s) l.
Proof.
  induction 1 as [|s l Hs Hl IH]; cbn; [done|].
  rewrite andb_true_iff, Forall_cons, IH, (ready_desired h s Hs). done.
Qed.

(** Where [checkFluxResourceReady] looks. *)
Definition flux_key (app : ManagedApp) : NamespacedName :=
  mkKey (ref_Name (as_KustomizationRef (app_Spec app)))
    (or_default (ref_Namespace (as_KustomizationRef (app_Spec app))) DefaultFluxNamespace).
Definition flux_seen (app : ManagedApp) (h : list event) (ready : bool) : Prop :=
  ∃ ks, In (Obs (GetKustomization (flux_key app)) (Ok ks)) h
        ∧ (flux_verdict (ks_Conditions ks)).1 = ready.
Definition replicas_ready (s : WorkloadStatus) : Prop :=
  ws_DesiredReplicas s = 0 ∨ ws_DesiredReplicas s <= ws_ReadyReplicas s.

(** What is said of an application whose Kustomization is ready. *)
Definition workloads_message (l : list WorkloadStatus) : string :=
  let total := itoa (len l) in
  if len l =? 0 then "Flux resource is ready, no workloads to check"
  else if forallb ws_Ready l then
    "All checks passed: Flux ready, " +:+ total +:+ "/" +:+ total +:+ " workloads ready"
  else "Flux ready, but " +:+ itoa (count_not_ready l) +:+ "/" +:+ total +:+ " workloads not ready".

(** The verdict on an application whose Kustomization was read: it is not looked at further if
    it is not ready, otherwise there is a status for each workload discovered. *)
Definition verdict_found (app : ManagedApp) (h : list event) (ks : Kustomization) (res : Result)
    : Prop :=
  let '(ready, message) := flux_verdict (ks_Conditions ks) in
  hr_FluxReady res = ready ∧ hr_Healthy res = ready && hr_WorkloadsReady res
  ∧ if ready then
      ∃ ws, ever h (DiscoverWorkloads app) (Ok ws)
        ∧ Forall2 (workload_checked (om_Namespace (app_Meta app)) h) ws (hr_WorkloadStatuses res)
        ∧ (hr_WorkloadsReady res = true ↔ Forall replicas_ready (hr_WorkloadStatuses res))
        ∧ hr_Message res = workloads_message (hr_WorkloadStatuses res)
    else hr_WorkloadsReady res = false ∧ hr_WorkloadStatuses res = [] ∧ hr_Message res = message.
(** What went wrong, in the order of the check. *)
Definition unchecked (app : ManagedApp) (h : list event) (e : error) : Prop :=
  (∃ e0, In (Obs (GetKustomization (flux_key app)) (Err e0)) h
         ∧ e = Errorf_w "checking Flux resource: " e0)
  ∨ flux_seen app h true
    ∧ ((∃ e0, ever h (DiscoverWorkloads app) (Err e0) ∧ e = Errorf_w "discovering workloads: " e0)
       ∨ ∃ ws w, ever h (DiscoverWorkloads app) (Ok ws) ∧ In w ws
                 ∧ workload_unread (om_Namespace (app_Meta app)) h w e).
(** What the answer of a health check says of the calls made for it. *)
Definition health_found (app : ManagedApp) (h : list event) (r : res Result) : Prop :=
  match r with
  | Ok res => ∃ ks, In (Obs (GetKustomization (flux_key app)) (Ok ks)) h ∧ verdict_found app h ks res
  | Err e => unchecked app h e
  end.

Lemma flux_seen_app app d h b : flux_seen app h b → flux_seen app (d ++ h) b.
Proof. intros (ks & Hin & Hv). exists ks. rewrite in_app_iff. auto. Qed.
Lemma Forall2_checked_read appNS h ws l :
  Forall2 (workload_checked appNS h) ws l → Forall (status_read h) l.
Proof. induction 1 as [|w s ws l [_ Hs]]; auto. Qed.

Lemma CheckHealth_wp app h0 :
  wp any free (CheckHealth app) h0
    (λ o h, (∃ d, h = d ++ h0) ∧ ∀ r, o = Done r → health_found app h r).
Proof.
  apply wp_conj; [apply wp_extends|].
  unfold CheckHealth, checkFluxResourceReady. cbn [bind call wp]. fold (flux_key app).
  split; [done|]. intros [ks|e] _; cbn [bind wp].
  2:{ intros r [= <-]. left. exists e. split; [by left|done]. }
  set (h1 := Obs (GetKustomization (flux_key app)) (Ok ks) :: h0).
  assert (∀ d, In (Obs (GetKustomization (flux_key app)) (Ok ks)) (d ++ h1)) as Hin
    by (intros d; apply in_app_iff; right; by left).
  destruct (flux_verdict (ks_Conditions ks)) as [[] msg] eqn:Hks; cbn [negb wp fst] in *.
  2:{ intros r [= <-]. exists ks. split; [apply (Hin [])|]. unfold verdict_found. by rewrite Hks. }
  assert (∀ d, flux_seen app (d ++ h1) true) as Hseen
    by (intros d; exists ks; split; [apply Hin|by rewrite Hks]).
  rewrite wp_bind. eapply wp_mono; [apply ran_free|done|].
  intros [[ws|e]|m] h2 (d1 & -> & Hran); cbn [wp]; [| |done].
  2:{ intros r [= <-]. right. split; [apply Hseen|]. left. exists e. split; [|done].
      by apply ran_ever, Hran. }
  assert (ever (d1 ++ h1) (DiscoverWorkloads app) (Ok ws)) as Hws by by apply ran_ever, Hran.
  destruct (len ws =? 0) eqn:Hlen; cbn [wp].
  { destruct ws; [|done]. intros r [= <-]. exists ks. split; [apply Hin|]. unfold verdict_found.
    rewrite Hks. do 2 (split; [done|]). exists []. by repeat split. }
  rewrite wp_bind. eapply wp_mono;
    [apply wp_conj; [apply wp_extends|by apply (check_workloads_wp ws _ _ [] [])]|done|].
  intros [[l|e]|m] h3 [[d2 ->] Hl]; cbn [wp]; [| |done].
  - intros r [= <-]. exists ks. split; [rewrite app_assoc; apply Hin|]. unfold verdict_found.
    rewrite Hks. cbn. do 2 (split; [done|]). exists ws. split; [by apply ever_app|].
    split; [done|]. split; [eapply all_ready, Forall2_checked_read, Hl|].
    unfold workloads_message. apply Forall2_length in Hl. cbn in Hl. unfold len in *. rewrite <- Hl, Hlen.
    by destruct (forallb ws_Ready l).
  - intros r [= <-]. right. split; [rewrite app_assoc; apply Hseen|]. right.
    destruct Hl as (w & Hw & He). exists ws, w. split; [by apply ever_app|done].
Qed.

(** C37: an application is reported healthy exactly when its Kustomization, read in this
    check, has a first Ready condition that is True and every workload discovered in it, as it
    was read then, has all its replicas ready (or wants none).  The statuses reported are those
    of the workloads discovered, one for each and in their order; the message tells which check
    failed; an error is that of the Kustomization, of the discovery or of a workload discovered.
    Nothing is written. *)
Theorem CheckHealth_spec app :
  wp any (λ _ R e, mutates R e = false) (CheckHealth app) []
    (λ o h, ∀ r, o = Done r → health_found app h r).
Proof.
  eapply wp_mono; [apply (wp_emits_guard (within health_kinds))| |].
  - apply CheckHealth_wp.
  - by apply CheckHealth_within.
  - intros h R e. by apply within_reads.
  - by intros o h [_ H].
Qed.
End laws.
