(* ===== verification/Yaml.v ===== *)
(** * internal/yaml/editor.go: reading and setting the version in a manifest *)

From S2P Require Import Prelude GoLib Api Platform.

Definition DefaultHelmReleaseVersionPath : string := "spec.chart.spec.version".

(** kyaml: a document is a tree that the filters change in place, and an [RNode] they answer is
    one of its nodes.  Here a filter takes the document, and answers the changed one along with
    the node.  [yaml_LookupCreate path] is [LookupCreate(ScalarNode, path...)]; it answers no
    node where there is none and none can be made, such as an element past the end of a list.
    [yaml_FieldSetter v] is [FieldSetter{StringValue: v}], applied to a node. *)
Class Kyaml := {
  YDocument : Type;
  YNode : Type;
  yaml_Parse : string → res YDocument;
  yaml_LookupCreate : list string → YDocument → res (YDocument * option YNode);
  yaml_FieldSetter : string → YNode → YDocument → res YDocument;
  yaml_Lookup : list string → YDocument → res (option YNode);
  yaml_GetValue : YDocument → YNode → string;
  yaml_String : YDocument → res string
}.

(** Scalars on which YAML has no view of its own: printable ASCII without spaces, and not one of
    the words for null. *)
Definition version_text (v : string) : bool :=
  string_forallb (λ c, let n := Ascii.nat_of_ascii c in (33 <=? n)%nat && (n <=? 126)%nat) v
  && negb (existsb (String.eqb v) [""; "~"; "null"; "Null"; "NULL"]).

(** What kyaml documents of each operation on its own.  An empty [StringValue] sets nothing. *)
Class KyamlLaws (Y : Kyaml) : Prop := {
  (* the node a path leads to, or was made for, is looked up by that path once it has a value *)
  created_found path v n n1 x n2 :
    path ≠ [] → version_text v = true →
    yaml_LookupCreate path n = Ok (n1, Some x) → yaml_FieldSetter v x n1 = Ok n2 →
    yaml_Lookup path n2 = Ok (Some x);
  (* what is there already is not made *)
  found_kept path n x :
    yaml_Lookup path n = Ok (Some x) → version_text (yaml_GetValue n x) = true →
    ∀ n1 y, yaml_LookupCreate path n = Ok (n1, y) → n1 = n ∧ y = Some x;
  setter_value v x n n' :
    version_text v = true → yaml_FieldSetter v x n = Ok n' → yaml_GetValue n' x = v;
  setter_empty x n n' : yaml_FieldSetter "" x n = Ok n' → n' = n;
  (* a document that is printed parses, and has the same scalars at the same paths *)
  print_parse n s :
    yaml_String n = Ok s →
    ∃ m, yaml_Parse s = Ok m
      ∧ ∀ path x, yaml_Lookup path n = Ok (Some x) → version_text (yaml_GetValue n x) = true →
        ∃ y, yaml_Lookup path m = Ok (Some y) ∧ yaml_GetValue m y = yaml_GetValue n x
}.

(** ** parseVersionPath

The scanner is written over the rest of the path and the part being read, [cur],
reversed ([strings.Builder] holds it in order).  [flush] is the repeated
[if current.Len() > 0 { parts = append(parts, current.String()); current.Reset() }]. *)

Definition flush (cur : string) (parts : list string) : list string :=
  if cur =?s "" then parts else parts ++ [string_rev cur].

(** Read up to the byte [stop], not included; the part read (reversed) and the rest. *)
Fixpoint read_until (stop : Ascii.ascii) (s cur : string) : string * string :=
  match s with
  | "" => (cur, "")
  | String c s' => if Ascii.eqb c stop then (cur, s) else read_until stop s' (String c cur)
  end.

Definition skip_byte (c : Ascii.ascii) (s : string) : string :=
  match s with String d s' => if Ascii.eqb d c then s' else s | "" => "" end.

Definition single_quote : Ascii.ascii := "039"%char.
Definition double_quote : Ascii.ascii := "034"%char.

(** The content of a bracket, given the text after [\[]: quoted up to the same quote (which
    is skipped), unquoted up to [\]]. *)
Definition bracket_content (s : string) : string * string :=
  match s with
  | String c s' =>
      if Ascii.eqb c single_quote || Ascii.eqb c double_quote then
        let '(cur, rest) := read_until c s' "" in (cur, skip_byte c rest)
      else read_until "]"%char s ""
  | "" => ("", "")
  end.

(** The main loop.  Every round consumes at least one byte, so fuel for the length is enough
    ([path_loop_fuel]). *)
Fixpoint path_loop (fuel : nat) (s cur : string) (parts : list string) : list string :=
  match fuel, s with
  | _, "" => flush cur parts
  | O, _ => parts
  | S fuel, String ch s' =>
      if Ascii.eqb ch "."%char then path_loop fuel s' "" (flush cur parts)
      else if Ascii.eqb ch "["%char then
        let parts := flush cur parts in
        match s' with
        | "" => path_loop fuel "" "" parts
        | _ =>
            let '(content, rest) := bracket_content s' in
            path_loop fuel (skip_byte "]"%char rest) "" (flush content parts)
        end
      else path_loop fuel s' (String ch cur) parts
  end.

Definition parseVersionPath (path : string) : list string :=
  let path := TrimPrefix path "." in
  path_loop (String.length path) path "" [].

Section editor.
Context {Y : Kyaml}.

Definition UpdateVersion (content versionPath newVersion : string) : res string :=
  match yaml_Parse content with
  | Err err => Err (Errorf_w "parsing YAML: " err)
  | Ok obj =>
      let pathParts := parseVersionPath versionPath in
      let set :=
        match yaml_LookupCreate pathParts obj with
        | Err err => Err err
        | Ok (obj, None) => Ok obj
        | Ok (obj, Some node) => yaml_FieldSetter newVersion node obj
        end in
      match set with
      | Err err => Err (Errorf_w ("setting version at path " +:+ versionPath +:+ ": ") err)
      | Ok obj =>
          match yaml_String obj with
          | Err err => Err (Errorf_w "serializing YAML: " err)
          | Ok result => Ok result
          end
      end
  end.

Definition UpdateHelmReleaseVersion (content newVersion : string) : res string :=
  UpdateVersion content DefaultHelmReleaseVersionPath newVersion.

Definition GetVersion (content versionPath : string) : res string :=
  match yaml_Parse content with
  | Err err => Err (Errorf_w "parsing YAML: " err)
  | Ok obj =>
      let pathParts := parseVersionPath versionPath in
      match yaml_Lookup pathParts obj with
      | Err err => Err (Errorf_w ("looking up path " +:+ versionPath +:+ ": ") err)
      | Ok None => Err (ErrNew ("version not found at path: " +:+ versionPath))
      | Ok (Some node) =>
          let value := yaml_GetValue obj node in
          if value =?s "" then Err (ErrNew ("empty version at path: " +:+ versionPath))
          else Ok value
      end
  end.

Definition IsHelmRelease (content : string) : bool :=
  match yaml_Parse content with
  | Err _ => false
  | Ok obj =>
      match yaml_Lookup ["kind"] obj with
      | Err _ | Ok None => false
      | Ok (Some node) => yaml_GetValue obj node =?s "HelmRelease"
      end
  end.
End editor.

Definition DetermineVersionPath (datasource : string) : string :=
  if datasource =?s "helm" then DefaultHelmReleaseVersionPath else "".

Example path_ex1 : parseVersionPath ".spec.containers[0].image" = ["spec"; "containers"; "0"; "image"].
Proof. reflexivity. Qed.
Example path_ex2 :
  parseVersionPath "metadata.annotations['app.kubernetes.io/version']"
  = ["metadata"; "annotations"; "app.kubernetes.io/version"].
Proof. reflexivity. Qed.

(** ** The scanner never runs out of fuel, and its parts are never empty *)

Lemma read_until_length c s cur :
  (String.length (read_until c s cur).2 <= String.length s)%nat.
Proof.
  revert cur. induction s as [|d s IH]; intros cur; cbn [read_until String.length]; [done|].
  destruct (Ascii.eqb d c); cbn [snd String.length]; [done|]. specialize (IH (String d cur)). lia.
Qed.

Lemma skip_byte_length c s : (String.length (skip_byte c s) <= String.length s)%nat.
Proof. destruct s as [|d s]; cbn; [done|]. destruct (Ascii.eqb d c); cbn; lia. Qed.

Lemma bracket_content_length s :
  (String.length (bracket_content s).2 <= String.length s)%nat.
Proof.
  destruct s as [|c s]; cbn [bracket_content]; [done|].
  destruct (_ || _).
  - pose proof (read_until_length c s "") as Hr. destruct (read_until c s "") as [cur rest].
    pose proof (skip_byte_length c rest). cbn [snd String.length] in *. lia.
  - apply read_until_length.
Qed.

Lemma path_loop_fuel f1 f2 s cur parts :
  (String.length s <= f1)%nat → (String.length s <= f2)%nat →
  path_loop f1 s cur parts = path_loop f2 s cur parts.
Proof.
  revert f2 s cur parts. induction f1 as [|f1 IH]; intros f2 s cur parts H1 H2.
  - destruct s; [|cbn in H1; lia]. by destruct f2.
  - destruct s as [|c s]; [by destruct f2|].
    destruct f2 as [|f2]; [cbn in H2; lia|]. cbn [String.length] in H1, H2.
    cbn [path_loop]. destruct (Ascii.eqb c "."); [apply IH; lia|].
    destruct (Ascii.eqb c "["); [|apply IH; lia].
    destruct s as [|d s]; [apply IH; cbn; lia|].
    pose proof (bracket_content_length (String d s)) as Hb.
    destruct (bracket_content (String d s)) as [content rest].
    pose proof (skip_byte_length "]" rest). cbn [snd] in Hb.
    apply IH; lia.
Qed.

Lemma flush_nonempty cur parts :
  Forall (λ p, p ≠ "") parts → Forall (λ p, p ≠ "") (flush cur parts).
Proof.
  intros Hp. unfold flush. destruct (seqb_spec cur "") as [->|Hne]; [done|].
  apply Forall_app. split; [done|]. constructor; [|done].
  intros Hr. apply Hne. by rewrite <- (string_rev_involutive cur), Hr.
Qed.

Lemma path_loop_nonempty fuel s cur parts :
  Forall (λ p, p ≠ "") parts → Forall (λ p, p ≠ "") (path_loop fuel s cur parts).
Proof.
  revert s cur parts. induction fuel as [|fuel IH]; intros s cur parts Hp.
  - destruct s; cbn; [by apply flush_nonempty|done].
  - destruct s as [|c s]; cbn [path_loop]; [by apply flush_nonempty|].
    destruct (Ascii.eqb c "."); [by apply IH, flush_nonempty|].
    destruct (Ascii.eqb c "["); [|by apply IH].
    destruct s as [|d s]; [by apply IH, flush_nonempty|].
    destruct (bracket_content (String d s)). by apply IH, flush_nonempty, flush_nonempty.
Qed.

(** Parsing a version path.  The length of the path bounds the rounds of the scanner (any
    larger bound gives the same parts), and no part is empty, whatever the path. *)
Theorem parseVersionPath_total path fuel :
  let trimmed := TrimPrefix path "." in
  path_loop (String.length trimmed + fuel) trimmed "" [] = parseVersionPath path
  ∧ Forall (λ p, p ≠ "") (parseVersionPath path).
Proof.
  split; [apply path_loop_fuel; lia|]. by apply path_loop_nonempty.
Qed.

(** ** Printing paths *)

Inductive segment : Type :=
| Plain (s : string)                  (**r [.s] *)
| Quoted (q : Ascii.ascii) (s : string)   (**r [['s']] or with double quotes *)
| Index (s : string).                 (**r [[s]] *)
Definition seg_text (g : segment) : string :=
  match g with Plain s | Quoted _ s | Index s => s end.
Definition seg_ok (g : segment) : bool :=
  negb (seg_text g =?s "") &&
  match g with
  | Plain s => lacks "." s && lacks "[" s
  | Quoted q s => (Ascii.eqb q single_quote || Ascii.eqb q double_quote) && lacks q s
  | Index s => lacks "]" s
               && match s with
                  | String c _ => negb (Ascii.eqb c single_quote || Ascii.eqb c double_quote)
                  | "" => false
                  end
  end.
Definition print_seg (g : segment) : string :=
  match g with
  | Plain s => String "." s
  | Quoted q s => String "[" (String q (s +:+ String q "]"))
  | Index s => String "[" (s +:+ "]")
  end.
Fixpoint print_path (l : list segment) : string :=
  match l with [] => "" | g :: l => print_seg g +:+ print_path l end.

Lemma read_until_stop c s rest cur :
  lacks c s = true →
  read_until c (s +:+ String c rest) cur = (string_rev_app s cur, String c rest).
Proof.
  revert cur. induction s as [|d s IH]; intros cur Hs.
  - change ("" +:+ String c rest) with (String c rest). cbn [read_until].
    by rewrite Ascii.eqb_refl.
  - unfold lacks in Hs; cbn [string_forallb] in Hs.
    apply andb_true_iff in Hs as [Hd%negb_true_iff Hs].
    rewrite cons_app_string. cbn [read_until string_rev_app]. rewrite Hd. by apply IH.
Qed.

Lemma length_app_string a b :
  String.length (a +:+ b) = (String.length a + String.length b)%nat.
Proof.
  induction a as [|c a IH]; [done|]. rewrite cons_app_string. cbn [String.length]. lia.
Qed.

Lemma path_loop_plain s rest cur parts fuel :
  lacks "." s = true → lacks "[" s = true →
  (String.length (s +:+ rest) <= fuel)%nat →
  path_loop fuel (s +:+ rest) cur parts =
  path_loop (fuel - String.length s) rest (string_rev_app s cur) parts.
Proof.
  revert cur fuel. induction s as [|c s IH]; intros cur fuel Hd Hb Hf.
  - change ("" +:+ rest) with rest. by rewrite Nat.sub_0_r.
  - unfold lacks in Hd, Hb; cbn [string_forallb] in Hd, Hb.
    apply andb_true_iff in Hd as [Hd%negb_true_iff Hds].
    apply andb_true_iff in Hb as [Hb%negb_true_iff Hbs].
    rewrite cons_app_string in *. destruct fuel as [|fuel]; [cbn in Hf; lia|].
    cbn [path_loop string_rev_app String.length Nat.sub] in *. rewrite Hd, Hb.
    apply IH; [done|done|lia].
Qed.

Lemma flush_empty parts : flush "" parts = parts.
Proof. reflexivity. Qed.

Lemma flush_rev s parts : s ≠ "" → flush (string_rev s) parts = parts ++ [s].
Proof.
  intros Hs. unfold flush. destruct (seqb_spec (string_rev s) "") as [Hr|_].
  - exfalso. apply Hs. by rewrite <- (string_rev_involutive s), Hr.
  - by rewrite string_rev_involutive.
Qed.

(** The bracketed segments: what is left after [\[]. *)
Lemma path_loop_bracket fuel t content rest cur parts :
  t ≠ "" → bracket_content t = (string_rev content, String "]" rest) → content ≠ "" →
  (String.length t < fuel)%nat →
  path_loop fuel (String "[" t) cur parts =
  path_loop (String.length rest) rest "" (flush cur parts ++ [content]).
Proof.
  intros Ht Hb Hc Hf. destruct fuel as [|fuel]; [lia|]. cbn [path_loop].
  change (Ascii.eqb "[" ".") with false. change (Ascii.eqb "[" "[") with true. cbn iota.
  pose proof (bracket_content_length t) as Hlen. rewrite Hb in Hlen. cbn [snd String.length] in Hlen.
  destruct t as [|c t]; [done|]. rewrite Hb. cbn [skip_byte].
  rewrite Ascii.eqb_refl, (flush_rev content) by done. apply path_loop_fuel; lia.
Qed.

Lemma path_loop_print l cur parts fuel :
  forallb seg_ok l = true → (String.length (print_path l) <= fuel)%nat →
  path_loop fuel (print_path l) cur parts = flush cur parts ++ map seg_text l.
Proof.
  revert cur parts fuel. induction l as [|g l IH]; intros cur parts fuel Hok Hf.
  - cbn [print_path map]. rewrite app_nil_r. by destruct fuel.
  - cbn [forallb] in Hok. apply andb_true_iff in Hok as [Hg Hok].
    unfold seg_ok in Hg. apply andb_true_iff in Hg as [Hne%negb_true_iff Hg].
    apply seqb_neq in Hne. cbn [print_path map] in *. destruct g as [s|q s|s]; cbn [seg_text] in *.
    + apply andb_true_iff in Hg as [Hd Hb]. cbn [print_seg] in *.
      rewrite cons_app_string in *. destruct fuel as [|fuel]; [cbn in Hf; lia|].
      cbn [String.length] in Hf. cbn [path_loop]. change (Ascii.eqb "." ".") with true. cbn iota.
      rewrite path_loop_plain by (done || lia).
      change (string_rev_app s "") with (string_rev s).
      rewrite IH; [|done|rewrite length_app_string in Hf; lia].
      rewrite flush_rev by done. by rewrite <- app_assoc.
    + apply andb_true_iff in Hg as [Hq Hl]. cbn [print_seg] in *.
      rewrite cons_app_string in *. cbn [String.length] in Hf.
      erewrite (path_loop_bracket _ _ s (print_path l)); [|done| |done|lia].
      { rewrite IH, flush_empty by done. by rewrite <- app_assoc. }
      rewrite cons_app_string, string_app_assoc, cons_app_string. cbn [bracket_content].
      rewrite Hq, read_until_stop by done. cbn [skip_byte]. by rewrite Ascii.eqb_refl.
    + apply andb_true_iff in Hg as [Hl Hq]. cbn [print_seg] in *.
      rewrite cons_app_string in *. cbn [String.length] in Hf.
      destruct s as [|c s]; [done|]. apply negb_true_iff in Hq.
      erewrite (path_loop_bracket _ _ (String c s) (print_path l)); [|done| |done|lia].
      { rewrite IH, flush_empty by done. by rewrite <- app_assoc. }
      rewrite string_app_assoc. rewrite cons_app_string at 1. cbn [bracket_content].
      rewrite Hq. rewrite <- (cons_app_string c s).
      change ("]" +:+ print_path l) with (String "]" (print_path l)).
      by rewrite read_until_stop.
Qed.

Lemma HasPrefix_byte c d s : HasPrefix (String c s) (String d "") = Ascii.eqb d c.
Proof. cbn [HasPrefix]. destruct s; cbn [HasPrefix]; by rewrite andb_true_r. Qed.

Lemma HasPrefix_dot s : lacks "." s = true → HasPrefix s "." = false.
Proof.
  destruct s as [|c s]; [done|]. unfold lacks; cbn [string_forallb HasPrefix].
  intros [Hc%negb_true_iff _]%andb_true_iff.
  rewrite (Ascii.eqb_sym "." c), Hc. done.
Qed.

(** C39: version paths round-trip.  A path printed from segments, plain ones after a dot, an
    index or a quoted key in brackets, parses back to exactly their texts, with or without
    the dot in front; quoted keys may hold dots, slashes and brackets. *)
Theorem version_path_roundtrip l :
  forallb seg_ok l = true →
  parseVersionPath (print_path l) = map seg_text l
  ∧ ∀ s l', l = Plain s :: l' → parseVersionPath (s +:+ print_path l') = map seg_text l.
Proof.
  assert (∀ s l, forallb seg_ok (Plain s :: l) = true →
            path_loop (String.length (s +:+ print_path l)) (s +:+ print_path l) "" []
            = map seg_text (Plain s :: l)) as Hplain.
  { intros s l' Hok.
    pose proof (path_loop_print (Plain s :: l') "" [] _ Hok (Nat.le_refl _)) as Hp.
    cbn [print_path print_seg] in Hp. rewrite cons_app_string in Hp. exact Hp. }
  assert (∀ s l, forallb seg_ok (Plain s :: l) = true → HasPrefix (s +:+ print_path l) "." = false)
    as Hnodot.
  { intros s l' Hok. cbn [forallb seg_ok seg_text] in Hok.
    apply andb_true_iff in Hok as [[Hne%negb_true_iff [Hd _]%andb_true_iff]%andb_true_iff _].
    destruct s as [|c s]; [done|]. rewrite cons_app_string.
    apply HasPrefix_dot in Hd. by rewrite HasPrefix_byte in *. }
  intros Hok. split.
  - destruct l as [|[s|q s|s] l]; [done|..]; unfold parseVersionPath, TrimPrefix.
    + cbn [print_path print_seg]. rewrite cons_app_string.
      rewrite HasPrefix_byte. change (Ascii.eqb "." ".") with true. cbn iota.
      change (String.length ".") with 1%nat. cbn [drop_str]. by apply Hplain.
    + change (HasPrefix (print_path (Quoted q s :: l)) ".") with false. cbn iota.
      by rewrite path_loop_print.
    + change (HasPrefix (print_path (Index s :: l)) ".") with false. cbn iota.
      by rewrite path_loop_print.
  - intros s l' ->. unfold parseVersionPath, TrimPrefix. rewrite (Hnodot s l' Hok).
    by apply Hplain.
Qed.

Lemma version_path_roundtrip_witness :
  parseVersionPath ".spec.containers[0].image"
    = ["spec"; "containers"; "0"; "image"]
  ∧ ∀ s l', [Plain "spec"; Plain "containers"; Index "0"; Plain "image"] = Plain s :: l' →
      parseVersionPath (s +:+ print_path l') = ["spec"; "containers"; "0"; "image"].
Proof.
  apply (version_path_roundtrip [Plain "spec"; Plain "containers"; Index "0"; Plain "image"]).
  reflexivity.
Defined.

(** ** Writing a version and reading it back *)

Section editor_laws.
Context {Y : Kyaml} {YL : KyamlLaws Y}.

(** Does the path lead to a node of the document, or can one be made there? *)
Definition has_place (content path : string) : bool :=
  match yaml_Parse content with
  | Ok n => match yaml_LookupCreate (parseVersionPath path) n with
            | Ok (_, Some _) => true
            | _ => false
            end
  | Err _ => false
  end.

(** What a document says at a path is read from its text. *)
Lemma GetVersion_printed n s path x :
  yaml_String n = Ok s → yaml_Lookup (parseVersionPath path) n = Ok (Some x) →
  version_text (yaml_GetValue n x) = true → GetVersion s path = Ok (yaml_GetValue n x).
Proof.
  intros Hs Hx Hv. destruct (print_parse n s Hs) as (m & Hm & Hmx).
  destruct (Hmx _ _ Hx Hv) as (y & Hy & Hyv). unfold GetVersion. rewrite Hm, Hy, Hyv.
  destruct (seqb_spec (yaml_GetValue n x) "") as [He|]; [by rewrite He in Hv|done].
Qed.

End editor_laws.

(** ** A reference document format

Documents of two lines: the kind, then the value of every other path. *)

Definition line_break : Ascii.ascii := "010"%char.
Fixpoint first_line (s acc : string) : option (string * string) :=
  match s with
  | "" => None
  | String c s' =>
      if Ascii.eqb c line_break then Some (string_rev acc, s') else first_line s' (String c acc)
  end.
Definition two_lines : Kyaml := {|
  YDocument := string * string;
  YNode := bool;  (* the kind? *)
  yaml_Parse := λ s, match first_line s "" with
                     | Some d => Ok d
                     | None => Err (ErrNew "malformed document")
                     end;
  yaml_LookupCreate := λ path n, Ok (n, Some (bool_decide (path = ["kind"])));
  yaml_FieldSetter := λ v x n, if v =?s "" then Ok n else Ok (if x then (v, n.2) else (n.1, v));
  yaml_Lookup := λ path n, Ok (Some (bool_decide (path = ["kind"])));
  yaml_GetValue := λ n x, if x then n.1 else n.2;
  yaml_String := λ n, if string_forallb (λ c, negb (Ascii.eqb c line_break)) n.1
                      then Ok (n.1 +:+ String line_break n.2)
                      else Err (ErrNew "line break")
|}.

Lemma first_line_app k v acc :
  string_forallb (λ c, negb (Ascii.eqb c line_break)) k = true →
  first_line (k +:+ String line_break v) acc = Some (string_rev_app acc k, v).
Proof.
  revert acc. induction k as [|c k IH]; intros acc Hk; [done|].
  cbn [string_forallb] in Hk. apply andb_true_iff in Hk as [Hc%negb_true_iff Hk].
  change (first_line (String c k +:+ String line_break v) acc) with
    (if Ascii.eqb c line_break then Some (string_rev acc, k +:+ String line_break v)
     else first_line (k +:+ String line_break v) (String c acc)).
  by rewrite Hc, IH.
Qed.

#[export] Instance two_lines_laws : KyamlLaws two_lines.
Proof.
  split; cbn.
  - by intros path v n n1 x n2 _ _ [= <- <-].
  - by intros path n x [= <-] _ n1 y [= <- <-].
  - intros v x n n' Hv. destruct (seqb_spec v "") as [->|_]; [done|]. intros [= <-]. by destruct x.
  - by intros x n n' [= <-].
  - intros n s. destruct (string_forallb _ n.1) eqn:Hl; [|done]. intros [= <-].
    pose proof (first_line_app n.1 n.2 "" Hl) as Hf. cbn in Hf. rewrite Hf.
    eexists; split; [done|]. intros path x [= <-] _. eexists; split; [done|].
    by destruct (bool_decide _).
Qed.

