(* ===== verification/Git.v ===== *)
(** * internal/git: commit messages, and the Gitea implementation of [git.Manager] *)

From S2P Require Import Prelude GoLib Api Platform.

(** ** commit.go *)

Definition nl : string := String "010"%char "".

Fixpoint snapshot_lines (snapshots : list string) : string :=
  match snapshots with
  | [] => ""
  | snap :: snapshots => "- " +:+ snap +:+ nl +:+ snapshot_lines snapshots
  end.

Definition FormatCommitMessage (appName fromVersion toVersion : string) (snapshots : list string)
    : string :=
  "chore(deps): update " +:+ appName +:+ " to " +:+ toVersion +:+ nl +:+ nl
  +:+ "Upgrade triggered via FluxUp" +:+ nl
  +:+ (if 0 <? len snapshots
       then nl +:+ "Pre-upgrade snapshots:" +:+ nl +:+ snapshot_lines snapshots else "")
  +:+ nl +:+ "Managed-By: fluxup" +:+ nl
  +:+ (if negb (fromVersion =?s "") then "Previous-Version: " +:+ fromVersion +:+ nl else "").

Definition FormatRevertCommitMessage (appName fromVersion toVersion upgradeRequestName : string)
    : string :=
  "chore(rollback): revert " +:+ appName +:+ " to " +:+ toVersion +:+ nl +:+ nl
  +:+ "Rollback triggered via FluxUp" +:+ nl
  +:+ "Rolling back from: " +:+ fromVersion +:+ nl
  +:+ "Original upgrade: " +:+ upgradeRequestName +:+ nl
  +:+ nl +:+ "Managed-By: fluxup" +:+ nl.

(** ** gitea.go *)

(** What the Gitea SDK answers: [GetContents] a file's SHA and base64 content. *)
Record Contents := mkContents { ct_SHA : string; ct_Content : option string }.
(** The response to a file that was written: its SHA and URL are in [Commit], a pointer. *)
Record FileCommit := mkFileCommit { fc_SHA : string; fc_HTMLURL : string }.
Record FileResponse := mkFileResponse { fr_Commit : option FileCommit }.
(** A commit that is listed.  The SHA is that of the embedded [*CommitMeta], the message that of
    [*RepoCommit], the author's name that of [*User]. *)
Record GiteaCommit := mkGiteaCommit {
  gc_CommitMeta : option string; gc_RepoCommit : option string; gc_Author : option string;
  gc_HTMLURL : string }.
(** [FileOptions] with the content; [fo_SHA] only for an update. *)
Record FileOptions := mkFileOptions {
  fo_Message : string; fo_BranchName : string; fo_Content : string; fo_SHA : string }.

(** The SDK's calls; [GetContents] answers the pair of results and the status code of the
    response, when there was one.  What else is answered without an error is a pointer, or a
    list of pointers. *)
Inductive gitea_ev : Type → Type :=
| GetContents (owner repo ref path : string)
    : gitea_ev (option Contents * option Z * option error)
| CreateFile (owner repo path : string) (opts : FileOptions) : gitea_ev (res (option FileResponse))
| UpdateFile (owner repo path : string) (opts : FileOptions) : gitea_ev (res (option FileResponse))
| ListRepoCommits (owner repo sha : string) (pageSize : Z)
    : gitea_ev (res (list (option GiteaCommit))).

Notation GM A := (prog gitea_ev A).

Class GiteaLib := {
  base64_EncodeToString : string → string;
  base64_DecodeString : string → res string;
  (* url.Parse: scheme, host and path *)
  url_Parse : string → res (string * string * string);
  (* gitea.NewClient(baseURL, SetToken(token)) *)
  gitea_NewClient : string → string → option error
}.

Record GiteaManager := mkGiteaManager {
  g_owner : string; g_repo : string; g_branch : string }.

Record Config := mkConfig {
  cfg_Backend : string; cfg_RepoURL : string; cfg_Branch : string; cfg_Token : string }.

Section gitea.
Context {L : GiteaLib}.

Definition NewGiteaManager (cfg : Config) : res GiteaManager :=
  match url_Parse (cfg_RepoURL cfg) with
  | Err err => Err (Errorf_w "parsing repo URL: " err)
  | Ok (scheme, host, path) =>
      match Split1 (Trim1 path "/"%char) "/"%char with
      | owner :: repo :: _ =>
          let repo := TrimSuffix repo ".git" in
          let baseURL := scheme +:+ "://" +:+ host in
          match gitea_NewClient baseURL (cfg_Token cfg) with
          | Some err => Err (Errorf_w "creating gitea client: " err)
          | None =>
              let branch := if cfg_Branch cfg =?s "" then "main" else cfg_Branch cfg in
              Ok (mkGiteaManager owner repo branch)
          end
      | _ => Err (ErrNew ("invalid repo URL format: " +:+ cfg_RepoURL cfg
                          +:+ " (expected https://host/owner/repo)"))
      end
  end.

Definition NewManager (cfg : Config) : res GiteaManager :=
  if cfg_Backend cfg =?s "gitea" then NewGiteaManager cfg
  else Err (ErrNew ("unsupported git backend: " +:+ cfg_Backend cfg)).

Definition ReadFile (g : GiteaManager) (path : string) : GM (res string) :=
  let* answer := call (GetContents (g_owner g) (g_repo g) (g_branch g) path) in
  let '(content, status, err) := answer in
  match err with
  | Some err =>
      match status with
      | Some code =>
          if code =? 404 then Ret (Err (ErrNew ("file not found: " +:+ path)))
          else Ret (Err (Errorf_w "reading file: " err))
      | None => Ret (Err (Errorf_w "reading file: " err))
      end
  | None =>
      match content with
      | Some (mkContents _ (Some b64)) =>
          match base64_DecodeString b64 with
          | Err err => Ret (Err (Errorf_w "decoding content: " err))
          | Ok decoded => Ret (Ok decoded)
          end
      | _ => Ret (Err (ErrNew ("empty content for file: " +:+ path)))
      end
  end.

(** [resp.Commit.SHA] and [resp.Commit.HTMLURL]: a nil pointer panics. *)
Definition commit_info (resp : option FileResponse) (message : string) : GM (res CommitInfo) :=
  let* resp := deref "resp.Commit" resp in
  let* commit := deref "resp.Commit.SHA" (fr_Commit resp) in
  Ret (Ok (mkCommitInfo (fc_SHA commit) message "" (fc_HTMLURL commit))).

Definition CommitFile (g : GiteaManager) (change : FileChange) (message : string)
    : GM (res CommitInfo) :=
  let* answer := call (GetContents (g_owner g) (g_repo g) (g_branch g) (fc_Path change)) in
  let '(existing, _, _) := answer in
  let content := base64_EncodeToString (fc_Content change) in
  let sha := match existing with Some c => ct_SHA c | None => "" end in
  if sha =?s "" then
    let? resp := call (CreateFile (g_owner g) (g_repo g) (fc_Path change)
                         (mkFileOptions message (g_branch g) content ""))
      orelse err => Ret (Err (Errorf_w "creating file: " err)) in
    commit_info resp message
  else
    let? resp := call (UpdateFile (g_owner g) (g_repo g) (fc_Path change)
                         (mkFileOptions message (g_branch g) content sha))
      orelse err => Ret (Err (Errorf_w "updating file: " err)) in
    commit_info resp message.

(** The loop of [CommitFiles]. *)
Fixpoint commit_each (g : GiteaManager) (changes : list FileChange) (message : string)
    (lastCommit : option CommitInfo) : GM (res (option CommitInfo)) :=
  match changes with
  | [] => Ret (Ok lastCommit)
  | change :: changes =>
      let? commit := CommitFile g change message
        orelse err => Ret (Err (Errorf_w ("committing file " +:+ fc_Path change +:+ ": ") err)) in
      commit_each g changes message (Some commit)
  end.

(** The log line after the loop dereferences [lastCommit]. *)
Definition CommitFiles (g : GiteaManager) (changes : list FileChange) (message : string)
    : GM (res CommitInfo) :=
  let? lastCommit := commit_each g changes message None orelse err => Ret (Err err) in
  let* lastCommit := deref "lastCommit.SHA" lastCommit in
  Ret (Ok lastCommit).

Definition GetLatestCommit (g : GiteaManager) : GM (res CommitInfo) :=
  let? commits := call (ListRepoCommits (g_owner g) (g_repo g) (g_branch g) 1)
    orelse err => Ret (Err (Errorf_w "getting latest commit: " err)) in
  match commits with
  | [] => Ret (Err (ErrNew ("no commits found on branch " +:+ g_branch g)))
  | c :: _ =>
      let* c := deref "commits[0].Author" c in
      let author := default "" (gc_Author c) in
      let* sha := deref "commits[0].SHA" (gc_CommitMeta c) in
      let* message := deref "commits[0].RepoCommit.Message" (gc_RepoCommit c) in
      Ret (Ok (mkCommitInfo sha message author (gc_HTMLURL c)))
  end.
End gitea.

(** ** What the git manager promises *)

Section laws.
Context {L : GiteaLib}.
Implicit Types (h : list (obs gitea_ev)).

(** The SHA of the file that is there, empty if there is none or it could not be read. *)
Definition existing_sha (a : option Contents * option Z * option error) : string :=
  match a.1.1 with Some c => ct_SHA c | None => "" end.

(** One file, on the manager's branch: created if it was not there, otherwise updated
    against the SHA just read. *)
Definition file_write (g : GiteaManager) (changes : list FileChange) (message : string)
    : guarantee gitea_ev := λ h R e,
  match e with
  | CreateFile owner repo path opts =>
      ∃ change a h', In change changes
        ∧ h = Obs (GetContents (g_owner g) (g_repo g) (g_branch g) path) a :: h'
        ∧ existing_sha a = "" ∧ owner = g_owner g ∧ repo = g_repo g ∧ path = fc_Path change
        ∧ opts = mkFileOptions message (g_branch g)
                   (base64_EncodeToString (fc_Content change)) ""
  | UpdateFile owner repo path opts =>
      ∃ change a h', In change changes
        ∧ h = Obs (GetContents (g_owner g) (g_repo g) (g_branch g) path) a :: h'
        ∧ existing_sha a ≠ "" ∧ owner = g_owner g ∧ repo = g_repo g ∧ path = fc_Path change
        ∧ opts = mkFileOptions message (g_branch g)
                   (base64_EncodeToString (fc_Content change)) (existing_sha a)
  | _ => True
  end.

Definition is_write (o : obs gitea_ev) : bool :=
  match o with
  | Obs e _ => match e with CreateFile _ _ _ _ | UpdateFile _ _ _ _ => true | _ => false end
  end.
Definition writes h : nat := length (List.filter is_write h).

(** A file that was written is answered with the commit. *)
Definition with_commit (a : res (option FileResponse)) : Prop :=
  ∀ r, a = Ok r → ∃ c, r = Some (mkFileResponse (Some c)).
Definition documented : protocol gitea_ev := λ h R e,
  match e in gitea_ev R return R → Prop with
  | CreateFile _ _ _ _ | UpdateFile _ _ _ _ => with_commit
  | _ => λ _, True
  end.

Lemma CommitFile_wp g changes change message h :
  In change changes →
  wp documented (file_write g changes message) (CommitFile g change message) h
    (λ o h', ∃ r, o = Done r ∧ writes h' = S (writes h)
                  ∧ ∀ ci, r = Ok ci → ci_Message ci = message).
Proof.
  intros Hin. unfold CommitFile. cbn [bind call wp]. split; [done|].
  intros [[existing status] err] _.
  change (match existing with Some c => ct_SHA c | None => "" end) with
    (existing_sha (existing, status, err)).
  destruct (seqb_spec (existing_sha (existing, status, err)) "") as [Hs|Hs];
    cbn [bind call wp].
  all: split; [by exists change, (existing, status, err), h|].
  all: intros [resp|e] Ha; cbn [bind wp];
    [destruct (Ha resp eq_refl) as (c & ->); cbn|];
    eexists; (split; [done|]); (split; [done|]); intros ci Hci; by simplify_eq/=.
Qed.

Lemma commit_each_wp g all changes message last h :
  (∀ c, In c changes → In c all) →
  wp documented (file_write g all message) (commit_each g changes message last) h
    (λ o h', ∃ r, o = Done r
       ∧ (writes h' <= writes h + length changes)%nat
       ∧ (changes = [] → r = Ok last)
       ∧ ∀ res, r = Ok res →
           writes h' = (writes h + length changes)%nat
           ∧ (changes ≠ [] ∨ is_Some last → is_Some res)).
Proof.
  revert last h. induction changes as [|change changes IH]; intros last h Hin;
    cbn [commit_each length].
  - cbn. eexists. split; [done|]. split; [lia|]. split; [done|]. intros res [= <-].
    split; [lia|]. by intros [|].
  - rewrite wp_bind. eapply wp_mono; [apply (CommitFile_wp g all)|done|].
    { apply Hin. by left. }
    intros o h1 (r & -> & Hw & _). destruct r as [ci|e]; cbn [wp].
    2:{ eexists. split; [done|]. split; [lia|]. by split. }
    eapply wp_mono; [apply IH; intros; apply Hin; by right|done|].
    intros o h2 (r & -> & Hle & _ & Hok). exists r. split; [done|]. split; [lia|].
    split; [done|]. intros res Hres. destruct (Hok res Hres) as (Heq & Hsome).
    split; [lia|]. intros _. apply Hsome. right. by eexists.
Qed.

(** Committing files.  Each change is one commit of its own, on the manager's branch,
    that creates the file if it was not there and otherwise updates the version just
    read; there are at most as many as changes, and exactly as many on success, so a
    failure in the middle leaves the earlier files committed.  If what is written is answered
    with the commit, the call panics exactly when there is nothing to commit. *)
Theorem CommitFiles_spec g changes message h :
  wp documented (file_write g changes message) (CommitFiles g changes message) h
    (λ o h', (writes h' <= writes h + length changes)%nat
       ∧ (changes = [] ↔ ∃ m, o = Panicked m)
       ∧ ∀ ci, o = Done (Ok ci) → writes h' = (writes h + length changes)%nat).
Proof.
  unfold CommitFiles. rewrite wp_bind. eapply wp_mono; [by apply commit_each_wp|done|].
  intros o h' (r & -> & Hle & Hnil & Hok). destruct r as [res|e]; cbn [wp].
  - destruct (Hok res eq_refl) as (Heq & Hsome).
    destruct res as [ci|]; cbn [deref bind wp].
    + split; [done|]. split; [|done]. split; [|by intros [m ?]].
      intros Hc. by specialize (Hnil Hc).
    + split; [done|]. split; [|done]. split; [by eexists|]. intros _.
      destruct changes as [|c changes]; [done|].
      destruct Hsome as [? ?]; [by left|done].
  - split; [done|]. split; [|done]. split; [|by intros [m ?]].
    intros Hc. by specialize (Hnil Hc).
Qed.
End laws.
