(* ===== verification/GitMock.v ===== *)
(** * internal/git/mock.go: the in-memory implementation of [git.Manager]

The repository's tests run the controllers against it.  Each method is a function from the
manager's fields to its answer and the new fields, for one caller at a time ([ReadFile]
takes its lock twice, so between two callers it is not one step). *)

From S2P Require Import Prelude GoLib Api Platform.

Record MockManager := mkMockManager {
  mm_Files : gmap string string;
  mm_Commits : list CommitInfo;
  mm_ReadFileErr : option error;
  mm_ReadFileErrors : gmap string error;
  mm_CommitFileErr : option error;
  mm_CommitFilesErr : option error;
  mm_GetLatestCommitErr : option error;
  mm_ReadFileCalls : list string;
  mm_CommitFileCalls : list FileChange }.

Definition NewMockManager : MockManager := mkMockManager ∅ [] None ∅ None None None [] [].

(** ** Assignments *)

Definition set_Files files m := mkMockManager files (mm_Commits m) (mm_ReadFileErr m)
  (mm_ReadFileErrors m) (mm_CommitFileErr m) (mm_CommitFilesErr m) (mm_GetLatestCommitErr m)
  (mm_ReadFileCalls m) (mm_CommitFileCalls m).
Definition set_Commits commits m := mkMockManager (mm_Files m) commits (mm_ReadFileErr m)
  (mm_ReadFileErrors m) (mm_CommitFileErr m) (mm_CommitFilesErr m) (mm_GetLatestCommitErr m)
  (mm_ReadFileCalls m) (mm_CommitFileCalls m).
Definition set_ReadFileErrors errs m := mkMockManager (mm_Files m) (mm_Commits m)
  (mm_ReadFileErr m) errs (mm_CommitFileErr m) (mm_CommitFilesErr m) (mm_GetLatestCommitErr m)
  (mm_ReadFileCalls m) (mm_CommitFileCalls m).
Definition set_ReadFileCalls calls m := mkMockManager (mm_Files m) (mm_Commits m)
  (mm_ReadFileErr m) (mm_ReadFileErrors m) (mm_CommitFileErr m) (mm_CommitFilesErr m)
  (mm_GetLatestCommitErr m) calls (mm_CommitFileCalls m).
Definition set_CommitFileCalls calls m := mkMockManager (mm_Files m) (mm_Commits m)
  (mm_ReadFileErr m) (mm_ReadFileErrors m) (mm_CommitFileErr m) (mm_CommitFilesErr m)
  (mm_GetLatestCommitErr m) (mm_ReadFileCalls m) calls.

(** ** Methods *)

Definition mock_ReadFile (path : string) (m : MockManager) : res string * MockManager :=
  let m := set_ReadFileCalls (mm_ReadFileCalls m ++ [path]) m in
  match mm_ReadFileErr m with
  | Some err => (Err err, m)
  | None =>
      match mm_ReadFileErrors m !! path with
      | Some err => (Err err, m)
      | None =>
          match mm_Files m !! path with
          | None => (Err (ErrNew ("file not found: " +:+ path)), m)
          | Some content => (Ok content, m)
          end
      end
  end.

Definition mock_CommitFile (change : FileChange) (message : string) (m : MockManager)
    : res CommitInfo * MockManager :=
  let m := set_CommitFileCalls (mm_CommitFileCalls m ++ [change]) m in
  match mm_CommitFileErr m with
  | Some err => (Err err, m)
  | None =>
      let m := set_Files (<[fc_Path change := fc_Content change]> (mm_Files m)) m in
      let n := itoa (len (mm_Commits m) + 1) in
      let commit := mkCommitInfo ("mock-sha-" +:+ n) message "mock-author"
                      ("https://mock.git/commit/mock-sha-" +:+ n) in
      (Ok commit, set_Commits (mm_Commits m ++ [commit]) m)
  end.

(** The loop of [CommitFiles]; the answer is a pointer, nil when there was nothing to do. *)
Fixpoint mock_commit_each (changes : list FileChange) (message : string)
    (lastCommit : option CommitInfo) (m : MockManager)
    : res (option CommitInfo) * MockManager :=
  match changes with
  | [] => (Ok lastCommit, m)
  | change :: changes =>
      let '(r, m) := mock_CommitFile change message m in
      match r with
      | Err err => (Err err, m)
      | Ok commit => mock_commit_each changes message (Some commit) m
      end
  end.
Definition mock_CommitFiles (changes : list FileChange) (message : string) (m : MockManager)
    : res (option CommitInfo) * MockManager :=
  match mm_CommitFilesErr m with
  | Some err => (Err err, m)
  | None => mock_commit_each changes message None m
  end.

Definition mock_GetLatestCommit (m : MockManager) : res CommitInfo * MockManager :=
  match mm_GetLatestCommitErr m with
  | Some err => (Err err, m)
  | None =>
      match last (mm_Commits m) with
      | None => (Ok (mkCommitInfo "initial-mock-sha" "Initial commit" "mock-author" ""), m)
      | Some commit => (Ok commit, m)
      end
  end.

Definition SetFile (path content : string) (m : MockManager) : MockManager :=
  set_Files (<[path := content]> (mm_Files m)) m.
Definition SetReadError (path errMsg : string) (m : MockManager) : MockManager :=
  set_ReadFileErrors (<[path := ErrNew errMsg]> (mm_ReadFileErrors m)) m.
(** [Reset] assigns every field: the one it was called on does not matter. *)
Definition Reset (m : MockManager) : MockManager := NewMockManager.
