(* ===== verification/Repository.v ===== *)
(** * What [git.Manager] promises: a repository behind an interface

internal/git/interface.go declares the four methods the controllers use.  Their contract is
stated once, against an abstract repository (the content of its files, and the messages of
its commits, the latest first), as a type class with laws.  What a client may rely on is
proved from the laws alone; both implementations of the repository, [MockManager] and
[GiteaManager] talking to a Gitea server, discharge them. *)

From S2P Require Import Prelude GoLib Api Platform Git GitMock.

(** ** The abstract repository *)

Record repository := mkRepository { files : gmap string string; log : list string }.
Definition commit (message : string) (change : FileChange) (r : repository) : repository :=
  mkRepository (<[fc_Path change := fc_Content change]> (files r)) (message :: log r).
(** One commit per change, in order. *)
Definition commit_all (message : string) (changes : list FileChange) (r : repository)
    : repository := fold_left (λ r change, commit message change r) changes r.

(** ** The interface *)

(** A method's answer, or a panic, and the state it leaves. *)
Definition step (S A : Type) : Type := S → outcome (res A) * S.

Class Manager (S : Type) := {
  mg_ReadFile : string → step S string;
  mg_CommitFile : FileChange → string → step S CommitInfo;
  mg_CommitFiles : list FileChange → string → step S (option CommitInfo);
  mg_GetLatestCommit : step S CommitInfo
}.
#[export] Hint Mode Manager + : typeclass_instances.

(** After an error the change may have been made or not; several changes are made in order,
    and an error leaves some first part of them made.  No method panics, but for the commit of
    no file at all. *)
Class ManagerLaws (S : Type) `{Manager S} (repo : S → repository) : Prop := {
  read_keeps path (s : S) : repo (mg_ReadFile path s).2 = repo s;
  read_total path (s : S) m : (mg_ReadFile path s).1 ≠ Panicked m;
  read_answer path (s : S) c : (mg_ReadFile path s).1 = Done (Ok c) → files (repo s) !! path = Some c;
  commit_total change message (s : S) m : (mg_CommitFile change message s).1 ≠ Panicked m;
  commit_ok change message (s : S) ci :
    (mg_CommitFile change message s).1 = Done (Ok ci) →
    repo (mg_CommitFile change message s).2 = commit message change (repo s)
    ∧ ci_Message ci = message;
  commit_err change message (s : S) e :
    (mg_CommitFile change message s).1 = Done (Err e) →
    repo (mg_CommitFile change message s).2 = repo s
    ∨ repo (mg_CommitFile change message s).2 = commit message change (repo s);
  commits_ok changes message (s : S) ci :
    (mg_CommitFiles changes message s).1 = Done (Ok ci) →
    repo (mg_CommitFiles changes message s).2 = commit_all message changes (repo s);
  commits_prefix changes message (s : S) :
    ∃ n, (n <= length changes)%nat
      ∧ repo (mg_CommitFiles changes message s).2 = commit_all message (take n changes) (repo s);
  commits_panic changes message (s : S) m :
    (mg_CommitFiles changes message s).1 = Panicked m → changes = [];
  latest_keeps (s : S) : repo (mg_GetLatestCommit s).2 = repo s;
  latest_total (s : S) m : (mg_GetLatestCommit s).1 ≠ Panicked m;
  (* the mock makes up a first commit where there is none *)
  latest_answer (s : S) ci message l :
    (mg_GetLatestCommit s).1 = Done (Ok ci) → log (repo s) = message :: l →
    ci_Message ci = message
}.

(** ** What a client may rely on *)

Lemma commit_all_lookup message changes r path :
  files (commit_all message changes r) !! path =
  match last (List.filter (λ c, fc_Path c =?s path) changes) with
  | Some change => Some (fc_Content change)
  | None => files r !! path
  end.
Proof.
  unfold commit_all. induction changes as [|c changes IH] using rev_ind; [done|].
  rewrite fold_left_app, List.filter_app; cbn.
  destruct (seqb_spec (fc_Path c) path) as [<-|Hne].
  - by rewrite lookup_insert_eq, last_snoc.
  - by rewrite lookup_insert_ne, app_nil_r.
Qed.
Lemma commit_all_log message changes r :
  log (commit_all message changes r) = replicate (length changes) message ++ log r.
Proof.
  unfold commit_all. induction changes as [|c changes IH] in r |- *; [done|]. cbn.
  rewrite IH. cbn. change (message :: log r) with ([message] ++ log r).
  by rewrite app_assoc, <- replicate_S_end.
Qed.

Section client.
Context {S : Type} `{ManagerLaws S repo}.

(** Whatever the implementation: after committing files, reading one of them answers the
    content last given for it, and reading any other answers what it answered before; as
    many commits were made as files given, all with the message. *)
Theorem commits_then_read changes message s s1 ci :
  mg_CommitFiles changes message s = (Done (Ok ci), s1) →
  (∀ path c, (mg_ReadFile path s1).1 = Done (Ok c) →
     match last (List.filter (λ change, fc_Path change =?s path) changes) with
     | Some change => c = fc_Content change
     | None => ∀ c', (mg_ReadFile path s).1 = Done (Ok c') → c = c'
     end)
  ∧ log (repo s1) = replicate (length changes) message ++ log (repo s).
Proof.
  intros Hc. pose proof (commits_ok changes message s ci) as Hok. rewrite Hc in Hok. cbn in Hok.
  specialize (Hok eq_refl). split; [|by rewrite Hok, commit_all_log].
  intros path c Hr%read_answer. rewrite Hok, commit_all_lookup in Hr.
  destruct (last _) as [change|]; [by injection Hr as <-|].
  intros c' Hr'%read_answer. congruence.
Qed.
End client.

(** ** The mock *)

Definition mock_repo (m : MockManager) : repository :=
  mkRepository (mm_Files m) (reverse (map ci_Message (mm_Commits m))).

Definition done_step {S A} (f : S → res A * S) : step S A := λ s, (Done (f s).1, (f s).2).
#[export] Instance mock_manager : Manager MockManager := {|
  mg_ReadFile path := done_step (mock_ReadFile path);
  mg_CommitFile change message := done_step (mock_CommitFile change message);
  mg_CommitFiles changes message := done_step (mock_CommitFiles changes message);
  mg_GetLatestCommit := done_step mock_GetLatestCommit
|}.

Lemma mock_CommitFile_spec change message m :
  match mock_CommitFile change message m with
  | (Ok ci, m') => mock_repo m' = commit message change (mock_repo m) ∧ ci_Message ci = message
  | (Err _, m') => mock_repo m' = mock_repo m
  end.
Proof.
  unfold mock_CommitFile. cbn. destruct (mm_CommitFileErr m); cbn; [done|].
  split; [|done]. unfold mock_repo, commit. cbn [mm_Commits set_Commits]. rewrite map_app.
  f_equal. apply reverse_snoc.
Qed.

Lemma mock_commit_each_spec changes message last m :
  match mock_commit_each changes message last m with
  | (Ok _, m') => mock_repo m' = commit_all message changes (mock_repo m)
  | (Err _, m') => ∃ n, (n <= length changes)%nat
      ∧ mock_repo m' = commit_all message (take n changes) (mock_repo m)
  end.
Proof.
  induction changes as [|c changes IH] in last, m |- *; cbn [mock_commit_each]; [done|].
  pose proof (mock_CommitFile_spec c message m) as Hc.
  destruct (mock_CommitFile c message m) as [[ci|e] m1].
  - destruct Hc as [Hc _]. specialize (IH (Some ci) m1).
    destruct (mock_commit_each changes message (Some ci) m1) as [[r|e] m2].
    + by rewrite IH, Hc.
    + destruct IH as (n & Hn & ->). exists (S n). cbn. split; [lia|]. by rewrite Hc.
  - exists 0%nat. split; [lia|done].
Qed.

(** The mock the repository's tests run the controllers against keeps the contract of
    [git.Manager]: reads answer the files, commits replace them one by one, errors leave a
    first part of the changes made. *)
Theorem mock_keeps_contract : ManagerLaws MockManager mock_repo.
Proof.
  split; cbn [mg_ReadFile mg_CommitFile mg_CommitFiles mg_GetLatestCommit mock_manager done_step fst snd].
  - intros path m. unfold mock_ReadFile. by repeat case_match.
  - done.
  - intros path m c. unfold mock_ReadFile. repeat case_match; cbn; intros; by simplify_eq.
  - done.
  - intros change message m ci. pose proof (mock_CommitFile_spec change message m) as Hc.
    destruct (mock_CommitFile change message m) as [[]]; cbn; intros; by simplify_eq.
  - intros change message m e. pose proof (mock_CommitFile_spec change message m) as Hc.
    destruct (mock_CommitFile change message m) as [[]]; cbn; [done|by left].
  - intros changes message m ci. unfold mock_CommitFiles.
    destruct (mm_CommitFilesErr m); cbn; [done|].
    pose proof (mock_commit_each_spec changes message None m) as Hc.
    by destruct (mock_commit_each changes message None m) as [[]].
  - intros changes message m. unfold mock_CommitFiles.
    destruct (mm_CommitFilesErr m); cbn; [exists 0%nat; split; [lia|done]|].
    pose proof (mock_commit_each_spec changes message None m) as Hc.
    destruct (mock_commit_each changes message None m) as [[]]; cbn; [|done].
    exists (length changes). by rewrite firstn_all.
  - done.
  - intros m. unfold mock_GetLatestCommit. by repeat case_match.
  - done.
  - intros m ci message l. unfold mock_GetLatestCommit, mock_repo. cbn.
    destruct (mm_GetLatestCommitErr m); [done|].
    induction (mm_Commits m) as [|c cs _] using rev_ind; [done|].
    rewrite last_snoc, map_app; cbn [map]. rewrite reverse_snoc. cbn. by intros [= <-] [= <- _].
Qed.

(** ** Gitea

What the Gitea API documents of the calls the manager makes, for a server with states [W]:
the contents of a file are those of the branch asked for, in base64; a file created or
updated is one commit on the branch named, with which it is answered, unless the call fails,
which may be before or after the commit; the commits listed are complete, the latest first. *)

Class GiteaServer (W : Type) := {
  serve : ∀ R, W → gitea_ev R → R * W;
  server_repo : string → string → string → W → repository
}.
#[export] Hint Mode GiteaServer + : typeclass_instances.

(** The call that writes [content] at [path] with [message] on a branch. *)
Definition writes_file (owner repo branch path content message : string) {L : GiteaLib} R
    (e : gitea_ev R) : Prop :=
  match e with
  | CreateFile o r p opts | UpdateFile o r p opts =>
      o = owner ∧ r = repo ∧ p = path ∧ fo_Message opts = message ∧ fo_BranchName opts = branch
      ∧ fo_Content opts = base64_EncodeToString content
  | _ => False
  end.
Definition is_reading {R} (e : gitea_ev R) : bool :=
  match e with GetContents _ _ _ _ | ListRepoCommits _ _ _ _ => true | _ => false end.
Definition committed {R} (e : gitea_ev R) : R → bool :=
  match e in gitea_ev R return R → bool with
  | CreateFile _ _ _ _ | UpdateFile _ _ _ _ => is_ok
  | _ => λ _, false
  end.

Class GiteaServerLaws (W : Type) {L : GiteaLib} {Srv : GiteaServer W} : Prop := {
  base64_decode_encode s : base64_DecodeString (base64_EncodeToString s) = Ok s;
  reading_keeps R (e : gitea_ev R) o r b (w : W) :
    is_reading e = true → server_repo o r b (serve R w e).2 = server_repo o r b w;
  contents_found o r b path (w : W) c b64 status err :
    (serve _ w (GetContents o r b path)).1 = (Some c, status, err) → ct_Content c = Some b64 →
    ∃ content, files (server_repo o r b w) !! path = Some content
               ∧ b64 = base64_EncodeToString content;
  write_done R (e : gitea_ev R) o r b path content message (w : W) :
    writes_file o r b path content message R e → committed e (serve R w e).1 = true →
    server_repo o r b (serve R w e).2
    = commit message (mkFileChange path content) (server_repo o r b w);
  write_answered R (e : gitea_ev R) (w : W) h : documented h R e (serve R w e).1;
  commits_listed o r b n (w : W) c cs :
    (serve _ w (ListRepoCommits o r b n)).1 = Ok (c :: cs) →
    ∃ sha message author url, c = Some (mkGiteaCommit (Some sha) (Some message) author url)
      ∧ head (log (server_repo o r b w)) = Some message;
  write_failed R (e : gitea_ev R) o r b path content message (w : W) :
    writes_file o r b path content message R e → committed e (serve R w e).1 = false →
    server_repo o r b (serve R w e).2 = server_repo o r b w
    ∨ server_repo o r b (serve R w e).2
      = commit message (mkFileChange path content) (server_repo o r b w)
}.

Section gitea.
Context {W : Type} {L : GiteaLib} {Srv : GiteaServer W} {GL : GiteaServerLaws W}.
Context (g : GiteaManager).

(** Run a method of the manager against the server. *)
Definition served {A} (p : GM (res A)) : step W A := λ w : W, (run serve p w []).1.

#[local] Instance gitea_manager : Manager W := {|
  mg_ReadFile path := served (ReadFile g path);
  mg_CommitFile change message := served (CommitFile g change message);
  mg_CommitFiles changes message :=
    served (let* r := CommitFiles g changes message in
            Ret match r with Ok ci => Ok (Some ci) | Err e => Err e end);
  mg_GetLatestCommit := served (GetLatestCommit g)
|}.
Definition gitea_repo : W → repository := server_repo (g_owner g) (g_repo g) (g_branch g).

(** What a commit leaves, whatever was done before. *)
Lemma CommitFile_run change message (w : W) h :
  let '(o, w', _) := run serve (CommitFile g change message) w h in
  match o with
  | Done (Ok ci) => gitea_repo w' = commit message change (gitea_repo w) ∧ ci_Message ci = message
  | Done (Err _) => gitea_repo w' = gitea_repo w ∨ gitea_repo w' = commit message change (gitea_repo w)
  | Panicked _ => False
  end.
Proof.
  destruct change as [path content]. unfold CommitFile, gitea_repo. cbn.
  pose proof (reading_keeps _ (GetContents (g_owner g) (g_repo g) (g_branch g) path)
                (g_owner g) (g_repo g) (g_branch g) w eq_refl) as Hk.
  destruct (serve _ w (GetContents _ _ _ path)) as [[[existing status] err] w1].
  cbn [fst snd] in Hk. rewrite <- Hk. set (sha := match existing with Some c => _ | None => _ end).
  destruct (sha =?s ""); cbn;
    match goal with |- context [serve _ w1 ?e] =>
      pose proof (write_done _ e (g_owner g) (g_repo g) (g_branch g) path content message w1) as Hd;
      pose proof (write_failed _ e (g_owner g) (g_repo g) (g_branch g) path content message w1) as Hf;
      pose proof (write_answered _ e w1 []) as Ha;
      destruct (serve _ w1 e) as [[resp|e'] w2]
    end; cbn in *; try by apply Hf.
  all: destruct (Ha resp eq_refl) as (c & ->); cbn; split; [by apply Hd|done].
Qed.

Lemma commit_each_run changes message last (w : W) h :
  let '(o, w', _) := run serve (commit_each g changes message last) w h in
  match o with
  | Done (Ok ci) => gitea_repo w' = commit_all message changes (gitea_repo w)
                    ∧ (changes ≠ [] ∨ is_Some last → is_Some ci)
  | Done (Err _) => ∃ n, (n <= length changes)%nat
      ∧ gitea_repo w' = commit_all message (take n changes) (gitea_repo w)
  | Panicked _ => False
  end.
Proof.
  induction changes as [|c changes IH] in last, w, h |- *; cbn [commit_each].
  { cbn. split; [done|]. by intros [|]. }
  rewrite run_bind. pose proof (CommitFile_run c message w h) as Hc.
  destruct (run serve (CommitFile g c message) w h) as [[[[ci|e]|m] w1] h1]; [| |done].
  - destruct Hc as [Hc _]. specialize (IH (Some ci) w1 h1).
    destruct (run serve (commit_each g changes message (Some ci)) w1 h1) as [[[[r|e]|m] w2] h2];
      [| |done].
    + destruct IH as [IH Hr]. split; [by rewrite IH, Hc|]. intros _. apply Hr. by right.
    + destruct IH as (n & Hn & ->). exists (S n). cbn. split; [lia|]. by rewrite Hc.
  - cbn. destruct Hc as [Hc|Hc]; [exists 0%nat|exists 1%nat]; (split; [lia|]); by rewrite Hc.
Qed.

Lemma CommitFiles_run changes message (w : W) :
  let '(o, w') := mg_CommitFiles changes message w in
  match o with
  | Done (Ok _) => gitea_repo w' = commit_all message changes (gitea_repo w)
  | Done (Err _) => ∃ n, (n <= length changes)%nat
      ∧ gitea_repo w' = commit_all message (take n changes) (gitea_repo w)
  | Panicked _ => changes = [] ∧ gitea_repo w' = gitea_repo w
  end.
Proof.
  cbn. unfold served, CommitFiles. rewrite !run_bind.
  pose proof (commit_each_run changes message None w []) as Hc.
  destruct (run serve (commit_each g changes message None) w []) as [[[[ci|e]|m] w1] h1]; [|done|done].
  destruct Hc as [Hc Hs]. destruct ci as [ci|]; cbn; [done|].
  destruct changes as [|c changes]; [by split|]. destruct Hs as [x Hx]; [by left|done].
Qed.

(** C30: the Gitea manager, run against a server that does what the API documents, keeps the
    contract of [git.Manager] on the branch it is configured for: what is read, what a commit
    of one file or several leaves, also when it fails, and the latest commit are those of the
    branch, and no method panics, but for the commit of no file at all. *)
Theorem gitea_keeps_contract : ManagerLaws W gitea_repo.
Proof.
  split; cbn [mg_ReadFile mg_CommitFile mg_GetLatestCommit gitea_manager].
  - intros path w. unfold served, ReadFile. cbn.
    pose proof (reading_keeps _ (GetContents (g_owner g) (g_repo g) (g_branch g) path)
                  (g_owner g) (g_repo g) (g_branch g) w eq_refl) as Hk.
    destruct (serve _ w _) as [[[existing status] err] w1]. cbn in *.
    by repeat (case_match; cbn).
  - intros path w m. unfold served, ReadFile. cbn.
    destruct (serve _ w _) as [[[existing status] err] w1]. by repeat (case_match; cbn).
  - intros path w c. unfold served, ReadFile. cbn.
    pose proof (contents_found (g_owner g) (g_repo g) (g_branch g) path w) as Hf.
    destruct (serve _ w _) as [[[existing status] err] w1]. cbn in *.
    destruct err as [err|]; [destruct status as [code|]; [destruct (code =? 404)|]; by cbn|].
    destruct existing as [[sha [b64|]]|]; [|done..].
    destruct (Hf _ b64 _ _ eq_refl eq_refl) as (content & Hc & ->).
    rewrite base64_decode_encode. cbn. by intros [= <-].
  - intros change message w m. pose proof (CommitFile_run change message w []) as Hc.
    unfold served. destruct (run _ _ _ _) as [[o w1] h1]. cbn. by intros ->.
  - intros change message w ci. pose proof (CommitFile_run change message w []) as Hc.
    unfold served. destruct (run _ _ _ _) as [[o w1] h1]. cbn. by intros ->.
  - intros change message w e. pose proof (CommitFile_run change message w []) as Hc.
    unfold served. destruct (run _ _ _ _) as [[o w1] h1]. cbn. by intros ->.
  - intros changes message w ci. pose proof (CommitFiles_run changes message w) as Hc.
    destruct (mg_CommitFiles changes message w) as [o w1]. cbn. by intros ->.
  - intros changes message w. pose proof (CommitFiles_run changes message w) as Hc.
    destruct (mg_CommitFiles changes message w) as [[[ci|e]|m] w1]; cbn; [|done|].
    + exists (length changes). by rewrite firstn_all.
    + destruct Hc as [-> Hc]. by exists 0%nat.
  - intros changes message w m. pose proof (CommitFiles_run changes message w) as Hc.
    destruct (mg_CommitFiles changes message w) as [o w1]. cbn. intros ->. by destruct Hc.
  - intros w. unfold served, GetLatestCommit. cbn.
    pose proof (reading_keeps _ (ListRepoCommits (g_owner g) (g_repo g) (g_branch g) 1)
                  (g_owner g) (g_repo g) (g_branch g) w eq_refl) as Hk.
    pose proof (commits_listed (g_owner g) (g_repo g) (g_branch g) 1 w) as Hl.
    destruct (serve _ w _) as [[[|c commits]|e] w1]; [by cbn in *| |by cbn in *].
    destruct (Hl c commits eq_refl) as (sha & message & author & url & -> & _). by cbn in *.
  - intros w m. unfold served, GetLatestCommit. cbn.
    pose proof (commits_listed (g_owner g) (g_repo g) (g_branch g) 1 w) as Hl.
    destruct (serve _ w _) as [[[|c commits]|e] w1]; [by cbn in *| |by cbn in *].
    by destruct (Hl c commits eq_refl) as (sha & message & author & url & -> & _).
  - intros w ci message l. unfold served, GetLatestCommit, gitea_repo. cbn.
    pose proof (commits_listed (g_owner g) (g_repo g) (g_branch g) 1 w) as Hl.
    destruct (serve _ w _) as [[[|c commits]|e] w1]; [by cbn in *| |by cbn in *].
    destruct (Hl c commits eq_refl) as (sha & m & author & url & -> & Hh). cbn.
    intros [= <-] Hlog. rewrite Hlog in Hh. by injection Hh.
Qed.
End gitea.

(** ** A small Gitea server

One repository, one branch; the id of a file is made from its content. *)

Module Toy.
Definition lib : GiteaLib := {|
  base64_EncodeToString s := "b64:" +:+ s;
  base64_DecodeString s := Ok (drop_str 4 s);
  url_Parse _ := Ok ("https", "gitea.example.com", "/org/fleet");
  gitea_NewClient _ _ := None
|}.
Definition sha_of (content : string) : string := "sha-" +:+ content.
Definition write (path : string) (opts : FileOptions) (w : repository)
    : res (option FileResponse) * repository :=
  (Ok (Some (mkFileResponse (Some (mkFileCommit "c0ffee" "")))),
   commit (fo_Message opts) (mkFileChange path (drop_str 4 (fo_Content opts))) w).
Definition conflict : error := ErrNew "conflict".

Definition answer R (w : repository) (e : gitea_ev R) : R * repository :=
  match e in gitea_ev R return R * repository with
  | GetContents _ _ _ path =>
      (match files w !! path with
       | Some c => (Some (mkContents (sha_of c) (Some ("b64:" +:+ c))), Some 200, None)
       | None => (None, Some 404, Some (ErrNew "not found"))
       end, w)
  | CreateFile _ _ path opts =>
      match files w !! path with Some _ => (Err conflict, w) | None => write path opts w end
  | UpdateFile _ _ path opts =>
      match files w !! path with
      | Some c => if fo_SHA opts =?s sha_of c then write path opts w else (Err conflict, w)
      | None => (Err conflict, w)
      end
  | ListRepoCommits _ _ _ _ =>
      (Ok (map (λ m, Some (mkGiteaCommit (Some "c0ffee") (Some m) None "")) (take 1 (log w))), w)
  end.
#[local] Instance server : GiteaServer repository :=
  {| serve := answer; server_repo _ _ _ w := w |}.

Lemma laws : GiteaServerLaws repository (L:=lib).
Proof.
  split; cbn.
  - done.
  - by intros R [].
  - intros o r b path w c b64 status err. destruct (files w !! path) as [content|]; [|done].
    intros [= <- _ _]. cbn. intros [= <-]. by exists content.
  - intros R e o r b path content message w. destruct e; cbn; try done.
    all: intros (_ & _ & -> & <- & _ & Hc); repeat case_match; cbn; try done; intros _;
      by rewrite Hc.
  - intros R e w h. destruct e; cbn; try done; unfold with_commit;
      repeat case_match; cbn; intros ?; naive_solver.
  - intros o r b n w c cs. destruct (log w) as [|m l]; cbn; [done|].
    intros [= <- <-]. by do 4 eexists.
  - intros R e o r b path content message w. destruct e; cbn; try done.
    all: intros (_ & _ & -> & <- & _ & Hc); repeat case_match; cbn; try done; by left.
Qed.

Definition manager : GiteaManager := mkGiteaManager "org" "fleet" "main".
Definition fleet : repository := mkRepository {[ "shop.yaml" := "version: 1" ]} ["init"].
Definition changes : list FileChange :=
  [mkFileChange "shop.yaml" "version: 2"; mkFileChange "new.yaml" "fresh"].
End Toy.
#[local] Existing Instance Toy.server.

Lemma gitea_keeps_contract_witness :
  GiteaServerLaws repository (L:=Toy.lib)
  ∧ @ManagerLaws repository (gitea_manager (L:=Toy.lib) Toy.manager) (gitea_repo Toy.manager)
  ∧ log (mg_CommitFiles (Manager:=gitea_manager (L:=Toy.lib) Toy.manager) Toy.changes "bump" Toy.fleet).2
    = ["bump"; "bump"; "init"].
Proof.
  split; [exact Toy.laws|]. split; [|reflexivity].
  exact (gitea_keeps_contract (L:=Toy.lib) (GL:=Toy.laws) Toy.manager).
Defined.

(** The same client, against either implementation. *)
Definition mock_fleet : MockManager := SetFile "shop.yaml" "version: 1" NewMockManager.
Lemma commits_then_read_witness :
  is_Some (last (mm_Commits (mg_CommitFiles Toy.changes "bump" mock_fleet).2))
  ∧ log (mock_repo (mg_CommitFiles Toy.changes "bump" mock_fleet).2) = ["bump"; "bump"].
Proof.
  split; [by eexists|].
  exact (proj2 (commits_then_read (H0:=mock_keeps_contract) Toy.changes "bump" mock_fleet _ _ eq_refl)).
Defined.
