(* ===== verification/Controller.v ===== *)
(** * internal/controller: what the two operation controllers share

Constants, the preflight result, namespace defaulting, the dry-run summary, and the
helpers that [upgraderequest_controller.go] and [rollbackrequest_controller.go]
each define on their reconciler with the same body. *)

From S2P Require Import Prelude GoLib Api Platform Footprint Discovery Workload Flux Snapshot Yaml.

Definition OperationFinalizer : string := "fluxup.dev/operation-protection".
Definition reasonNotReady : string := "NotReady".
Definition unknownVersion : string := "unknown".

Definition TimeoutSuspend : Duration := 2 * Minute.
Definition TimeoutScaleDown : Duration := 5 * Minute.
Definition TimeoutScaleUp : Duration := 5 * Minute.
Definition TimeoutSnapshot : Duration := 30 * Minute.
Definition TimeoutGitCommit : Duration := 2 * Minute.
Definition TimeoutReconcile : Duration := 10 * Minute.
Definition TimeoutHealthCheck : Duration := 5 * Minute.
Definition TimeoutVolumeRestore : Duration := 30 * Minute.
Definition TimeoutGitRevert : Duration := 2 * Minute.
Definition TimeoutResume : Duration := 2 * Minute.

(** [ctrl.Result] *)
Record CtrlResult := mkCtrlResult { cr_Requeue : bool; cr_RequeueAfter : Duration }.
Definition done_result : CtrlResult := mkCtrlResult false 0.
Definition requeue_now : CtrlResult := mkCtrlResult true 0.
Definition requeue_after (d : Duration) : CtrlResult := mkCtrlResult false d.

(** [(ctrl.Result, error)] *)
Notation Reply := (CtrlResult * option error)%type.

(** The reconciler's optional dependency: is a [git.Manager] configured? *)
Record Reconciler := mkReconciler { r_GitManager : bool }.

Record preflightResult := mkPreflight {
  pf_Workloads : list WorkloadInfo;
  pf_PVCs : list PVCInfo;
  pf_Summary : list string;
  pf_Warnings : list string }.

Definition workloadNS (w : WorkloadInfo) (defaultNS : string) : string :=
  if negb (wi_Namespace w =?s "") then wi_Namespace w else defaultNS.

Definition kind_name (w : WorkloadInfo) : string := wi_Kind w +:+ "/" +:+ wi_Name w.

Definition buildDryRunSummary (operation : string) (preflight : preflightResult)
    (currentVersion newVersion versionPath gitPath : string) : string :=
  let part1 :=
    if negb (versionPath =?s "")
    then ["Would " +:+ operation +:+ " from " +:+ currentVersion +:+ " to " +:+ newVersion
          +:+ " (" +:+ versionPath +:+ " in " +:+ gitPath +:+ ")"] else [] in
  let part2 :=
    if 0 <? len (pf_Summary preflight)
    then ["Preflight: " +:+ Join (pf_Summary preflight) "; "] else [] in
  let verified :=
    ["suspend/resume: verified"] ++
    (if 0 <? len (pf_Workloads preflight)
     then ["scale down/up: verified (" +:+ Join (map kind_name (pf_Workloads preflight)) ", "
           +:+ ")"] else []) in
  "Dry run passed. " +:+ Join (part1 ++ part2 ++ [Join verified ". " +:+ "."]) " ".

(** [getSuspendTarget]: name and namespace of the Kustomization to suspend *)
Definition getSuspendTarget (app : ManagedApp) : string * string :=
  match as_SuspendRef (app_Spec app) with
  | Some ref => (ref_Name ref, or_default (ref_Namespace ref) DefaultFluxNamespace)
  | None =>
      let ref := as_KustomizationRef (app_Spec app) in
      (ref_Name ref, or_default (ref_Namespace ref) DefaultFluxNamespace)
  end.
Definition suspend_key (app : ManagedApp) : NamespacedName :=
  mkKey (getSuspendTarget app).1 (getSuspendTarget app).2.

Definition getSuspendRefStruct (app : ManagedApp) : option NamespacedName :=
  match as_SuspendRef (app_Spec app) with
  | None => None
  | Some ref =>
      Some (mkKey (ref_Name ref) (or_default (ref_Namespace ref) DefaultFluxNamespace))
  end.

(** [app.Spec.VersionPolicy == nil || app.Spec.VersionPolicy.VersionPath == ""] *)
Definition no_version_path (app : ManagedApp) : bool :=
  match as_VersionPolicy (app_Spec app) with
  | None => true
  | Some p => vp_VersionPath p =?s ""
  end.

(** [versionPath := Default...; if policy != nil && policy.VersionPath != "" { ... }] *)
Definition version_path (app : ManagedApp) : string :=
  match as_VersionPolicy (app_Spec app) with
  | Some p => if negb (vp_VersionPath p =?s "") then vp_VersionPath p
              else DefaultHelmReleaseVersionPath
  | None => DefaultHelmReleaseVersionPath
  end.

(** The snapshots recorded in the status. *)
Definition recorded_snapshots (u : UpgradeRequest) : list PVCSnapshotInfo :=
  match ust_Snapshot (ur_Status u) with Some s => sns_PVCSnapshots s | None => [] end.

Section controller.
Context {P : Platform}.

(** [metav1.Condition{...}] with the object's generation *)
Definition mkCond (m : ObjectMeta) (type status reason message : string) : Condition :=
  mkCondition type status reason message (om_Generation m).

(** The two methods through which a controller reaches git; a nil manager panics. *)
Definition git_ReadFile (r : Reconciler) (path : string) : M (res string) :=
  if r_GitManager r then call (GitReadFile path) else Panic "r.GitManager".
Definition git_CommitFile (r : Reconciler) (change : FileChange) (message : string)
    : M (res CommitInfo) :=
  if r_GitManager r then call (GitCommitFile change message) else Panic "r.GitManager".

Fixpoint allWorkloadsScaledDown (workloads : list WorkloadInfo) (defaultNS : string)
    : M (res bool) :=
  match workloads with
  | [] => Ret (Ok true)
  | w :: workloads =>
      let? down := IsScaledDown (wi_Kind w) (wi_Name w) (workloadNS w defaultNS)
        orelse err => Ret (Err err) in
      if negb down then Ret (Ok false) else allWorkloadsScaledDown workloads defaultNS
  end.

(** The application a request names; the rollback reconciler asks for its upgrade's. *)
Definition app_key (u : UpgradeRequest) : NamespacedName :=
  let ref := us_ManagedAppRef (ur_Spec u) in
  mkKey (ref_Name ref) (or_default (ref_Namespace ref) (om_Namespace (ur_Meta u))).
Definition getManagedApp (u : UpgradeRequest) : M (res ManagedApp) := call (GetApp (app_key u)).

(** The Flux half of both preflights: the target is valid, then warnings and the
    Ready/NotReady label.  A check that fails to answer only loses its warning. *)
Definition fluxPreflight (app : ManagedApp) : M (res (list string * string)) :=
  let ksRef := as_KustomizationRef (app_Spec app) in
  let ksNS := or_default (ref_Namespace ksRef) DefaultFluxNamespace in
  check ValidateSuspendTarget (mkKey (ref_Name ksRef) ksNS) (getSuspendRefStruct app)
    orelse err => Ret (Err (Errorf_w "invalid suspend target: " err)) in
  let* reconciled := IsReconciled (ref_Name ksRef) ksNS in
  let warn1 :=
    match reconciled with
    | Ok false => ["Kustomization " +:+ ksNS +:+ "/" +:+ ref_Name ksRef
                   +:+ " is not Ready — operation may fail at reconciliation"]
    | _ => []
    end in
  let '(suspendName, suspendNS) := getSuspendTarget app in
  let* suspended := IsSuspended suspendName suspendNS in
  let warn2 :=
    match suspended with
    | Ok true => ["Kustomization " +:+ suspendNS +:+ "/" +:+ suspendName
                  +:+ " is already suspended — operation will resume it upon completion"]
    | _ => []
    end in
  let ksStatus := match reconciled with Ok true => "Ready" | _ => reasonNotReady end in
  Ret (Ok (warn1 ++ warn2, ksStatus)).

(** The configured timeout of the health check, when it parses. *)
Definition health_timeout (app : ManagedApp) : Duration :=
  match as_HealthCheck (app_Spec app) with
  | Some hc =>
      if negb (hcc_Timeout hc =?s "") then
        match ParseDuration (hcc_Timeout hc) with
        | Ok parsed => parsed
        | Err _ => TimeoutHealthCheck
        end
      else TimeoutHealthCheck
  | None => TimeoutHealthCheck
  end.

(** The scale-down loop of the handlers: every workload is asked to go to zero; the
    answer lists them, or is the workload that failed and its error. *)
Fixpoint scale_all_down (workloads : list WorkloadInfo) (defaultNS : string)
    (acc : list WorkloadScalingInfo)
    : M (list WorkloadScalingInfo + (string * string * error)) :=
  match workloads with
  | [] => Ret (inl acc)
  | w :: workloads =>
      let ns := or_default (wi_Namespace w) defaultNS in
      let? _info := ScaleDown (wi_Kind w) (wi_Name w) ns
        orelse err => Ret (inr (ns, wi_Name w, err)) in
      scale_all_down workloads defaultNS
        (acc ++ [mkWorkloadScalingInfo (wi_Kind w) (wi_Name w) ns])
  end.

(** The readiness loop of the handlers over what was scaled. *)
Fixpoint all_scaled_down (workloads : list WorkloadScalingInfo) : M (res bool) :=
  match workloads with
  | [] => Ret (Ok true)
  | w :: workloads =>
      let? scaledDown := IsScaledDown (wsi_Kind w) (wsi_Name w) (wsi_Namespace w)
        orelse err => Ret (Err err) in
      if negb scaledDown then Ret (Ok false) else all_scaled_down workloads
  end.

(** The dry-run loops. *)
Fixpoint dry_scale_down (workloads : list WorkloadInfo) (defaultNS : string)
    : M (option string) :=
  match workloads with
  | [] => Ret None
  | w :: workloads =>
      let? _info := ScaleDown (wi_Kind w) (wi_Name w) (workloadNS w defaultNS)
        orelse err => Ret (Some ("Scale down failed for " +:+ kind_name w +:+ ": "
                                 +:+ Error err)) in
      dry_scale_down workloads defaultNS
  end.
Fixpoint dry_scale_up (workloads : list WorkloadInfo) (defaultNS : string)
    : M (option string) :=
  match workloads with
  | [] => Ret None
  | w :: workloads =>
      check ScaleUp (wi_Kind w) (wi_Name w) (workloadNS w defaultNS) 1
        orelse err => Ret (Some ("Scale up failed for " +:+ kind_name w +:+ ": "
                                 +:+ Error err)) in
      dry_scale_up workloads defaultNS
  end.
End controller.

(** ** Footprints *)

Section footprints.
Context {P : Platform}.

Lemma git_ReadFile_within ks r path :
  subk [KGitRead] ks = true → emits (within ks) (git_ReadFile r path).
Proof. intros. unfold git_ReadFile. emits_tac. Qed.
Lemma git_CommitFile_within ks r change message :
  subk [KGitCommit] ks = true → emits (within ks) (git_CommitFile r change message).
Proof. intros. unfold git_CommitFile. emits_tac. Qed.
Lemma allWorkloadsScaledDown_within ks ws ns :
  subk [KGetWorkload; KListPods] ks = true → emits (within ks) (allWorkloadsScaledDown ws ns).
Proof.
  intros. induction ws as [|w ws IH]; cbn [allWorkloadsScaledDown]; emits_tac; apply IH.
Qed.
Lemma fluxPreflight_within ks app :
  subk [KGetKs] ks = true → emits (within ks) (fluxPreflight app).
Proof. intros. unfold fluxPreflight. emits_tac. Qed.
Lemma scale_all_down_within ks ws ns acc :
  subk [KGetWorkload; KPatchWorkload] ks = true →
  emits (within ks) (scale_all_down ws ns acc).
Proof.
  intros. revert acc. induction ws as [|w ws IH]; intros acc; cbn [scale_all_down];
    emits_tac; apply IH.
Qed.
Lemma all_scaled_down_within ks ws :
  subk [KGetWorkload; KListPods] ks = true → emits (within ks) (all_scaled_down ws).
Proof. intros. induction ws as [|w ws IH]; cbn [all_scaled_down]; emits_tac; apply IH. Qed.
Lemma dry_scale_down_within ks ws ns :
  subk [KGetWorkload; KPatchWorkload] ks = true → emits (within ks) (dry_scale_down ws ns).
Proof. intros. induction ws as [|w ws IH]; cbn [dry_scale_down]; emits_tac; apply IH. Qed.
Lemma dry_scale_up_within ks ws ns :
  subk [KGetWorkload; KPatchWorkload] ks = true → emits (within ks) (dry_scale_up ws ns).
Proof. intros. induction ws as [|w ws IH]; cbn [dry_scale_up]; emits_tac; apply IH. Qed.
Lemma getManagedApp_within ks u :
  subk [KGetApp] ks = true → emits (within ks) (getManagedApp u).
Proof. intros. unfold getManagedApp. emits_tac. Qed.
End footprints.
#[export] Hint Resolve getManagedApp_within git_ReadFile_within git_CommitFile_within allWorkloadsScaledDown_within
  fluxPreflight_within scale_all_down_within all_scaled_down_within dry_scale_down_within
  dry_scale_up_within : emits.
