(* ===== verification/Renovate.v ===== *)
(** * internal/renovate: Renovate's findings become available updates

The parser reads Renovate's report from a ConfigMap, the mapper finds the application each
update is for, and the status updater publishes one [VersionInfo] per application.  The
last part states and proves what is published: the parser's three loops against a
comprehension ([available]), the mapper's fold against the update list of each application
([offer]), and the writes against the storage of the API server, whatever the order in
which Go walks the map. *)

From S2P Require Import Prelude GoLib Api Platform Footprint.

(** ** types.go *)

Definition DatasourceHelm : string := "helm".
Definition DatasourceDocker : string := "docker".

Record Update := mkUpdate { u_NewValue : string; u_UpdateType : string }.
Record Dependency := mkDependency {
  d_DepName : string; d_CurrentValue : string; d_Datasource : string; d_RegistryURL : string;
  d_Updates : list Update }.
Record PackageFile := mkPackageFile { pf_PackageFile : string; pf_Deps : list Dependency }.
Record RenovateConfig := mkRenovateConfig {
  rc_Flux : list PackageFile; rc_HelmValues : list PackageFile; rc_Regex : list PackageFile }.
Record RenovateLogEntry := mkRenovateLogEntry {
  rl_Name : string; rl_Level : Z; rl_Msg : string; rl_Config : option RenovateConfig }.
Record UpdateInfo := mkUpdateInfo {
  i_PackageFile : string; i_DependencyName : string; i_CurrentVersion : string;
  i_NewVersion : string; i_UpdateType : string; i_Datasource : string }.

(** [json.Unmarshal] into a [RenovateLogEntry] *)
Class EntryDecoder := json_entry : string → res RenovateLogEntry.

(** ** parser.go *)

Record Parser := mkParser { p_namespace : string; p_configMap : string }.
Definition NewParser (namespace configMapName : string) : Parser :=
  mkParser namespace configMapName.

(** The body of the three loops of [extractUpdates]. *)
Definition collect_dep (pf : PackageFile) (updates : list UpdateInfo) (dep : Dependency)
    : list UpdateInfo :=
  match d_Updates dep with
  | update :: _ =>
      updates ++ [mkUpdateInfo (pf_PackageFile pf) (d_DepName dep) (d_CurrentValue dep)
                    (u_NewValue update) (u_UpdateType update) (d_Datasource dep)]
  | [] => updates
  end.
Definition collect_file (updates : list UpdateInfo) (pf : PackageFile) : list UpdateInfo :=
  fold_left (collect_dep pf) (pf_Deps pf) updates.

Definition extractUpdates (config : RenovateConfig) : list UpdateInfo :=
  let updates := fold_left collect_file (rc_Flux config) [] in
  let updates := fold_left collect_file (rc_HelmValues config) updates in
  fold_left collect_file (rc_Regex config) updates.

Definition updates_data (cm : ConfigMap) : string :=
  default "" (cm_Data cm !! "updates.json").

Section renovate.
Context {P : Platform} {J : EntryDecoder}.

Definition Parse (p : Parser) : M (res (list UpdateInfo)) :=
  let? cm := call (GetConfigMap (mkKey (p_configMap p) (p_namespace p)))
    orelse err => Ret (Err (Errorf_w "getting updates configmap: " err)) in
  let data := updates_data cm in
  if data =?s "" then Ret (Ok [])
  else
    match json_entry data with
    | Err err => Ret (Err (Errorf_w "parsing updates json: " err))
    | Ok entry =>
        match rl_Config entry with
        | None => Ret (Ok [])
        | Some config => Ret (Ok (extractUpdates config))
        end
    end.

(** ** mapper.go *)

(** [gitPath -> ManagedApp key]; a later application replaces an earlier one. *)
Definition add_path (paths : gmap string NamespacedName) (app : ManagedApp)
    : gmap string NamespacedName :=
  if negb (as_GitPath (app_Spec app) =?s "")
  then <[as_GitPath (app_Spec app) := keyOf (app_Meta app)]> paths else paths.
Definition path_to_app (apps : list ManagedApp) : gmap string NamespacedName :=
  fold_left add_path apps ∅.

(** One round of the loop over the updates.  The pointers in [result] are fresh, one per
    key, so assigning through one is replacing the entry. *)
Definition map_update (pathToApp : gmap string NamespacedName)
    (result : gmap NamespacedName VersionInfo) (update : UpdateInfo)
    : gmap NamespacedName VersionInfo :=
  match pathToApp !! i_PackageFile update with
  | None => result
  | Some appKey =>
      let v := default (mkVersionInfo "" []) (result !! appKey) in
      if i_Datasource update =?s DatasourceHelm then
        <[appKey := mkVersionInfo (i_NewVersion update) (vi_Images v)]> result
      else if i_Datasource update =?s DatasourceDocker then
        <[appKey := mkVersionInfo (vi_Chart v)
            (vi_Images v ++ [mkImageInfo (i_DependencyName update) (i_NewVersion update)])]> result
      else <[appKey := v]> result
  end.

Definition MapUpdatesToManagedApps (updates : list UpdateInfo)
    : M (res (gmap NamespacedName VersionInfo)) :=
  let? apps := call ListApps orelse err => Ret (Err err) in
  Ret (Ok (fold_left (map_update (path_to_app apps)) updates ∅)).

(** ** status.go *)

Record StatusUpdater := mkStatusUpdater { su_parser : Parser }.
Definition NewStatusUpdater (namespace configMapName : string) : StatusUpdater :=
  mkStatusUpdater (NewParser namespace configMapName).

Definition set_AvailableUpdate (version : option VersionInfo) (status reason message : string)
    (app : ManagedApp) : ManagedApp :=
  app_set_Status
    (mkManagedAppStatus (ast_CurrentVersion (app_Status app)) version
       (ast_LastUpgrade (app_Status app))
       (SetStatusCondition (ast_Conditions (app_Status app))
          (mkCondition ConditionTypeUpdateAvailable status reason message
             (om_Generation (app_Meta app))))) app.

Definition with_update (version : VersionInfo) : ManagedApp → ManagedApp :=
  set_AvailableUpdate (Some version) ConditionTrue "UpdateDetected"
    "A newer version is available".
Definition without_update : ManagedApp → ManagedApp :=
  set_AvailableUpdate None ConditionFalse "NoUpdateAvailable" "Application is up to date".

Definition updateManagedAppStatus (key : NamespacedName) (version : VersionInfo)
    : M (option error) :=
  let? app := call (GetApp key) orelse err => Ret (Some err) in
  let? _ := call (StatusUpdateApp (with_update version app)) orelse err => Ret (Some err) in
  Ret None.

Definition ClearUpdateStatus (key : NamespacedName) : M (option error) :=
  let? app := call (GetApp key) orelse err => Ret (Some err) in
  let? _ := call (StatusUpdateApp (without_update app)) orelse err => Ret (Some err) in
  Ret None.

(** The loop over [mapped], in the order [keys]; an error is only logged. *)
Fixpoint publish_each (mapped : gmap NamespacedName VersionInfo) (keys : list NamespacedName)
    : M unit :=
  match keys with
  | [] => Ret tt
  | appKey :: keys =>
      match mapped !! appKey with
      | Some versionInfo =>
          let* _ := updateManagedAppStatus appKey versionInfo in publish_each mapped keys
      | None => publish_each mapped keys
      end
  end.

Definition ProcessRenovateOutput (u : StatusUpdater) : M (option error) :=
  let? updates := Parse (su_parser u) orelse err => Ret (Some err) in
  if len updates =? 0 then Ret None
  else
    let? mapped := MapUpdatesToManagedApps updates orelse err => Ret (Some err) in
    let* keys := call (RangeMap (map_to_list mapped).*1) in
    let* _ := publish_each mapped (proj1_sig keys) in
    Ret None.
End renovate.

(** ** Footprints *)

Section footprints.
Context {P : Platform} {J : EntryDecoder}.

Lemma Parse_within ks p : subk [KGetConfigMap] ks = true → emits (within ks) (Parse p).
Proof. intros. unfold Parse. emits_tac. Qed.
Lemma MapUpdates_within ks updates :
  subk [KListApps] ks = true → emits (within ks) (MapUpdatesToManagedApps updates).
Proof. intros. unfold MapUpdatesToManagedApps. emits_tac. Qed.
End footprints.
#[export] Hint Resolve Parse_within MapUpdates_within : emits.

(** ** The parser against a comprehension *)

(** The newest update of every dependency of every file, in the order of the report. *)
Definition available (config : RenovateConfig) : list UpdateInfo :=
  pf ← rc_Flux config ++ rc_HelmValues config ++ rc_Regex config;
  dep ← pf_Deps pf;
  update ← take 1 (d_Updates dep);
  [mkUpdateInfo (pf_PackageFile pf) (d_DepName dep) (d_CurrentValue dep)
     (u_NewValue update) (u_UpdateType update) (d_Datasource dep)].

(** A loop that appends is a concatenation. *)
Lemma fold_append {X Y} (f : list Y → X → list Y) (g : X → list Y) l acc :
  (∀ acc x, f acc x = acc ++ g x) → fold_left f l acc = acc ++ (l ≫= g).
Proof.
  intros Hf. revert acc. induction l as [|x l IH]; intros acc; cbn.
  - by rewrite app_nil_r.
  - by rewrite IH, Hf, <- app_assoc.
Qed.

Definition dep_updates (pf : PackageFile) (dep : Dependency) : list UpdateInfo :=
  update ← take 1 (d_Updates dep);
  [mkUpdateInfo (pf_PackageFile pf) (d_DepName dep) (d_CurrentValue dep)
     (u_NewValue update) (u_UpdateType update) (d_Datasource dep)].

Lemma collect_dep_app pf acc dep : collect_dep pf acc dep = acc ++ dep_updates pf dep.
Proof.
  unfold collect_dep, dep_updates. destruct (d_Updates dep); cbn; [|done]. by rewrite app_nil_r.
Qed.
Lemma collect_file_app acc pf : collect_file acc pf = acc ++ (pf_Deps pf ≫= dep_updates pf).
Proof. apply fold_append, collect_dep_app. Qed.

Lemma extract_comprehension config : extractUpdates config = available config.
Proof.
  unfold extractUpdates, available.
  rewrite !(fold_append _ _ _ _ collect_file_app), !bind_app. cbn. by rewrite <- app_assoc.
Qed.

(** C29: the three loops answer the first update of every dependency that has one, file by
    file in the order flux, helm-values, regex: they are one comprehension. *)
Theorem extractUpdates_available config : extractUpdates config = available config.
Proof. apply extract_comprehension. Qed.

(** ** The mapper against the updates of each application *)

(** The last application listed whose [gitPath] is the file. *)
Definition owner (apps : list ManagedApp) (path : string) : option NamespacedName :=
  (λ app, keyOf (app_Meta app)) <$>
  last (List.filter (λ app, negb (as_GitPath (app_Spec app) =?s "")
                            && (as_GitPath (app_Spec app) =?s path)) apps).
Definition mine (apps : list ManagedApp) (k : NamespacedName) (updates : list UpdateInfo)
    : list UpdateInfo :=
  List.filter (λ u, bool_decide (owner apps (i_PackageFile u) = Some k)) updates.
Definition of_source (datasource : string) (updates : list UpdateInfo) : list UpdateInfo :=
  List.filter (λ u, i_Datasource u =?s datasource) updates.

(** The version an application with these updates is offered. *)
Definition offer (updates : list UpdateInfo) : VersionInfo :=
  mkVersionInfo (default "" (i_NewVersion <$> last (of_source DatasourceHelm updates)))
    (map (λ u, mkImageInfo (i_DependencyName u) (i_NewVersion u))
       (of_source DatasourceDocker updates)).
Definition offered (apps : list ManagedApp) (updates : list UpdateInfo) (k : NamespacedName)
    : option VersionInfo :=
  match mine apps k updates with [] => None | us => Some (offer us) end.

Lemma path_to_app_owner apps path : path_to_app apps !! path = owner apps path.
Proof.
  unfold path_to_app, owner. induction apps as [|app apps IH] using rev_ind; [done|].
  rewrite fold_left_app, List.filter_app; cbn. unfold add_path at 1.
  destruct (seqb_spec (as_GitPath (app_Spec app)) "") as [He|He]; cbn.
  { by rewrite app_nil_r. }
  destruct (seqb_spec (as_GitPath (app_Spec app)) path) as [<-|Hp].
  - by rewrite lookup_insert_eq, last_snoc.
  - by rewrite lookup_insert_ne, app_nil_r.
Qed.

Lemma of_source_snoc ds us u :
  of_source ds (us ++ [u]) = of_source ds us ++ (if i_Datasource u =?s ds then [u] else []).
Proof. unfold of_source. rewrite List.filter_app. cbn. by destruct (i_Datasource u =?s ds). Qed.

(** One more update of the same application. *)
Lemma offer_snoc us u :
  offer (us ++ [u]) =
  if i_Datasource u =?s DatasourceHelm then
    mkVersionInfo (i_NewVersion u) (vi_Images (offer us))
  else if i_Datasource u =?s DatasourceDocker then
    mkVersionInfo (vi_Chart (offer us))
      (vi_Images (offer us) ++ [mkImageInfo (i_DependencyName u) (i_NewVersion u)])
  else offer us.
Proof.
  unfold offer. rewrite !of_source_snoc.
  destruct (seqb_spec (i_Datasource u) DatasourceHelm) as [->|]; seqb_lits.
  - by rewrite last_snoc, app_nil_r.
  - rewrite app_nil_r. destruct (i_Datasource u =?s DatasourceDocker); cbn.
    + by rewrite map_app.
    + by rewrite app_nil_r.
Qed.

Lemma offered_default apps us k : default (mkVersionInfo "" []) (offered apps us k) = offer (mine apps k us).
Proof. unfold offered. by destruct (mine apps k us). Qed.

(** The map the mapper builds. *)
Lemma mapped_offered apps updates k :
  fold_left (map_update (path_to_app apps)) updates ∅ !! k = offered apps updates k.
Proof.
  induction updates as [|u us IH] using rev_ind in k |- *; [done|].
  rewrite fold_left_app; cbn. unfold map_update at 1. rewrite path_to_app_owner.
  unfold offered, mine. rewrite List.filter_app; cbn.
  destruct (owner apps (i_PackageFile u)) as [k'|] eqn:Ho.
  2:{ rewrite bool_decide_eq_false_2, app_nil_r by done. apply IH. }
  rewrite IH, offered_default. destruct (decide (k' = k)) as [->|Hk].
  - rewrite bool_decide_eq_true_2 by done. fold (mine apps k us).
    assert (∀ l, match mine apps k us ++ [u] with [] => None | us' => Some (l us') end
                 = Some (l (mine apps k us ++ [u]) : VersionInfo)) as Hs
      by (intros l; by destruct (mine apps k us)).
    rewrite (Hs offer), offer_snoc.
    destruct (i_Datasource u =?s DatasourceHelm);
      [|destruct (i_Datasource u =?s DatasourceDocker)]; by rewrite lookup_insert_eq.
  - rewrite bool_decide_eq_false_2, app_nil_r by congruence.
    destruct (i_Datasource u =?s DatasourceHelm);
      [|destruct (i_Datasource u =?s DatasourceDocker)];
      rewrite lookup_insert_ne by done; apply IH.
Qed.

(** Mapping only lists the applications.  Of a listing [apps] every application that
    owns a file with updates is mapped and no other: to the newest Helm version among its
    updates, the last one winning, and to all its Docker updates in order.  An application
    owns a file if it is the last one listed with that path. *)
Theorem MapUpdatesToManagedApps_spec updates :
  wp any (λ _ R e, within [KListApps] R e) (MapUpdatesToManagedApps updates) []
    (λ o h, ∃ r, h = [Obs ListApps r]
       ∧ match r with
         | Ok apps => ∃ mapped, o = Done (Ok mapped) ∧ ∀ k, mapped !! k = offered apps updates k
         | Err e => o = Done (Err e)
         end).
Proof.
  unfold MapUpdatesToManagedApps. cbn. split; [done|]. intros [apps|e] _; cbn.
  - eexists. split; [done|]. eexists. split; [done|]. apply mapped_offered.
  - by eexists.
Qed.

(** ** Publishing

[app_store s0 h]: the applications the API server stores after [h], if it stored [s0] at
first; a status write that is answered changes the status only. *)

Section publishing.
Context {P : Platform} {J : EntryDecoder}.
Implicit Types (s : gmap NamespacedName ManagedApp) (h : list event).

Definition stores {R} (e : ev R) : R → gmap NamespacedName ManagedApp → gmap NamespacedName ManagedApp :=
  match e in ev R return R → gmap NamespacedName ManagedApp → gmap NamespacedName ManagedApp with
  | StatusUpdateApp x => λ r s, match r with
      | Ok _ => alter (app_set_Status (app_Status x)) (keyOf (app_Meta x)) s
      | Err _ => s
      end
  | _ => λ _ s, s
  end.
Fixpoint app_store s0 h : gmap NamespacedName ManagedApp :=
  match h with [] => s0 | Obs e r :: h' => stores e r (app_store s0 h') end.

(** Objects are stored under their keys. *)
Definition keyed s : Prop := ∀ k a, s !! k = Some a → keyOf (app_Meta a) = k.

(** The report and the list of applications stand still; reads answer what is stored, and
    any call may fail. *)
Definition app_server s0 (cm : ConfigMap) (apps : list ManagedApp) : protocol ev := λ h R e,
  match e in ev R return R → Prop with
  | GetConfigMap _ => λ r, r = Ok cm
  | ListApps => λ r, r = Ok apps
  | GetApp k => λ r, match r with Ok a => app_store s0 h !! k = Some a | Err _ => True end
  | _ => λ _, True
  end.

(** The application a call failed on. *)
Definition failure {R} (e : ev R) : R → option NamespacedName :=
  match e in ev R return R → option NamespacedName with
  | GetApp k => λ r, if is_ok r then None else Some k
  | StatusUpdateApp x => λ r, if is_ok r then None else Some (keyOf (app_Meta x))
  | _ => λ _, None
  end.
Definition failed (k : NamespacedName) h : bool :=
  existsb (λ o, match o with Obs e r => bool_decide (failure e r = Some k) end) h.

(** The application a call writes. *)
Definition writes_app {R} (e : ev R) : option NamespacedName :=
  match e with StatusUpdateApp x => Some (keyOf (app_Meta x)) | _ => None end.
Definition written (k : NamespacedName) h : bool :=
  existsb (λ o, match o with Obs e _ => bool_decide (writes_app e = Some k) end) h.

(** The only writes: the update offered to an application, set on what was just read, once. *)
Definition publishes (offers : NamespacedName → option VersionInfo) : guarantee ev := λ h R e,
  match e with
  | StatusUpdateApp x => ∃ k v app h', x = with_update v app ∧ offers k = Some v
      ∧ h = Obs (GetApp k) (Ok app) :: h' ∧ keyOf (app_Meta app) = k ∧ written k h = false
  | e => mutates _ e = false
  end.

Lemma keyed_store s0 h : keyed s0 → keyed (app_store s0 h).
Proof.
  intros Hs. induction h as [|[R e r] h IH]; [done|]. cbn.
  destruct e; cbn; auto. destruct r; auto. intros k b.
  rewrite lookup_alter. case_decide as Hk; [|apply IH]. subst k.
  destruct (app_store s0 h !! _) as [x|] eqn:Hx; [|done]. intros [= <-]. cbn. by apply IH.
Qed.

(** What one round leaves behind: the application [k] is as [f] makes it unless a call
    failed, all others are untouched. *)
Definition settles s0 h h' (k : NamespacedName) (f : ManagedApp → ManagedApp) : Prop :=
  failed k h' = false → app_store s0 h' !! k = f <$> app_store s0 h !! k.
Definition leaves s0 h h' (k : NamespacedName) : Prop :=
  app_store s0 h' !! k = app_store s0 h !! k ∧ written k h' = written k h
  ∧ failed k h' = failed k h.

Lemma updateManagedAppStatus_wp s0 cm apps offers k v h :
  keyed s0 → offers k = Some v → written k h = false →
  wp (app_server s0 cm apps) (publishes offers) (updateManagedAppStatus k v) h
    (λ o h', (∃ e, o = Done e) ∧ settles s0 h h' k (with_update v)
             ∧ ∀ k', k' ≠ k → leaves s0 h h' k').
Proof.
  intros Hs Hv Hw. unfold updateManagedAppStatus, leaves, settles. cbn. split; [done|].
  intros [app|e] Hr; cbn.
  2:{ split; [by eexists|]. rewrite bool_decide_eq_true_2 by done. split; [done|].
      intros k' Hk. rewrite (bool_decide_eq_false_2 (Some k = Some k')) by congruence. done. }
  pose proof (keyed_store s0 h Hs k app Hr) as Hk.
  split.
  { exists k, v, app, h. repeat split; [done..|]. by rewrite bool_decide_eq_false_2. }
  intros [app'|e] _; cbn; rewrite Hk; (split; [by eexists|]); split.
  - intros _. by rewrite lookup_alter_eq, Hr.
  - intros k' Hne. rewrite lookup_alter_ne by congruence.
    rewrite (bool_decide_eq_false_2 (Some k = Some k')) by congruence. done.
  - by rewrite bool_decide_eq_true_2.
  - intros k' Hne. rewrite (bool_decide_eq_false_2 (Some k = Some k')) by congruence. done.
Qed.

Lemma publish_each_wp s0 cm apps mapped keys h :
  keyed s0 → NoDup keys → (∀ k, k ∈ keys → is_Some (mapped !! k) ∧ written k h = false) →
  wp (app_server s0 cm apps) (publishes (λ k, mapped !! k)) (publish_each mapped keys) h
    (λ o h', o = Done tt
       ∧ (∀ k v, k ∈ keys → mapped !! k = Some v → settles s0 h h' k (with_update v))
       ∧ ∀ k, k ∉ keys → leaves s0 h h' k).
Proof.
  intros Hs. revert h. induction keys as [|k keys IH]; intros h Hnd Hkeys; cbn [publish_each wp].
  { split; [done|]. split; [by intros ?? ?%not_elem_of_nil|]. done. }
  apply NoDup_cons in Hnd as [Hk Hnd].
  destruct (Hkeys k ltac:(by left)) as [[v Hv] Hw]. rewrite Hv, wp_bind.
  eapply wp_mono; [by apply (updateManagedAppStatus_wp _ _ _ (λ k, mapped !! k))|done|].
  intros o h1 ([e ->] & Hset & Hleave).
  eapply wp_mono; [apply IH; [done|]|done|].
  { intros k' Hin. destruct (Hkeys k' ltac:(by right)) as [? Hw'].
    destruct (Hleave k' ltac:(by intros ->)) as (_ & -> & _). done. }
  intros o h2 (-> & Hrest & Hothers). split; [done|]. split.
  - intros k' v' Hin Hv' Hf. destruct (decide (k' = k)) as [->|Hne].
    + destruct (Hothers k Hk) as (-> & _ & Hff). rewrite Hv in Hv'. injection Hv' as <-.
      apply Hset. congruence.
    + apply elem_of_cons in Hin as [?|Hin]; [done|]. rewrite (Hrest k' v') by done.
      by destruct (Hleave k' Hne) as (-> & _).
  - intros k' Hin. apply not_elem_of_cons in Hin as [Hne Hin].
    destruct (Hothers k' Hin) as (H1 & H2 & H3), (Hleave k' Hne) as (H1' & H2' & H3').
    unfold leaves. by rewrite H1, H2, H3.
Qed.

(** The configuration a ConfigMap reports, when it reports one. *)
Definition report (cm : ConfigMap) : option RenovateConfig :=
  if updates_data cm =?s "" then None
  else match json_entry (updates_data cm) with Ok entry => rl_Config entry | Err _ => None end.

Lemma Parse_wp s0 cm apps G p h :
  (∀ h R e, mutates R e = false → G h R e) →
  wp (app_server s0 cm apps) G (Parse p) h
    (λ o h', h' = Obs (GetConfigMap (mkKey (p_configMap p) (p_namespace p))) (Ok cm) :: h
       ∧ match report cm with
         | Some config => o = Done (Ok (available config))
         | None => o = Done (Ok []) ∨ ∃ e, o = Done (Err e)
         end).
Proof.
  intros HG. unfold Parse, report. cbn. split; [by apply HG|]. intros r ->. cbn.
  destruct (updates_data cm =?s ""); cbn; [by auto|].
  destruct (json_entry (updates_data cm)) as [entry|e]; cbn; [|by eauto].
  destruct (rl_Config entry) as [config|]; cbn; [|by auto].
  by rewrite extract_comprehension.
Qed.

Lemma available_empty_offered apps k : offered apps [] k = None.
Proof. done. Qed.

(** C27: processing a report sets, on every application it has updates for and on no other,
    the offered version and the UpdateAvailable condition, in one write of what was just
    read.  The order in which Go walks the map does not matter, and a failure on one
    application (which is only logged) does not keep the others from being written. *)
Theorem ProcessRenovateOutput_spec s0 cm apps config u :
  keyed s0 → report cm = Some config →
  wp (app_server s0 cm apps) (publishes (offered apps (available config)))
    (ProcessRenovateOutput u) []
    (λ o h, o = Done None ∧ ∀ k, failed k h = false →
       app_store s0 h !! k =
       from_option with_update id (offered apps (available config) k) <$> s0 !! k).
Proof.
  intros Hs Hc. unfold ProcessRenovateOutput. rewrite wp_bind.
  eapply wp_mono; [apply Parse_wp|done|].
  { intros h R e He. by destruct e. }
  intros o h (-> & Ho). rewrite Hc in Ho. subst o.
  remember (available config) as updates eqn:Hu.
  destruct (len updates =? 0) eqn:Hlen.
  { apply Z.eqb_eq in Hlen. unfold len in Hlen.
    destruct updates; [|cbn [length] in Hlen; lia].
    cbn. split; [done|]. intros k _. symmetry. apply option_fmap_id. }
  cbn [bind call wp]. split; [done|]. intros r ->. cbn [bind call wp].
  set (mapped := fold_left _ _ _). split; [done|]. intros [keys Hkeys] _. cbn [proj1_sig].
  rewrite wp_bind.
  assert (∀ k, mapped !! k = offered apps updates k) as Hm by apply mapped_offered.
  assert (∀ k, k ∈ keys ↔ is_Some (mapped !! k)) as Hin.
  { intros k. rewrite Hkeys, list_elem_of_fmap. split.
    - intros ([k' v] & -> & Hv%elem_of_map_to_list). by eexists.
    - intros [v Hv]. exists (k, v). by rewrite elem_of_map_to_list. }
  eapply wp_mono; [eapply publish_each_wp; [exact Hs| |]| |].
  - rewrite Hkeys. apply NoDup_fst_map_to_list.
  - intros k Hk. by rewrite <- Hin.
  - intros h R e. destruct e; cbn; auto. intros (k & v & app & h' & Hx). exists k, v, app, h'.
    by rewrite <- Hm.
  - intros o h (-> & Hset & Hleave). cbn. split; [done|]. intros k Hf. rewrite <- Hm.
    destruct (mapped !! k) as [v|] eqn:Hv; cbn.
    + apply Hset; [apply Hin; by eexists|done|done].
    + destruct (Hleave k) as (Hl & _); [rewrite Hin, Hv; by intros []|].
      rewrite Hl. symmetry. apply option_fmap_id.
Qed.

(** An update that was published stays: no run withdraws one, and a report without updates
    changes nothing. *)
Lemma publishes_no_withdrawal offers h R (e : ev R) :
  publishes offers h R e →
  match e with StatusUpdateApp x => ast_AvailableUpdate (app_Status x) ≠ None | _ => True end.
Proof. destruct e; cbn; auto. by intros (k & v & app & h' & -> & _). Qed.
End publishing.

(** ** A report *)

Definition demo_config : RenovateConfig :=
  mkRenovateConfig
    [mkPackageFile "apps/shop.yaml"
       [mkDependency "shop" "1.0.0" "helm" "" [mkUpdate "1.1.0" "minor"; mkUpdate "2.0.0" "major"];
        mkDependency "redis" "7.2" "docker" "" []]]
    []
    [mkPackageFile "apps/shop.yaml"
       [mkDependency "nginx" "1.27" "docker" "" [mkUpdate "1.28" "minor"]];
     mkPackageFile "apps/other.yaml"
       [mkDependency "other" "1" "helm" "" [mkUpdate "2" "major"]]].
Definition demo_decoder : EntryDecoder := λ _,
  Ok (mkRenovateLogEntry "renovate" 20 "packageFiles with updates" (Some demo_config)).
Definition demo_cm : ConfigMap :=
  mkConfigMap (plainMeta "fluxup-updates" "fluxup-system") {[ "updates.json" := "{...}" ]}.
Definition demo_app : ManagedApp :=
  mkManagedApp (plainMeta "shop" "apps")
    (mkManagedAppSpec "apps/shop.yaml" (mkObjectReference "shop" "") None None None None None false)
    (mkManagedAppStatus None None None []).
Definition demo_store : gmap NamespacedName ManagedApp := {[ mkKey "shop" "apps" := demo_app ]}.

Lemma ProcessRenovateOutput_spec_witness :
  offered [demo_app] (available demo_config) (mkKey "shop" "apps")
    = Some (mkVersionInfo "1.1.0" [mkImageInfo "nginx" "1.28"])
  ∧ wp (app_server demo_store demo_cm [demo_app])
      (publishes (P:=reference) (offered [demo_app] (available demo_config)))
      (ProcessRenovateOutput (P:=reference) (J:=demo_decoder)
         (NewStatusUpdater "fluxup-system" "fluxup-updates")) []
      (λ o h, o = Done None ∧ ∀ k, failed k h = false →
         app_store demo_store h !! k =
         from_option (with_update (P:=reference)) id (offered [demo_app] (available demo_config) k)
           <$> demo_store !! k).
Proof.
  split; [reflexivity|].
  apply (ProcessRenovateOutput_spec (P:=reference) (J:=demo_decoder)); [|reflexivity].
  unfold demo_store. intros k a [<- <-]%lookup_singleton_Some. reflexivity.
Defined.
