(* ===== verification/UpdatesController.v ===== *)
(** * internal/controller/updates_controller.go: a new Renovate report arrives

The controller of the one ConfigMap the report is in hands it to [Renovate]. *)

From S2P Require Import Prelude GoLib Api Platform Footprint Controller Renovate.

Definition UpdatesConfigMapName : string := "fluxup-updates".
Definition UpdatesConfigMapNamespace : string := "fluxup-system".

Section controller.
Context {P : Platform} {J : EntryDecoder}.

Definition Reconcile (u : StatusUpdater) (req : NamespacedName) : M Reply :=
  if negb (nn_Name req =?s UpdatesConfigMapName)
     || negb (nn_Namespace req =?s UpdatesConfigMapNamespace)
  then Ret (done_result, None)
  else
    check ProcessRenovateOutput u orelse err => Ret (done_result, Some err) in
    Ret (done_result, None).

(** The event filter of [SetupWithManager]. *)
Definition watched (m : ObjectMeta) : bool :=
  (om_Name m =?s UpdatesConfigMapName) && (om_Namespace m =?s UpdatesConfigMapNamespace).

(** ** An update that was published stays *)

(** Reads, and status writes that leave the application with an update. *)
Definition keeps_update R (e : ev R) : Prop :=
  match e with
  | StatusUpdateApp x => ast_AvailableUpdate (app_Status x) ≠ None
  | e => mutates _ e = false
  end.

Lemma within_keeps ks R (e : ev R) :
  forallb (λ k, negb (kmut k)) ks = true → within ks R e → keeps_update R e.
Proof. intros Hks He%within_reads; [|done]. by destruct e. Qed.

Lemma publish_each_keeps mapped keys : emits keeps_update (publish_each mapped keys).
Proof.
  induction keys as [|k keys IH]; cbn [publish_each]; [done|].
  destruct (mapped !! k); [|done]. apply emits_bind; [|done].
  split; [done|]. intros [app|e]; cbn; [|done]. split; [done|]. by intros [].
Qed.

Lemma Reconcile_keeps u req : emits keeps_update (Reconcile u req).
Proof.
  unfold Reconcile. destruct (_ || _); [done|].
  apply emits_bind; [|by intros []]. unfold ProcessRenovateOutput.
  apply emits_bind.
  { eapply emits_mono; [by apply (Parse_within [KGetConfigMap])|]. intros R e. by apply within_keeps. }
  intros [updates|e]; [|done]. destruct (len updates =? 0); [done|].
  apply emits_bind.
  { eapply emits_mono; [by apply (MapUpdates_within [KListApps])|]. intros R e. by apply within_keeps. }
  intros [mapped|e]; [|done]. split; [done|]. intros keys.
  apply (emits_bind _ (publish_each mapped (proj1_sig keys))); [apply publish_each_keeps|done].
Qed.

(** No reconcile of a ConfigMap ever withdraws an update: whatever the report and the
    answers, the only writes are status writes that set an available update, so an update
    stays published when Renovate no longer reports it.  A ConfigMap with another name is
    answered without a call. *)
Theorem available_update_never_withdrawn u req :
  emits keeps_update (Reconcile u req)
  ∧ (req ≠ mkKey UpdatesConfigMapName UpdatesConfigMapNamespace →
     Reconcile u req = Ret (done_result, None)).
Proof.
  split; [apply Reconcile_keeps|]. intros Hreq. unfold Reconcile.
  destruct (seqb_spec (nn_Name req) UpdatesConfigMapName) as [Hn|];
    destruct (seqb_spec (nn_Namespace req) UpdatesConfigMapNamespace) as [Hns|]; cbn [negb orb];
    [|done..].
  destruct req; cbn in *; congruence.
Qed.
End controller.
