(* ===== verification/Main.v ===== *)
(** * cmd/main.go and internal/logging: putting the program together

[main] reads the flags and the environment, makes the controller-runtime manager, registers
the controllers and starts it.  What the manager does with them is outside; each call to it
answers an error or nothing.  [main_follows_plan] states which steps are taken, in which
order, and what the process exits with. *)

From S2P Require Import Prelude GoLib Api Platform Git Renovate UpdatesController.

(** ** internal/logging/logging.go *)

Definition LevelDebug : Z := -4.
Definition LevelInfo : Z := 0.
Definition LevelWarn : Z := 4.
Definition LevelError : Z := 8.

Record Options := mkOptions { lo_Level : Z; lo_Development : bool }.
(** The handler of the logger made: text or JSON, its level, and the keys and values that each
    record carries. *)
Record Logger := mkLogger { lg_Text : bool; lg_Level : Z; lg_With : list string }.

Definition NewLogger (opts : Options) : Logger :=
  let level := lo_Level opts in
  let level := if lo_Development opts && (LevelDebug <? level) then LevelDebug else level in
  mkLogger (lo_Development opts) level [].

(** slog's [With]. *)
Definition With (logger : Logger) (args : list string) : Logger :=
  mkLogger (lg_Text logger) (lg_Level logger) (lg_With logger ++ args).
Definition WithName (logger : Logger) (name : string) : Logger := With logger ["logger"; name].
Definition WithValues (logger : Logger) (keysAndValues : list string) : Logger :=
  With logger keysAndValues.
(** The logger a context carries, or slog's default. *)
Definition FromContext (ctx : option Logger) (Default : Logger) : Logger :=
  match ctx with None => Default | Some logger => logger end.

(** ** The flags *)

Record Flags := mkFlags {
  f_metrics_bind_address : string;
  f_health_probe_bind_address : string;
  f_leader_elect : bool;
  f_metrics_secure : bool;
  f_webhook_cert_path : string; f_webhook_cert_name : string; f_webhook_cert_key : string;
  f_metrics_cert_path : string; f_metrics_cert_name : string; f_metrics_cert_key : string;
  f_enable_http2 : bool;
  f_git_backend : string;
  f_git_repo_url : string;
  f_git_branch : string;
  f_log_level : string;
  f_development : bool }.

(** What [flag.Parse] leaves without arguments. *)
Definition default_flags : Flags :=
  mkFlags "0" ":8081" false true "" "tls.crt" "tls.key" "" "tls.crt" "tls.key" false
    "" "" "main" "info" true.

Definition log_level (logLevel : string) : Z :=
  if logLevel =?s "debug" then LevelDebug
  else if logLevel =?s "info" then LevelInfo
  else if logLevel =?s "warn" then LevelWarn
  else if logLevel =?s "error" then LevelError
  else LevelInfo.
Definition main_logger (f : Flags) : Logger :=
  NewLogger (mkOptions (log_level (f_log_level f)) (f_development f)).
Definition setupLog (f : Flags) : Logger := WithName (main_logger f) "setup".

(** ** Servers and manager *)

Record ServerOptions := mkServerOptions {
  so_BindAddress : string; so_SecureServing : bool; so_FilterProvider : bool;
  so_DisableHTTP2 : bool; so_CertDir : string; so_CertName : string; so_KeyName : string }.
Record ManagerOptions := mkManagerOptions {
  mo_Metrics : ServerOptions; mo_Webhook : ServerOptions;
  mo_HealthProbeBindAddress : string; mo_LeaderElection : bool; mo_LeaderElectionID : string }.

Definition webhookServerOptions (f : Flags) : ServerOptions :=
  if 0 <? Z.of_nat (String.length (f_webhook_cert_path f))
  then mkServerOptions "" false false (negb (f_enable_http2 f)) (f_webhook_cert_path f)
         (f_webhook_cert_name f) (f_webhook_cert_key f)
  else mkServerOptions "" false false (negb (f_enable_http2 f)) "" "" "".
Definition metricsServerOptions (f : Flags) : ServerOptions :=
  if 0 <? Z.of_nat (String.length (f_metrics_cert_path f))
  then mkServerOptions (f_metrics_bind_address f) (f_metrics_secure f) (f_metrics_secure f)
         (negb (f_enable_http2 f)) (f_metrics_cert_path f) (f_metrics_cert_name f)
         (f_metrics_cert_key f)
  else mkServerOptions (f_metrics_bind_address f) (f_metrics_secure f) (f_metrics_secure f)
         (negb (f_enable_http2 f)) "" "" "".
Definition managerOptions (f : Flags) : ManagerOptions :=
  mkManagerOptions (metricsServerOptions f) (webhookServerOptions f)
    (f_health_probe_bind_address f) (f_leader_elect f) "fae8bd14.fluxup.dev".

(** ** Git settings: flags, then the environment *)

Definition git_backend (f : Flags) (Getenv : string → string) : string :=
  if f_git_backend f =?s "" then Getenv "GIT_BACKEND" else f_git_backend f.
Definition git_repo_url (f : Flags) (Getenv : string → string) : string :=
  if f_git_repo_url f =?s "" then Getenv "GIT_REPO_URL" else f_git_repo_url f.
Definition git_branch (f : Flags) (Getenv : string → string) : string :=
  if (f_git_branch f =?s "") || (f_git_branch f =?s "main") then
    let envBranch := Getenv "GIT_BRANCH" in
    if negb (envBranch =?s "") then envBranch else f_git_branch f
  else f_git_branch f.
Definition git_config (f : Flags) (Getenv : string → string) : option Config :=
  let backend := git_backend f Getenv in
  let url := git_repo_url f Getenv in
  let token := Getenv "GIT_TOKEN" in
  if negb (backend =?s "") && negb (url =?s "") && negb (token =?s "")
  then Some (mkConfig backend url (git_branch f Getenv) token) else None.

(** ** The calls of [main] *)

Inductive controller :=
| ManagedAppC
| UpdatesC (u : StatusUpdater)
| UpgradeC (g : GiteaManager)
| RollbackC (g : GiteaManager).

(** Each answers the error of the call; [GetConfig] stands for [ctrl.GetConfigOrDie], which
    exits with 1 when there is no configuration. *)
Inductive setup_ev : Type → Type :=
| GetConfig : setup_ev (option error)
| MakeManager (opts : ManagerOptions) : setup_ev (option error)
| SetupWithManager (c : controller) : setup_ev (option error)
| AddHealthzCheck (name : string) : setup_ev (option error)
| AddReadyzCheck (name : string) : setup_ev (option error)
| Start : setup_ev (option error).

Section main.
Context {L : GiteaLib}.

(** From [AddHealthzCheck] to the end. *)
Definition run_manager : prog setup_ev Z :=
  check call (AddHealthzCheck "healthz") orelse _e => Ret 1 in
  check call (AddReadyzCheck "readyz") orelse _e => Ret 1 in
  check call Start orelse _e => Ret 1 in
  Ret 0.

(** The exit code of the process. *)
Definition main (f : Flags) (Getenv : string → string) : prog setup_ev Z :=
  check call GetConfig orelse _e => Ret 1 in
  check call (MakeManager (managerOptions f)) orelse _e => Ret 1 in
  check call (SetupWithManager ManagedAppC) orelse _e => Ret 1 in
  let statusUpdater := NewStatusUpdater UpdatesConfigMapNamespace UpdatesConfigMapName in
  check call (SetupWithManager (UpdatesC statusUpdater)) orelse _e => Ret 1 in
  match git_config f Getenv with
  | Some gitConfig =>
      match NewManager gitConfig with
      | Err _ => Ret 1
      | Ok gitManager =>
          check call (SetupWithManager (UpgradeC gitManager)) orelse _e => Ret 1 in
          check call (SetupWithManager (RollbackC gitManager)) orelse _e => Ret 1 in
          run_manager
      end
  | None => run_manager
  end.
End main.

(** ** The plan *)

Section plan.
Context {L : GiteaLib}.
Notation step := (setup_ev (option error)).

(** Do the steps in order, stopping with 1 at the first error. *)
Fixpoint follow (steps : list step) (code : Z) : prog setup_ev Z :=
  match steps with
  | [] => Ret code
  | s :: steps => check call s orelse _e => Ret 1 in follow steps code
  end.

(** The operation controllers are part of it when Git is configured; a configuration that
    makes no manager ends the process before anything runs. *)
Definition plan (f : Flags) (Getenv : string → string) : list step * Z :=
  let base := [GetConfig; MakeManager (managerOptions f); SetupWithManager ManagedAppC;
               SetupWithManager (UpdatesC (NewStatusUpdater "fluxup-system" "fluxup-updates"))] in
  let rest := [AddHealthzCheck "healthz"; AddReadyzCheck "readyz"; Start] in
  match git_config f Getenv with
  | None => (base ++ rest, 0)
  | Some cfg =>
      match NewManager cfg with
      | Ok g => (base ++ [SetupWithManager (UpgradeC g); SetupWithManager (RollbackC g)] ++ rest, 0)
      | Err _ => (base, 1)
      end
  end.

Lemma main_follow f Getenv : main f Getenv = follow (plan f Getenv).1 (plan f Getenv).2.
Proof. unfold main, plan. destruct (git_config f Getenv) as [cfg|]; [by destruct (NewManager cfg)|done]. Qed.

Fixpoint succeeded (steps : list step) (h : list (obs setup_ev)) : list (obs setup_ev) :=
  match steps with [] => h | s :: steps => succeeded steps (Obs s None :: h) end.
(** All steps succeeded, or the first one that failed was the last one taken. *)
Definition taken (steps : list step) (code : Z) (h0 : list (obs setup_ev)) (z : Z)
    (h : list (obs setup_ev)) : Prop :=
  (h = succeeded steps h0 ∧ z = code)
  ∨ ∃ before s after e, steps = before ++ s :: after
      ∧ h = Obs s (Some e) :: succeeded before h0 ∧ z = 1.

Lemma follow_wp steps code h0 :
  wp any free (follow steps code) h0 (λ o h, ∃ z, o = Done z ∧ taken steps code h0 z h).
Proof.
  induction steps as [|s steps IH] in h0 |- *; cbn.
  - exists code. split; [done|]. by left.
  - split; [done|]. intros [e|] _; cbn.
    + exists 1. split; [done|]. right. by exists [], s, steps, e.
    + eapply wp_mono; [apply IH|done|]. intros o h (z & -> & Hz). exists z. split; [done|].
      destruct Hz as [[-> ->]|(before & s' & after & e & -> & -> & ->)]; [by left|].
      right. by exists (s :: before), s', after, e.
Qed.

Lemma git_config_some f Getenv cfg :
  git_config f Getenv = Some cfg ↔
  git_backend f Getenv ≠ "" ∧ git_repo_url f Getenv ≠ "" ∧ Getenv "GIT_TOKEN" ≠ ""
  ∧ cfg = mkConfig (git_backend f Getenv) (git_repo_url f Getenv) (git_branch f Getenv)
            (Getenv "GIT_TOKEN").
Proof.
  unfold git_config.
  destruct (seqb_spec (git_backend f Getenv) ""), (seqb_spec (git_repo_url f Getenv) ""),
    (seqb_spec (Getenv "GIT_TOKEN") ""); cbn; (split; [try done|by intros (? & ? & ? & ->)]).
  by intros [= <-].
Qed.

(** A setting of the command line, or else of the environment. *)
Definition setting (flag env : string) : string := if flag =?s "" then env else flag.
(** The branch: that of the command line unless it is the default, then that of the
    environment, then the default. *)
Definition branch_setting (flag env : string) : string :=
  if bool_decide (flag ∈ ["" ; "main"]) then setting env "main" else flag.
Definition given (f : Flags) (Getenv : string → string) : Prop :=
  setting (f_git_backend f) (Getenv "GIT_BACKEND") ≠ ""
  ∧ setting (f_git_repo_url f) (Getenv "GIT_REPO_URL") ≠ "" ∧ Getenv "GIT_TOKEN" ≠ "".
(** The manager of the settings: a Gitea backend, for the repository the URL names. *)
Definition configured (f : Flags) (Getenv : string → string) (g : GiteaManager) : Prop :=
  setting (f_git_backend f) (Getenv "GIT_BACKEND") = "gitea"
  ∧ ∃ scheme host path repo rest,
      url_Parse (setting (f_git_repo_url f) (Getenv "GIT_REPO_URL")) = Ok (scheme, host, path)
      ∧ Split1 (Trim1 path "/"%char) "/"%char = g_owner g :: repo :: rest
      ∧ g_repo g = TrimSuffix repo ".git"
      ∧ gitea_NewClient (scheme +:+ "://" +:+ host) (Getenv "GIT_TOKEN") = None
      ∧ g_branch g = branch_setting (f_git_branch f) (Getenv "GIT_BRANCH").

Lemma git_branch_setting f Getenv :
  setting (git_branch f Getenv) "main"
  = branch_setting (f_git_branch f) (Getenv "GIT_BRANCH").
Proof.
  unfold git_branch, branch_setting, setting. set (env := Getenv "GIT_BRANCH").
  destruct (seqb_spec (f_git_branch f) "") as [->|Hf]; cbn [orb].
  { by destruct (seqb_spec env "") as [->|]; cbn [negb]; [|rewrite (proj2 (seqb_neq env "")) by done]. }
  destruct (seqb_spec (f_git_branch f) "main") as [->|Hm]; cbn [orb].
  { by destruct (seqb_spec env "") as [->|]; cbn [negb]; [|rewrite (proj2 (seqb_neq env "")) by done]. }
  rewrite bool_decide_false by set_solver. by rewrite (proj2 (seqb_neq _ "")).
Qed.
(** The manager the settings make is the one configured. *)
Lemma configured_manager f Getenv g :
  NewManager (mkConfig (git_backend f Getenv) (git_repo_url f Getenv) (git_branch f Getenv)
                (Getenv "GIT_TOKEN")) = Ok g ↔ configured f Getenv g.
Proof.
  unfold configured. change (git_backend f Getenv) with
    (setting (f_git_backend f) (Getenv "GIT_BACKEND")).
  change (git_repo_url f Getenv) with (setting (f_git_repo_url f) (Getenv "GIT_REPO_URL")).
  rewrite <- git_branch_setting. unfold NewManager; cbn [cfg_Backend].
  destruct (seqb_spec (setting (f_git_backend f) (Getenv "GIT_BACKEND")) "gitea") as [->|];
    [|naive_solver].
  unfold NewGiteaManager; cbn [cfg_RepoURL cfg_Branch cfg_Token].
  destruct (url_Parse _) as [[[scheme host] path]|e]; [|naive_solver]. split.
  - destruct (Split1 _ _) as [|owner [|repo rest]] eqn:Hs; [done..|].
    destruct (gitea_NewClient _ _) eqn:Hc; [done|]. intros [= <-]. cbn. split; [done|].
    by exists scheme, host, path, repo, rest.
  - destruct g as [owner name branch]; cbn [g_owner g_repo g_branch].
    intros (_ & ? & ? & ? & repo & rest & [= <- <- <-] & -> & -> & -> & ->). done.
Qed.

(** C34: the process takes the steps of the plan in order and stops at the first that fails,
    with exit code 1; code 0 means every step was taken, the manager's run the last.  The
    upgrade and rollback controllers are part of it exactly when the backend, the repository
    and the token that are given, by the command line or the environment, make a manager: a
    Gitea one, of the repository that the URL names, with which both are set up, and on the
    branch of the command line, or that of the environment where this is empty or main.  When
    all three are given and make none the plan is not to run the manager at all, and to exit
    with 1. *)
Theorem main_follows_plan f Getenv :
  wp any free (main f Getenv) []
    (λ o h, ∃ z, o = Done z ∧ taken (plan f Getenv).1 (plan f Getenv).2 [] z h)
  ∧ (∀ g c, c = UpgradeC g ∨ c = RollbackC g →
       In (SetupWithManager c) (plan f Getenv).1 ↔ given f Getenv ∧ configured f Getenv g)
  ∧ (given f Getenv → (∀ g, ¬ configured f Getenv g) →
     ¬ In Start (plan f Getenv).1 ∧ (plan f Getenv).2 = 1)
  ∧ (¬ given f Getenv ∨ (∃ g, configured f Getenv g) →
     last (plan f Getenv).1 = Some Start ∧ (plan f Getenv).2 = 0).
Proof.
  split; [rewrite main_follow; apply follow_wp|].
  pose proof (configured_manager f Getenv) as Hm.
  pose proof (git_config_some f Getenv) as Hg. unfold plan.
  destruct (git_config f Getenv) as [cfg|].
  - destruct (proj1 (Hg cfg) eq_refl) as (Hb & Hu & Ht & ->). clear Hg.
    assert (given f Getenv) as Hgiven by done.
    destruct (NewManager _) as [g'|e]; cbn.
    + assert (configured f Getenv g') by by apply Hm.
      split; [|split; [naive_solver|done]].
      intros g c Hc. pose proof (Hm g).
      destruct Hc as [-> | ->]; (split; [intros; split; naive_solver|naive_solver]).
    + assert (∀ g, ¬ configured f Getenv g) as Hn by (intros g Hg%Hm; done).
      split; [|split; [intros; split; [naive_solver|done]|naive_solver]].
      intros g c Hc. specialize (Hn g). destruct Hc as [-> | ->]; naive_solver.
  - assert (¬ given f Getenv) as Hn.
    { intros (H1 & H2 & H3). by specialize (proj2 (Hg _) (conj H1 (conj H2 (conj H3 eq_refl)))). }
    cbn. split; [|done]. intros g c Hc. destruct Hc as [-> | ->]; naive_solver.
Qed.
End plan.

(** In development mode, which is the default, the log level of the flags does not matter;
    the messages of the set-up carry its name. *)
Lemma development_logs_everything f :
  f_development f = true →
  main_logger f = mkLogger true LevelDebug [] ∧ setupLog f = mkLogger true LevelDebug ["logger"; "setup"].
Proof.
  intros Hd. assert (main_logger f = mkLogger true LevelDebug []) as Hm.
  { unfold main_logger, NewLogger. cbn. rewrite Hd. cbn. unfold log_level. by repeat case_match. }
  split; [done|]. unfold setupLog. by rewrite Hm.
Qed.

(** ** The signal handler for coverage data *)

Inductive coverage_ev : Type → Type :=
| LookupEnv (name : string) : coverage_ev (option string)
| NotifySIGUSR1 : coverage_ev unit
| WriteStderr (s : string) : coverage_ev unit
| WriteCountersDir (dir : string) : coverage_ev (option error).

(** What the goroutine does for each signal. *)
Definition on_signal (coverDir : string) : prog coverage_ev unit :=
  let* _ := call (WriteStderr ("coverage: received SIGUSR1, writing coverage data to "
                               +:+ coverDir +:+ nl)) in
  let* err := call (WriteCountersDir coverDir) in
  call (WriteStderr
    match err with
    | Some err => "coverage: failed to write counters: " +:+ Error err +:+ nl
    | None => "coverage: successfully wrote coverage data" +:+ nl
    end).
(** Answers what it starts, if anything. *)
Definition setupCoverageSignalHandler : prog coverage_ev (option (prog coverage_ev unit)) :=
  let* dir := call (LookupEnv "GOCOVERDIR") in
  match dir with
  | None => Ret None
  | Some coverDir =>
      let* _ := call NotifySIGUSR1 in
      Ret (Some (on_signal coverDir))
  end.
