(* ===== verification/Phases.v ===== *)
(** * The phases of an operation

Upgrades and rollbacks go through the same phases: suspend Flux, stop the workloads,
prepare the volumes (take snapshots, or restore them), commit to git, let Flux reconcile,
check health, complete; a dry run goes through a shorter cycle.  The conditions of a
request, which the reconcilers dispatch on, abstract to an [astate]; [astep] is the state
machine their documentation describes. *)

From S2P Require Import Prelude.

Record astate := AState {
  a_dry : bool;
  a_suspended : option bool;    (**r the Suspended condition, if there is one: is it True? *)
  a_stopped : bool;
  a_prepared : bool;            (**r SnapshotReady, or VolumesRestored *)
  a_committed : bool;           (**r GitCommitted, or GitReverted *)
  a_reconciled : bool;
  a_healthy : bool;
  a_complete : option bool      (**r Complete: True, False, or neither *)
}.

(** ** Steps: what one status write may change *)

Inductive astep : astate → astate → Prop :=
| Stutter d s st sn c r h :
    astep (AState d s st sn c r h None) (AState d s st sn c r h None)
| Fail d s st sn c r h s' :
    s' = s ∨ (s ≠ None ∧ s' = Some false) →
    astep (AState d s st sn c r h None) (AState d s' st sn c r h (Some false))
(* the phases *)
| Suspend st sn c r h sn' :
    sn' = sn ∨ sn' = true →
    astep (AState false None st sn c r h None) (AState false (Some true) st sn' c r h None)
| ScaleDown b sn c r h :
    astep (AState false (Some b) false sn c r h None) (AState false (Some b) true sn c r h None)
| Prepare b c r h :
    astep (AState false (Some b) true false c r h None) (AState false (Some b) true true c r h None)
| Commit b r h :
    astep (AState false (Some b) true true false r h None)
          (AState false (Some b) true true true r h None)
| Resume b h :
    astep (AState false (Some b) true true true false h None)
          (AState false (Some false) true true true false h None)
| Reconciled b h :
    astep (AState false (Some b) true true true false h None)
          (AState false (Some false) true true true true h None)
| Healthy b :
    astep (AState false (Some b) true true true true false None)
          (AState false (Some b) true true true true true None)
| Complete b b' :
    b' = b ∨ b' = false →
    astep (AState false (Some b) true true true true true None)
          (AState false (Some b') true true true true true (Some true))
(* the phases of a dry run *)
| DrySuspend s st sn c r h :
    s ≠ Some true →
    astep (AState true s st sn c r h None) (AState true (Some true) st sn c r h None)
| DryScaleDown sn c r h :
    astep (AState true (Some true) false sn c r h None) (AState true (Some true) true sn c r h None)
| DryScaleUp c r h :
    astep (AState true (Some true) true false c r h None)
          (AState true (Some true) true true c r h None)
| DryComplete st sn c r h :
    astep (AState true (Some true) st sn c r h None)
          (AState true (Some true) st sn c r h (Some true)).

Definition terminal (a : astate) : bool :=
  match a_complete a with Some _ => true | None => false end.

(** A new request. *)
Definition initial (dry : bool) : astate := AState dry None false false false false false None.

(** ** What every reachable state satisfies *)

Record ordered (a : astate) : Prop := {
  ord_stopped : a_stopped a = true → a_suspended a ≠ None;
  ord_committed : a_committed a = true → a_dry a = false ∧ a_stopped a = true ∧ a_prepared a = true;
  ord_reconciled : a_reconciled a = true → a_committed a = true;
  ord_resumed : a_reconciled a = true → a_suspended a = Some false;
  ord_healthy : a_healthy a = true → a_reconciled a = true;
  ord_complete : a_complete a = Some true → a_dry a = false → a_healthy a = true
}.

Lemma initial_ordered dry : ordered (initial dry).
Proof. by split. Qed.

Lemma astep_ordered a a' : astep a a' → ordered a → ordered a'.
Proof.
  destruct 1; intros [H1 H2 H3 H4 H5 H6]; cbn in *; split; cbn; intros;
    intuition congruence.
Qed.

(** Progress: how far a state is; a step never goes back. *)
Definition rank (a : astate) : nat :=
  match a_complete a with
  | Some _ => 7
  | None =>
      if match a_suspended a with
         | None => true | Some b => a_dry a && negb b end then 0
      else if negb (a_stopped a) then 1
      else if negb (a_prepared a) then 2
      else if negb (a_committed a) then 3
      else if negb (a_reconciled a) then 4
      else if negb (a_healthy a) then 5
      else 6
  end.

Lemma astep_rank a a' : astep a a' → (rank a ≤ rank a')%nat.
Proof.
  destruct 1; unfold rank; cbn; repeat case_match; simplify_eq/=; try lia;
    intuition congruence.
Qed.

(** Facts that a step never takes back. *)
Lemma astep_committed a a' : astep a a' → a_committed a = true → a_committed a' = true.
Proof. by destruct 1. Qed.
Lemma astep_dry a a' : astep a a' → a_dry a' = a_dry a.
Proof. by destruct 1. Qed.
Lemma astep_nonterminal a a' : astep a a' → a_complete a = None.
Proof. by destruct 1. Qed.

