(* ===== verification/Operation.v ===== *)
(** * The interface of an operation resource

UpgradeRequest and RollbackRequest share their life cycle: conditions, a phase clock, a
finalizer, a status subresource.  [Operation] is what the shared code and the shared
proofs need of such a resource: its parts, the three calls that read and write it, and
the names of the two conditions in which upgrades and rollbacks differ.  The small methods
that both reconcilers define with the same body are here, once. *)

From S2P Require Import Prelude GoLib Api Platform Footprint Controller Phases.

(** The calls on the resource itself, with the type of their answer. *)
Inductive own_call (O : Type) : Type → Type :=
| OwnGet (k : NamespacedName) : own_call O (res O)
| OwnUpdate (u : O) : own_call O (res O)
| OwnStatus (u : O) : own_call O (res O).
Arguments OwnGet {O} k.
Arguments OwnUpdate {O} u.
Arguments OwnStatus {O} u.

Class Operation (O : Type) := {
  op_SpecT : Type;
  op_Spec : O → op_SpecT;
  op_DryRun : op_SpecT → bool;
  op_Meta : O → ObjectMeta;
  op_set_Meta : ObjectMeta → O → O;
  op_StatusT : Type;
  op_Status : O → op_StatusT;
  op_Conditions : op_StatusT → list Condition;
  op_set_Conditions : list Condition → O → O;
  op_PhaseStartedAt : op_StatusT → option Time;
  op_set_PhaseStartedAt : option Time → O → O;
  op_Scaling : op_StatusT → option ScalingStatus;
  op_set_Scaling : option ScalingStatus → O → O;
  (* the condition that the volumes are prepared, and that the commit is made *)
  op_Prepared : string;
  op_Committed : string;
  (* r.Get, r.Update and r.Status().Update *)
  op_Get : NamespacedName → ev (res O);
  op_Update : O → ev (res O);
  op_StatusUpdate : O → ev (res O);
  op_view : ∀ R, ev R → option (own_call O R)
}.
#[export] Hint Mode Operation + : typeclass_instances.
Arguments op_view O {_ R} e.
Arguments op_Get O {_} k.
Arguments op_Prepared O {_}.
Arguments op_Committed O {_}.

(** What [UpgradeRequest] and [RollbackRequest] are as operations. *)
#[export] Instance upgrade_operation : Operation UpgradeRequest := {|
  op_Spec := ur_Spec;
  op_DryRun := us_DryRun;
  op_Meta := ur_Meta;
  op_set_Meta := ur_set_Meta;
  op_Status := ur_Status;
  op_Conditions := ust_Conditions;
  op_set_Conditions cs u := ur_set_Status (ust_set_Conditions cs (ur_Status u)) u;
  op_PhaseStartedAt := ust_PhaseStartedAt;
  op_set_PhaseStartedAt t u := ur_set_Status (ust_set_PhaseStartedAt t (ur_Status u)) u;
  op_Scaling := ust_Scaling;
  op_set_Scaling x u := ur_set_Status (ust_set_Scaling x (ur_Status u)) u;
  op_Prepared := ConditionTypeSnapshotReady;
  op_Committed := ConditionTypeGitCommitted;
  op_Get := GetUpgrade;
  op_Update := UpdateUpgrade;
  op_StatusUpdate := StatusUpdateUpgrade;
  op_view R e := match e with
                 | GetUpgrade k => Some (OwnGet k)
                 | UpdateUpgrade u => Some (OwnUpdate u)
                 | StatusUpdateUpgrade u => Some (OwnStatus u)
                 | _ => None
                 end
|}.

#[export] Instance rollback_operation : Operation RollbackRequest := {|
  op_Spec := rb_Spec;
  op_DryRun := rs_DryRun;
  op_Meta := rb_Meta;
  op_set_Meta := rb_set_Meta;
  op_Status := rb_Status;
  op_Conditions := rst_Conditions;
  op_set_Conditions cs r := rb_set_Status (rst_set_Conditions cs (rb_Status r)) r;
  op_PhaseStartedAt := rst_PhaseStartedAt;
  op_set_PhaseStartedAt t r := rb_set_Status (rst_set_PhaseStartedAt t (rb_Status r)) r;
  op_Scaling := rst_Scaling;
  op_set_Scaling x r := rb_set_Status (rst_set_Scaling x (rb_Status r)) r;
  op_Prepared := ConditionTypeVolumesRestored;
  op_Committed := ConditionTypeGitReverted;
  op_Get := GetRollback;
  op_Update := UpdateRollback;
  op_StatusUpdate := StatusUpdateRollback;
  op_view R e := match e with
                 | GetRollback k => Some (OwnGet k)
                 | UpdateRollback r => Some (OwnUpdate r)
                 | StatusUpdateRollback r => Some (OwnStatus r)
                 | _ => None
                 end
|}.

(** Assignments change what they name, and calls are seen for what they are. *)
Class OperationLaws (O : Type) {Op : Operation O} : Prop := {
  conditions_set cs (u : O) : op_Conditions (op_Status (op_set_Conditions cs u)) = cs;
  spec_set_conditions cs (u : O) : op_Spec (op_set_Conditions cs u) = op_Spec u;
  meta_set_conditions cs (u : O) : op_Meta (op_set_Conditions cs u) = op_Meta u;
  conditions_set_phase t (u : O) :
    op_Conditions (op_Status (op_set_PhaseStartedAt t u)) = op_Conditions (op_Status u);
  spec_set_phase t (u : O) : op_Spec (op_set_PhaseStartedAt t u) = op_Spec u;
  meta_set_phase t (u : O) : op_Meta (op_set_PhaseStartedAt t u) = op_Meta u;
  conditions_set_scaling x (u : O) :
    op_Conditions (op_Status (op_set_Scaling x u)) = op_Conditions (op_Status u);
  spec_set_scaling x (u : O) : op_Spec (op_set_Scaling x u) = op_Spec u;
  meta_set_scaling x (u : O) : op_Meta (op_set_Scaling x u) = op_Meta u;
  meta_set_meta m (u : O) : op_Meta (op_set_Meta m u) = m;
  spec_set_meta m (u : O) : op_Spec (op_set_Meta m u) = op_Spec u;
  status_set_meta m (u : O) : op_Status (op_set_Meta m u) = op_Status u;
  view_get k : op_view O (op_Get O k) = Some (OwnGet k);
  view_update (u : O) : op_view O (op_Update u) = Some (OwnUpdate u);
  view_status (u : O) : op_view O (op_StatusUpdate u) = Some (OwnStatus u);
  view_mutates R (e : ev R) (c : own_call O R) :
    op_view O e = Some c → mutates R e = match c with OwnGet _ => false | _ => true end;
  view_kind R (e : ev R) (c : own_call O R) :
    op_view O e = Some c → mutates R e = false → kind_of e = kind_of (op_Get O (mkKey "" ""));
  view_other R (e : ev R) :
    kmem (kind_of e) [KGetUpgrade; KUpdateUpgrade; KStatusUpgrade; KGetRollback;
                      KUpdateRollback; KStatusRollback] = false → op_view O e = None;
  condition_names :
    NoDup [ConditionTypeSuspended; ConditionTypeWorkloadStopped; op_Prepared O; op_Committed O;
           ConditionTypeReconciled; ConditionTypeHealthy; ConditionTypeComplete]
}.

#[export] Hint Mode OperationLaws + - : typeclass_instances.

#[export] Instance upgrade_laws : OperationLaws UpgradeRequest.
Proof.
  split; try done; first [by intros R [] c [= <-]|by intros R []|by apply (bool_decide_unpack _)].
Qed.
#[export] Instance rollback_laws : OperationLaws RollbackRequest.
Proof.
  split; try done; first [by intros R [] c [= <-]|by intros R []|by apply (bool_decide_unpack _)].
Qed.

(** ** The methods both reconcilers have *)

Section methods.
Context {P : Platform} {O : Type} {Op : Operation O}.
Implicit Types (u : O).

(** [meta.SetStatusCondition(&u.Status.Conditions, metav1.Condition{...})] *)
Definition generation_cond (u : O) (type status reason message : string) : O :=
  op_set_Conditions
    (SetStatusCondition (op_Conditions (op_Status u)) (mkCond (op_Meta u) type status reason message))
    u.
Definition cond_true (u : O) (type : string) : bool :=
  IsStatusConditionTrue (op_Conditions (op_Status u)) type.
Definition condition (u : O) (type : string) : option Condition :=
  FindStatusCondition (op_Conditions (op_Status u)) type.

Definition setPhaseStartIfNeeded (u : O) : M O :=
  match op_PhaseStartedAt (op_Status u) with
  | None => let* now := call Now in Ret (op_set_PhaseStartedAt (Some now) u)
  | Some _ => Ret u
  end.

Definition resetPhaseStart (u : O) : O := op_set_PhaseStartedAt None u.

Definition isPhaseTimedOut (u : O) (timeout : Duration) : M bool :=
  match op_PhaseStartedAt (op_Status u) with
  | None => Ret false
  | Some t => let* now := call Now in Ret (timeout <? now - t)
  end.

(** [if err := r.Status().Update(ctx, u); err != nil { return ctrl.Result{}, err };
    return result, nil] *)
Definition update_then (u : O) (result : CtrlResult) : M Reply :=
  let? _u := call (op_StatusUpdate u) orelse err => Ret (done_result, Some err) in
  Ret (result, None).

(** The status update of a terminal state, then the finalizer is removed. *)
Definition finish (u : O) : M Reply :=
  let? u := call (op_StatusUpdate u) orelse err => Ret (done_result, Some err) in
  if ContainsFinalizer (op_Meta u) OperationFinalizer then
    let u := op_set_Meta (RemoveFinalizer (op_Meta u) OperationFinalizer) u in
    let? _u := call (op_Update u) orelse err => Ret (done_result, Some err) in
    Ret (done_result, None)
  else Ret (done_result, None).

Definition is_terminal (u : O) : bool :=
  cond_true u ConditionTypeComplete ||
  match condition u ConditionTypeComplete with
  | Some c => c_Status c =?s ConditionFalse
  | None => false
  end.

(** The head of [Reconcile] once the object is fetched: a deleted object loses its
    finalizer, a new one gets it, a finished one is left alone; any other goes to [live]. *)
Definition with_finalizer (live : O → M Reply) (u : O) : M Reply :=
  match om_DeletionTimestamp (op_Meta u) with
  | Some _ =>
      if ContainsFinalizer (op_Meta u) OperationFinalizer then
        let u := op_set_Meta (RemoveFinalizer (op_Meta u) OperationFinalizer) u in
        let? _u := call (op_Update u) orelse err => Ret (done_result, Some err) in
        Ret (done_result, None)
      else Ret (done_result, None)
  | None =>
      if negb (ContainsFinalizer (op_Meta u) OperationFinalizer) then
        let u := op_set_Meta (AddFinalizer (op_Meta u) OperationFinalizer) u in
        let? _u := call (op_Update u) orelse err => Ret (done_result, Some err) in
        Ret (requeue_now, None)
      else if is_terminal u then Ret (done_result, None)
      else live u
  end.
End methods.

(** ** The abstraction to a phase state *)

Section abs.
Context {P : Platform} {O : Type} {Op : Operation O}.
Implicit Types (u v : O).

(** Is the condition of this type True?  [None]: there is no such condition. *)
Definition flag (u : O) (t : string) : option bool :=
  (λ c, c_Status c =?s ConditionTrue) <$> condition u t.
Definition flagged (u : O) (t : string) : bool := default false (flag u t).
Definition completion (u : O) : option bool :=
  match condition u ConditionTypeComplete with
  | Some c => if c_Status c =?s ConditionTrue then Some true
              else if c_Status c =?s ConditionFalse then Some false else None
  | None => None
  end.

Definition abs (u : O) : astate :=
  AState (op_DryRun (op_Spec u)) (flag u ConditionTypeSuspended)
    (flagged u ConditionTypeWorkloadStopped) (flagged u (op_Prepared O))
    (flagged u (op_Committed O)) (flagged u ConditionTypeReconciled)
    (flagged u ConditionTypeHealthy) (completion u).

(** Two objects that differ at most in the parts of the status that are not conditions. *)
Definition same_conditions (u v : O) : Prop :=
  op_Spec v = op_Spec u ∧ op_Meta v = op_Meta u
  ∧ op_Conditions (op_Status v) = op_Conditions (op_Status u).

Lemma abs_ext u v :
  op_Spec v = op_Spec u → op_Conditions (op_Status v) = op_Conditions (op_Status u) →
  abs v = abs u.
Proof.
  intros Hs Hc. unfold abs, flagged, flag, completion, condition. by rewrite Hs, Hc.
Qed.
Lemma same_conditions_abs u v : same_conditions u v → abs v = abs u.
Proof. intros (Hs & _ & Hc). by apply abs_ext. Qed.
Lemma same_abs u v : op_Spec u = op_Spec v → op_Status u = op_Status v → abs u = abs v.
Proof. intros Hs Ht. apply abs_ext; [done|by rewrite Ht]. Qed.

Context {PL : PlatformLaws P} {OL : OperationLaws O}.

Lemma cond_true_flagged u t : cond_true u t = flagged u t.
Proof.
  unfold cond_true, flagged, flag, condition. rewrite is_true_find.
  by destruct (FindStatusCondition _ t).
Qed.

Lemma condition_set u t s reason m :
  condition (generation_cond u t s reason m) t = Some (mkCond (op_Meta u) t s reason m).
Proof.
  unfold condition, generation_cond. rewrite conditions_set.
  exact (find_set_same (op_Conditions (op_Status u)) (mkCond (op_Meta u) t s reason m)).
Qed.
Lemma condition_other u t s reason m t' :
  t' ≠ t → condition (generation_cond u t s reason m) t' = condition u t'.
Proof. intros Ht. unfold condition, generation_cond. by rewrite conditions_set, find_set_other. Qed.

Lemma flag_set u t s reason m t' :
  flag (generation_cond u t s reason m) t' =
  if t' =?s t then Some (s =?s ConditionTrue) else flag u t'.
Proof.
  unfold flag. destruct (seqb_spec t' t) as [->|Hne].
  - by rewrite condition_set.
  - by rewrite condition_other.
Qed.

Lemma flagged_set u t s reason m t' :
  flagged (generation_cond u t s reason m) t' =
  if t' =?s t then s =?s ConditionTrue else flagged u t'.
Proof. unfold flagged. rewrite flag_set. by destruct (t' =?s t). Qed.

Lemma completion_set u t s reason m :
  completion (generation_cond u t s reason m) =
  if ConditionTypeComplete =?s t then
    if s =?s ConditionTrue then Some true else if s =?s ConditionFalse then Some false else None
  else completion u.
Proof.
  unfold completion. destruct (seqb_spec ConditionTypeComplete t) as [<-|Hne].
  - by rewrite condition_set.
  - by rewrite condition_other.
Qed.

Lemma abs_set u t s reason m :
  abs (generation_cond u t s reason m) =
  let b := s =?s ConditionTrue in
  let field t' old := if t' =?s t then b else old in
  let a := abs u in
  AState (a_dry a)
    (if ConditionTypeSuspended =?s t then Some b else a_suspended a)
    (field ConditionTypeWorkloadStopped (a_stopped a))
    (field (op_Prepared O) (a_prepared a))
    (field (op_Committed O) (a_committed a))
    (field ConditionTypeReconciled (a_reconciled a))
    (field ConditionTypeHealthy (a_healthy a))
    (if ConditionTypeComplete =?s t then
       if b then Some true else if s =?s ConditionFalse then Some false else None
     else a_complete a).
Proof.
  unfold abs; cbn. rewrite flag_set, !flagged_set, completion_set.
  unfold generation_cond. by rewrite spec_set_conditions.
Qed.

Lemma abs_reset u : abs (resetPhaseStart u) = abs u.
Proof.
  apply abs_ext; unfold resetPhaseStart; [apply spec_set_phase|apply conditions_set_phase].
Qed.

Lemma abs_set_scaling x u : abs (op_set_Scaling x u) = abs u.
Proof. apply abs_ext; [apply spec_set_scaling|apply conditions_set_scaling]. Qed.

Lemma is_terminal_abs u : is_terminal u = terminal (abs u).
Proof.
  unfold is_terminal, terminal. cbn. rewrite cond_true_flagged.
  unfold flagged, flag, completion.
  destruct (condition u ConditionTypeComplete) as [c|]; cbn; [|done].
  by destruct (c_Status c =?s ConditionTrue), (c_Status c =?s ConditionFalse).
Qed.

(** The tests of the handlers, read off the abstraction. *)
Lemma cond_true_abs u :
  cond_true u ConditionTypeSuspended = default false (a_suspended (abs u))
  ∧ cond_true u ConditionTypeWorkloadStopped = a_stopped (abs u)
  ∧ cond_true u (op_Prepared O) = a_prepared (abs u)
  ∧ cond_true u (op_Committed O) = a_committed (abs u)
  ∧ cond_true u ConditionTypeReconciled = a_reconciled (abs u)
  ∧ cond_true u ConditionTypeHealthy = a_healthy (abs u).
Proof. by rewrite !cond_true_flagged. Qed.

(** The Complete condition, if there is one, says True or False. *)
Definition decided_in (cs : list Condition) : Prop :=
  ∀ c, FindStatusCondition cs ConditionTypeComplete = Some c →
       c_Status c = ConditionTrue ∨ c_Status c = ConditionFalse.
Definition decided (u : O) : Prop := decided_in (op_Conditions (op_Status u)).

Lemma decided_ext u v :
  op_Conditions (op_Status v) = op_Conditions (op_Status u) → decided u → decided v.
Proof. unfold decided. by intros ->. Qed.
Lemma decided_terminal u :
  decided u → terminal (abs u) = true ↔ is_Some (condition u ConditionTypeComplete).
Proof.
  intros Hu. rewrite <- is_terminal_abs. unfold is_terminal. rewrite cond_true_flagged.
  unfold flagged, flag. destruct (condition u ConditionTypeComplete) as [c|] eqn:Hc; cbn.
  - split; [by eexists|]. intros _. by destruct (Hu c Hc) as [-> | ->].
  - split; [done|]. by intros [].
Qed.

(** May this condition be set without leaving the completion open? *)
Definition decisive (t s : string) : bool :=
  (s =?s ConditionTrue) || (s =?s ConditionFalse) || negb (ConditionTypeComplete =?s t).
Lemma decided_in_set cs c :
  decisive (c_Type c) (c_Status c) = true → decided_in cs → decided_in (SetStatusCondition cs c).
Proof.
  unfold decisive, decided_in. intros Hs Hu d.
  destruct (seqb_spec ConditionTypeComplete (c_Type c)) as [->|Hne].
  - rewrite find_set_same. intros [= <-].
    rewrite orb_false_r in Hs. apply orb_true_iff in Hs as [Hs|Hs]; apply seqb_eq in Hs; auto.
  - rewrite find_set_other by done. apply Hu.
Qed.
Lemma decided_set u t s reason m :
  decisive t s = true → decided u → decided (generation_cond u t s reason m).
Proof.
  intros Hs Hu. unfold decided, generation_cond. rewrite conditions_set. by apply decided_in_set.
Qed.
Lemma decisive_terminal u t s reason m :
  terminal (abs (generation_cond u t s reason m)) = true → decisive t s = true.
Proof.
  rewrite abs_set. unfold terminal, decisive. cbn.
  destruct (ConditionTypeComplete =?s t); cbn; [|intros _; by rewrite orb_true_r].
  by destruct (s =?s ConditionTrue), (s =?s ConditionFalse).
Qed.

Lemma suspended_absent u : condition u ConditionTypeSuspended = None ↔ a_suspended (abs u) = None.
Proof. cbn. unfold flag. by destruct (condition u _). Qed.
End abs.
Arguments abs : simpl never.
Arguments condition : simpl never.
Arguments generation_cond : simpl never.

(** Compute the abstraction of an object whose conditions were just set. *)
Ltac abs_simp :=
  repeat first [rewrite abs_set
               | match goal with |- context [abs (resetPhaseStart ?u)] => rewrite (abs_reset u) end];
  cbn beta zeta in *;
  cbn [op_Prepared op_Committed upgrade_operation rollback_operation] in *; seqb_lits;
  repeat match goal with
  | H : abs ?u = AState _ _ _ _ _ _ _ _ |- context [abs ?v] => change (abs v) with (abs u); rewrite H
  | H : abs ?u = AState _ _ _ _ _ _ _ _, H' : context [abs ?u] |- _ =>
      lazymatch type of H' with abs _ = AState _ _ _ _ _ _ _ _ => fail | _ => rewrite H in H' end
  end;
  cbn [a_dry a_suspended a_stopped a_prepared a_committed a_reconciled a_healthy a_complete] in *.

(** ** The object a history last read *)

Section latest.
Context {O : Type} {Op : Operation O}.

(** The object an answer to one of the resource's own calls shows. *)
Definition own_answer {R} (c : own_call O R) : R → option O :=
  match c in own_call _ R return R → option O with
  | OwnGet _ | OwnUpdate _ | OwnStatus _ =>
      λ a, match a with Ok u => Some u | Err _ => None end
  end.

(** What an answer leaves of it: after a write that failed nothing is known. *)
Definition own_latest {R} (c : own_call O R) : R → option O → option O :=
  match c in own_call _ R return R → option O → option O with
  | OwnGet _ => λ a l, match a with Ok u => Some u | Err _ => l end
  | OwnUpdate _ | OwnStatus _ => λ a _, match a with Ok u => Some u | Err _ => None end
  end.
Fixpoint latest (h : list event) : option O :=
  match h with
  | [] => None
  | Obs e a :: h' =>
      match op_view O e with
      | Some c => own_latest c a (latest h')
      | None => latest h'
      end
  end.

(** A call that is not one of the resource's own. *)
Definition elsewhere R (e : ev R) : Prop := op_view O e = None.

(** The kinds of calls that only read, the reading of the resource itself left out. *)
Definition reading : list kind :=
  List.filter (λ k, negb (bool_decide (k = kind_of (op_Get O (mkKey "" "")))))
    [KClock; KSleep; KRange; KGetUpgrade; KGetRollback; KGetApp; KListApps; KGetKs;
     KGetWorkload; KListPods; KGetPVC; KGetSnapshot; KListSnapshots; KListSecrets;
     KGetConfigMap; KGitRead].

Lemma within_reading {OL : OperationLaws O} R (e : ev R) :
  within reading R e → mutates R e = false ∧ elsewhere R e.
Proof.
  unfold within. rewrite kmem_In. unfold reading. rewrite filter_In, negb_true_iff.
  intros [Hin Hk]. rewrite bool_decide_eq_false in Hk.
  assert (mutates R e = false) as Hm.
  { rewrite mutates_kind. by repeat destruct Hin as [<-|Hin]. }
  split; [done|]. unfold elsewhere. destruct (op_view O e) eqn:Hv; [|done].
  by destruct Hk; eapply view_kind.
Qed.

Lemma latest_app d h : Forall (obs_sat elsewhere) d → latest (d ++ h) = latest h.
Proof.
  induction 1 as [|[R e r] d He Hd IH]; [done|].
  cbn in *. unfold elsewhere in He. by rewrite He.
Qed.
End latest.
Arguments reading O {_}.
Arguments elsewhere O {_} R e.
