(* ===== verification/Guard.v ===== *)
(** * What a reconciler may do, and the rules to prove it

[guard] is the contract of a reconciler: every call that changes something is permitted by
the state of the object last read, and the writes that matter carry what they should.
[Machine] is what each reconciler adds to it: the calls its states permit, how it learns
its application, and the content of its own writes.  The lemmas below are the rules by
which the files [UpgradeProofs] and [RollbackProofs] walk the handlers. *)

From S2P Require Import Prelude GoLib Api Platform Footprint Discovery Flux Controller Phases Operation.

(** ** The contract *)

Class Machine (O : Type) {Op : Operation O} := {
  permitted : astate → kind → bool;
  (* the application was read on behalf of the object, and was this one *)
  asked : list event → O → ManagedApp → Prop;
  extra : list event → O → ∀ R, ev R → Prop
}.
#[export] Hint Mode Machine + - : typeclass_instances.
Arguments permitted O {_ _} a k.
Arguments extra {O _ _} h u R e.

Class MachineLaws (O : Type) {Op : Operation O} {Mc : Machine O} : Prop := {
  asked_app d h (u : O) app : asked h u app → asked (d ++ h) u app;
  permitted_status a (u : O) : terminal a = false → permitted O a (kind_of (op_StatusUpdate u)) = true;
  permitted_update a (u : O) : permitted O a (kind_of (op_Update u)) = true;
  permitted_ks a : terminal a = false → permitted O a KUpdateKs = true;
  (* workloads are scaled before they count as stopped, and by a suspended dry run;
     nothing more is asked of a scaling *)
  permitted_stop a :
    terminal a = false → a_dry a = false → a_suspended a ≠ None → a_stopped a = false →
    permitted O a KPatchWorkload = true;
  permitted_dry_scale a :
    terminal a = false → a_dry a = true → a_suspended a = Some true →
    a_stopped a && a_prepared a = false → permitted O a KPatchWorkload = true;
  extra_scale h (u : O) R (e : ev R) : kind_of e = KPatchWorkload → extra h u R e;
  (* a finished object is left alone *)
  permitted_live a k (u : O) :
    permitted O a k = true → kmut k = true → k ≠ kind_of (op_Update u) → terminal a = false
}.

#[export] Hint Mode MachineLaws + - - : typeclass_instances.

Section guard.
Context {P : Platform} {O : Type} {Op : Operation O} {Mc : Machine O}.
Implicit Types (h : list event) (u x : O).

Definition finalizer_write h u x : Prop :=
  op_Spec x = op_Spec u ∧ op_Status x = op_Status u ∧
  ((ContainsFinalizer (op_Meta u) OperationFinalizer = false
    ∧ om_DeletionTimestamp (op_Meta u) = None
    ∧ op_Meta x = AddFinalizer (op_Meta u) OperationFinalizer)
   ∨ (op_Meta x = RemoveFinalizer (op_Meta u) OperationFinalizer
      ∧ (om_DeletionTimestamp (op_Meta u) ≠ None
         ∨ ∃ y h', h = Obs (op_StatusUpdate y) (Ok u) :: h' ∧ terminal (abs y) = true))).

Definition suspend_write h u (ks : Kustomization) : Prop :=
  ∃ app ks0 h',
    h = Obs (GetKustomization (suspend_key app)) (Ok ks0) :: h' ∧ asked h u app
    ∧ ks = ks_set_Suspend (negb (ks_Suspend ks0)) ks0
    ∧ (ks_Suspend ks = true → a_suspended (abs u) = None ∨ a_dry (abs u) = true).

Definition status_write u x : Prop :=
  op_Spec x = op_Spec u ∧ op_Meta x = op_Meta u ∧ (decided u → decided x)
  ∧ astep (abs u) (abs x).

Definition own_detail {R} h u (c : own_call O R) : Prop :=
  match c with
  | OwnGet _ => True
  | OwnUpdate x => finalizer_write h u x
  | OwnStatus x => status_write u x
  end.
Definition detail h u R (e : ev R) : Prop :=
  match op_view O e with
  | Some c => own_detail h u c
  | None => match e with
            | UpdateKustomization ks => suspend_write h u ks
            | _ => extra h u R e
            end
  end.

Definition guard : guarantee ev := λ h R e,
  mutates R e = true →
  ∃ u, latest h = Some u ∧ permitted O (abs u) (kind_of e) = true ∧ detail h u R e.

(** How the API server treats writes of the object: the status subresource stores the
    status and the main resource the metadata, each on the version that was read, and
    both answer the object stored. *)
Definition kept x u : Prop :=
  op_Spec u = op_Spec x ∧ op_Status u = op_Status x
  ∧ om_DeletionTimestamp (op_Meta u) = om_DeletionTimestamp (op_Meta x)
  ∧ keyOf (op_Meta u) = keyOf (op_Meta x).
Definition own_stored {R} (c : own_call O R) : R → Prop :=
  match c in own_call _ R return R → Prop with
  | OwnGet _ => λ _, True
  | OwnUpdate x | OwnStatus x => λ a, match a with Ok u => kept x u | Err _ => True end
  end.
Definition api_server : protocol ev := λ _ R e a,
  match op_view O e with Some c => own_stored c a | None => True end.

(** Nothing is left to do: the object is finished, is being deleted, or was not found. *)
Definition settled h : Prop :=
  (∃ key e h', h = Obs (op_Get O key) (Err e) :: h')
  ∨ ∃ u, latest h = Some u
         ∧ (terminal (abs u) = true ∨ om_DeletionTimestamp (op_Meta u) ≠ None).

(** The last call moved the object on: its status was stored a phase further, or its
    finalizer was added. *)
Definition own_moved (last : option O) {R} (c : own_call O R) : R → Prop :=
  match c in own_call _ R return R → Prop with
  | OwnGet _ => λ _, False
  | OwnUpdate x => λ a, is_ok a = true ∧ ∃ u, last = Some u
      ∧ ContainsFinalizer (op_Meta u) OperationFinalizer = false
      ∧ ContainsFinalizer (op_Meta x) OperationFinalizer = true
  | OwnStatus x => λ a, is_ok a = true ∧ ∃ u, last = Some u ∧ (rank (abs u) < rank (abs x))%nat
  end.
Definition moved h : Prop :=
  match h with
  | Obs e a :: h' => match op_view O e with Some c => own_moved (latest h') c a | None => False end
  | [] => False
  end.

(** To be run again at once, because the object was moved on, or after a delay. *)
Definition requeues (c : CtrlResult) h : Prop :=
  if cr_Requeue c then moved h else 0 < cr_RequeueAfter c.

(** How a reconcile ends: it comes back, or reports an error (and comes back), or there
    is nothing left to do. *)
Definition ends (o : outcome Reply) h : Prop :=
  match o with
  | Done (c, None) => requeues c h ∨ (c = done_result ∧ settled h)
  | _ => True
  end.
End guard.
Arguments guard {P} O {Op Mc} h R e : simpl never.
Arguments api_server O {Op} h R e a.
Arguments settled {P} O {Op} h.
Arguments moved {P} O {Op} h.
Arguments requeues {P} O {Op} c h.
Arguments ends {P} O {Op} o h.

(** ** Reading, and writes of which the contract asks no more than the state *)

Section rules.
Context {P : Platform} {O : Type} {Op : Operation O} {OL : OperationLaws O}.
Context {Mc : Machine O} {ML : MachineLaws O}.
Implicit Types (h : list event) (u : O).

(** An answer without an error. *)
Lemma ends_woken c h :
  ends O (Done (c, None)) h → cr_Requeue c = true ∨ 0 < cr_RequeueAfter c ∨ settled O h.
Proof. intros [Hr|[_ Hs]]; [|by auto]. unfold requeues in Hr. destruct (cr_Requeue c); auto. Qed.
Lemma ends_moved c h : ends O (Done (c, None)) h → cr_Requeue c = true → moved O h.
Proof. intros [Hr|[-> _]] Hc; [|done]. unfold requeues in Hr. by rewrite Hc in Hr. Qed.

Lemma guard_pure h R (e : ev R) : mutates R e = false → guard O h R e.
Proof. intros He Hm. congruence. Qed.

(** The contract leaves writes of kind [k] to the state. *)
Definition plain (k : kind) : Prop :=
  ∀ R (e : ev R), kind_of e = k → elsewhere O R e ∧ ∀ h u, detail h u R e.

Lemma within_plain k R (e : ev R) : plain k → within (k :: reading O) R e → elsewhere O R e.
Proof.
  intros Hk He. unfold within in He. apply kmem_In in He as [Heq|Hin%kmem_In].
  - by apply Hk.
  - by destruct (within_reading R e Hin).
Qed.

Lemma latest_within k d h u :
  plain k → Forall (obs_sat (within (k :: reading O))) d → latest h = Some u →
  latest (d ++ h) = Some u.
Proof.
  intros Hk Hd <-. apply latest_app. eapply obs_sat_mono; [exact Hd|].
  intros R e. by apply within_plain.
Qed.

Lemma guard_plain k h u R (e : ev R) :
  latest h = Some u → plain k → permitted O (abs u) k = true →
  within (k :: reading O) R e → guard O h R e.
Proof.
  intros Hl Hk Hp He Hm. exists u. split; [done|].
  unfold within in He. apply kmem_In in He as [Heq|Hin%kmem_In].
  - split; [by rewrite <- Heq|]. by destruct (Hk R e (eq_sym Heq)).
  - apply within_reading in Hin as [? _]. congruence.
Qed.

(** A part of a handler that only reads. *)
Lemma wp_read {A B} Φ (p : M A) (f : A → M B) h u Q :
  emits (within (reading O)) p → latest h = Some u →
  (∀ m h', Q (Panicked m) h') →
  (∀ a d, latest (d ++ h) = Some u → wp Φ (guard O) (f a) (d ++ h) Q) →
  wp Φ (guard O) (bind p f) h Q.
Proof.
  intros Hp Hl Hm Hf. eapply wp_emits_bind; [exact Hp| |auto|].
  - intros d R e _ He. apply guard_pure. by destruct (within_reading R e He).
  - intros a d Hd. apply Hf. rewrite latest_app; [done|].
    eapply obs_sat_mono; [exact Hd|]. intros R e He. by destruct (within_reading R e He).
Qed.

(** A part that also makes writes of one plain kind. *)
Lemma wp_do k {A B} Φ (p : M A) (f : A → M B) h u Q :
  emits (within (k :: reading O)) p → latest h = Some u →
  plain k → permitted O (abs u) k = true →
  (∀ m h', Q (Panicked m) h') →
  (∀ a d, latest (d ++ h) = Some u → wp Φ (guard O) (f a) (d ++ h) Q) →
  wp Φ (guard O) (bind p f) h Q.
Proof.
  intros Hp Hl Hk Hperm Hm Hf.
  eapply wp_emits_bind; [exact Hp| |auto|].
  - intros d R e Hdd He. eapply guard_plain; eauto using latest_within.
  - intros a d Hdd. apply Hf. eauto using latest_within.
Qed.
End rules.
Arguments plain {P} O {Op Mc} k.

Ltac plain_tac := intros ? []; done.

(** ** Where a handler stands

[at_ h u0 u]: the history last read [u0], and the handler holds [u], which differs from
it at most in the status. *)

Record at_ {P : Platform} {O} {Op : Operation O} (h : list event) (u0 u : O) : Prop := {
  at_latest : latest h = Some u0;
  at_spec : op_Spec u = op_Spec u0;
  at_meta : op_Meta u = op_Meta u0;
  at_decided : decided u0 → decided u
}.

Section handler_rules.
Context {P : Platform} {PL : PlatformLaws P} {O : Type} {Op : Operation O} {OL : OperationLaws O}.
Context {Mc : Machine O} {ML : MachineLaws O}.
Implicit Types (h : list event) (u : O).

Lemma at_start h u : latest h = Some u → at_ h u u.
Proof. by split. Qed.

Lemma at_step h h' u0 u u' :
  at_ h u0 u → latest h' = Some u0 → op_Spec u' = op_Spec u → op_Meta u' = op_Meta u →
  (decided u → decided u') → at_ h' u0 u'.
Proof. intros [_ Hs Hm Hd] ? Hs' Hm' Hd'. split; [done|congruence..|auto]. Qed.

Lemma at_set h u0 u t s reason m :
  at_ h u0 u → decisive t s = true → at_ h u0 (generation_cond u t s reason m).
Proof.
  intros Hat Hd. eapply at_step; [exact Hat|apply Hat| | |by apply decided_set];
    unfold generation_cond; [apply spec_set_conditions|apply meta_set_conditions].
Qed.

Lemma setPhase_within ks u :
  subk [KClock] ks = true → emits (within ks) (setPhaseStartIfNeeded u).
Proof. intros. unfold setPhaseStartIfNeeded. emits_tac. Qed.
Lemma isPhaseTimedOut_within ks u t :
  subk [KClock] ks = true → emits (within ks) (isPhaseTimedOut u t).
Proof. intros. unfold isPhaseTimedOut. emits_tac. Qed.

Lemma latest_other h R (e : ev R) a u :
  elsewhere O R e → latest h = Some u → latest (Obs e a :: h) = Some u.
Proof. intros He Hl. cbn. unfold elsewhere in He. by rewrite He. Qed.

Lemma latest_clock h a u : latest h = Some u → latest (Obs Now a :: h) = Some u.
Proof. apply latest_other. by apply view_other. Qed.
Lemma latest_ks h k a u :
  latest h = Some u → latest (Obs (GetKustomization k) a :: h) = Some u.
Proof. apply latest_other. by apply view_other. Qed.
Lemma latest_update_ks h k a u :
  latest h = Some u → latest (Obs (UpdateKustomization k) a :: h) = Some u.
Proof. apply latest_other. by apply view_other. Qed.

(** A single reading call. *)
Lemma wp_look {R B} Φ (e : ev R) (f : R → M B) h Q :
  mutates R e = false → (∀ a, Φ h R e a → wp Φ (guard O) (f a) (Obs e a :: h) Q) →
  wp Φ (guard O) (bind (call e) f) h Q.
Proof. intros He Hf. split; [by apply guard_pure|exact Hf]. Qed.

(** The clock of a phase is set: conditions, spec and metadata stay. *)
Lemma wp_setPhase {B} Φ h u0 u (f : O → M B) Q :
  at_ h u0 u →
  (∀ u' d, at_ (d ++ h) u0 u' → same_conditions u u' → wp Φ (guard O) (f u') (d ++ h) Q) →
  wp Φ (guard O) (bind (setPhaseStartIfNeeded u) f) h Q.
Proof.
  intros Hat Hf. unfold setPhaseStartIfNeeded.
  destruct (op_PhaseStartedAt (op_Status u)); cbn.
  - by apply (Hf u []).
  - split; [by apply guard_pure|]. intros t _. apply (Hf _ [Obs Now t]).
    + eapply at_step; [exact Hat|by apply latest_clock, Hat|apply spec_set_phase|apply meta_set_phase
                            |apply decided_ext, conditions_set_phase].
    + split; [apply spec_set_phase|]. split; [apply meta_set_phase|apply conditions_set_phase].
Qed.

(** ** Writing the suspend flag of the application's Kustomization *)

Lemma guard_suspend h u app ks :
  latest h = Some u → a_complete (abs u) = None → asked h u app →
  (ks_Suspend ks = false → a_suspended (abs u) = None ∨ a_dry (abs u) = true) →
  guard O (Obs (GetKustomization (suspend_key app)) (Ok ks) :: h) _
    (UpdateKustomization (ks_set_Suspend (negb (ks_Suspend ks)) ks)).
Proof.
  intros Hl Hc Hask Hs _. exists u. split; [by apply latest_ks|]. split.
  - apply permitted_ks. unfold terminal. by rewrite Hc.
  - unfold detail. rewrite view_other by done.
    exists app, ks, h. split; [done|]. split.
    + by apply (asked_app [_]).
    + split; [done|]. cbn. intros Hn. apply Hs. by destruct (ks_Suspend ks).
Qed.

Lemma wp_suspend {B} Φ h u app (f : option error → M B) Q :
  latest h = Some u → a_complete (abs u) = None → asked h u app →
  a_suspended (abs u) = None ∨ a_dry (abs u) = true →
  (∀ e d, latest (d ++ h) = Some u → wp Φ (guard O) (f e) (d ++ h) Q) →
  wp Φ (guard O)
    (bind (SuspendKustomization (getSuspendTarget app).1 (getSuspendTarget app).2) f) h Q.
Proof.
  intros Hl Hc Hask Hs Hf. unfold SuspendKustomization. fold (suspend_key app). cbn [bind call wp].
  split; [by apply guard_pure|]. intros [ks|e] _; cbn [bind].
  2:{ by apply (Hf _ [_]), latest_ks. }
  destruct (ks_Suspend ks) eqn:Hks; cbn [bind call wp]; [by apply (Hf _ [_]), latest_ks|].
  split.
  - replace true with (negb (ks_Suspend ks)) by (by rewrite Hks). by apply (guard_suspend h u).
  - intros [k'|e] _; cbn [bind]; by apply (Hf _ [_; _]), latest_update_ks, latest_ks.
Qed.

Lemma wp_resume {B} Φ h u app (f : option error → M B) Q :
  latest h = Some u → a_complete (abs u) = None → asked h u app →
  (∀ e d, latest (d ++ h) = Some u → wp Φ (guard O) (f e) (d ++ h) Q) →
  wp Φ (guard O)
    (bind (ResumeKustomization (getSuspendTarget app).1 (getSuspendTarget app).2) f) h Q.
Proof.
  intros Hl Hc Hask Hf. unfold ResumeKustomization. fold (suspend_key app). cbn [bind call wp].
  split; [by apply guard_pure|]. intros [ks|e] _; cbn [bind].
  2:{ by apply (Hf _ [_]), latest_ks. }
  destruct (ks_Suspend ks) eqn:Hks; cbn [bind call wp negb]; [|by apply (Hf _ [_]), latest_ks].
  split.
  - replace false with (negb (ks_Suspend ks)) by (by rewrite Hks).
    apply (guard_suspend h u); try done. intros. congruence.
  - intros [k'|e] _; cbn [bind call wp].
    2:{ by apply (Hf _ [_; _]), latest_update_ks, latest_ks. }
    split; [by apply guard_pure|]. intros a _.
    by apply (Hf _ [_; _; _]), latest_ks, latest_update_ks, latest_ks.
Qed.
End handler_rules.
#[export] Hint Resolve setPhase_within isPhaseTimedOut_within : emits.

(** ** Writing the status *)

Section status_rules.
Context {P : Platform} {PL : PlatformLaws P} {O : Type} {Op : Operation O} {OL : OperationLaws O}.
Context {Mc : Machine O} {ML : MachineLaws O}.
Implicit Types (h : list event) (u v : O).

Lemma kept_abs u v : kept u v → abs v = abs u.
Proof. intros (Hs & Ht & _). by apply same_abs. Qed.

Lemma server_status h u a :
  api_server O h _ (op_StatusUpdate u) a → match a with Ok v => kept u v | Err _ => True end.
Proof. unfold api_server. by rewrite view_status. Qed.
Lemma server_update h u a :
  api_server O h _ (op_Update u) a → match a with Ok v => kept u v | Err _ => True end.
Proof. unfold api_server. by rewrite view_update. Qed.

Lemma latest_status h u v : latest (Obs (op_StatusUpdate u) (Ok v) :: h) = Some v.
Proof. cbn [latest]. by rewrite view_status. Qed.
Lemma latest_update h u v : latest (Obs (op_Update u) (Ok v) :: h) = Some v.
Proof. cbn [latest]. by rewrite view_update. Qed.
Lemma latest_get h k u : latest (Obs (op_Get O k) (Ok u) :: h) = Some u.
Proof. cbn [latest]. by rewrite view_get. Qed.

Lemma guard_status h u0 u :
  at_ h u0 u → astep (abs u0) (abs u) → guard O h _ (op_StatusUpdate u).
Proof.
  intros [Hl Hs Hm Hd] Hstep _. exists u0. split; [done|]. split.
  - apply permitted_status. unfold terminal. by rewrite (astep_nonterminal _ _ Hstep).
  - unfold detail. by rewrite view_status.
Qed.

Lemma wp_status {B} h u0 u (f : res O → M B) Q :
  at_ h u0 u → astep (abs u0) (abs u) →
  (∀ v h', latest h' = Some v → kept u v → h' = Obs (op_StatusUpdate u) (Ok v) :: h →
           wp (api_server O) (guard O) (f (Ok v)) h' Q) →
  (∀ e, wp (api_server O) (guard O) (f (Err e)) (Obs (op_StatusUpdate u) (Err e) :: h) Q) →
  wp (api_server O) (guard O) (bind (call (op_StatusUpdate u)) f) h Q.
Proof.
  intros Hat Hstep Hok Herr. cbn [bind call wp]. split; [by eapply guard_status|].
  intros [v|e] Hv%server_status; [|apply Herr].
  apply Hok; [apply latest_status|done|done].
Qed.

Lemma wp_update_then h u0 u c :
  at_ h u0 u → astep (abs u0) (abs u) →
  (if cr_Requeue c then (rank (abs u0) < rank (abs u))%nat else 0 < cr_RequeueAfter c) →
  wp (api_server O) (guard O) (update_then u c) h (ends O).
Proof.
  intros Hat Hstep Hc. unfold update_then. cbn [bind call wp]. split; [by eapply guard_status|].
  intros [u'|e] _; [|done]. left. unfold requeues. destruct (cr_Requeue c); [|done].
  unfold moved. rewrite view_status. split; [done|]. exists u0. split; [apply Hat|done].
Qed.

Lemma wp_finish h u0 u :
  at_ h u0 u → astep (abs u0) (abs u) → terminal (abs u) = true →
  wp (api_server O) (guard O) (finish u) h (ends O).
Proof.
  intros Hat Hstep Ht. unfold finish. eapply wp_status; [done|done| |done].
  intros v h' Hl Hv ->.
  assert (terminal (abs v) = true) as Htv by (by rewrite (kept_abs u)).
  destruct (ContainsFinalizer (op_Meta v) OperationFinalizer); cbn [bind call wp].
  2:{ right. split; [done|]. right. exists v. auto. }
  split.
  - intros _. exists v. split; [done|]. split; [apply permitted_update|].
    unfold detail. rewrite view_update. split; [apply spec_set_meta|].
    split; [apply status_set_meta|]. right. split; [apply meta_set_meta|]. right. eauto.
  - intros [w|e] Hw%server_update; cbn [wp]; [|done].
    right. split; [done|]. right. exists w. split; [apply latest_update|]. left.
    rewrite (kept_abs _ _ Hw). rewrite (same_abs _ v); [done| |].
    + apply spec_set_meta.
    + apply status_set_meta.
Qed.

(** Conditions are set one at a time. *)
Lemma wp_finish_set h u0 u t s reason m :
  at_ h u0 u → astep (abs u0) (abs (generation_cond u t s reason m)) →
  terminal (abs (generation_cond u t s reason m)) = true →
  wp (api_server O) (guard O) (finish (generation_cond u t s reason m)) h (ends O).
Proof.
  intros Hat Hstep Ht. eapply wp_finish; [|done|done]. apply at_set; [done|].
  by apply (decisive_terminal u t s reason m).
Qed.

(** ** The head of a reconcile *)

Lemma wp_with_finalizer h u live :
  latest h = Some u →
  (a_complete (abs u) = None → wp (api_server O) (guard O) (live u) h (ends O)) →
  wp (api_server O) (guard O) (with_finalizer live u) h (ends O).
Proof.
  intros Hl Hlive. unfold with_finalizer.
  destruct (om_DeletionTimestamp (op_Meta u)) as [t|] eqn:Hdel.
  - assert (settled O h) as Hset by (right; exists u; split; [done|]; right; congruence).
    destruct (ContainsFinalizer _ _); cbn [bind call wp]; [|by right].
    split.
    + intros _. exists u. split; [done|]. split; [apply permitted_update|].
      unfold detail. rewrite view_update. split; [apply spec_set_meta|].
      split; [apply status_set_meta|]. right. split; [apply meta_set_meta|]. left. congruence.
    + intros [v|e] Hv%server_update; cbn [wp]; [|done].
      right. split; [done|]. right. exists v. split; [apply latest_update|]. right.
      destruct Hv as (_ & _ & -> & _). rewrite meta_set_meta, remove_deletion. congruence.
  - destruct (ContainsFinalizer _ _) eqn:Hfin; cbn [negb].
    2:{ cbn [bind call wp]. split.
        - intros _. exists u. split; [done|]. split; [apply permitted_update|].
          unfold detail. rewrite view_update. split; [apply spec_set_meta|].
          split; [apply status_set_meta|]. left. by rewrite meta_set_meta.
        - intros [v|e] _; cbn [wp]; [|done]. left. unfold requeues, moved. cbn [cr_Requeue requeue_now].
          rewrite view_update. split; [done|]. exists u. split; [done|]. split; [done|].
          rewrite meta_set_meta. apply contains_add. }
    rewrite is_terminal_abs. unfold terminal.
    destruct (a_complete (abs u)) as [b|] eqn:Hc.
    + cbn. right. split; [done|]. right. exists u. split; [done|]. left. unfold terminal. by rewrite Hc.
    + by apply Hlive.
Qed.

(** A reconcile: fetch, then the head. *)
Lemma wp_fetch h key live :
  (∀ h' u, latest h' = Some u → a_complete (abs u) = None →
           wp (api_server O) (guard O) (live u) h' (ends O)) →
  wp (api_server O) (guard O)
    (let? u := call (op_Get O key) orelse err => Ret (done_result, IgnoreNotFound err) in
     with_finalizer live u) h (ends O).
Proof.
  intros Hlive. cbn [bind call wp]. split.
  - apply guard_pure. by rewrite (view_mutates _ _ _ (view_get key)).
  - intros [u|e] _.
    + apply wp_with_finalizer; [apply latest_get|]. apply Hlive, latest_get.
    + cbn. destruct (IgnoreNotFound e); [done|]. right. split; [done|]. left. by exists key, e, h.
Qed.
End status_rules.

(** ** Automation for the handlers *)

Ltac decided_tac :=
  intros; unfold decided in *; repeat (apply decided_in_set; [reflexivity|]); assumption.
Ltac at_tac :=
  match goal with
  | H : at_ ?h ?u0 ?u |- at_ ?h ?u0 ?u => exact H
  | H : at_ _ _ ?u |- at_ _ _ _ =>
      solve [eapply at_step; [exact H | first [eassumption | exact (at_latest _ _ _ H)]
                             | reflexivity | reflexivity | decided_tac]]
  end.

Ltac step_tac := abs_simp; solve [econstructor; eauto].

(** A delay is positive; to come back at once the rank must have grown. *)
Ltac requeue_with abs_tac :=
  unfold requeues, requeue_now, requeue_after, Second; cbn [cr_Requeue cr_RequeueAfter];
  first [lia | abs_tac; unfold rank, negb; cbn;
               repeat match goal with
               | |- context [match ?x with _ => _ end] => is_var x; destruct x; cbn
               end; first [lia|congruence]].
Ltac requeue_tac := requeue_with abs_simp.
