(* ===== verification/Quiesce.v ===== *)
(** * Quiescence: stopping the workloads, and the dry-run cycle

Both reconcilers stop the workloads in the same way before they touch volumes, and both
exercise a dry run in the same way: suspend the Kustomization, scale the workloads down and
up again, resume.  The Go code has these parts twice, once per reconciler ([handleScaleDown]
and [handleStopWorkload], [dryRunSuspend] and [rollbackDryRunSuspend], ...), with equal
bodies; here they are written once for any [Operation] and its [setFailed], with the rules
of the contract. *)

From S2P Require Import Prelude GoLib Api Platform Footprint Discovery Workload Flux Snapshot.
From S2P Require Import Controller Phases Operation Guard.

Section dry_run.
Context {P : Platform} {O : Type} {Op : Operation O}.
Variable setFailed : O → string → string → M Reply.
Variable operation : string.

(** ** Stopping the workloads

The answer of the phase is the request as it now is, the reply, and [shouldContinue]. *)

Definition stop_here (u : O) (p : M Reply) : M (O * Reply * bool) :=
  let* reply := p in Ret (u, reply, false).

(** There is nothing to stop; the server's answer replaces the request. *)
Definition stop_skipped (u : O) (reason message : string) : M (O * Reply * bool) :=
  let u := generation_cond u ConditionTypeWorkloadStopped ConditionTrue reason message in
  let? u' := call (op_StatusUpdate u) orelse err => Ret (u, (done_result, Some err), false) in
  Ret (u', (requeue_now, None), true).

Definition set_scaled_workloads (ws : list WorkloadScalingInfo) (u : O) : O :=
  let scaledAt := match op_Scaling (op_Status u) with
                  | Some s => ss_ScaledDownAt s | None => None end in
  op_set_Scaling (Some (mkScalingStatus ws scaledAt)) u.
Definition set_scaled_at (now : Time) (ws : list WorkloadScalingInfo) (u : O) : O :=
  op_set_Scaling (Some (mkScalingStatus ws (Some now))) u.

Definition stop_workloads (u : O) (workloads : list WorkloadInfo) (appNS : string)
    : M (O * Reply * bool) :=
  let* scaled := scale_all_down workloads appNS [] in
  match scaled with
  | inr (ns, name, err) =>
      stop_here u (setFailed u "ScaleDownFailed"
        ("Failed to scale down " +:+ ns +:+ "/" +:+ name +:+ ": " +:+ Error err))
  | inl scaledWorkloads =>
      let u := set_scaled_workloads scaledWorkloads u in
      let? allScaledDown := all_scaled_down scaledWorkloads
        orelse err => stop_here u (setFailed u "ScaleDownCheckFailed" (Error err)) in
      if negb allScaledDown then
        let* timedOut := isPhaseTimedOut u TimeoutScaleDown in
        stop_here u
          (if timedOut then
             setFailed u "ScaleDownTimeout" "Workloads did not scale down within timeout"
           else update_then u (requeue_after (5 * Second)))
      else
        let u := resetPhaseStart u in
        let* now := call Now in
        let u := set_scaled_at now scaledWorkloads u in
        let u := generation_cond u ConditionTypeWorkloadStopped ConditionTrue
                   "WorkloadsStopped"
                   ("Scaled down " +:+ itoa (len scaledWorkloads) +:+ " workloads") in
        stop_here u (update_then u requeue_now)
  end.

(** ** The dry-run cycle *)

Definition dry_run_failed (u : O) (app : ManagedApp) (message : string) : M Reply :=
  if cond_true u ConditionTypeSuspended then
    let '(suspendName, suspendNS) := getSuspendTarget app in
    let* resumeErr := ResumeKustomization suspendName suspendNS in
    match resumeErr with
    | Some _ =>
        setFailed u "DryRunFailed"
          (message +:+ " (WARNING: Kustomization may still be suspended — manual resume required)")
    | None => setFailed u "DryRunFailed" message
    end
  else setFailed u "DryRunFailed" message.

Definition dry_run_suspend (u : O) (app : ManagedApp) (suspendName suspendNS : string)
    : M Reply :=
  let* u := setPhaseStartIfNeeded u in
  check SuspendKustomization suspendName suspendNS orelse err =>
    (let* timedOut := isPhaseTimedOut u TimeoutSuspend in
     if timedOut then dry_run_failed u app ("Suspend timed out: " +:+ Error err)
     else update_then u (requeue_after (5 * Second))) in
  let* suspended := IsSuspended suspendName suspendNS in
  match suspended with
  | Ok true =>
      let u := resetPhaseStart u in
      let u := generation_cond u ConditionTypeSuspended ConditionTrue "DryRunSuspended"
                 ("Dry run: suspended " +:+ suspendNS +:+ "/" +:+ suspendName) in
      update_then u requeue_now
  | _ =>
      let* timedOut := isPhaseTimedOut u TimeoutSuspend in
      if timedOut then dry_run_failed u app "Suspend verification timed out"
      else update_then u (requeue_after (2 * Second))
  end.

Definition dry_run_scale_down (u : O) (app : ManagedApp)
    (workloads : list WorkloadInfo) : M Reply :=
  let* u := setPhaseStartIfNeeded u in
  let appNS := om_Namespace (app_Meta app) in
  check dry_scale_down workloads appNS orelse message => dry_run_failed u app message in
  let? allDown := allWorkloadsScaledDown workloads appNS
    orelse err => dry_run_failed u app ("Scale down check failed: " +:+ Error err) in
  if negb allDown then
    let* timedOut := isPhaseTimedOut u TimeoutScaleDown in
    if timedOut then dry_run_failed u app "Scale down timed out"
    else update_then u (requeue_after (5 * Second))
  else
    let u := resetPhaseStart u in
    let u := generation_cond u ConditionTypeWorkloadStopped ConditionTrue "DryRunScaledDown"
               ("Dry run: scaled down " +:+ itoa (len workloads) +:+ " workloads") in
    update_then u requeue_now.

Definition dry_run_scale_up (u : O) (app : ManagedApp) (workloads : list WorkloadInfo)
    (suspendName suspendNS : string) : M Reply :=
  check VerifyStillSuspended suspendName suspendNS orelse err =>
    dry_run_failed u app ("External interference detected before scale-up: " +:+ Error err) in
  let* u := setPhaseStartIfNeeded u in
  let appNS := om_Namespace (app_Meta app) in
  check dry_scale_up workloads appNS orelse message => dry_run_failed u app message in
  let? allDown := allWorkloadsScaledDown workloads appNS
    orelse err => dry_run_failed u app ("Scale up check failed: " +:+ Error err) in
  if (allDown : bool) then
    let* timedOut := isPhaseTimedOut u TimeoutScaleUp in
    if timedOut then dry_run_failed u app "Scale up timed out"
    else update_then u (requeue_after (5 * Second))
  else
    let u := resetPhaseStart u in
    check VerifyStillSuspended suspendName suspendNS orelse err =>
      dry_run_failed u app ("External interference detected after scale-up: " +:+ Error err) in
    let u := generation_cond u (op_Prepared O) ConditionTrue "DryRunScaledUp"
               ("Dry run: scaled up " +:+ itoa (len workloads) +:+ " workloads") in
    update_then u requeue_now.

Definition dry_run_complete (u : O) (app : ManagedApp)
    (preflight : preflightResult) (suspendName suspendNS : string)
    (currentVersion newVersion versionPath : string) : M Reply :=
  let* u := setPhaseStartIfNeeded u in
  check ResumeKustomization suspendName suspendNS orelse err =>
    (let* timedOut := isPhaseTimedOut u TimeoutResume in
     if timedOut then dry_run_failed u app ("Resume timed out: " +:+ Error err)
     else update_then u (requeue_after (5 * Second))) in
  let* suspended := IsSuspended suspendName suspendNS in
  match suspended with
  | Ok false =>
      let u := resetPhaseStart u in
      let message := buildDryRunSummary operation preflight currentVersion newVersion versionPath
                       (as_GitPath (app_Spec app)) in
      finish (generation_cond u ConditionTypeComplete ConditionTrue "DryRunSucceeded" message)
  | _ =>
      let* timedOut := isPhaseTimedOut u TimeoutResume in
      if timedOut then dry_run_failed u app "Resume verification timed out"
      else update_then u (requeue_after (2 * Second))
  end.

Definition dry_run_quiescence (u : O) (app : ManagedApp)
    (preflight : preflightResult) (currentVersion newVersion versionPath : string) : M Reply :=
  let '(suspendName, suspendNS) := getSuspendTarget app in
  let some_workloads := 0 <? len (pf_Workloads preflight) in
  if negb (cond_true u ConditionTypeSuspended) then dry_run_suspend u app suspendName suspendNS
  else if some_workloads && negb (cond_true u ConditionTypeWorkloadStopped) then
    dry_run_scale_down u app (pf_Workloads preflight)
  else if some_workloads && negb (cond_true u (op_Prepared O)) then
    dry_run_scale_up u app (pf_Workloads preflight) suspendName suspendNS
  else
    dry_run_complete u app preflight suspendName suspendNS
      currentVersion newVersion versionPath.
End dry_run.

(** ** The contract *)

Section guarded.
Context {P : Platform} {PL : PlatformLaws P} {O : Type} {Op : Operation O} {OL : OperationLaws O}.
Context {Mc : Machine O} {ML : MachineLaws O}.
Implicit Types (h : list event) (u : O).
Notation guarded p h := (wp (api_server O) (guard O) p h (ends O)).

Variable setFailed : O → string → string → M Reply.
Variable operation : string.
(** [setFailed] ends the operation; it may first note that Flux was resumed. *)
Definition fails_guarded : Prop := ∀ h u0 u reason message d s st sn c r hh s',
  at_ h u0 u →
  abs u0 = AState d s st sn c r hh None → abs u = AState d s' st sn c r hh None →
  s' = s ∨ (s ≠ None ∧ s' = Some false) →
  guarded (setFailed u reason message) h.
Hypothesis Hfail : fails_guarded.

(** What the phases read, whichever of the two resources is [O]. *)
Definition looks : list kind :=
  [KClock; KSleep; KRange; KGetApp; KListApps; KGetKs; KGetWorkload; KListPods; KGetPVC;
   KGetSnapshot; KListSnapshots; KListSecrets; KGetConfigMap; KGitRead].
Lemma looks_reading : subk looks (reading O) = true.
Proof.
  pose proof (view_get (O:=O) (mkKey "" "")) as Hv.
  pose proof (view_mutates _ _ _ Hv) as Hm. rewrite mutates_kind in Hm.
  destruct (kmem (kind_of (op_Get O (mkKey "" "")))
      [KGetUpgrade; KUpdateUpgrade; KStatusUpgrade; KGetRollback; KUpdateRollback;
       KStatusRollback]) eqn:Hk; [|by rewrite (view_other _ _ Hk) in Hv].
  unfold reading. by destruct (kind_of (op_Get O (mkKey "" ""))).
Qed.
Lemma looks_do k : subk (k :: looks) (k :: reading O) = true.
Proof.
  apply subk_incl, incl_cons; [by left|]. apply incl_tl, subk_incl, looks_reading.
Qed.

Lemma scale_plain : plain O KPatchWorkload.
Proof.
  intros R e He. split; [apply view_other; by rewrite He|].
  intros h u. unfold detail. rewrite view_other by (by rewrite He).
  destruct e; try done; by apply extra_scale.
Qed.

Lemma at_reset h u0 u : at_ h u0 u → at_ h u0 (resetPhaseStart u).
Proof.
  intros Hat. eapply at_step; [exact Hat|apply Hat|apply spec_set_phase|apply meta_set_phase|].
  apply decided_ext, conditions_set_phase.
Qed.
Lemma at_scaling h u0 u x : at_ h u0 u → at_ h u0 (op_set_Scaling x u).
Proof.
  intros Hat. eapply at_step; [exact Hat|apply Hat|apply spec_set_scaling|apply meta_set_scaling|].
  apply decided_ext, conditions_set_scaling.
Qed.

Ltac dry_at_tac :=
  unfold set_scaled_at, set_scaled_workloads; repeat first [apply at_set|apply at_reset|apply at_scaling];
  match goal with
  | |- decisive _ _ = true => reflexivity
  | H : at_ _ _ ?u |- at_ _ _ ?u =>
      solve [eapply at_step; [exact H|first [eassumption|exact (at_latest _ _ _ H)]|done|done|done]]
  end.
(** The names of two conditions differ. *)
Ltac name_tac :=
  let E := fresh in let H := fresh in
  intros E; pose proof (condition_names (O:=O)) as H; rewrite !NoDup_cons in H;
  first [rewrite <- E in H|rewrite E in H]; set_solver.
Ltac name_lits :=
  rewrite ?seqb_refl;
  repeat match goal with
  | |- context [seqb ?a ?b] => rewrite (proj2 (seqb_neq a b)) by name_tac
  end.

Ltac dry_abs_tac := unfold set_scaled_at, set_scaled_workloads;
  repeat first [rewrite abs_set|rewrite abs_reset|rewrite abs_set_scaling]; cbn beta zeta; seqb_lits; name_lits; 
  repeat match goal with H : abs ?u = AState _ _ _ _ _ _ _ _ |- context [abs ?u] => rewrite H end;
  cbn [a_dry a_suspended a_stopped a_prepared a_committed a_reconciled a_healthy a_complete].
Ltac dry_step_tac := dry_abs_tac; solve [econstructor; eauto].

Ltac dry_step :=
  cbn beta iota;
  lazymatch goal with
  | |- wp _ _ (bind (setPhaseStartIfNeeded _) _) _ _ =>
      eapply wp_setPhase; [dry_at_tac|];
      let u' := fresh "u" in let d := fresh "d" in
      let Ha := fresh "Hat" in let Hs := fresh "Habs" in
      intros u' d Ha Hs; apply same_conditions_abs in Hs;
      pose proof (at_latest _ _ _ Ha);
      match goal with H : abs ?u = AState _ _ _ _ _ _ _ _ |- _ => rewrite H in Hs at 1 end
  | |- wp _ _ (bind (SuspendKustomization _ _) _) _ _ =>
      eapply wp_suspend;
        [eassumption|dry_abs_tac; done|by repeat first [eassumption|apply asked_app]
        |right; by dry_abs_tac|intros ?e ?d ?Hl]
  | |- wp _ _ (bind (ResumeKustomization _ _) _) _ _ =>
      eapply wp_resume;
        [eassumption|dry_abs_tac; done|by repeat first [eassumption|apply asked_app]|intros ?e ?d ?Hl]
  | |- wp _ _ (bind (dry_scale_down _ _) _) _ _ =>
      eapply (wp_do KPatchWorkload);
        [apply (emits_sub (KPatchWorkload :: looks)); [emits_tac|apply looks_do]
        |eassumption|apply scale_plain|by apply permitted_dry_scale; dry_abs_tac|done
        |intros ?a ?d ?Hl]
  | |- wp _ _ (bind (dry_scale_up _ _) _) _ _ =>
      eapply (wp_do KPatchWorkload);
        [apply (emits_sub (KPatchWorkload :: looks)); [emits_tac|apply looks_do]
        |eassumption|apply scale_plain|by apply permitted_dry_scale; dry_abs_tac|done
        |intros ?a ?d ?Hl]
  | |- wp _ _ (dry_run_failed _ _ _ _) _ _ => unfold dry_run_failed
  | |- wp _ _ (setFailed _ _ _) _ _ =>
      eapply Hfail; [dry_at_tac|eassumption|dry_abs_tac; reflexivity|by left]
  | |- wp _ _ (let '(_, _) := getSuspendTarget ?a in _) _ _ =>
      rewrite (surjective_pairing (getSuspendTarget a))
  | |- wp _ _ (update_then _ _) _ _ =>
      eapply wp_update_then; [dry_at_tac|dry_step_tac|requeue_with dry_abs_tac]
  | |- wp _ _ (finish _) _ _ => eapply wp_finish_set; [dry_at_tac|dry_step_tac|by dry_abs_tac]
  | |- wp _ _ (match ?x with _ => _ end) _ _ => destruct x eqn:?
  | |- wp _ _ (let '_ := ?x in _) _ _ => destruct x eqn:?
  | |- wp _ _ (bind _ _) _ _ =>
      eapply wp_read;
        [apply (emits_sub looks); [solve [emits_tac]|apply looks_reading] | eassumption | done | intros ?a ?d ?Hl]
  end.

(** ** The workloads *)

(** What stopping the workloads leaves to its caller. *)
Definition stopped (o : outcome (O * Reply * bool)) (h : list event) : Prop :=
  match o with
  | Done (u, _, true) =>
      latest h = Some u ∧ a_stopped (abs u) = true ∧ a_dry (abs u) = false
      ∧ a_complete (abs u) = None ∧ a_suspended (abs u) ≠ None
  | Done (_, reply, false) => ends O (Done reply) h
  | Panicked _ => True
  end.

Lemma wp_stop_here u p h :
  guarded p h → wp (api_server O) (guard O) (stop_here u p) h stopped.
Proof using.
  intros Hp. unfold stop_here. rewrite wp_bind. eapply wp_mono; [exact Hp|done|].
  by intros [[c o]|m] h' Hends.
Qed.

Lemma wp_stop_skipped h u0 u reason m b sn c rr hh :
  at_ h u0 u → abs u0 = AState false (Some b) false sn c rr hh None →
  abs u = AState false (Some b) false sn c rr hh None →
  wp (api_server O) (guard O) (stop_skipped u reason m) h stopped.
Proof using OL ML PL.
  clear Hfail setFailed. intros Hat Ha0 Ha. unfold stop_skipped. pose proof (at_latest _ _ _ Hat).
  eapply wp_status; [dry_at_tac|rewrite Ha0; dry_step_tac| |done].
  intros v h' Hv Hkept _. apply kept_abs in Hkept. cbn. rewrite Hkept. split; [done|]. by dry_abs_tac.
Qed.

Lemma wp_stop_workloads h u0 u ws ns b sn c rr hh :
  at_ h u0 u → abs u0 = AState false (Some b) false sn c rr hh None →
  abs u = AState false (Some b) false sn c rr hh None →
  wp (api_server O) (guard O) (stop_workloads setFailed u ws ns) h stopped.
Proof using Hfail OL ML PL.
  intros Hat Ha0 Ha. unfold stop_workloads. pose proof (at_latest _ _ _ Hat).
  repeat first
    [ lazymatch goal with
      | |- wp _ _ (stop_here _ _) _ _ => apply wp_stop_here
      | |- wp _ _ (bind (scale_all_down _ _ _) _) _ _ =>
          eapply (wp_do KPatchWorkload);
            [apply (emits_sub (KPatchWorkload :: looks)); [emits_tac|apply looks_do]
            |eassumption|apply scale_plain|by apply permitted_stop; rewrite Ha0|done|];
          intros ?a ?d ?Hl
      end | dry_step].
Qed.

(** ** The dry-run cycle *)

Lemma dry_run_suspend_guarded h u app s st sn c rr hh :
  latest h = Some u → asked h u app → abs u = AState true s st sn c rr hh None →
  s ≠ Some true →
  guarded (dry_run_suspend setFailed u app (getSuspendTarget app).1 (getSuspendTarget app).2) h.
Proof using Hfail OL ML PL.
  intros Hl Hask Ha Hs. pose proof (at_start h u Hl). unfold dry_run_suspend.
  repeat dry_step.
Qed.

Lemma dry_run_scale_down_guarded h u app ws sn c rr hh :
  latest h = Some u → asked h u app → abs u = AState true (Some true) false sn c rr hh None →
  guarded (dry_run_scale_down setFailed u app ws) h.
Proof using Hfail OL ML PL.
  intros Hl Hask Ha. pose proof (at_start h u Hl). unfold dry_run_scale_down.
  repeat dry_step.
Qed.

Lemma dry_run_scale_up_guarded h u app ws n ns c rr hh :
  latest h = Some u → asked h u app → abs u = AState true (Some true) true false c rr hh None →
  guarded (dry_run_scale_up setFailed u app ws n ns) h.
Proof using Hfail OL ML PL.
  intros Hl Hask Ha. pose proof (at_start h u Hl). unfold dry_run_scale_up.
  repeat dry_step.
Qed.

Lemma dry_run_complete_guarded h u app pf v1 v2 v3 st sn c rr hh :
  latest h = Some u → asked h u app → abs u = AState true (Some true) st sn c rr hh None →
  guarded (dry_run_complete setFailed operation u app pf (getSuspendTarget app).1
             (getSuspendTarget app).2 v1 v2 v3) h.
Proof using Hfail OL ML PL.
  intros Hl Hask Ha. pose proof (at_start h u Hl). unfold dry_run_complete.
  repeat dry_step.
Qed.

(** One reconcile of the cycle, in whatever phase it is. *)
Lemma dry_run_guarded h u app pf v1 v2 v3 s st sn c rr hh :
  latest h = Some u → asked h u app → abs u = AState true s st sn c rr hh None →
  guarded (dry_run_quiescence setFailed operation u app pf v1 v2 v3) h.
Proof using Hfail OL ML PL.
  intros Hl Hask Ha. unfold dry_run_quiescence.
  rewrite (surjective_pairing (getSuspendTarget app)). cbn iota.
  destruct (cond_true_abs u) as (-> & -> & -> & _ & _ & _).
  rewrite Ha. cbn [a_suspended a_stopped a_prepared].
  destruct s as [[]|]; cbn [default negb];
    [|by eapply dry_run_suspend_guarded..].
  destruct (0 <? len (pf_Workloads pf)); cbn [andb]; [|by eapply dry_run_complete_guarded].
  destruct st; cbn [negb]; [|by eapply dry_run_scale_down_guarded].
  destruct sn; cbn [negb]; [|by eapply dry_run_scale_up_guarded].
  by eapply dry_run_complete_guarded.
Qed.
End guarded.

(** ** Footprints *)

Section footprints.
Context {P : Platform} {O : Type} {Op : Operation O}.
Variable ks : list kind.
Hypothesis status_kind : ∀ u : O, within ks _ (op_StatusUpdate u).
Hypothesis update_kind : ∀ u : O, within ks _ (op_Update u).

Lemma update_then_within (u : O) c : emits (within ks) (update_then u c).
Proof using status_kind. unfold update_then. emits_tac. Qed.
Lemma finish_within (u : O) : emits (within ks) (finish u).
Proof using status_kind update_kind. unfold finish. emits_tac; apply update_kind. Qed.
#[local] Hint Resolve update_then_within finish_within : emits.
Lemma with_finalizer_within live (u : O) :
  (∀ u, emits (within ks) (live u)) → emits (within ks) (with_finalizer live u).
Proof using update_kind. intros Hlive. unfold with_finalizer. emits_tac; apply update_kind. Qed.

Variable setFailed : O → string → string → M Reply.
Hypothesis setFailed_kinds : ∀ u reason m, emits (within ks) (setFailed u reason m).
Hypothesis quiesce_kinds :
  subk [KClock; KGetKs; KUpdateKs; KGetWorkload; KPatchWorkload; KListPods] ks = true.
#[local] Hint Resolve setFailed_kinds : emits.

Lemma stop_here_within (u : O) p : emits (within ks) p → emits (within ks) (stop_here u p).
Proof using. intros. unfold stop_here. emits_tac. Qed.
#[local] Hint Resolve stop_here_within : emits.
Lemma stop_skipped_within (u : O) reason m : emits (within ks) (stop_skipped u reason m).
Proof using status_kind. unfold stop_skipped. emits_tac. Qed.
Lemma stop_workloads_within (u : O) ws ns : emits (within ks) (stop_workloads setFailed u ws ns).
Proof using All.
  unfold stop_workloads. repeat (emits_tac; try apply stop_here_within).
Qed.
Lemma dry_run_failed_within (u : O) app m : emits (within ks) (dry_run_failed setFailed u app m).
Proof using setFailed_kinds quiesce_kinds. unfold dry_run_failed. emits_tac. Qed.
#[local] Hint Resolve dry_run_failed_within : emits.
Lemma dry_run_quiescence_within operation (u : O) app pf v1 v2 v3 :
  emits (within ks) (dry_run_quiescence setFailed operation u app pf v1 v2 v3).
Proof using All.
  unfold dry_run_quiescence, dry_run_suspend, dry_run_scale_down, dry_run_scale_up,
    dry_run_complete. emits_tac.
Qed.
End footprints.
