(* ===== verification/Runs.v ===== *)
(** * Many reconciles of one operation

[reconciles] runs a reconciler again and again, recovering from panics as the manager does,
against an API server that nobody else writes the object to, where a write that was answered
with an error may or may not have been stored.  Against [storage] a read answers what was
last stored; against [cached] it may answer any earlier version, as the informer cache of
controller-runtime does.  [reconciles_inv] lifts the contract of one reconcile, with an
invariant of the history, to any number of them; the consequences for reachability, finished
objects and finalizers follow for any operation.  Where a read answers an object of the name it
asks for ([named]), all the versions there are are of one request ([one_request]). *)

From S2P Require Import Prelude GoLib Api Platform Footprint Controller Phases Operation Guard.

Section histories.
Context {O : Type} {Op : Operation O}.

(** The objects the server may hold. *)
Definition own_candidates {R} (c : own_call O R) : R → list O → list O :=
  match c in own_call _ R return R → list O → list O with
  | OwnGet _ | OwnUpdate _ => λ a l, match a with Ok u => [u] | Err _ => l end
  | OwnStatus x => λ a l, match a with Ok u => [u] | Err _ => x :: l end
  end.
Fixpoint candidates (h : list event) : list O :=
  match h with
  | [] => []
  | Obs e a :: h' =>
      match op_view O e with
      | Some c => own_candidates c a (candidates h')
      | None => candidates h'
      end
  end.

(** All the versions of the object there may ever have been. *)
Definition own_versions {R} (c : own_call O R) : R → list O → list O :=
  match c in own_call _ R return R → list O → list O with
  | OwnGet _ | OwnUpdate _ => λ a l, match a with Ok u => u :: l | Err _ => l end
  | OwnStatus x => λ a l, match a with Ok u => u :: l | Err _ => x :: l end
  end.
Fixpoint versions (h : list event) : list O :=
  match h with
  | [] => []
  | Obs e a :: h' =>
      match op_view O e with
      | Some c => own_versions c a (versions h')
      | None => versions h'
      end
  end.

Lemma candidates_versions h : incl (candidates h) (versions h).
Proof.
  induction h as [|[R e a] h IH]; cbn; [by intros v|].
  destruct (op_view O e) as [c|]; [|done].
  destruct c; cbn; destruct a; intros v; pose proof (IH v); cbn; tauto.
Qed.
Lemma versions_stay h R (e : ev R) a v : In v (versions h) → In v (versions (Obs e a :: h)).
Proof.
  intros Hin. cbn. destruct (op_view O e) as [c|]; [|done]. destruct c; cbn; destruct a; cbn; auto.
Qed.
Lemma candidates_stay h R (e : ev R) a : candidates h ≠ [] → candidates (Obs e a :: h) ≠ [].
Proof.
  intros Hc. cbn. destruct (op_view O e) as [c|]; [|done]. destruct c; cbn; by destruct a.
Qed.
Lemma no_candidates h : candidates h = [] → versions h = [].
Proof.
  induction h as [|[R e a] h IH]; cbn; [done|].
  destruct (op_view O e) as [c|]; [|done]. destruct c; cbn; destruct a; auto; done.
Qed.

(** The objects the server has answered with. *)
Fixpoint shown (h : list event) : list O :=
  match h with
  | [] => []
  | Obs e a :: h' =>
      match op_view O e with
      | Some c => match own_answer c a with Some u => u :: shown h' | None => shown h' end
      | None => shown h'
      end
  end.

Lemma latest_candidate h u : latest h = Some u → In u (candidates h).
Proof.
  induction h as [|[R e a] h IH]; cbn; [done|].
  destruct (op_view O e) as [c|]; [destruct c|]; cbn; auto; destruct a; cbn; auto; intros; simplify_eq; auto.
Qed.

Lemma shown_candidate h : candidates h = [] → shown h = [].
Proof.
  induction h as [|[R e a] h IH]; cbn; [done|].
  destruct (op_view O e) as [c|]; [destruct c|]; cbn; auto; destruct a; cbn; auto; done.
Qed.

Lemma shown_versions h : incl (shown h) (versions h).
Proof.
  induction h as [|[R e a] h IH]; cbn; [by intros v|].
  destruct (op_view O e) as [c|]; [|done].
  destruct c; cbn; destruct a; intros v; pose proof (IH v); cbn; tauto.
Qed.

Lemma shown_in h R (e : ev R) c a u :
  In (Obs e a) h → op_view O e = Some c → own_answer c a = Some u → In u (shown h).
Proof.
  intros Hin Hc Ha. induction h as [|o h IH]; [done|]. destruct Hin as [->|Hin].
  - cbn. rewrite Hc, Ha. by left.
  - destruct o as [R' e' a']. cbn. destruct (op_view O e') as [c'|]; [|auto].
    destruct (own_answer c' a'); [right|]; auto.
Qed.

Lemma shown_step h R (e : ev R) a v :
  In v (shown (Obs e a :: h)) → In v (shown h) ∨ candidates (Obs e a :: h) = [v].
Proof.
  cbn. destruct (op_view O e) as [c|]; [destruct c|]; cbn; auto; destruct a; cbn; auto; intros [->|?]; auto.
Qed.
End histories.

Section runs.
Context {P : Platform} {PL : PlatformLaws P} {O : Type} {Op : Operation O} {OL : OperationLaws O}.
Context {Mc : Machine O} {ML : MachineLaws O}.
Implicit Types (h : list event) (u v w x : O).

(** An object in state [a0] is all there is at first; later a read answers one of those
    that are [known]. *)
Definition own_storage (a0 : astate) (known : list O) {R} (c : own_call O R) : R → Prop :=
  match c in own_call _ R return R → Prop with
  | OwnGet _ => λ a, match a with
      | Ok u => (known = [] ∧ abs u = a0)
                ∨ ∃ w, In w known ∧ op_Spec u = op_Spec w ∧ op_Status u = op_Status w
      | Err _ => True
      end
  | c => own_stored c
  end.
Definition storage (a0 : astate) : protocol ev := λ h R e a,
  match op_view O e with Some c => own_storage a0 (candidates h) c a | None => True end.
Definition cached (a0 : astate) : protocol ev := λ h R e a,
  match op_view O e with Some c => own_storage a0 (versions h) c a | None => True end.

Lemma storage_cached a0 h R (e : ev R) a : storage a0 h R e a → cached a0 h R e a.
Proof.
  unfold storage, cached. destruct (op_view O e) as [c|]; [|done]. destruct c; cbn; try done.
  destruct a as [u|]; [|done]. intros [[Hc Ha]|(w & Hw & ?)].
  - left. eauto using no_candidates.
  - right. exists w. split; [by apply candidates_versions|done].
Qed.
Lemma cached_api a0 h R (e : ev R) a : cached a0 h R e a → api_server O h R e a.
Proof. unfold cached, api_server. destruct (op_view O e) as [c|]; [by destruct c|done]. Qed.

(** A reconciler that keeps the contract. *)
Context (reconcile : M Reply) (Hrec : ∀ h, wp (api_server O) (guard O) reconcile h (ends O)).

Fixpoint reconciles (n : nat) : M unit :=
  match n with
  | 0%nat => Ret tt
  | S n => let* _ := recover reconcile in reconciles n
  end.

Lemma reconciles_emits P0 n : emits P0 reconcile → emits P0 (reconciles n).
Proof.
  intros He. induction n as [|n IH]; cbn; [done|]. apply emits_bind; [by apply emits_recover|done].
Qed.

(** The API server, and more. *)
Definition serves (Φ : protocol ev) : Prop := ∀ h R e a, Φ h R e a → api_server O h R e a.
Lemma cached_serves a0 : serves (cached a0).
Proof. intros h R e a. apply cached_api. Qed.
Lemma storage_serves a0 : serves (storage a0).
Proof. intros h R e a Hst. by eapply cached_api, storage_cached. Qed.

(** What every reconcile guarantees after any history, all of them do. *)
Lemma reconciles_keep Φ G n h :
  (∀ h, wp Φ G reconcile h (λ _ _, True)) → wp Φ G (reconciles n) h (λ _ _, True).
Proof.
  intros HG. revert h. induction n as [|n IH]; intros h; cbn [reconciles]; [done|].
  rewrite wp_bind. eapply wp_recover; [apply HG|]. intros o h' _ o'. cbn. apply IH.
Qed.

Lemma reconciles_guarded Φ n h :
  serves Φ → wp Φ (guard O) (reconciles n) h (λ _ _, True).
Proof using Hrec.
  intros HΦ. apply reconciles_keep. intros h'.
  eapply wp_mono; [eapply wp_protocol; [apply Hrec|apply HΦ]|done..].
Qed.

(** An invariant of the history, kept by every permitted call and every answer. *)
Lemma reconciles_inv Φ n (Inv : list event → Prop) G (Q : outcome unit → list event → Prop) :
  serves Φ → Inv [] →
  (∀ h R e a, Inv h → guard O h R e → Φ h R e a → Inv (Obs e a :: h)) →
  (∀ h R e, Inv h → guard O h R e → G h R e) →
  (∀ o h, Inv h → Q o h) →
  wp Φ G (reconciles n) [] Q.
Proof using Hrec.
  intros HΦ H0 Hstep HG HQ.
  pose proof (wp_invariant _ _ Inv _ _ _ (reconciles_guarded Φ n [] HΦ) H0 Hstep) as Hwp.
  eapply wp_mono; [exact Hwp| |]; cbn.
  - intros h R e [He Hi]. by apply HG.
  - intros o h [_ Hi]. by apply HQ.
Qed.

(** ** Reachability *)

Definition reach (a0 : astate) u : Prop := rtc astep a0 (abs u).
Definition all_reach (a0 : astate) h : Prop := ∀ u, In u (versions h) → reach a0 u.

(** What a permitted call says when it mutates. *)
Lemma guard_inv h R (e : ev R) :
  guard O h R e → mutates R e = true →
  ∃ u, latest h = Some u ∧ In u (candidates h)
       ∧ permitted O (abs u) (kind_of e) = true ∧ detail h u R e.
Proof.
  intros Hg Hm. destruct (Hg Hm) as (u & Hl & Hp & Hd). exists u.
  eauto using latest_candidate.
Qed.

Lemma guard_own h R (e : ev R) c :
  guard O h R e → op_view O e = Some c → mutates R e = true →
  ∃ u, latest h = Some u ∧ In u (candidates h) ∧ own_detail h u c.
Proof.
  intros Hg Hc Hm. destruct (guard_inv h R e Hg Hm) as (u & Hl & Hin & _ & Hd).
  exists u. unfold detail in Hd. by rewrite Hc in Hd.
Qed.

(** An object the next history knows is one known before, the first, or one step further, as
    it was written. *)
Definition written {R} (c : own_call O R) v : Prop :=
  match c with OwnStatus x => abs v = abs x | _ => False end.
Lemma answer_step a0 known h R (e : ev R) c a v :
  op_view O e = Some c → guard O h R e → (∀ u, latest h = Some u → In u known) →
  own_storage a0 known c a → In v (own_versions c a known) →
  (known = [] ∧ abs v = a0)
  ∨ ∃ w, In w known ∧ (abs v = abs w ∨ (astep (abs w) (abs v) ∧ written c v)).
Proof.
  intros Hc Hg Hk Hst Hin. pose proof (view_mutates _ _ _ Hc) as Hm.
  destruct c as [k|x|x]; cbn in Hin.
  - destruct a as [u|err]; [|by right; exists v; auto].
    destruct Hin as [<-|Hin]; [|by right; exists v; auto].
    destruct Hst as [Hst|(w & Hw & Hs & Ht)]; [by left|].
    right. exists w. split; [done|]. left. by apply same_abs.
  - destruct (guard_own _ _ _ _ Hg Hc Hm) as (u0 & Hu0%Hk & _ & Hs & Ht & _).
    destruct a as [w|err]; [|by right; exists v; auto].
    destruct Hin as [<-|Hin]; [|by right; exists v; auto].
    right. exists u0. split; [done|]. left. rewrite (kept_abs _ _ Hst). by apply same_abs.
  - destruct (guard_own _ _ _ _ Hg Hc Hm) as (u0 & Hu0%Hk & _ & _ & _ & _ & Ha).
    destruct a as [w|err]; (destruct Hin as [<-|Hin]; [|by right; exists v; auto]);
      right; exists u0; (split; [done|]); right; cbn; [by rewrite (kept_abs _ _ Hst)|done].
Qed.

Lemma candidate_step a0 h R (e : ev R) a v :
  guard O h R e → storage a0 h R e a → In v (candidates (Obs e a :: h)) →
  (candidates (O:=O) h = [] ∧ abs v = a0)
  ∨ ∃ w, In w (candidates h) ∧ (abs v = abs w ∨ astep (abs w) (abs v)).
Proof.
  intros Hg Hst Hin. unfold storage in Hst. cbn in Hin.
  destruct (op_view O e) as [c|] eqn:Hc; [|right; exists v; by auto].
  destruct (answer_step a0 (candidates h) h R e c a v) as [?|(w & Hw & [?|[? ?]])];
    eauto using latest_candidate.
  destruct c; destruct a; cbn in *; tauto.
Qed.
Lemma version_step a0 h R (e : ev R) a v :
  guard O h R e → cached a0 h R e a → In v (versions (Obs e a :: h)) →
  (versions (O:=O) h = [] ∧ abs v = a0)
  ∨ ∃ w, In w (versions h)
         ∧ (abs v = abs w
            ∨ (astep (abs w) (abs v) ∧ ∃ c, op_view O e = Some c ∧ written c v)).
Proof.
  intros Hg Hst Hin. unfold cached in Hst. cbn in Hin.
  destruct (op_view O e) as [c|] eqn:Hc; [|right; exists v; by auto].
  destruct (answer_step a0 (versions h) h R e c a v) as [?|(w & Hw & [?|[? ?]])]; eauto 8.
  intros u Hu. by apply candidates_versions, latest_candidate.
Qed.

Lemma all_reach_nil a0 : all_reach a0 [].
Proof. by intros u []. Qed.
Lemma all_reach_step a0 h R (e : ev R) a :
  all_reach a0 h → guard O h R e → cached a0 h R e a → all_reach a0 (Obs e a :: h).
Proof.
  intros Hi Hg Hst v Hin. unfold reach.
  destruct (version_step _ _ _ _ _ _ Hg Hst Hin) as [[_ ->]|(w & Hw & [Hv|[Hv _]])].
  - constructor.
  - rewrite Hv. by apply Hi.
  - eapply rtc_r; [by apply Hi|done].
Qed.

Lemma reach_ordered dry u : reach (initial dry) u → ordered (abs u) ∧ a_dry (abs u) = dry.
Proof.
  unfold reach. intros H.
  assert (ordered (initial dry) ∧ a_dry (initial dry) = dry) as Hinit
    by (split; [apply initial_ordered|done]).
  revert Hinit. induction H as [a|a b c Hab Hbc IH]; [done|].
  intros [Ho Hd]. apply IH. split; [by eapply astep_ordered|].
  by rewrite (astep_dry _ _ Hab).
Qed.

(** A call of a run from the start, with the state it was made in. *)
Lemma guard_reach dry h R (e : ev R) :
  all_reach (initial dry) h → guard O h R e → mutates R e = true →
  ∃ u, latest h = Some u ∧ ordered (abs u) ∧ a_dry (abs u) = dry
       ∧ permitted O (abs u) (kind_of e) = true ∧ detail h u R e.
Proof.
  intros Hi Hg Hm. destruct (guard_inv _ _ _ Hg Hm) as (u & Hl & Hin & Hp & Hd).
  destruct (reach_ordered dry u (Hi u (candidates_versions _ _ Hin))). by exists u.
Qed.

(** ** Facts that stay *)

(** Once the server has shown an object with a lasting property, all it may hold have it. *)
Definition lasting (Q : astate → bool) h : Prop :=
  ∀ v, In v (shown h) → Q (abs v) = true → ∀ w, In w (candidates h) → Q (abs w) = true.

Lemma lasting_nil Q : lasting Q [].
Proof. by intros v []. Qed.
Lemma lasting_step a0 Q h R (e : ev R) a :
  (∀ s s' : astate, astep s s' → Q s = true → Q s' = true) →
  lasting Q h → guard O h R e → storage a0 h R e a → lasting Q (Obs e a :: h).
Proof.
  intros HQ Hi Hg Hst v Hv Hq w Hw.
  destruct (shown_step _ _ _ _ _ Hv) as [Hold|Hnew].
  - destruct (candidate_step _ _ _ _ _ _ Hg Hst Hw) as [[Hc _]|(z & Hz & [->|Hstep])].
    + by rewrite (shown_candidate _ Hc) in Hold.
    + by eapply Hi.
    + eapply HQ; [done|]. by eapply Hi.
  - rewrite Hnew in Hw. by destruct Hw as [<-|[]].
Qed.

(** A status write is a step of the machine, to a reachable state. *)
Definition refines (dry : bool) : guarantee ev := λ h R e,
  match op_view O e with
  | Some (OwnStatus x) =>
      ∃ u, latest h = Some u ∧ astep (abs u) (abs x)
           ∧ rtc astep (initial dry) (abs x) ∧ ordered (abs x)
  | _ => True
  end.

Lemma reconciles_refine dry n :
  wp (cached (initial dry)) (refines dry) (reconciles n) []
    (λ _ h, ∀ u, latest h = Some u → rtc astep (initial dry) (abs u)).
Proof using Hrec PL OL ML.
  apply (reconciles_inv _ n (all_reach (initial dry)));
    auto using cached_serves, all_reach_nil, all_reach_step.
  - intros h R e Hi Hg. unfold refines.
    destruct (op_view O e) as [c|] eqn:Hc; [destruct c as [k|x|x]|]; try done.
    destruct (guard_own _ _ _ _ Hg Hc (view_mutates _ _ _ Hc)) as (w & Hl & Hin & _ & _ & _ & Hs).
    assert (rtc astep (initial dry) (abs x)) as Hr by (eapply rtc_r; [by apply Hi, candidates_versions|done]).
    exists w. by destruct (reach_ordered dry x Hr).
  - intros o h Hi u Hl. by apply Hi, candidates_versions, latest_candidate.
Qed.

(** ** One request *)

(** The same request: what it asks for, and where it is, never change. *)
Definition same_request u v : Prop :=
  op_Spec v = op_Spec u ∧ keyOf (op_Meta v) = keyOf (op_Meta u).
Lemma same_request_sym u v : same_request u v → same_request v u.
Proof. intros [? ?]. by split. Qed.
Lemma same_request_trans u v w : same_request u v → same_request v w → same_request u w.
Proof. intros [Hs Hk] [Hs' Hk']. split; congruence. Qed.
Lemma kept_request x u : kept x u → same_request x u.
Proof. by intros (? & _ & _ & ?). Qed.
(** A write is of the request that was read. *)
Lemma write_request h u R (c : own_call O R) :
  own_detail h u c → match c with OwnGet _ => True | OwnUpdate x | OwnStatus x => same_request u x end.
Proof using PL.
  destruct c as [k|x|x]; [done|intros Hw|intros (? & Hm & _); split; [done|by rewrite Hm]].
  pose proof Hw as (Hs & _). split; [done|].
  destruct Hw as (_ & _ & [(_ & _ & ->)|[-> _]]); [apply keyOf_add|apply keyOf_remove].
Qed.

(** A read answers an object of that name. *)
Definition named : protocol ev := λ _ R e,
  match op_view O e with
  | Some c => match c in own_call _ R return R → Prop with
              | OwnGet k => λ a, ∀ u : O, a = Ok u → keyOf (op_Meta u) = k
              | _ => λ _, True
              end
  | None => λ _, True
  end.
(** No other request of the kind is read. *)
Definition asks_for (key : NamespacedName) R (e : ev R) : Prop :=
  match op_view O e with Some (OwnGet k) => k = key | _ => True end.
Definition one_request (key : NamespacedName) h : Prop := ∀ v,
  In v (versions h) → keyOf (op_Meta v) = key ∧ ∀ w, In w (versions h) → same_request w v.

Lemma one_request_nil key : one_request key [].
Proof. by intros v. Qed.
Lemma one_request_step key a0 h R (e : ev R) a :
  one_request key h → guard O h R e → asks_for key R e → cached a0 h R e a → named h R e a →
  one_request key (Obs e a :: h).
Proof using PL OL.
  intros Hi Hg Hk Hs Hn.
  assert (∀ v, In v (versions (Obs e a :: h)) → In v (versions h)
    ∨ (versions (Obs e a :: h) = v :: versions h
       ∧ keyOf (op_Meta v) = key ∧ ∀ w, In w (versions h) → same_request w v)) as Hnew.
  { assert (∀ u v, latest h = Some u → same_request u v →
              keyOf (op_Meta v) = key ∧ ∀ w, In w (versions h) → same_request w v) as Hw.
    { intros u v Hu%latest_candidate%candidates_versions Huv. destruct (Hi u Hu) as [Hku Hsu].
      split; [destruct Huv; congruence|]. intros w Hw. eapply same_request_trans; [by apply Hsu|done]. }
    unfold cached in Hs. unfold named in Hn. unfold asks_for in Hk. cbn. intros v.
    destruct (op_view O e) as [c|] eqn:Hc; [|by left].
    destruct c as [k|x|x]; cbn in *.
    - destruct a as [u|]; [|by left]. intros [<-|Hv]; [|by left]. right. split; [done|].
      rewrite (Hn u eq_refl). split; [done|]. intros w Hw'. destruct Hs as [[Hnil _]|(z & Hz & Hzs & _)].
      + by rewrite Hnil in Hw'.
      + destruct (Hi z Hz) as [Hkz Hsz]. destruct (Hsz w Hw') as [Hws Hwk].
        split; [congruence|]. rewrite (Hn u eq_refl). congruence.
    - destruct (guard_own _ _ _ _ Hg Hc (view_mutates _ _ _ Hc)) as (u & Hl & _ & Hd).
      apply write_request in Hd. destruct a as [z|]; [|by left]. intros [<-|Hv]; [|by left]. right.
      split; [done|]. eapply Hw; [done|]. eapply same_request_trans; [done|by apply kept_request].
    - destruct (guard_own _ _ _ _ Hg Hc (view_mutates _ _ _ Hc)) as (u & Hl & _ & Hd).
      apply write_request in Hd. destruct a as [z|]; (intros [<-|Hv]; [|by left]); right;
        (split; [done|]); (eapply Hw; [done|]); [|done].
      eapply same_request_trans; [done|by apply kept_request]. }
  intros v Hv. destruct (Hnew v Hv) as [Hold|(-> & Hkv & Hsv)].
  - destruct (Hi v Hold) as [Hkv Hsv]. split; [done|]. intros w Hw.
    destruct (Hnew w Hw) as [?|(_ & _ & Hsw)]; [by apply Hsv|by apply same_request_sym, Hsw].
  - split; [done|]. intros w [<-|Hw]; [done|by apply Hsv].
Qed.

(** Nothing but finalizers changes once the server has shown the object finished. *)
Definition absorbed : guarantee ev := λ h R e,
  mutates R e = true → (∀ x, kind_of e ≠ kind_of (op_Update x)) →
  ∀ v, In v (shown h) → terminal (abs v) = false.

(** Nor once the request was last read as finished, also where reads are stale. *)
Definition left_alone : guarantee ev := λ h R e,
  mutates R e = true → (∀ x, kind_of e ≠ kind_of (op_Update x)) →
  ∃ u, latest h = Some u ∧ terminal (abs u) = false.
Lemma reconciles_left_alone a0 n :
  wp (cached a0) left_alone (reconciles n) [] (λ _ _, True).
Proof using Hrec ML.
  apply (reconciles_inv _ n (λ _, True)); [apply cached_serves|done..| |done].
  intros h R e _ Hg Hm Hk. destruct (guard_inv _ _ _ Hg Hm) as (u & Hl & _ & Hp & _).
  exists u. split; [done|]. rewrite mutates_kind in Hm. exact (permitted_live _ _ u Hp Hm (Hk u)).
Qed.

Lemma reconciles_absorbed a0 n :
  wp (storage a0) absorbed (reconciles n) [] (λ _ _, True).
Proof using Hrec PL OL ML.
  apply (reconciles_inv _ n (lasting terminal)); auto using storage_serves, lasting_nil.
  - intros. eapply lasting_step; eauto. intros x y Hxy.
    unfold terminal. by rewrite (astep_nonterminal _ _ Hxy).
  - intros h R e Hi Hg Hm Hk v Hv.
    destruct (guard_inv _ _ _ Hg Hm) as (u & Hl & Hin & Hp & _).
    destruct (terminal (abs v)) eqn:Hc; [|done].
    rewrite mutates_kind in Hm. pose proof (permitted_live _ _ u Hp Hm (Hk u)) as Hu.
    pose proof (Hi v Hv Hc u Hin). congruence.
Qed.

(** The same object, but for the finalizer of the operations. *)
Definition same_but_finalizer u x : Prop :=
  op_Spec x = op_Spec u ∧ op_Status x = op_Status u
  ∧ om_set_Finalizers [] (op_Meta x) = om_set_Finalizers [] (op_Meta u)
  ∧ ∀ f, f ≠ OperationFinalizer →
      ContainsFinalizer (op_Meta x) f = ContainsFinalizer (op_Meta u) f.
Lemma finalizer_write_same h u x : finalizer_write h u x → same_but_finalizer u x.
Proof.
  intros (Hs & Ht & Hf). split; [done|]. split; [done|].
  destruct Hf as [(_ & _ & ->)|[-> _]]; (split; [apply add_meta || apply remove_meta|]); intros f Hne;
    [by apply contains_add_other|by apply contains_remove_other].
Qed.
(** When an update may take the finalizer away, and that it touches nothing else. *)
Definition finalizer_kept : guarantee ev := λ h R e,
  match op_view O e with
  | Some (OwnUpdate x) =>
      ∃ u, latest h = Some u ∧ same_but_finalizer u x
           ∧ (ContainsFinalizer (op_Meta x) OperationFinalizer = false →
              om_DeletionTimestamp (op_Meta u) ≠ None
              ∨ ∃ y h', h = Obs (op_StatusUpdate y) (Ok u) :: h' ∧ terminal (abs y) = true)
  | _ => True
  end.

Lemma reconciles_finalizer a0 n :
  wp (cached a0) finalizer_kept (reconciles n) [] (λ _ _, True).
Proof using Hrec PL OL ML.
  apply (reconciles_inv _ n (λ _, True)); [apply cached_serves|done..| |done].
  intros h R e _ Hg. unfold finalizer_kept.
  destruct (op_view O e) as [c|] eqn:Hc; [destruct c as [k|x|x]|]; try done.
  destruct (guard_own _ _ _ _ Hg Hc (view_mutates _ _ _ Hc)) as (v & Hl & _ & Hf).
  exists v. split; [done|]. split; [by eapply finalizer_write_same|]. destruct Hf as (_ & _ & Hf).
  destruct Hf as [(_ & _ & ->)|[-> Hd]]; [|done]. by rewrite contains_add.
Qed.
End runs.
Arguments storage {P} O {Op} a0 h R e a.
Arguments cached {P} O {Op} a0 h R e a.
Arguments all_reach {P} O {Op} a0 h.
Arguments lasting {P} O {Op} Q h.
Arguments named O {Op} h R e.
Arguments asks_for O {Op} key R e.
Arguments one_request O {Op} key h.
Arguments refines {P} O {Op} dry h R e.
Arguments left_alone {P} O {Op} h R e.
Arguments same_but_finalizer {P} O {Op} u x.
Arguments absorbed {P} O {Op} h R e.
Arguments finalizer_kept {P} O {Op} h R e.
