(* ===== verification/Progress.v ===== *)
(** * No reconcile spins

A controller that asks to be run again at once could keep a worker busy for ever, and one that
neither finishes nor waits makes no progress.  [verdicts] runs a reconciler [n] times and tells
what each run said; [advances] counts the status writes that took the object to a later phase
and [finalizers_added] those that gave it its finalizer: every reconcile that asks to be run at
once ends with one of them, and of the former there are at most seven.  So of any number of
reconciles all but those seven wait for something, or the object is finished
([verdicts_progress]). *)

From S2P Require Import Prelude GoLib Api Platform Footprint Controller Phases Operation Guard.
From S2P Require Import Runs.

Lemma rank_bound a : (rank a ≤ 7)%nat.
Proof. unfold rank. repeat case_match; lia. Qed.

(** What a reconcile says of its return: at once, after a delay, after an error or a panic (when
    the manager sees fit), or not at all. *)
Inductive verdict := AtOnce | Later | Failed | Over.
#[export] Instance verdict_eq_dec : EqDecision verdict.
Proof. solve_decision. Defined.
Definition verdict_of (r : option Reply) : verdict :=
  match r with
  | Some (c, None) =>
      if cr_Requeue c then AtOnce else if 0 <? cr_RequeueAfter c then Later else Over
  | _ => Failed
  end.
Definition count (v : verdict) (vs : list verdict) : nat :=
  length (List.filter (λ v', bool_decide (v' = v)) vs).
Lemma count_cons v v' vs :
  count v (v' :: vs) = ((if bool_decide (v' = v) then 1 else 0) + count v vs)%nat.
Proof. unfold count. cbn. by destruct (bool_decide (v' = v)). Qed.
Lemma count_all vs :
  length vs = (count AtOnce vs + count Later vs + count Failed vs + count Over vs)%nat.
Proof.
  induction vs as [|v vs IH]; [done|]. rewrite !count_cons. cbn [length].
  destruct v; repeat case_bool_decide; done || lia.
Qed.

Section progress.
Context {P : Platform} {PL : PlatformLaws P} {O : Type} {Op : Operation O} {OL : OperationLaws O}.
Context {Mc : Machine O} {ML : MachineLaws O}.
Implicit Types (h : list event) (u v w x : O).

(** The status stored is a phase further than the one read. *)
Definition own_advances (last : option O) {R} (c : own_call O R) : R → nat :=
  match c in own_call _ R return R → nat with
  | OwnStatus x => λ a, match last with
      | Some u => if is_ok a && (rank (abs u) <? rank (abs x))%nat then 1%nat else 0%nat
      | None => 0%nat
      end
  | _ => λ _, 0%nat
  end.
(** The finalizer is stored where there was none. *)
Definition own_adds (last : option O) {R} (c : own_call O R) : R → nat :=
  match c in own_call _ R return R → nat with
  | OwnUpdate x => λ a, match last with
      | Some u => if is_ok a && negb (ContainsFinalizer (op_Meta u) OperationFinalizer)
                     && ContainsFinalizer (op_Meta x) OperationFinalizer then 1%nat else 0%nat
      | None => 0%nat
      end
  | _ => λ _, 0%nat
  end.
Fixpoint counting (f : option O → ∀ R, own_call O R → R → nat) h : nat :=
  match h with
  | [] => 0%nat
  | Obs e a :: h' =>
      ((match op_view O e with Some c => f (latest h') _ c a | None => 0 end) + counting f h')%nat
  end.
Definition advances : list event → nat := counting (@own_advances).
Definition finalizers_added : list event → nat := counting (@own_adds).

Lemma counting_app f d h : (counting f h ≤ counting f (d ++ h))%nat.
Proof. induction d as [|[R e a] d IH]; cbn; lia. Qed.

(** A call that moved the object on is counted. *)
Lemma moved_counted d h :
  moved O (d ++ h) → d ≠ [] →
  (advances h + finalizers_added h < advances (d ++ h) + finalizers_added (d ++ h))%nat.
Proof.
  destruct d as [|[R e a] d]; [done|]. intros Hm _. unfold advances, finalizers_added in *.
  pose proof (counting_app (@own_advances) d h). pose proof (counting_app (@own_adds) d h).
  cbn -[Nat.ltb] in *. destruct (op_view O e) as [c|]; [|done].
  destruct c; cbn -[Nat.ltb] in *; [done|..].
  - destruct Hm as (Ha & u' & -> & H1 & H2). rewrite Ha, H1, H2. cbn. lia.
  - destruct Hm as (Ha & u' & -> & Hr). apply Nat.ltb_lt in Hr. rewrite Ha, Hr. cbn. lia.
Qed.

(** What the server may hold is as far as the advances say. *)
Definition advanced (a0 : astate) h : Prop :=
  (candidates (O:=O) h = [] → advances h = 0%nat)
  ∧ ∀ v, In v (candidates h) → (rank a0 + advances h ≤ rank (abs v))%nat.

Lemma advanced_step a0 h R (e : ev R) a :
  advanced a0 h → guard O h R e → storage O a0 h R e a → advanced a0 (Obs e a :: h).
Proof.
  intros [Hnil Hin] Hg Hst. unfold advances in *. unfold advanced, advances. cbn -[Nat.ltb].
  unfold storage in Hst. destruct (op_view O e) as [c|] eqn:Hc; [|by split].
  pose proof (view_mutates _ _ _ Hc) as Hm. destruct c as [k|x|x]; cbn -[Nat.ltb] in *.
  - destruct a as [u|err]; [|by split]. split; [done|]. intros v [<-|[]].
    destruct Hst as [[Hn ->]|(w & Hw & Hs & Ht)]; [rewrite (Hnil Hn); lia|].
    rewrite <- (same_abs w u) by done. by apply Hin.
  - destruct (guard_own _ _ _ _ Hg Hc Hm) as (u & Hl & Hu & Hs & Ht & _).
    destruct a as [w|err]; [|by split]. split; [done|]. intros v [<-|[]].
    rewrite (kept_abs _ _ Hst), (same_abs x u) by done. by apply Hin.
  - destruct (guard_own _ _ _ _ Hg Hc Hm) as (u & Hl & Hu & _ & _ & _ & Hstep).
    rewrite Hl. pose proof (Hin u Hu) as Hru. pose proof (astep_rank _ _ Hstep) as Hr.
    destruct a as [w|err]; cbn -[Nat.ltb].
    + split; [done|]. intros v [<-|[]]. rewrite (kept_abs _ _ Hst).
      destruct (Nat.ltb_spec (rank (abs u)) (rank (abs x))); lia.
    + split; [done|]. intros v [<-|Hv]; [lia|]. by apply Hin.
Qed.

(** ** Counting replies *)

Context (reconcile : M Reply) (Hrec : ∀ h, wp (api_server O) (guard O) reconcile h (ends O)).
Hypothesis calls_first : ∃ R (e : ev R) k, reconcile = Vis e k.

(** [reconciles], with what each of them said. *)
Fixpoint verdicts (n : nat) : M (list verdict) :=
  match n with
  | 0%nat => Ret []
  | S n => let* r := recover reconcile in
           let* vs := verdicts n in
           Ret (verdict_of r :: vs)
  end.
(** Some reconcile found nothing left to do. *)
Definition was_settled h : Prop := ∃ d h', h = d ++ h' ∧ settled O h'.

Lemma reconcile_calls Φ h : wp Φ free reconcile h (λ _ h', ∃ d, h' = d ++ h ∧ d ≠ []).
Proof using calls_first.
  clear Hrec. destruct calls_first as (R & e & k & ->). split; [done|]. intros a _.
  eapply wp_mono; [apply wp_extends|done|]. intros o h' [d ->].
  exists (d ++ [Obs e a]). rewrite <- app_assoc. split; [done|]. by destruct d.
Qed.

(** One reconcile: it is counted if it comes back at once, and over only if all is done. *)
Lemma verdict_counted d h o :
  ends O o (d ++ h) → d ≠ [] →
  ((if bool_decide (verdict_of (recovered o) = AtOnce) then 1 else 0) + (advances h + finalizers_added h)
     ≤ advances (d ++ h) + finalizers_added (d ++ h))%nat
  ∧ (verdict_of (recovered o) = Over → settled O (d ++ h)).
Proof.
  intros Hends Hd. pose proof (counting_app (@own_advances) d h) as Ha.
  pose proof (counting_app (@own_adds) d h) as Hf. unfold advances, finalizers_added in *.
  destruct o as [[c [err|]]|m]; cbn [recovered verdict_of]; try (case_bool_decide; [done|]; split; [lia|done]).
  destruct (cr_Requeue c) eqn:Hc.
  - pose proof (moved_counted d h (ends_moved c _ Hends Hc) Hd) as Hm.
    unfold advances, finalizers_added in Hm. case_bool_decide; [split; [lia|done]|done].
  - destruct (Z.ltb_spec 0 (cr_RequeueAfter c)); case_bool_decide; try done;
      (split; [lia|]); [done|]. intros _.
    destruct (ends_woken c _ Hends) as [?|[?|?]]; [congruence|lia|done].
Qed.

Lemma verdicts_counted Φ n h :
  (∀ h R (e : ev R) a, Φ h R e a → api_server O h R e a) →
  wp Φ (guard O) (verdicts n) h
    (λ o h', (∃ d, h' = d ++ h) ∧ ∀ vs, o = Done vs → length vs = n
       ∧ (count AtOnce vs + (advances h + finalizers_added h)
            ≤ advances h' + finalizers_added h')%nat
       ∧ (In Over vs → was_settled h')).
Proof using Hrec calls_first.
  intros HΦ. revert h. induction n as [|n IH]; intros h; cbn [verdicts].
  { split; [by exists []|]. by intros vs [= <-]. }
  rewrite wp_bind. eapply wp_recovered.
  { eapply wp_mono; [apply wp_both; [eapply wp_protocol; [apply Hrec|exact HΦ]|apply reconcile_calls]
                    |by intros h' R e [? _]|]. intros o h' H; exact H. }
  cbn. intros o h1 (Hends & d & -> & Hd). destruct (verdict_counted d h o Hends Hd) as [Hc Hover].
  rewrite wp_bind. eapply wp_mono; [apply IH|done|].
  intros [vs|m] h2 ([d' ->] & Hvs); cbn -[count]; (split; [exists (d' ++ d); by rewrite app_assoc|]); [|done].
  intros vs' [= <-]. destruct (Hvs vs eq_refl) as (Hlen & Hk & Hin). split; [cbn; congruence|]. split.
  - rewrite count_cons. lia.
  - intros [Hv|Hv]; [|by apply Hin]. exists d', (d ++ h). split; [done|by apply Hover].
Qed.

(** In a run of any length no more than seven reconciles ask to be run at once, not counting
    those that added the finalizer; all the others wait, for the clock or after an error, unless
    nothing is left to do. *)
Definition progresses (n : nat) (o : outcome (list verdict)) h : Prop :=
  ∀ vs, o = Done vs →
    (count AtOnce vs ≤ 7 + finalizers_added h)%nat
    ∧ ((count AtOnce vs + count Later vs + count Failed vs < n)%nat → was_settled h).

Lemma verdicts_progress a0 n : wp (storage O a0) (guard O) (verdicts n) [] (progresses n).
Proof using Hrec calls_first PL OL ML.
  pose proof (wp_invariant _ _ (advanced a0) _ _ _
    (verdicts_counted (storage O a0) n [] (storage_serves a0))) as Hwp.
  eapply wp_mono; [apply Hwp| |].
  - by split.
  - intros h R e a. apply advanced_step.
  - by intros h R e [? _].
  - cbn. intros o h [(_ & Hk) [Hnil Hin]] vs Hdone. destruct (Hk vs Hdone) as (Hlen & Hc & Hover).
    unfold advances in *. cbn in Hc. split.
    + destruct (candidates h) as [|v l] eqn:Hl; [specialize (Hnil eq_refl); lia|].
      specialize (Hin v ltac:(by left)). pose proof (rank_bound (abs v)). lia.
    + intros Hn. pose proof (count_all vs). apply Hover.
      destruct (count Over vs) as [|k] eqn:Ho; [lia|].
      assert (In Over (List.filter (λ y, bool_decide (y = Over)) vs)) as Hf.
      { unfold count in Ho. destruct (List.filter _ vs) as [|y l] eqn:Hfl; [done|].
        assert (In y (y :: l)) as Hv by by left. rewrite <- Hfl in Hv.
        apply filter_In in Hv as [_ Hv%bool_decide_eq_true]. subst y. by left. }
      by apply filter_In in Hf as [Hf _].
Qed.
End progress.
