(* ===== verification/Upgrade.v ===== *)
(** * internal/controller/upgraderequest_controller.go

The reconciler of UpgradeRequests.  Each handler is the Go method of the same name;
the request it mutates through a pointer is passed along explicitly, and a handler
answers the [(ctrl.Result, error)] pair.  Logging is left out. *)

From S2P Require Import Prelude GoLib Api Platform Footprint Discovery Workload Flux Snapshot Health.
From S2P Require Import Yaml Git Controller Operation Guard Quiesce.

Section upgrade.
Context {P : Platform} {D : Decoders} {Y : Kyaml}.
Variable r : Reconciler.

(** ** Preflight *)

Definition runUpgradePreflight (app : ManagedApp) (snapshotsEnabled : bool)
    : M (res preflightResult) :=
  let ksRef := as_KustomizationRef (app_Spec app) in
  let ksNS := or_default (ref_Namespace ksRef) DefaultFluxNamespace in
  let? flux := fluxPreflight app orelse err => Ret (Err err) in
  let '(warnings, ksStatus) := flux in
  let head := "Kustomization " +:+ ksNS +:+ "/" +:+ ref_Name ksRef +:+ " " +:+ ksStatus in
  if snapshotsEnabled then
    let? pvcs := DiscoverPVCs app
      orelse err => Ret (Err (Errorf_w "PVC discovery failed: " err)) in
    let? workloads := DiscoverWorkloads app
      orelse err => Ret (Err (Errorf_w "workload discovery failed: " err)) in
    let summary := head +:+ ". " +:+ itoa (len pvcs) +:+ " PVCs to snapshot, "
                   +:+ itoa (len workloads) +:+ " workloads to scale" in
    let class := match as_VolumeSnapshots (app_Spec app) with
                 | Some vs => vsc_VolumeSnapshotClassName vs
                 | None => ""
                 end in
    if negb (class =?s "") then
      check call (GetSnapshotClass class)
        orelse err => Ret (Err (Errorf_w ("VolumeSnapshotClass " +:+ Quote class +:+ " not found: ")
                                  err)) in
      Ret (Ok (mkPreflight workloads pvcs [summary] warnings))
    else Ret (Ok (mkPreflight workloads pvcs [summary] warnings))
  else Ret (Ok (mkPreflight [] [] [head +:+ ". Snapshots disabled"] warnings)).

(** The version to write: the chart, or the first image's tag for which an explicit
    path is required. *)
Definition target_string (app : ManagedApp) (targetVersion : VersionInfo) : res string :=
  if negb (vi_Chart targetVersion =?s "") then Ok (vi_Chart targetVersion)
  else match vi_Images targetVersion with
       | image :: _ =>
           if no_version_path app then
             Err (ErrReasoned "MissingVersionPath"
                    "VersionPath must be specified for image updates")
           else Ok (ii_Tag image)
       | [] => Err (ErrNew "no chart version or images specified")
       end.

Definition runGitDiffPreview (app : ManagedApp) (targetVersion : VersionInfo)
    : M (res (string * string * string)) :=
  let versionPath := version_path app in
  let path := as_GitPath (app_Spec app) in
  match target_string app targetVersion with
  | Err err => Ret (Err err)
  | Ok newVersion =>
      let? content := git_ReadFile r path
        orelse err => Ret (Err (Errorf_w ("cannot read Git file " +:+ path +:+ ": ") err)) in
      if (versionPath =?s DefaultHelmReleaseVersionPath) && no_version_path app
         && negb (IsHelmRelease content)
      then Ret (Err (ErrReasoned "MissingVersionPath"
                       "VersionPath must be specified for non-HelmRelease resources"))
      else
        match GetVersion content versionPath with
        | Err err =>
            Ret (Err (Errorf_w ("cannot read version at path " +:+ versionPath +:+ ": ") err))
        | Ok currentVersion =>
            match UpdateVersion content versionPath newVersion with
            | Err err => Ret (Err (Errorf_w "version update would produce invalid YAML: " err))
            | Ok _ => Ret (Ok (currentVersion, newVersion, versionPath))
            end
        end
  end.

(** ** Failure *)

Definition createAutoRollback (u : UpgradeRequest) (app : ManagedApp) : M (option error) :=
  let* now := call Now in
  let rollbackName :=
    om_Name (app_Meta app) +:+ "-auto-rollback-" +:+ format_compact (LocalOffset now) now in
  let rollback :=
    mkRollbackRequest
      (mkObjectMeta rollbackName (om_Namespace (ur_Meta u)) "" 0 0 None [] ∅
         [mkOwnerReference FluxupGroupVersion "UpgradeRequest" (om_Name (ur_Meta u))
            (om_UID (ur_Meta u))])
      (mkRollbackRequestSpec (mkObjectReference (om_Name (ur_Meta u)) "") true false)
      (mkRollbackRequestStatus None None None None None None None []) in
  let? _r := call (CreateRollback rollback)
    orelse err => Ret (Some (Errorf_w "creating RollbackRequest: " err)) in
  Ret None.

(** After the commit: start the rollback when the application asks for it; the answer
    is the failure message. *)
Definition post_commit_message (u : UpgradeRequest) (message : string) : M string :=
  let* got := getManagedApp u in
  match got with
  | Ok app =>
      if as_AutoRollback (app_Spec app) then
        let* err := createAutoRollback u app in
        match err with
        | Some err => Ret (message +:+ " - rollback required (auto-rollback failed: "
                           +:+ Error err +:+ ")")
        | None => Ret (message +:+ " - auto-rollback initiated")
        end
      else Ret (message +:+ " - rollback required")
  | Err _ => Ret (message +:+ " - rollback required")
  end.

(** Before the commit: resume what was suspended; a failure to do so is logged. *)
Definition resume_if_suspended (u : UpgradeRequest) : M UpgradeRequest :=
  if cond_true u ConditionTypeSuspended then
    let* got := getManagedApp u in
    match got with
    | Ok app =>
        let '(suspendName, suspendNS) := getSuspendTarget app in
        let* resumeErr := ResumeKustomization suspendName suspendNS in
        match resumeErr with
        | Some _ => Ret u
        | None =>
            Ret (generation_cond u ConditionTypeSuspended ConditionFalse "ResumedAfterFailure"
                   "Kustomization resumed after upgrade failure")
        end
    | Err _ => Ret u
    end
  else Ret u.

Definition setFailed (u : UpgradeRequest) (reason message : string) : M Reply :=
  if cond_true u ConditionTypeGitCommitted then
    let* message := post_commit_message u message in
    finish (generation_cond u ConditionTypeComplete ConditionFalse reason message)
  else
    let u := generation_cond u ConditionTypeComplete ConditionFalse reason message in
    let* u := resume_if_suspended u in
    finish u.

(** ** Dry run *)

(** The dry-run cycle is the one of [Quiesce], with this controller's [setFailed]. *)
Definition setDryRunFailed := dry_run_failed setFailed.
Definition dryRunSuspend := dry_run_suspend setFailed.
Definition dryRunScaleDown := dry_run_scale_down setFailed.
Definition dryRunScaleUp := dry_run_scale_up setFailed.
Definition dryRunResumeAndComplete := dry_run_complete setFailed "upgrade".
Definition runDryRunQuiescence := dry_run_quiescence setFailed "upgrade".

(** [upgrade.Spec.TargetVersion], else the application's available update *)
Definition target_version (u : UpgradeRequest) (app : ManagedApp) : option VersionInfo :=
  match us_TargetVersion (ur_Spec u) with
  | Some v => Some v
  | None => ast_AvailableUpdate (app_Status app)
  end.

Definition snapshots_enabled (u : UpgradeRequest) (app : ManagedApp) : bool :=
  negb (us_SkipSnapshot (ur_Spec u)) &&
  match as_VolumeSnapshots (app_Spec app) with Some vs => vsc_Enabled vs | None => false end.

Definition preview_reason (err : error) : string :=
  match err with ErrReasoned reason _ => reason | _ => "PreflightFailed" end.

Definition handleDryRun (u : UpgradeRequest) : M Reply :=
  let? app := getManagedApp u orelse err => setFailed u "ManagedAppNotFound" (Error err) in
  match target_version u app with
  | None => setFailed u "NoUpdateAvailable" "No update available for this app"
  | Some targetVersion =>
      let snapshotsEnabled := snapshots_enabled u app in
      let? versions :=
        (if r_GitManager r then runGitDiffPreview app targetVersion else Ret (Ok ("", "", "")))
        orelse err => setFailed u (preview_reason err) (Error err) in
      let '(currentVersion, newVersion, versionPath) := versions in
      let? preflight := runUpgradePreflight app snapshotsEnabled
        orelse err => setFailed u "PreflightFailed" (Error err) in
      runDryRunQuiescence u app preflight currentVersion newVersion versionPath
  end.

(** ** The phases of an upgrade *)

Definition handleSuspend (u : UpgradeRequest) : M Reply :=
  let? app := getManagedApp u orelse err => setFailed u "ManagedAppNotFound" (Error err) in
  match target_version u app with
  | None => setFailed u "NoUpdateAvailable" "No update available for this app"
  | Some targetVersion =>
      let? _v :=
        (if r_GitManager r then runGitDiffPreview app targetVersion else Ret (Ok ("", "", "")))
        orelse err => setFailed u (preview_reason err) (Error err) in
      let? _p := runUpgradePreflight app (snapshots_enabled u app)
        orelse err => setFailed u "PreflightFailed" (Error err) in
      let '(suspendName, suspendNS) := getSuspendTarget app in
      check SuspendKustomization suspendName suspendNS
        orelse err => setFailed u "SuspendFailed" (Error err) in
      let u := generation_cond u ConditionTypeSuspended ConditionTrue "KustomizationSuspended"
                 ("Suspended " +:+ suspendNS +:+ "/" +:+ suspendName) in
      let u :=
        if negb (snapshots_enabled u app)
        then generation_cond u ConditionTypeSnapshotReady ConditionTrue "SnapshotsSkipped"
               "Snapshots disabled or not configured"
        else u in
      update_then u requeue_now
  end.

Definition handleScaleDown (u : UpgradeRequest) : M (UpgradeRequest * Reply * bool) :=
  let* u := setPhaseStartIfNeeded u in
  let? app := getManagedApp u
    orelse err => stop_here u (setFailed u "ManagedAppNotFound" (Error err)) in
  if negb (snapshots_enabled u app) then
    stop_skipped u "SnapshotsDisabled" "Workload scale-down skipped (snapshots disabled)"
  else
    let? workloads := DiscoverWorkloads app
      orelse err => stop_here u (setFailed u "WorkloadDiscoveryFailed" (Error err)) in
    if len workloads =? 0 then
      stop_skipped u "NoWorkloadsFound" "No workloads discovered that mount RWO PVCs"
    else stop_workloads setFailed u workloads (om_Namespace (app_Meta app)).

Fixpoint all_snapshots_ready (snaps : list PVCSnapshotInfo) (namespace : string)
    : M (res bool) :=
  match snaps with
  | [] => Ret (Ok true)
  | snap :: snaps =>
      let? ready := IsSnapshotReady (psi_SnapshotName snap) namespace
        orelse err => Ret (Err err) in
      if negb ready then Ret (Ok false) else all_snapshots_ready snaps namespace
  end.

(** The second half of [handleSnapshotting], once snapshots are recorded. *)
Definition await_snapshots (u : UpgradeRequest) (app : ManagedApp) : M Reply :=
  let* st := deref "upgrade.Status.Snapshot" (ust_Snapshot (ur_Status u)) in
  let? allReady := all_snapshots_ready (sns_PVCSnapshots st) (om_Namespace (app_Meta app))
    orelse err => setFailed u "SnapshotCheckFailed" (Error err) in
  if negb allReady then
    let* timedOut := isPhaseTimedOut u TimeoutSnapshot in
    if timedOut then
      setFailed u "SnapshotTimeout" "Snapshots did not become ready within timeout"
    else Ret (requeue_after (10 * Second), None)
  else
    let u := resetPhaseStart u in
    let* now := call Now in
    let u := ur_set_Status
               (ust_set_Snapshot
                  (Some (mkSnapshotStatus (sns_PVCSnapshots st) (sns_CreatedAt st) (Some now)))
                  (ur_Status u)) u in
    let u := generation_cond u ConditionTypeSnapshotReady ConditionTrue "SnapshotsReady"
               (itoa (len (sns_PVCSnapshots st)) +:+ " snapshots ready") in
    update_then u requeue_now.

Definition handleSnapshotting (u : UpgradeRequest) : M Reply :=
  let* u := setPhaseStartIfNeeded u in
  let? app := getManagedApp u orelse err => setFailed u "ManagedAppNotFound" (Error err) in
  if len (recorded_snapshots u) =? 0 then
    let? discoveredPVCs := DiscoverPVCs app
      orelse err => setFailed u "PVCDiscoveryFailed" (Error err) in
    if len discoveredPVCs =? 0 then
      let u := generation_cond u ConditionTypeSnapshotReady ConditionTrue "NoPVCsFound"
                 "No RWO PVCs discovered to snapshot" in
      update_then u requeue_now
    else
      let pvcRefs := map (λ pvc, mkPVCRef (pi_Name pvc) (pi_Namespace pvc)) discoveredPVCs in
      let* vs := deref "app.Spec.VolumeSnapshots" (as_VolumeSnapshots (app_Spec app)) in
      let? snapshots :=
        CreateSnapshotsForUpgrade (om_Name (app_Meta app)) (om_Namespace (app_Meta app)) pvcRefs
          (vsc_VolumeSnapshotClassName vs)
        orelse err => setFailed u "SnapshotCreationFailed" (Error err) in
      let* now := call Now in
      let infos := map (λ s, mkPVCSnapshotInfo (sni_PVCName s) (sni_SnapshotName s)) snapshots in
      let u := ur_set_Status
                 (ust_set_Snapshot (Some (mkSnapshotStatus infos (Some now) None)) (ur_Status u))
                 u in
      let? u := call (StatusUpdateUpgrade u) orelse err => Ret (done_result, Some err) in
      await_snapshots u app
  else await_snapshots u app.

(** The version currently deployed, for the commit message. *)
Definition current_string (app : ManagedApp) (targetVersion : VersionInfo) : string :=
  match ast_CurrentVersion (app_Status app) with
  | None => ""
  | Some v =>
      if negb (vi_Chart targetVersion =?s "") then vi_Chart v
      else match vi_Images v with image :: _ => ii_Tag image | [] => "" end
  end.

(** The version written by [handleCommitting], or the reason and message it fails with. *)
Definition commit_version (app : ManagedApp) (targetVersion : VersionInfo)
    : string + (string * string) :=
  if negb (vi_Chart targetVersion =?s "") then inl (vi_Chart targetVersion)
  else match vi_Images targetVersion with
       | image :: _ =>
           if no_version_path app then
             inr ("MissingVersionPath",
                  "VersionPath must be specified in ManagedApp.spec.versionPolicy for image updates")
           else inl (ii_Tag image)
       | [] => inr ("InvalidTargetVersion", "No chart version or images specified")
       end.

Definition handleCommitting (u : UpgradeRequest) : M Reply :=
  let? app := getManagedApp u orelse err => setFailed u "ManagedAppNotFound" (Error err) in
  let '(suspendName, suspendNS) := getSuspendTarget app in
  check VerifyStillSuspended suspendName suspendNS
    orelse err => setFailed u "SuspendVerificationFailed" (Error err) in
  let* targetVersion := deref "targetVersion" (target_version u app) in
  let versionPath := version_path app in
  match commit_version app targetVersion with
  | inr (reason, message) => setFailed u reason message
  | inl newVersionStr =>
      let currentVersionStr := current_string app targetVersion in
      let path := as_GitPath (app_Spec app) in
      let? content := git_ReadFile r path
        orelse err => setFailed u "GitReadFailed" (Error err) in
      if (versionPath =?s DefaultHelmReleaseVersionPath) && no_version_path app
         && negb (IsHelmRelease content)
      then setFailed u "MissingVersionPath"
             "VersionPath must be specified in ManagedApp.spec.versionPolicy for non-HelmRelease resources"
      else
        match UpdateVersion content versionPath newVersionStr with
        | Err err => setFailed u "YAMLUpdateFailed" (Error err)
        | Ok newContent =>
            let message := FormatCommitMessage (om_Name (app_Meta app)) currentVersionStr
                             newVersionStr (map psi_SnapshotName (recorded_snapshots u)) in
            let? commitInfo := git_CommitFile r (mkFileChange path newContent) message
              orelse err => setFailed u "GitCommitFailed" (Error err) in
            let* now := call Now in
            let u := ur_set_Status
                       (ust_set_Upgrade
                          (Some (mkUpgradeStatus (ast_CurrentVersion (app_Status app))
                                   (Some targetVersion) (ci_SHA commitInfo) (Some now) None))
                          (ur_Status u)) u in
            let u := generation_cond u ConditionTypeGitCommitted ConditionTrue "Committed"
                       ("Commit " +:+ ci_SHA commitInfo) in
            update_then u requeue_now
        end
  end.

Definition handleReconciling (u : UpgradeRequest) : M Reply :=
  let* u := setPhaseStartIfNeeded u in
  let? app := getManagedApp u orelse err => setFailed u "ManagedAppNotFound" (Error err) in
  let '(suspendName, suspendNS) := getSuspendTarget app in
  check ResumeKustomization suspendName suspendNS
    orelse err => setFailed u "ResumeFailed" (Error err) in
  let u := generation_cond u ConditionTypeSuspended ConditionFalse "KustomizationResumed"
             ("Resumed " +:+ suspendNS +:+ "/" +:+ suspendName) in
  let ksRef := as_KustomizationRef (app_Spec app) in
  let ksNS := or_default (ref_Namespace ksRef) DefaultFluxNamespace in
  let? reconciled := IsReconciled (ref_Name ksRef) ksNS
    orelse err => setFailed u "ReconciliationCheckFailed" (Error err) in
  if negb reconciled then
    let* timedOut := isPhaseTimedOut u TimeoutReconcile in
    if timedOut then
      setFailed u "ReconciliationTimeout" "Kustomization did not reconcile within timeout"
    else update_then u (requeue_after (10 * Second))
  else
    let u := resetPhaseStart u in
    let u := generation_cond u ConditionTypeReconciled ConditionTrue "ReconciliationSucceeded"
               "Flux reconciled the changes" in
    update_then u requeue_now.

Definition handleHealthChecking (u : UpgradeRequest) : M Reply :=
  let* u := setPhaseStartIfNeeded u in
  let? app := getManagedApp u orelse err => setFailed u "ManagedAppNotFound" (Error err) in
  let? healthResult := CheckHealth app
    orelse err => setFailed u "HealthCheckError" (Error err) in
  if negb (hr_Healthy healthResult) then
    let* timedOut := isPhaseTimedOut u (health_timeout app) in
    if timedOut then
      setFailed u "HealthCheckTimeout"
        ("App did not become healthy within timeout: " +:+ hr_Message healthResult)
    else Ret (requeue_after (10 * Second), None)
  else
    let* now := call Now in
    let st := ur_Status u in
    let st := ust_set_HealthCheck
                (Some (mkHealthCheckStatus "Passed" (Some now) (hr_Message healthResult))) st in
    let st := match ust_Upgrade st with
              | Some up =>
                  ust_set_Upgrade
                    (Some (mkUpgradeStatus (ups_PreviousVersion up) (ups_NewVersion up)
                             (ups_GitCommit up) (ups_StartedAt up) (Some now))) st
              | None => st
              end in
    let u := generation_cond (ur_set_Status st u) ConditionTypeHealthy ConditionTrue
               "HealthCheckPassed" (hr_Message healthResult) in
    update_then u requeue_now.

(** ** Completion *)

Definition updateManagedAppAfterUpgrade (app : ManagedApp) (u : UpgradeRequest)
    : M (option error) :=
  match ust_Upgrade (ur_Status u) with
  | None => Ret None
  | Some up =>
      let* now := call Now in
      let conds :=
        SetStatusCondition (ast_Conditions (app_Status app))
          (mkCond (app_Meta app) ConditionTypeUpdateAvailable ConditionFalse "UpgradeCompleted"
             "No pending updates") in
      let st :=
        mkManagedAppStatus (ups_NewVersion up) None
          (Some (mkUpgradeInfo (ups_PreviousVersion up) (ups_NewVersion up) (Some now)
                   "Succeeded")) conds in
      let? _a := call (StatusUpdateApp (app_set_Status st app))
        orelse err => Ret (Some err) in
      Ret None
  end.

Definition retention_count (vs : VolumeSnapshotConfig) : Z :=
  match vsc_RetentionPolicy vs with
  | Some p => default DefaultMaxSnapshotCount (rp_MaxCount p)
  | None => DefaultMaxSnapshotCount
  end.

(** The deletions are counted only for the log, and so is a failure. *)
Definition applySnapshotRetention (app : ManagedApp) : M unit :=
  let* vs := deref "app.Spec.VolumeSnapshots" (as_VolumeSnapshots (app_Spec app)) in
  let* _ := ApplyRetentionPolicy (om_Name (app_Meta app)) (om_Namespace (app_Meta app))
              (retention_count vs) in
  Ret tt.

Definition handleCompleted (u : UpgradeRequest) : M Reply :=
  let? app := getManagedApp u orelse err => setFailed u "ManagedAppNotFound" (Error err) in
  let versionStr :=
    match ust_Upgrade (ur_Status u) with
    | Some up => match ups_NewVersion up with Some v => vi_Chart v | None => "unknown" end
    | None => "unknown"
    end in
  let u := generation_cond u ConditionTypeSuspended ConditionFalse "KustomizationResumed"
             "Kustomization resumed after upgrade completion" in
  let u := generation_cond u ConditionTypeComplete ConditionTrue "UpgradeSucceeded"
             ("Upgraded to " +:+ versionStr) in
  let* _ := updateManagedAppAfterUpgrade app u in
  let* _ :=
    (match as_VolumeSnapshots (app_Spec app) with
     | Some vs => if vsc_Enabled vs then applySnapshotRetention app else Ret tt
     | None => Ret tt
     end) in
  finish u.

(** ** Reconcile *)

(** The dispatch after scaling down; the conditions are those of the request at hand. *)
Definition after_scale_down (u : UpgradeRequest) : M Reply :=
  if negb (cond_true u ConditionTypeSnapshotReady) then handleSnapshotting u
  else if negb (cond_true u ConditionTypeGitCommitted) then handleCommitting u
  else if negb (cond_true u ConditionTypeReconciled) then handleReconciling u
  else if negb (cond_true u ConditionTypeHealthy) then handleHealthChecking u
  else handleCompleted u.

(** The dispatch on the conditions of a live request. *)
Definition dispatch (u : UpgradeRequest) : M Reply :=
  if us_DryRun (ur_Spec u) then handleDryRun u
  else
    match condition u ConditionTypeSuspended with
    | None => handleSuspend u
    | Some _ =>
        if negb (cond_true u ConditionTypeWorkloadStopped) then
          let* answer := handleScaleDown u in
          let '(u, reply, shouldContinue) := answer in
          if negb shouldContinue then Ret reply else after_scale_down u
        else after_scale_down u
    end.

Definition Reconcile (key : NamespacedName) : M Reply :=
  let? u := call (GetUpgrade key) orelse err => Ret (done_result, IgnoreNotFound err) in
  with_finalizer dispatch u.
End upgrade.
