(* ===== verification/Names.v ===== *)
(** * The names FluxUp gives to the objects it creates

Snapshots ([internal/snapshot/manager.go], [CreateSnapshotsForUpgrade]) and automatic
rollbacks ([createAutoRollback]) are named after the application, the claim and the time of
day.  This file shows that on a clock within the four-digit years the time is always printed
as eight digits, a dash and six digits, that the names are valid when the application's and the
claim's are DNS-1123 subdomains and short enough, how long they are, and that two claims of
one upgrade never share a snapshot. *)

From S2P Require Import Prelude GoLib Api Platform Footprint Discovery Snapshot Controller Upgrade.

(** ** Strings of digits *)

Definition digits (s : string) : bool := string_forallb is_digit s.

Lemma forallb_string_app p a b :
  string_forallb p (a +:+ b) = string_forallb p a && string_forallb p b.
Proof.
  induction a as [|c a IH]; [done|]. rewrite cons_app_string. cbn. by rewrite IH, andb_assoc.
Qed.
Lemma length_string_app a b :
  String.length (a +:+ b) = (String.length a + String.length b)%nat.
Proof. induction a as [|c a IH]; [done|]. rewrite cons_app_string. cbn. by rewrite IH. Qed.
Lemma append_inj_l a b c : a +:+ b = a +:+ c → b = c.
Proof. induction a as [|x a IH]; [done|]. rewrite !cons_app_string. intros [= ?]. auto. Qed.
Lemma append_inj_r a b c : a +:+ c = b +:+ c → a = b.
Proof.
  intros H. assert (String.length a = String.length b) as Hl.
  { apply (f_equal String.length) in H. rewrite !length_string_app in H. lia. }
  revert b Hl H. induction a as [|x a IH]; intros [|y b] Hl H; [done..|].
  rewrite !cons_app_string in H. injection H as -> H. f_equal. by apply IH; [injection Hl|].
Qed.

Lemma is_digit_char n : is_digit (pretty_N_char n) = true.
Proof. unfold pretty_N_char. by repeat case_match. Qed.

(** The digits of a number below [10 ^ w]. *)
Lemma pretty_go_digits w n s :
  (n < 10 ^ N.of_nat w)%N → digits s = true →
  digits (pretty_N_go n s) = true
  ∧ (String.length (pretty_N_go n s) <= w + String.length s)%nat.
Proof.
  revert n s. induction w as [|w IH]; intros n s Hn Hs.
  { assert (n = 0%N) as -> by (cbn in Hn; lia). by rewrite pretty_N_go_0. }
  destruct (decide (n = 0%N)) as [->|Hne]; [rewrite pretty_N_go_0; split; [done|lia]|].
  rewrite pretty_N_go_step by lia.
  destruct (IH (n `div` 10)%N (String (pretty_N_char (n `mod` 10)) s)) as [Hd Hl].
  - rewrite Nat2N.inj_succ, N.pow_succ_r' in Hn. by apply N.Div0.div_lt_upper_bound.
  - unfold digits. cbn [string_forallb]. by rewrite is_digit_char.
  - split; [done|]. cbn [String.length] in Hl. lia.
Qed.

Lemma itoa_digits w n :
  0 <= n < 10 ^ Z.of_nat (S w) →
  digits (itoa n) = true ∧ (String.length (itoa n) <= S w)%nat.
Proof.
  intros [Hn Hlt]. unfold itoa, pretty, pretty_Z. destruct n as [|p|p]; [cbn; split; [done|lia]| |lia].
  unfold pretty, pretty_positive, pretty, pretty_N. rewrite decide_False by done.
  destruct (pretty_go_digits (S w) (N.pos p) "") as [Hd Hl]; [|done|].
  - apply N2Z.inj_lt. rewrite N2Z.inj_pow. rewrite nat_N_Z. exact Hlt.
  - split; [done|]. cbn [String.length] in Hl. lia.
Qed.

Lemma zeros_digits n : digits (zeros n) = true ∧ String.length (zeros n) = n.
Proof. induction n as [|n [IH1 IH2]]; [done|]. cbn. split; [done|]. by rewrite IH2. Qed.

(** A padded field has its width. *)
Lemma pad_digits w n :
  0 <= n < 10 ^ Z.of_nat (S w) → digits (pad (S w) n) = true ∧ String.length (pad (S w) n) = S w.
Proof.
  intros Hn. unfold pad. destruct (itoa_digits w n Hn) as [Hd Hl].
  destruct (zeros_digits (S w - String.length (itoa n))) as [Hz Hzl].
  unfold digits in *. rewrite forallb_string_app, length_string_app, Hz, Hzl, Hd.
  split; [done|lia].
Qed.

(** ** The calendar *)

(** Seconds of the years 0 to 9999. *)
Definition in_calendar (secs : Z) : Prop := -62167219200 <= secs < 253402300800.

(** Day and year of the 400-year era. *)
Lemma era_bounds doe :
  0 <= doe <= 146096 →
  let yoe := (doe - doe / 1460 + doe / 36524 - doe / 146096) / 365 in
  0 <= yoe <= 399 ∧ 0 <= doe - (365 * yoe + yoe / 4 - yoe / 100) <= 365.
Proof. intros H yoe. subst yoe. split; Z.to_euclidean_division_equations; lia. Qed.

Lemma civil_bounds days :
  -719528 <= days < 2932897 →
  let '(y, m, d) := civil_from_days days in
  0 <= y <= 9999 ∧ 1 <= m <= 12 ∧ 1 <= d <= 31.
Proof.
  intros Hd. unfold civil_from_days.
  set (era := (days + 719468) / 146097).
  set (doe := days + 719468 - era * 146097).
  assert (0 <= doe <= 146096 ∧ days + 719468 = era * 146097 + doe) as [Hdoe Hz].
  { subst doe era. Z.to_euclidean_division_equations; lia. }
  clearbody doe. clearbody era.
  destruct (era_bounds doe Hdoe) as [Hyoe Hdoy]. cbn zeta in *.
  set (yoe := (doe - doe / 1460 + doe / 36524 - doe / 146096) / 365) in *.
  set (doy := doe - (365 * yoe + yoe / 4 - yoe / 100)) in *.
  assert (doe = 365 * yoe + yoe / 4 - yoe / 100 + doy) as Hdoe' by (subst doy; lia).
  clearbody doy. clearbody yoe.
  set (mp := (5 * doy + 2) / 153).
  assert (0 <= mp <= 11 ∧ 0 <= doy - (153 * mp + 2) / 5 <= 30 ∧ (mp < 10 <-> doy < 306)) as (Hmp & Hday & Hm).
  { subst mp. repeat split; Z.to_euclidean_division_equations; lia. }
  clearbody mp.
  assert (yoe / 4 - yoe / 100 <= 96 ∧ (yoe <= 398 → yoe / 4 - yoe / 100 <= 96)
          ∧ (yoe = 399 → yoe / 4 - yoe / 100 = 96)) as (Hq1 & Hq2 & Hq3).
  { split; [|split]; intros; subst; try done; Z.to_euclidean_division_equations; lia. }
  assert (-1 <= era <= 24) as Hera by lia.
  destruct (decide (yoe = 399)); destruct (Z.ltb_spec mp 10); case_match; repeat split; lia.
Qed.

(** Eight digits, a dash and six digits. *)
Lemma compact_shape offset t :
  in_calendar (t / Second + offset) →
  ∃ date time, format_compact offset t = date +:+ "-" +:+ time
    ∧ digits date = true ∧ digits time = true
    ∧ String.length date = 8%nat ∧ String.length time = 6%nat.
Proof.
  unfold in_calendar, format_compact. set (secs := t / Second + offset). intros Hs.
  assert (-719528 <= secs / 86400 < 2932897) as Hd by (Z.to_euclidean_division_equations; lia).
  pose proof (civil_bounds _ Hd) as Hc.
  destruct (civil_from_days (secs / 86400)) as [[y m] d]. destruct Hc as (Hy & Hm & Hdd).
  assert (0 <= secs mod 86400 < 86400) as Hsod by (apply Z.mod_pos_bound; lia).
  set (sod := secs mod 86400) in *. clearbody sod.
  destruct (pad_digits 3 y) as [Hy1 Hy2]; [cbn; lia|].
  destruct (pad_digits 1 m) as [Hm1 Hm2]; [cbn; lia|].
  destruct (pad_digits 1 d) as [Hd1 Hd2]; [cbn; lia|].
  destruct (pad_digits 1 (sod / 3600)) as [Hh1 Hh2]; [cbn; Z.to_euclidean_division_equations; lia|].
  destruct (pad_digits 1 (sod / 60 mod 60)) as [Hi1 Hi2]; [cbn; Z.to_euclidean_division_equations; lia|].
  destruct (pad_digits 1 (sod mod 60)) as [Hj1 Hj2]; [cbn; Z.to_euclidean_division_equations; lia|].
  exists (pad 4 y +:+ pad 2 m +:+ pad 2 d),
    (pad 2 (sod / 3600) +:+ pad 2 (sod / 60 mod 60) +:+ pad 2 (sod mod 60)).
  unfold digits in *. rewrite !string_app_assoc, !forallb_string_app, !length_string_app.
  by rewrite Hy1, Hy2, Hm1, Hm2, Hd1, Hd2, Hh1, Hh2, Hi1, Hi2, Hj1, Hj2.
Qed.

Lemma compact_length offset t :
  in_calendar (t / Second + offset) → String.length (format_compact offset t) = 15%nat.
Proof.
  intros H. destruct (compact_shape offset t H) as (a & b & -> & _ & _ & Ha & Hb).
  by rewrite !length_string_app, Ha, Hb.
Qed.

(** ** DNS-1123 subdomains

[[a-z0-9]([-a-z0-9]*[a-z0-9])?(\.[a-z0-9]([-a-z0-9]*[a-z0-9])?)*], as an automaton that
remembers whether a label begins, is inside, or has just seen a dash. *)
Inductive place := Begins | Inside | Dashed.
Definition name_step (p : place) (c : ascii) : option place :=
  if is_digit c || is_lower c then Some Inside
  else match p with
       | Begins => None
       | Inside => if Ascii.eqb c "-" then Some Dashed
                   else if Ascii.eqb c "." then Some Begins else None
       | Dashed => if Ascii.eqb c "-" then Some Dashed else None
       end.
Fixpoint name_run (p : place) (s : string) : option place :=
  match s with
  | "" => Some p
  | String c s => match name_step p c with Some p => name_run p s | None => None end
  end.
Definition dns1123 (s : string) : bool :=
  match name_run Begins s with Some Inside => true | _ => false end.
Definition max_name : nat := 253.
Definition valid_name (s : string) : bool := dns1123 s && (String.length s <=? max_name)%nat.
Lemma valid_name_spec s :
  valid_name s = true ↔ dns1123 s = true ∧ (String.length s <= max_name)%nat.
Proof. unfold valid_name. by rewrite andb_true_iff, Nat.leb_le. Qed.

Lemma name_run_app p a b : name_run p (a +:+ b) = name_run p a ≫= λ q, name_run q b.
Proof.
  induction a as [|c a IH] in p |- *; [done|]. rewrite cons_app_string. cbn.
  by destruct (name_step p c).
Qed.
Lemma dns1123_run s : dns1123 s = true ↔ name_run Begins s = Some Inside.
Proof. unfold dns1123. split; [by repeat case_match|by intros ->]. Qed.

(** What may begin a label may follow a dash. *)
Lemma name_run_dashed s q :
  s ≠ "" → name_run Begins s = Some q → name_run Dashed s = Some q.
Proof.
  destruct s as [|c s]; [done|]. intros _. cbn. unfold name_step.
  by destruct (is_digit c || is_lower c).
Qed.
Lemma dns1123_dash a b :
  dns1123 a = true → dns1123 b = true → dns1123 (a +:+ "-" +:+ b) = true.
Proof.
  rewrite !dns1123_run. intros Ha Hb. rewrite name_run_app, Ha. cbn.
  apply name_run_dashed; [by intros ->|done].
Qed.
Lemma dns1123_digits s : s ≠ "" → digits s = true → dns1123 s = true.
Proof.
  intros Hne Hs. rewrite dns1123_run.
  assert (∀ p, name_run p s = Some Inside) as H; [|done]. intros p.
  destruct s as [|c s]; [done|]. clear Hne. revert p c Hs.
  induction s as [|d s IH]; intros p c; unfold digits; cbn; unfold name_step;
    intros [Hc Hs]%andb_true_iff; rewrite Hc; [done|]. cbn. apply (IH Inside d Hs).
Qed.

Lemma compact_dns1123 offset t :
  in_calendar (t / Second + offset) → dns1123 (format_compact offset t) = true.
Proof.
  intros H. destruct (compact_shape offset t H) as (a & b & -> & Ha & Hb & Hla & Hlb).
  apply dns1123_dash; (apply dns1123_digits; [by intros ->|done]).
Qed.

Lemma snapshotName_dns1123 app pvc ts :
  dns1123 app = true → dns1123 pvc = true → dns1123 ts = true →
  dns1123 (snapshotName app pvc ts) = true.
Proof.
  intros Ha Hp Ht. unfold snapshotName.
  change ("-pre-upgrade-" +:+ ts) with ("-" +:+ ("pre-upgrade" +:+ "-" +:+ ts)).
  repeat apply dns1123_dash; done.
Qed.

Lemma snapshotName_length app pvc ts :
  String.length (snapshotName app pvc ts)
  = (String.length app + String.length pvc + String.length ts + 14)%nat.
Proof. unfold snapshotName. rewrite !length_string_app. cbn [String.length]. lia. Qed.

(** ** The objects created *)

Section created.
Context {P : Platform}.
Implicit Types (h : list event).

(** The clock shows a four-digit year. *)
Definition calendar : protocol ev := λ _ R e,
  match e in ev R return R → Prop with
  | Now => λ t, in_calendar (t / Second + LocalOffset t)
  | _ => λ _, True
  end.

(** What a snapshot of an upgrade at time [ts] is called, and where it is. *)
Definition snapshot_named (appName appNS ts : string) (pvcs : list PVCRef) (s : VolumeSnapshot)
    : Prop :=
  ∃ pvc, In pvc pvcs ∧ vs_PVCName s = Some (pr_Name pvc)
    ∧ om_Namespace (vs_Meta s) = or_default (pr_Namespace pvc) appNS
    ∧ om_Name (vs_Meta s) = snapshotName appName (pr_Name pvc) ts.

(** The snapshot a call asks for. *)
Definition asked (o : event) : option VolumeSnapshot :=
  match o with Obs e _ => match e with CreateSnapshotObj s => Some s | _ => None end end.

(** All snapshots of one call share one time of the clock. *)
Definition one_time (appName appNS : string) (pvcs : list PVCRef) : guarantee ev := λ h R e,
  match e with
  | CreateSnapshotObj s => ∃ ts, String.length ts = 15%nat ∧ dns1123 ts = true
      ∧ snapshot_named appName appNS ts pvcs s
      ∧ ∀ o s', In o h → asked o = Some s' → snapshot_named appName appNS ts pvcs s'
  | _ => mutates _ e = false
  end.

Lemma CreateSnapshotsForUpgrade_one_time appName appNS pvcs class :
  wp calendar (one_time appName appNS pvcs) (CreateSnapshotsForUpgrade appName appNS pvcs class) []
    (λ _ _, True).
Proof.
  unfold CreateSnapshotsForUpgrade. cbn [bind call wp]. split; [done|]. intros now Hnow.
  set (ts := format_compact _ _).
  set (Inv := λ h, ∀ o s, In o h → asked o = Some s → snapshot_named appName appNS ts pvcs s).
  eapply wp_mono;
    [apply (wp_invariant calendar (create_guard appName appNS class ts pvcs) Inv _ _ (λ _ _, True))
    | |done].
  - apply (wp_protocol any); [|done]. eapply wp_mono; [|done|done].
    by apply (create_snapshots_wp _ _ _ _ pvcs pvcs [] []); [|constructor].
  - by intros o s [<-|[]].
  - intros h R e r Hi He _ o s [<-|Hin]; [|by eapply Hi]. destruct e; try done. intros [= ->].
    destruct He as (pvc & obj & h' & Hin & -> & _). by exists pvc.
  - intros h R e [He Hi]. destruct e; try exact He. destruct He as (pvc & obj & h' & Hin & -> & _).
    exists ts. split; [by apply compact_length|]. split; [by apply compact_dns1123|].
    split; [by exists pvc|exact Hi].
Qed.

(** Every name given is one Kubernetes takes. *)
Definition valid_names : guarantee ev := λ _ R e,
  match e with
  | CreateSnapshotObj s => valid_name (om_Name (vs_Meta s)) = true
  | CreateRollback r => valid_name (om_Name (rb_Meta r)) = true
  | _ => True
  end.

(** C32: on a clock that shows a four-digit year, every snapshot asked for has a valid name, a
    DNS-1123 subdomain of at most 253 bytes, when the names of the application and the claim are
    DNS-1123 subdomains of at most 224 bytes together; and so has every automatic rollback when
    the name of the application is one of at most 223 bytes. *)
Theorem created_names_valid appName appNS pvcs class u app :
  dns1123 appName = true →
  Forall (λ pvc, dns1123 (pr_Name pvc) = true
                 ∧ (String.length appName + String.length (pr_Name pvc) <= 224)%nat) pvcs →
  dns1123 (om_Name (app_Meta app)) = true → (String.length (om_Name (app_Meta app)) <= 223)%nat →
  wp calendar valid_names (CreateSnapshotsForUpgrade appName appNS pvcs class) [] (λ _ _, True)
  ∧ wp calendar valid_names (createAutoRollback u app) [] (λ _ _, True).
Proof.
  intros Happ Hpvcs Hname Hlen. split.
  - eapply wp_mono; [apply CreateSnapshotsForUpgrade_one_time| |done].
    intros h R e. destruct e; try done. cbn. intros (ts & Hl & Hts & (pvc & Hin & _ & _ & ->) & _).
    rewrite List.Forall_forall in Hpvcs. destruct (Hpvcs pvc Hin) as [Hpvc Hsum].
    apply valid_name_spec. split; [by apply snapshotName_dns1123|].
    rewrite snapshotName_length, Hl. unfold max_name. lia.
  - unfold createAutoRollback. cbn [bind call wp]. split; [done|]. intros now Hnow.
    split; [|intros [r|e] _; done].
    cbn [valid_names om_Name rb_Meta]. apply valid_name_spec. split.
    2:{ rewrite !length_string_app, compact_length by done. cbn [String.length]. unfold max_name. lia. }
    change ("-auto-rollback-" +:+ ?ts) with ("-" +:+ ("auto-rollback" +:+ "-" +:+ ts)).
    repeat apply dns1123_dash; [done..|]. by apply compact_dns1123.
Qed.

(** The claim a snapshot is of, which is in its namespace. *)
Definition claim_of (s : VolumeSnapshot) : option NamespacedName :=
  (λ claim, mkKey claim (om_Namespace (vs_Meta s))) <$> vs_PVCName s.
(** How long the names are, and that no object is asked for twice for different claims. *)
Definition bounded_names (appName : string) : guarantee ev := λ h R e,
  match e with
  | CreateSnapshotObj s => ∃ claim, vs_PVCName s = Some claim
      ∧ String.length (om_Name (vs_Meta s)) = (String.length appName + String.length claim + 29)%nat
      ∧ ∀ o s', In o h → asked o = Some s' →
          keyOf (vs_Meta s') = keyOf (vs_Meta s) → claim_of s' = claim_of s
  | CreateRollback r => String.length (om_Name (rb_Meta r)) = (String.length appName + 30)%nat
  | _ => True
  end.

(** C33: on a clock that shows a four-digit year, the name of a snapshot is exactly 29 bytes
    longer than those of the application and the claim together, that of an automatic rollback
    30 bytes longer than the application's, and snapshots that one upgrade asks for under the
    same name and namespace are of the same claim, in that namespace. *)
Theorem created_names_bounded appName appNS pvcs class u app :
  om_Name (app_Meta app) = appName →
  wp calendar (bounded_names appName) (CreateSnapshotsForUpgrade appName appNS pvcs class) []
    (λ _ _, True)
  ∧ wp calendar (bounded_names appName) (createAutoRollback u app) [] (λ _ _, True).
Proof.
  intros Hname. split.
  - eapply wp_mono; [apply CreateSnapshotsForUpgrade_one_time| |done].
    intros h R e. destruct e; try done. cbn.
    intros (ts & Hts & _ & (pvc & Hin & Hpvc & _ & Hs) & Hall).
    exists (pr_Name pvc). split; [done|]. split; [rewrite Hs, snapshotName_length, Hts; lia|].
    intros o s' Hin' Hs'. destruct (Hall o s' Hin' Hs') as (pvc' & _ & Hpvc' & _ & Hn').
    unfold keyOf, claim_of. rewrite Hs, Hn', Hpvc, Hpvc'. unfold snapshotName.
    intros [= H%append_inj_l%append_inj_l%append_inj_r ->]. by rewrite H.
  - unfold createAutoRollback. cbn [bind call wp]. split; [done|]. intros now Hnow.
    split; [|intros [r|e] _; done]. cbn [bounded_names om_Name rb_Meta].
    rewrite !length_string_app, Hname, compact_length by done. cbn [String.length]. lia.
Qed.
End created.

(** Names of 113 bytes each, well within the limit, make a snapshot name that is not. *)
Fixpoint repeat_char (n : nat) (c : ascii) : string :=
  match n with O => "" | S n => String c (repeat_char n c) end.
Lemma snapshot_name_too_long :
  let name := repeat_char 113 "a" in
  dns1123 name = true ∧ (String.length name <= max_name)%nat
  ∧ (max_name < String.length (snapshotName name name (format_compact 0 0)))%nat.
Proof. cbn zeta. repeat split; vm_compute; lia. Qed.

Lemma created_names_valid_witness :
  dns1123 "web.shop" = true
  ∧ wp (calendar (P:=reference)) valid_names
      (CreateSnapshotsForUpgrade (P:=reference) "web.shop" "apps" [mkPVCRef "data-0" ""] "") [] (λ _ _, True)
  ∧ valid_name (snapshotName "web.shop" "data-0" (format_compact 0 0)) = true.
Proof.
  split; [reflexivity|]. split; [|reflexivity].
  refine (proj1 (created_names_valid (P:=reference) "web.shop" "apps" [mkPVCRef "data-0" ""] ""
    (mkUpgradeRequest (plainMeta "u" "apps")
       (mkUpgradeRequestSpec (mkObjectReference "shop" "") None false false)
       (mkUpgradeRequestStatus None None None None None []))
    (mkManagedApp (plainMeta "shop" "apps")
       (mkManagedAppSpec "" (mkObjectReference "shop" "") None None None None None true)
       (mkManagedAppStatus None None None [])) _ _ _ _)); [reflexivity| |reflexivity|cbn; lia].
  constructor; [split; [reflexivity|cbn; lia]|constructor].
Defined.

Lemma created_names_bounded_witness :
  wp (calendar (P:=reference)) (bounded_names "shop")
    (CreateSnapshotsForUpgrade (P:=reference) "shop" "apps" [mkPVCRef "data" ""; mkPVCRef "logs" ""] "") []
    (λ _ _, True)
  ∧ String.length (snapshotName "shop" "data" (format_compact 0 0)) = 37%nat.
Proof.
  split; [|reflexivity].
  exact (proj1 (created_names_bounded (P:=reference) "shop" "apps" [mkPVCRef "data" ""; mkPVCRef "logs" ""] ""
    (mkUpgradeRequest (plainMeta "u" "apps")
       (mkUpgradeRequestSpec (mkObjectReference "shop" "") None false false)
       (mkUpgradeRequestStatus None None None None None []))
    (mkManagedApp (plainMeta "shop" "apps")
       (mkManagedAppSpec "" (mkObjectReference "shop" "") None None None None None true)
       (mkManagedAppStatus None None None [])) eq_refl)).
Defined.
