(* ===== verification/UpgradeGuard.v ===== *)
(** * The contract of the upgrade reconciler

Which calls each state of an UpgradeRequest permits, what its commit and its automatic
rollback must carry, what calls its handlers make at all, and the rules for the handlers' own
helpers. *)

From S2P Require Import Prelude GoLib Api Platform Footprint Discovery Workload Flux Snapshot Health.
From S2P Require Import Yaml Git Controller Phases Operation Guard Quiesce Runs Upgrade.

(** ** Which calls a state allows *)

Definition upgrade_permitted (a : astate) (k : kind) : bool :=
  let live := negb (terminal a) in
  let begun := match a_suspended a with Some _ => true | None => false end in
  match k with
  | KStatusUpgrade | KUpdateKs => live
  | KUpdateUpgrade => true
  | KPatchWorkload =>
      live && (if a_dry a
               then default false (a_suspended a) && negb (a_stopped a && a_prepared a)
               else begun && negb (a_stopped a))
  | KCreateSnapshot =>
      live && negb (a_dry a) && begun && a_stopped a && negb (a_prepared a)
  | KGitCommit =>
      live && negb (a_dry a) && begun && a_stopped a && a_prepared a && negb (a_committed a)
  | KStatusApp | KDeleteSnapshot =>
      live && negb (a_dry a) && begun && a_stopped a && a_prepared a && a_committed a
      && a_reconciled a && a_healthy a
  | KCreateRollback => live && a_committed a
  | KCreatePVC | KDeletePVC | KUpdateRollback | KStatusRollback => false
  | _ => true
  end.

(** ** What a permitted call says of an ordered state *)

Section permitted_states.
Context (a : astate) (Ho : ordered a).

Ltac by_state :=
  destruct Ho as [H1 H2 H3 H4 H5 H6]; destruct a as [[] s [] [] [] [] [] [c|]];
  unfold upgrade_permitted, terminal; cbn in *; try done; destruct s as [[]|]; cbn in *; try done;
  intuition congruence.

Lemma permitted_scale :
  upgrade_permitted a KPatchWorkload = true →
  terminal a = false ∧ a_suspended a ≠ None ∧ a_committed a = false.
Proof. by_state. Qed.
Lemma permitted_snapshot :
  upgrade_permitted a KCreateSnapshot = true → a_stopped a = true ∧ a_committed a = false.
Proof. by_state. Qed.
Lemma permitted_retire k :
  k = KDeleteSnapshot ∨ k = KStatusApp →
  upgrade_permitted a k = true → a_healthy a = true ∧ a_committed a = true.
Proof. intros [->| ->]; by_state. Qed.
Lemma uncommitted_at_suspend :
  a_suspended a = None ∨ a_dry a = true → a_committed a = false.
Proof. by_state. Qed.
End permitted_states.

(** ** The contract *)

Section machine.
Context {P : Platform} {Y : Kyaml}.
Implicit Types (h : list event) (u : UpgradeRequest).

Definition upgrade_asked h u (app : ManagedApp) : Prop := In (Obs (GetApp (app_key u)) (Ok app)) h.

Definition commit_write (h : list event) (u : UpgradeRequest) (change : FileChange)
    (message : string) : Prop :=
  ∃ app ks content version new h',
    h = Obs (GitReadFile (as_GitPath (app_Spec app))) (Ok content)
        :: Obs (GetKustomization (suspend_key app)) (Ok ks)
        :: Obs (GetApp (app_key u)) (Ok app) :: h'
    ∧ ks_Suspend ks = true
    ∧ target_version u app = Some version
    ∧ commit_version app version = inl new
    ∧ UpdateVersion content (version_path app) new = Ok (fc_Content change)
    ∧ fc_Path change = as_GitPath (app_Spec app)
    ∧ message = FormatCommitMessage (om_Name (app_Meta app)) (current_string app version) new
                  (map psi_SnapshotName (recorded_snapshots u)).

Definition rollback_write (h : list event) (u : UpgradeRequest) (rb : RollbackRequest) : Prop :=
  ∃ app now h',
    h = Obs Now now :: Obs (GetApp (app_key u)) (Ok app) :: h'
    ∧ as_AutoRollback (app_Spec app) = true
    ∧ rb_Spec rb = mkRollbackRequestSpec (mkObjectReference (om_Name (ur_Meta u)) "") true false
    ∧ om_Namespace (rb_Meta rb) = om_Namespace (ur_Meta u)
    ∧ om_OwnerReferences (rb_Meta rb) =
        [mkOwnerReference FluxupGroupVersion "UpgradeRequest" (om_Name (ur_Meta u))
           (om_UID (ur_Meta u))].


Definition upgrade_extra h u R (e : ev R) : Prop :=
  match e with
  | GitCommitFile change message => commit_write h u change message
  | CreateRollback rb => rollback_write h u rb
  | StatusUpdateApp x => ast_AvailableUpdate (app_Status x) = None
  | _ => True
  end.

#[export] Instance upgrade_machine : Machine UpgradeRequest := {|
  permitted := upgrade_permitted;
  asked := upgrade_asked;
  extra := upgrade_extra
|}.
#[export] Instance upgrade_machine_laws : MachineLaws UpgradeRequest.
Proof.
  split; cbn; unfold upgrade_permitted.
  - intros d h u app. unfold upgrade_asked. rewrite in_app_iff. auto.
  - by intros a u ->.
  - done.
  - by intros a ->.
  - intros a -> -> Hs ->. cbn. by destruct (a_suspended a).
  - intros a -> -> ->. by cbn; intros ->.
  - by intros h u R [] He.
  - intros a k u Hp Hk Hu. destruct (terminal a); [|done]. by destruct k.
Qed.
End machine.

(** ** Footprints *)

Section footprints.
Context {P : Platform} {D : Decoders} {Y : Kyaml}.

Lemma runGitDiffPreview_within ks r app v :
  subk [KGitRead] ks = true → emits (within ks) (runGitDiffPreview r app v).
Proof. intros. unfold runGitDiffPreview. emits_tac. Qed.
Lemma runUpgradePreflight_within ks app b :
  subk (KGetSnapshot :: discovery_kinds) ks = true →
  emits (within ks) (runUpgradePreflight app b).
Proof. intros. unfold runUpgradePreflight. emits_tac. Qed.
Lemma all_snapshots_ready_within ks snaps ns :
  subk [KGetSnapshot] ks = true → emits (within ks) (all_snapshots_ready snaps ns).
Proof.
  intros. induction snaps as [|s snaps IH]; cbn [all_snapshots_ready]; emits_tac; apply IH.
Qed.
Lemma updateManagedAppAfterUpgrade_within ks app u :
  subk [KClock; KStatusApp] ks = true → emits (within ks) (updateManagedAppAfterUpgrade app u).
Proof. intros. unfold updateManagedAppAfterUpgrade. emits_tac. Qed.
Lemma applySnapshotRetention_within ks app :
  subk [KListSnapshots; KRange; KDeleteSnapshot] ks = true →
  emits (within ks) (applySnapshotRetention app).
Proof. intros. unfold applySnapshotRetention. emits_tac. Qed.
Lemma preview_within ks r app v :
  subk [KGitRead] ks = true →
  emits (within ks)
    (if r_GitManager r then runGitDiffPreview r app v else Ret (Ok ("", "", ""))).
Proof. intros. destruct (r_GitManager r); [by apply runGitDiffPreview_within|done]. Qed.

Definition failure_kinds : list kind :=
  [KClock; KGetApp; KGetKs; KUpdateKs; KCreateRollback; KStatusUpgrade; KUpdateUpgrade].
Lemma upgrade_finish_within ks (u : UpgradeRequest) :
  subk [KStatusUpgrade; KUpdateUpgrade] ks = true → emits (within ks) (finish u).
Proof. intros. apply finish_within; kind_tac. Qed.
Lemma upgrade_update_within ks (u : UpgradeRequest) c :
  subk [KStatusUpgrade] ks = true → emits (within ks) (update_then u c).
Proof. intros. apply update_then_within; kind_tac. Qed.
End footprints.
#[export] Hint Resolve upgrade_finish_within upgrade_update_within : emits.

Section footprints2.
Context {P : Platform} {D : Decoders} {Y : Kyaml}.

Lemma setFailed_within ks u reason m :
  subk failure_kinds ks = true → emits (within ks) (setFailed u reason m).
Proof.
  intros. unfold setFailed, post_commit_message, createAutoRollback, resume_if_suspended. emits_tac.
Qed.
#[local] Hint Resolve setFailed_within : emits.
Lemma upgrade_stop_within ks (u : UpgradeRequest) ws ns :
  subk (KGetWorkload :: KPatchWorkload :: KListPods :: failure_kinds) ks = true →
  emits (within ks) (stop_workloads setFailed u ws ns).
Proof.
  intros. apply stop_workloads_within;
    first [kind_tac|intros; emits_tac].
Qed.
Lemma upgrade_skipped_within ks (u : UpgradeRequest) reason m :
  subk [KStatusUpgrade] ks = true → emits (within ks) (stop_skipped u reason m).
Proof. intros. apply stop_skipped_within; kind_tac. Qed.
Lemma upgrade_dry_run_within ks (u : UpgradeRequest) app pf v1 v2 v3 :
  subk (KGetWorkload :: KPatchWorkload :: KListPods :: failure_kinds) ks = true →
  emits (within ks) (runDryRunQuiescence u app pf v1 v2 v3).
Proof.
  intros. apply dry_run_quiescence_within;
    first [kind_tac|intros; emits_tac].
Qed.
End footprints2.
#[export] Hint Resolve setFailed_within upgrade_stop_within upgrade_skipped_within
  upgrade_dry_run_within runGitDiffPreview_within runUpgradePreflight_within
  all_snapshots_ready_within updateManagedAppAfterUpgrade_within applySnapshotRetention_within
  preview_within : emits.

(** Everything but the calls on the request itself, and everything but its reading. *)
Definition upgrade_around : list kind :=
  [KClock; KSleep; KRange; KGetRollback; KCreateRollback; KGetApp; KStatusApp; KListApps; KGetKs;
   KUpdateKs; KGetWorkload; KPatchWorkload; KListPods; KGetPVC; KCreatePVC; KDeletePVC;
   KGetSnapshot; KCreateSnapshot; KDeleteSnapshot; KListSnapshots; KListSecrets; KGetConfigMap;
   KGitRead; KGitCommit].
Definition upgrade_underway : list kind := KStatusUpgrade :: KUpdateUpgrade :: upgrade_around.

Section calls.
Context {P : Platform} {D : Decoders} {Y : Kyaml}.
Variable r : Reconciler.

#[local] Hint Resolve stop_here_within : emits.
Lemma handleDryRun_within u : emits (within upgrade_underway) (handleDryRun r u).
Proof. unfold handleDryRun. emits_tac. Qed.
Lemma dispatch_within u : emits (within upgrade_underway) (dispatch r u).
Proof.
  unfold dispatch, after_scale_down, handleDryRun, handleSuspend, handleScaleDown,
    handleSnapshotting, await_snapshots, handleCommitting, handleReconciling,
    handleHealthChecking, handleCompleted.
  emits_tac.
Qed.
(** No other upgrade is read. *)
Lemma Reconcile_asks key : emits (asks_for UpgradeRequest key) (Reconcile r key).
Proof.
  unfold Reconcile. apply emits_bind; [by cbn|]. intros [u|e]; [|done].
  eapply emits_mono; [apply (with_finalizer_within upgrade_underway); [done|]|].
  - intros v. apply dispatch_within.
  - intros R e He. by destruct e.
Qed.
End calls.

(** ** Rules for the helpers *)

Section helpers.
Context {P : Platform} {PL : PlatformLaws P} {Y : Kyaml}.
Implicit Types (h : list event) (u : UpgradeRequest).

Lemma at_app_key h u0 u : at_ h u0 u → app_key u = app_key u0.
Proof. intros [_ Hs Hm]. unfold app_key. cbn in Hs, Hm. by rewrite Hs, Hm. Qed.

Lemma wp_app {B} Φ h u0 u (f : res ManagedApp → M B) Q :
  at_ h u0 u →
  (∀ app, latest (Obs (GetApp (app_key u0)) (Ok app) :: h) = Some u0 →
          wp Φ (guard UpgradeRequest) (f (Ok app)) (Obs (GetApp (app_key u0)) (Ok app) :: h) Q) →
  (∀ e d, latest (d ++ h) = Some u0 → wp Φ (guard UpgradeRequest) (f (Err e)) (d ++ h) Q) →
  wp Φ (guard UpgradeRequest) (bind (getManagedApp u) f) h Q.
Proof.
  intros Hat Hok Herr. unfold getManagedApp. rewrite (at_app_key _ _ _ Hat).
  destruct Hat as [Hl _ _]. apply wp_look; [done|].
  intros [app|e] _; [by apply Hok|]. by apply (Herr e [_]).
Qed.

(** The tests of the handlers, under the names they use. *)
Lemma upgrade_tests u :
  cond_true u ConditionTypeSuspended = default false (a_suspended (abs u))
  ∧ cond_true u ConditionTypeWorkloadStopped = a_stopped (abs u)
  ∧ cond_true u ConditionTypeSnapshotReady = a_prepared (abs u)
  ∧ cond_true u ConditionTypeGitCommitted = a_committed (abs u)
  ∧ cond_true u ConditionTypeReconciled = a_reconciled (abs u)
  ∧ cond_true u ConditionTypeHealthy = a_healthy (abs u).
Proof. exact (cond_true_abs u). Qed.

Lemma wp_write {B} h u0 u (f : res UpgradeRequest → M B) Q :
  at_ h u0 u → astep (abs u0) (abs u) →
  (∀ v h', latest h' = Some v → abs v = abs u → wp (api_server UpgradeRequest) (guard UpgradeRequest) (f (Ok v)) h' Q) →
  (∀ e h', wp (api_server UpgradeRequest) (guard UpgradeRequest) (f (Err e)) h' Q) →
  wp (api_server UpgradeRequest) (guard UpgradeRequest) (bind (call (StatusUpdateUpgrade u)) f) h Q.
Proof.
  intros Hat Hstep Hok Herr. change (StatusUpdateUpgrade u) with (op_StatusUpdate u).
  eapply wp_status; eauto using kept_abs.
Qed.

(** After the commit: the rollback may be created. *)
Lemma wp_post_commit {B} Φ h u0 u message (f : string → M B) Q :
  at_ h u0 u → terminal (abs u0) = false → a_committed (abs u0) = true →
  (∀ m d, latest (d ++ h) = Some u0 → wp Φ (guard UpgradeRequest) (f m) (d ++ h) Q) →
  wp Φ (guard UpgradeRequest) (bind (post_commit_message u message) f) h Q.
Proof.
  intros Hat Ht Hc Hf. pose proof (at_latest _ _ _ Hat) as Hl.
  unfold post_commit_message. rewrite wp_bind.
  apply (wp_app Φ h u0 u); [done| |].
  2:{ intros e d Hd. cbn. by apply Hf. }
  intros app Happ.
  destruct (as_AutoRollback (app_Spec app)) eqn:Hauto; cbn [wp]; [|by apply (Hf _ [_])].
  cbn [bind call wp]. split; [by apply guard_pure|]. intros now _. split.
  - intros _. exists u0. split; [done|]. split; [cbn; unfold upgrade_permitted; by rewrite Ht, Hc|].
    destruct Hat as [_ Hs Hm]. cbn in Hs, Hm. exists app, now, h. rewrite <- Hm. done.
  - intros [rb|e] _; cbn; by apply (Hf _ [_; _; _]).
Qed.

(** Before it: what was suspended is resumed, and the condition says so if that worked. *)
Lemma wp_resume_if {B} Φ h u0 u (f : UpgradeRequest → M B) Q :
  at_ h u0 u → a_complete (abs u0) = None →
  (∀ d v, at_ (d ++ h) u0 v →
     v = u ∨ (∃ r m, v = generation_cond u ConditionTypeSuspended ConditionFalse r m
                     ∧ a_suspended (abs u) = Some true) →
     wp Φ (guard UpgradeRequest) (f v) (d ++ h) Q) →
  wp Φ (guard UpgradeRequest) (bind (resume_if_suspended u) f) h Q.
Proof.
  intros Hat Hc Hf. unfold resume_if_suspended.
  rewrite (proj1 (cond_true_abs u)).
  destruct (a_suspended (abs u)) as [[]|] eqn:Hs; cbn [default];
    [|cbn; by apply (Hf []); auto..].
  rewrite wp_bind. apply (wp_app Φ h u0 u); [done| |].
  2:{ intros e d Hd. cbn. apply Hf; [at_tac|auto]. }
  intros app Happ. destruct (getSuspendTarget app) as [n ns] eqn:Htgt.
  replace n with ((getSuspendTarget app).1) by (by rewrite Htgt).
  replace ns with ((getSuspendTarget app).2) by (by rewrite Htgt).
  set (h' := Obs (GetApp (app_key u0)) (Ok app) :: h) in *.
  eapply wp_resume; [exact Happ|done|by left|].
  intros e d Hd. change (d ++ h') with (d ++ [Obs (GetApp (app_key u0)) (Ok app)] ++ h) in *.
  rewrite app_assoc in *. destruct e as [e|]; cbn [wp]; apply Hf; first [at_tac|auto].
  right. eauto.
Qed.

Lemma wp_setFailed : fails_guarded setFailed.
Proof.
  intros h u0 u reason message d s st sn c r hh s' Hat H0 Hu Hs. unfold setFailed.
  destruct (upgrade_tests u) as (_ & _ & _ & -> & _). rewrite Hu; cbn [a_committed].
  destruct c.
  - eapply wp_post_commit; [done|by rewrite H0..|].
    intros m dd Hd. eapply wp_finish_set; [at_tac| |]; abs_simp; [by constructor|done].
  - eapply wp_resume_if with (u0 := u0); [|by rewrite H0|].
    { eapply at_step; [exact Hat|apply Hat|done|done|decided_tac]. }
    intros dd v Hv Hcase. eapply wp_finish; [exact Hv| |].
    + destruct Hcase as [->|(r1 & m1 & -> & Hsu)]; [|rewrite abs_set in Hsu];
        abs_simp; constructor; [done|]. simplify_eq. destruct Hs as [<-|[? ?]]; [by right|congruence].
    + destruct Hcase as [->|(r1 & m1 & -> & Hsu)]; by abs_simp.
Qed.
End helpers.
