(* ===== verification/UpgradeProofs.v ===== *)
(** * The upgrade reconciler keeps its contract

One lemma per handler, then [Reconcile_guarded]: every reconcile keeps [(guard UpgradeRequest)] and
ends as [ends] says. *)

From S2P Require Import Prelude GoLib Api Platform Footprint Discovery Workload Flux Snapshot Health.
From S2P Require Import Yaml Git Controller Phases Operation Guard Quiesce Upgrade UpgradeGuard.

Ltac asked_tac :=
  cbn [asked upgrade_machine] in *; unfold upgrade_asked in *; repeat first [assumption | apply in_eq | apply in_or_app; right | apply in_cons].

(** One step of a handler. *)
Ltac walk_step :=
  cbn beta iota;
  lazymatch goal with
  | |- wp _ _ (Ret _) _ (ends _) => cbn; first [exact I | left; requeue_tac]
  | |- wp _ _ (bind (setPhaseStartIfNeeded _) _) _ _ =>
      eapply wp_setPhase; [at_tac|];
      let u' := fresh "u" in let d := fresh "d" in
      let Ha := fresh "Hat" in let Hs := fresh "Habs" in
      intros u' d Ha Hs; apply same_conditions_abs in Hs;
      pose proof (at_latest _ _ _ Ha);
      match goal with H : abs ?u = AState _ _ _ _ _ _ _ _ |- _ => rewrite H in Hs at 1 end
  | |- wp _ _ (bind (getManagedApp _) _) _ _ =>
      eapply wp_app; [at_tac | intros ?app ?Happ | intros ?e ?d ?Hl]
  | |- wp _ _ (let '(_, _) := getSuspendTarget ?a in _) _ _ =>
      rewrite (surjective_pairing (getSuspendTarget a))
  | |- wp _ _ (bind (ResumeKustomization _ _) _) _ _ =>
      eapply wp_resume; [eassumption | by abs_simp | asked_tac | intros ?e ?d ?Hl]
  | |- wp _ _ (setFailed _ _ _) _ _ =>
      eapply wp_setFailed; [at_tac | eassumption | by abs_simp | first [by left | by right]]
  | |- wp _ _ (update_then _ _) _ _ =>
      eapply wp_update_then; [at_tac | step_tac | requeue_tac]
  | |- wp _ _ (match ?x with _ => _ end) _ _ => destruct x eqn:?
  | |- wp _ _ (let '_ := ?x in _) _ _ => destruct x eqn:?
  | |- wp _ _ (bind _ _) _ _ =>
      eapply wp_read; [solve [emits_tac] | eassumption | done | intros ?a ?d ?Hl]
  end.

Section handlers.
Context {P : Platform} {PL : PlatformLaws P} {D : Decoders} {Y : Kyaml}.
Variable r : Reconciler.
Implicit Types (h : list event) (u : UpgradeRequest).
Notation guarded p h := (wp (api_server UpgradeRequest) (guard UpgradeRequest) p h (ends UpgradeRequest)).

Lemma handleHealthChecking_guarded h u b :
  latest h = Some u → abs u = AState false (Some b) true true true true false None →
  guarded (handleHealthChecking u) h.
Proof.
  intros Hl Ha. pose proof (at_start h u Hl). unfold handleHealthChecking.
  repeat walk_step.
  destruct (ust_Upgrade _); walk_step.
Qed.

Lemma handleReconciling_guarded h u b hh :
  latest h = Some u → abs u = AState false (Some b) true true true false hh None →
  guarded (handleReconciling u) h.
Proof.
  intros Hl Ha. pose proof (at_start h u Hl). unfold handleReconciling.
  repeat walk_step.
Qed.

(** The application is written once, with no update left to offer. *)
Lemma wp_updateManagedApp {B} h u0 u app (f : option error → M B) Q :
  latest h = Some u0 → upgrade_permitted (abs u0) KStatusApp = true →
  (∀ a d, latest (d ++ h) = Some u0 →
     wp (api_server UpgradeRequest) (guard UpgradeRequest) (f a) (d ++ h) Q) →
  wp (api_server UpgradeRequest) (guard UpgradeRequest)
    (bind (updateManagedAppAfterUpgrade app u) f) h Q.
Proof.
  intros Hl Hp Hf. unfold updateManagedAppAfterUpgrade.
  destruct (ust_Upgrade (ur_Status u)) as [up|]; [|by apply (Hf None [])].
  split; [by apply guard_pure|]. intros now _.
  split; [intros _; by exists u0|].
  intros [a|e] _; [apply (Hf None [_; _])|apply (Hf (Some e) [_; _])]; done.
Qed.

Lemma handleCompleted_guarded h u b :
  latest h = Some u → abs u = AState false (Some b) true true true true true None →
  guarded (handleCompleted u) h.
Proof.
  intros Hl Ha. pose proof (at_start h u Hl). unfold handleCompleted.
  repeat walk_step.
  eapply wp_updateManagedApp; [eassumption|by rewrite Ha|]. intros ? d Hd.
  eapply (wp_do KDeleteSnapshot); [emits_tac|eassumption|plain_tac|by rewrite Ha|done|].
  intros ? d' Hd'.
  eapply wp_finish_set; [at_tac|step_tac|by abs_simp].
Qed.

Lemma await_snapshots_guarded h u0 u app b c rr hh :
  at_ h u0 u → abs u0 = AState false (Some b) true false c rr hh None →
  abs u = AState false (Some b) true false c rr hh None →
  guarded (await_snapshots u app) h.
Proof.
  intros Hat Ha0 Ha. pose proof (at_latest _ _ _ Hat). unfold await_snapshots.
  repeat walk_step.
Qed.

Lemma handleSnapshotting_guarded h u b c rr hh :
  latest h = Some u → abs u = AState false (Some b) true false c rr hh None →
  guarded (handleSnapshotting u) h.
Proof.
  intros Hl Ha. pose proof (at_start h u Hl). unfold handleSnapshotting.
  repeat first
    [ lazymatch goal with
      | |- wp _ _ (await_snapshots _ _) _ _ => eapply await_snapshots_guarded; [at_tac|done..]
      | |- wp _ _ (bind (CreateSnapshotsForUpgrade _ _ _ _) _) _ _ =>
          eapply (wp_do KCreateSnapshot); [emits_tac|eassumption|plain_tac|by rewrite Ha|done|];
          intros ?a ?d ?Hl
      | |- wp _ _ (bind (call (StatusUpdateUpgrade _)) _) _ _ =>
          eapply wp_write; [at_tac|step_tac|intros v h' Hv Hav|intros; exact I]
      end | walk_step].
  eapply await_snapshots_guarded; [by apply at_start| |]; rewrite Hav; by abs_simp.
Qed.

Lemma handleCommitting_guarded h u b rr hh :
  latest h = Some u → abs u = AState false (Some b) true true false rr hh None →
  guarded (handleCommitting r u) h.
Proof.
  intros Hl Ha. pose proof (at_start h u Hl). unfold handleCommitting.
  walk_step; [|by repeat walk_step]. walk_step. cbn iota beta.
  unfold VerifyStillSuspended, IsSuspended. fold (suspend_key app). cbn [bind call wp].
  split; [by apply guard_pure|]. intros [ks|e] _; cbn [bind].
  2:{ change (Obs ?x ?y :: Obs ?z ?w :: h) with ([Obs x y; Obs z w] ++ h).
      eapply wp_setFailed; [at_tac|eassumption|done|by left]. }
  destruct (ks_Suspend ks) eqn:Hks; cbn [negb bind].
  2:{ eapply wp_setFailed; [|eassumption|done|by left]. by apply at_start. }
  set (h1 := Obs (GetKustomization _) _ :: _).
  assert (at_ h1 u u) as Hat1 by by apply at_start.
  assert (∀ reason m, guarded (setFailed u reason m) h1) as Hfail.
  { intros. eapply wp_setFailed; [done|eassumption|done|by left]. }
  destruct (target_version u app) as [version|] eqn:Hv; cbn [deref bind wp]; [|done].
  destruct (commit_version app version) as [new|[reason m]] eqn:Hnew; [|apply Hfail].
  unfold git_ReadFile, git_CommitFile.
  destruct (r_GitManager r); cbn [bind call wp]; [|done].
  split; [by apply guard_pure|]. intros [content|e] _.
  2:{ eapply wp_setFailed; [by apply at_start|eassumption|done|by left]. }
  set (h2 := Obs (GitReadFile _) _ :: h1).
  assert (∀ d reason m, latest (d ++ h2) = Some u →
                        guarded (setFailed u reason m) (d ++ h2)) as Hfail2.
  { intros. eapply wp_setFailed; [by apply at_start|eassumption|done|by left]. }
  match goal with |- context [if ?c then _ else _] => destruct c end; [by apply (Hfail2 [])|].
  destruct (UpdateVersion content (version_path app) new) as [text|e] eqn:Hup;
    [|by apply (Hfail2 [])].
  cbn [bind call wp]. split.
  { intros _. exists u. split; [done|]. split; [by rewrite Ha|].
    exists app, ks, content, version, new, h. done. }
  intros [ci|e] _; [|by apply (Hfail2 [_])].
  cbn [bind call wp]. split; [by apply guard_pure|]. intros now _.
  eapply (wp_update_then _ u); [split; [done..|decided_tac]|step_tac|requeue_tac].
Qed.

Lemma handleSuspend_guarded h u st sn c rr hh :
  latest h = Some u → abs u = AState false None st sn c rr hh None →
  guarded (handleSuspend r u) h.
Proof.
  intros Hl Ha. pose proof (at_start h u Hl). unfold handleSuspend.
  repeat first
    [ lazymatch goal with
      | |- wp _ _ (bind (SuspendKustomization _ _) _) _ _ =>
          eapply wp_suspend; [eassumption|by abs_simp|asked_tac|left; by abs_simp|intros ?e ?d ?Hl]
      end | walk_step].
  eapply wp_update_then; destruct (negb _); try at_tac; try requeue_tac.
  - abs_simp. apply Suspend. by right.
  - abs_simp. apply Suspend. by left.
Qed.

Lemma handleScaleDown_guarded h u b sn c rr hh :
  latest h = Some u → abs u = AState false (Some b) false sn c rr hh None →
  wp (api_server UpgradeRequest) (guard UpgradeRequest) (handleScaleDown u) h stopped.
Proof.
  intros Hl Ha. pose proof (at_start h u Hl). unfold handleScaleDown.
  repeat first
    [ lazymatch goal with
      | |- wp _ _ (stop_here _ _) _ _ => apply wp_stop_here
      | |- wp _ _ (stop_skipped _ _ _) _ _ =>
          eapply wp_stop_skipped; [at_tac|eassumption|by abs_simp]
      | |- wp _ _ (stop_workloads _ _ _ _) _ _ =>
          eapply wp_stop_workloads; [apply wp_setFailed|at_tac|eassumption|by abs_simp]
      end | walk_step].
Qed.

Lemma after_scale_down_guarded h u :
  latest h = Some u → a_stopped (abs u) = true → a_dry (abs u) = false →
  a_complete (abs u) = None → a_suspended (abs u) ≠ None →
  guarded (after_scale_down r u) h.
Proof.
  intros Hl Hst Hd Hc Hs. unfold after_scale_down.
  destruct (upgrade_tests u) as (_ & _ & -> & -> & -> & ->).
  destruct (abs u) as [d [b|] st sn cm rc hh co] eqn:Ha; cbn in *; [subst|done].
  destruct sn; cbn [negb]; [|by eapply handleSnapshotting_guarded].
  destruct cm; cbn [negb]; [|by eapply handleCommitting_guarded].
  destruct rc; cbn [negb]; [|by eapply handleReconciling_guarded].
  destruct hh; cbn [negb]; [|by eapply handleHealthChecking_guarded].
  by eapply handleCompleted_guarded.
Qed.

(** ** Dry run *)

Lemma handleDryRun_guarded h u s st sn c rr hh :
  latest h = Some u → abs u = AState true s st sn c rr hh None →
  guarded (handleDryRun r u) h.
Proof.
  intros Hl Ha. pose proof (at_start h u Hl). unfold handleDryRun.
  repeat first
    [ lazymatch goal with
      | |- wp _ _ (runDryRunQuiescence _ _ _ _ _ _) _ _ =>
          eapply dry_run_guarded; [apply wp_setFailed|eassumption|asked_tac|eassumption]
      end | walk_step].
Qed.

(** ** Reconcile *)

Lemma dispatch_guarded h u :
  latest h = Some u → a_complete (abs u) = None → guarded (dispatch r u) h.
Proof.
  intros Hl Hc. pose proof (suspended_absent u) as Habs. unfold dispatch.
  change (us_DryRun (ur_Spec u)) with (a_dry (abs u)).
  destruct (upgrade_tests u) as (_ & Hst & _). rewrite Hst.
  destruct (abs u) as [d s st sn cm rc hh co] eqn:Ha; cbn in Hc |- *; subst co.
  destruct d; [by eapply handleDryRun_guarded|].
  cbn in Habs.
  destruct (condition _ _) as [sc|] eqn:Hf.
  2:{ rewrite (proj1 Habs eq_refl) in Ha. by eapply handleSuspend_guarded. }
  destruct s as [b|]; [|by discriminate (proj2 Habs eq_refl)].
  destruct st; cbn [negb].
  { by apply after_scale_down_guarded; rewrite ?Ha. }
  rewrite wp_bind. eapply wp_mono; [by eapply handleScaleDown_guarded|done|].
  intros [[[v reply] []]|m] h' Hq; cbn [negb]; [|exact Hq|exact I].
  destruct Hq as (? & ? & ? & ? & ?). by apply after_scale_down_guarded.
Qed.

(** Every reconcile, after any history. *)
Lemma Reconcile_guarded key h : guarded (Reconcile r key) h.
Proof.
  unfold Reconcile. change (GetUpgrade key) with (op_Get UpgradeRequest key).
  apply wp_fetch. intros. by apply dispatch_guarded.
Qed.
End handlers.
