(* ===== verification/Cluster.v ===== *)
(** * A small cluster to run the definitions against

An executable environment for [run]: an API server with optimistic storage of the
objects the controller uses, one git branch, a clock that advances a second per look,
and CSI and workload controllers that have always just finished; its Flux shows a
Kustomization as Ready but applies no manifest.  With it the
witnesses evaluate whole reconciles; no theorem depends on it. *)

From S2P Require Import Prelude GoLib Api Platform Discovery Yaml.

(** ** Decoders for a cluster without Helm *)

Definition no_helm : Decoders := {|
  base64_decode := Ok;
  gzip_stream := string;
  gzip_NewReader := Ok;
  gzip_ReadAll := Ok;
  json_manifest := Ok;
  yaml_document := λ _, Err (ErrNew "not a document")
|}.

(** ** State *)

Record cluster := mkCluster {
  cl_now : Time;
  cl_upgrade : option UpgradeRequest;
  cl_rollback : option RollbackRequest;
  cl_app : ManagedApp;
  cl_ks : list Kustomization;
  cl_deployments : list Deployment;
  cl_pods : list Pod;
  cl_pvcs : list PVC;
  cl_snapshots : list VolumeSnapshot;
  cl_file : string
}.

Definition not_found : error := ErrAPI (mkAPIStatus "NotFound" "not found").
Definition already_exists : error := ErrAPI (mkAPIStatus "AlreadyExists" "already exists").

Definition has_key (k : NamespacedName) (m : ObjectMeta) : bool :=
  (om_Name m =?s nn_Name k) && (om_Namespace m =?s nn_Namespace k).
Definition find_obj {A} (meta : A → ObjectMeta) (k : NamespacedName) (l : list A) : res A :=
  match List.find (λ a, has_key k (meta a)) l with Some a => Ok a | None => Err not_found end.
Definition put_obj {A} (meta : A → ObjectMeta) (a : A) (l : list A) : list A :=
  map (λ b, if has_key (keyOf (meta a)) (meta b) then a else b) l.
Definition del_obj {A} (meta : A → ObjectMeta) (k : NamespacedName) (l : list A) : list A :=
  List.filter (λ b, negb (has_key k (meta b))) l.

Definition with_now t w := mkCluster t (cl_upgrade w) (cl_rollback w) (cl_app w) (cl_ks w)
  (cl_deployments w) (cl_pods w) (cl_pvcs w) (cl_snapshots w) (cl_file w).
Definition with_upgrade u w := mkCluster (cl_now w) u (cl_rollback w) (cl_app w) (cl_ks w)
  (cl_deployments w) (cl_pods w) (cl_pvcs w) (cl_snapshots w) (cl_file w).
Definition with_rollback r w := mkCluster (cl_now w) (cl_upgrade w) r (cl_app w) (cl_ks w)
  (cl_deployments w) (cl_pods w) (cl_pvcs w) (cl_snapshots w) (cl_file w).
Definition with_app a w := mkCluster (cl_now w) (cl_upgrade w) (cl_rollback w) a (cl_ks w)
  (cl_deployments w) (cl_pods w) (cl_pvcs w) (cl_snapshots w) (cl_file w).
Definition with_ks ks w := mkCluster (cl_now w) (cl_upgrade w) (cl_rollback w) (cl_app w) ks
  (cl_deployments w) (cl_pods w) (cl_pvcs w) (cl_snapshots w) (cl_file w).
Definition with_workloads ds ps w := mkCluster (cl_now w) (cl_upgrade w) (cl_rollback w)
  (cl_app w) (cl_ks w) ds ps (cl_pvcs w) (cl_snapshots w) (cl_file w).
Definition with_pvcs ps w := mkCluster (cl_now w) (cl_upgrade w) (cl_rollback w) (cl_app w)
  (cl_ks w) (cl_deployments w) (cl_pods w) ps (cl_snapshots w) (cl_file w).
Definition with_snapshots ss w := mkCluster (cl_now w) (cl_upgrade w) (cl_rollback w) (cl_app w)
  (cl_ks w) (cl_deployments w) (cl_pods w) (cl_pvcs w) ss (cl_file w).
Definition with_file f w := mkCluster (cl_now w) (cl_upgrade w) (cl_rollback w) (cl_app w)
  (cl_ks w) (cl_deployments w) (cl_pods w) (cl_pvcs w) (cl_snapshots w) f.

(** ** Answers *)

Definition answer_workload (d : Deployment) (w : cluster) : res Deployment * cluster :=
  let ready := default 1 (w_Replicas d) in
  let d := mkWorkload (w_Meta d) (w_Replicas d) (w_Selector d) ready in
  (Ok d, with_workloads (put_obj w_Meta d (cl_deployments w))
           (if ready =? 0 then [] else cl_pods w) w).

Definition snapshot_ready (s : VolumeSnapshot) : VolumeSnapshot :=
  mkVolumeSnapshot (vs_Meta s) (vs_PVCName s) (vs_ClassName s)
    (Some (mkVolumeSnapshotStatus (Some true) (Some "1Gi") None)).

Definition env (R : Type) (w : cluster) (e : ev R) : R * cluster :=
  match e in ev R return R * cluster with
  | Now => (cl_now w, with_now (cl_now w + Second) w)
  | SleepOrDone d => (None, with_now (cl_now w + d) w)
  | RangeMap ks => (exist _ ks (Permutation.Permutation_refl ks), w)
  | GetUpgrade k =>
      (match cl_upgrade w with
       | Some u => if has_key k (ur_Meta u) then Ok u else Err not_found
       | None => Err not_found
       end, w)
  | UpdateUpgrade x | StatusUpdateUpgrade x =>
      match cl_upgrade w with
      | Some _ => (Ok x, with_upgrade (Some x) w)
      | None => (Err not_found, w)
      end
  | GetRollback k =>
      (match cl_rollback w with
       | Some x => if has_key k (rb_Meta x) then Ok x else Err not_found
       | None => Err not_found
       end, w)
  | UpdateRollback x | StatusUpdateRollback x =>
      match cl_rollback w with
      | Some _ => (Ok x, with_rollback (Some x) w)
      | None => (Err not_found, w)
      end
  | CreateRollback x =>
      match cl_rollback w with
      | Some _ => (Err already_exists, w)
      | None => (Ok x, with_rollback (Some x) w)
      end
  | GetApp k => (if has_key k (app_Meta (cl_app w)) then Ok (cl_app w) else Err not_found, w)
  | StatusUpdateApp a => (Ok a, with_app a w)
  | ListApps => (Ok [cl_app w], w)
  | GetKustomization k => (find_obj ks_Meta k (cl_ks w), w)
  | UpdateKustomization ks => (Ok ks, with_ks (put_obj ks_Meta ks (cl_ks w)) w)
  | GetDeployment k => (find_obj w_Meta k (cl_deployments w), w)
  | PatchDeployment _ d => answer_workload d w
  | GetStatefulSet _ => (Err not_found, w)
  | PatchStatefulSet _ _ => (Err not_found, w)
  | ListPods ns _ =>
      (Ok (List.filter (λ p, om_Namespace (pod_Meta p) =?s ns) (cl_pods w)), w)
  | GetPVC k => (find_obj pvc_Meta k (cl_pvcs w), w)
  | CreatePVC p =>
      let p := mkPVC (pvc_Meta p) (pvc_AccessModes p) (pvc_StorageRequest p) (pvc_DataSource p)
                 (pvc_StorageClassName p) "Bound" in
      (Ok p, with_pvcs (p :: cl_pvcs w) w)
  | DeletePVCObj k => (None, with_pvcs (del_obj pvc_Meta k (cl_pvcs w)) w)
  | GetSnapshot k => (find_obj vs_Meta k (cl_snapshots w), w)
  | CreateSnapshotObj s =>
      let s := snapshot_ready s in (Ok s, with_snapshots (s :: cl_snapshots w) w)
  | DeleteSnapshotObj k => (None, with_snapshots (del_obj vs_Meta k (cl_snapshots w)) w)
  | ListSnapshots ns _ =>
      (Ok (List.filter (λ s, om_Namespace (vs_Meta s) =?s ns) (cl_snapshots w)), w)
  | GetSnapshotClass _ => (None, w)
  | ListSecrets _ => (Ok [], w)
  | GetConfigMap _ => (Err not_found, w)
  | GitReadFile _ => (Ok (cl_file w), w)
  | GitCommitFile change _ =>
      (Ok (mkCommitInfo "abc123" "" "" ""), with_file (fc_Content change) w)
  end.

(** What remains of a run. *)
Definition final {A} (x : outcome A * cluster * list event) : cluster := x.1.2.
Definition trace {A} (x : outcome A * cluster * list event) : list event := x.2.

(** ** A scenario: one application with a Deployment that mounts one claim *)

Definition shop_app : ManagedApp :=
  mkManagedApp (plainMeta "shop" "apps")
    (mkManagedAppSpec "clusters/shop.yaml" (mkObjectReference "shop" "") None None
       (Some (mkVolumeSnapshotConfig true "" [] [] None))
       (Some (mkVersionPolicy "" "spec.version")) None true)
    (mkManagedAppStatus (Some (mkVersionInfo "1.0.0" [])) (Some (mkVersionInfo "1.1.0" [])) None []).

Definition shop_upgrade (dry : bool) : UpgradeRequest :=
  mkUpgradeRequest (plainMeta "shop-upgrade" "apps")
    (mkUpgradeRequestSpec (mkObjectReference "shop" "") None false dry)
    (mkUpgradeRequestStatus None None None None None []).
Definition shop_key : NamespacedName := mkKey "shop-upgrade" "apps".

Definition shop_ks : Kustomization :=
  mkKustomization (plainMeta "shop" "flux-system") false
    [mkCondition "Ready" "True" "" "" 1] 1 (Some ["apps_web_apps_Deployment"]).
(** Flux has not reconciled it. *)
Definition not_ready (ks : Kustomization) : Kustomization :=
  mkKustomization (ks_Meta ks) (ks_Suspend ks) [mkCondition "Ready" "False" "" "" 1] 1
    (ks_Inventory ks).
Definition shop_pod : Pod :=
  mkPod (mkObjectMeta "web-abcde12345-xyz" "apps" "" 0 0 None [] ∅
           [mkOwnerReference "apps/v1" "ReplicaSet" "web-abcde12345" ""]) [Some "data"].
Definition shop_pvc : PVC :=
  mkPVC (plainMeta "data" "apps") [ReadWriteOnce] (Some "1Gi") None None "Bound".
Definition shop_cluster (dry : bool) (doc : string) : cluster :=
  mkCluster 0 (Some (shop_upgrade dry)) None shop_app [shop_ks]
    [mkWorkload (plainMeta "web" "apps") (Some 2) (Some ∅) 2] [shop_pod] [shop_pvc] [] doc.
(** The same application with its claim listed, and the request to roll its upgrade back. *)
Definition listed_app : ManagedApp :=
  mkManagedApp (app_Meta shop_app)
    (mkManagedAppSpec "clusters/shop.yaml" (mkObjectReference "shop" "") None None
       (Some (mkVolumeSnapshotConfig true "" [mkPVCRef "data" "apps"] [] None))
       (Some (mkVersionPolicy "" "spec.version")) None true)
    (app_Status shop_app).
Definition shop_rollback (dry : bool) : RollbackRequest :=
  mkRollbackRequest (plainMeta "shop-rollback" "apps")
    (mkRollbackRequestSpec (mkObjectReference "shop-upgrade" "") false dry)
    (mkRollbackRequestStatus None None None None None None None []).
Definition rollback_key : NamespacedName := mkKey "shop-rollback" "apps".
Definition shop_doc (version : string) : string := "HelmRelease" +:+ String newline version.
