(* ===== verification/ManagedAppController.v ===== *)
(** * internal/controller/managedapp_controller.go: the Ready condition of an application

Each reconcile checks the application's health and writes the verdict into its Ready
condition; then it asks to be run again. *)

From S2P Require Import Prelude GoLib Api Platform Footprint Workload Discovery Health Controller.
From S2P Require Import Cluster.

Definition HealthCheckInterval : Duration := 30 * Second.

Section controller.
Context {P : Platform} {D : Decoders}.

Definition error_reason (err : error) : string :=
  if IsNotFound err && Contains (Error err) "Flux resource"
  then "KustomizationNotFound" else "HealthCheckError".
Definition result_reason (result : Result) : string :=
  if hr_Healthy result then "KustomizationReady"
  else if negb (hr_FluxReady result) then "KustomizationNotReady"
  else if negb (hr_WorkloadsReady result) then "WorkloadsNotReady"
  else reasonNotReady.

(** [meta.SetStatusCondition] of the Ready condition *)
Definition set_Ready (status reason message : string) (app : ManagedApp) : ManagedApp :=
  app_set_Status
    (mkManagedAppStatus (ast_CurrentVersion (app_Status app)) (ast_AvailableUpdate (app_Status app))
       (ast_LastUpgrade (app_Status app))
       (SetStatusCondition (ast_Conditions (app_Status app))
          (mkCondition ConditionTypeReady status reason message (om_Generation (app_Meta app)))))
    app.

Definition Reconcile (req : NamespacedName) : M Reply :=
  let? app := call (GetApp req) orelse err => Ret (done_result, IgnoreNotFound err) in
  let* result := CheckHealth app in
  match result with
  | Err err =>
      let app := set_Ready ConditionFalse (error_reason err) (Error err) app in
      let* _ := call (StatusUpdateApp app) in
      Ret (requeue_after (1 * Minute), None)
  | Ok result =>
      let status := if hr_Healthy result then ConditionTrue else ConditionFalse in
      let app := set_Ready status (result_reason result) (hr_Message result) app in
      let? _ := call (StatusUpdateApp app) orelse err => Ret (done_result, Some err) in
      Ret (requeue_after HealthCheckInterval, None)
  end.

Definition findManagedAppsForWorkload {A} (_ : A) : list NamespacedName := [].
End controller.

(** ** What a reconcile writes, and when it comes back *)

Section laws.
Context {P : Platform} {PL : PlatformLaws P} {D : Decoders}.

(** The condition a health check earns an application. *)
Definition earned (app : ManagedApp) (r : res Result) : Condition :=
  match r with
  | Ok result =>
      mkCondition ConditionTypeReady (if hr_Healthy result then ConditionTrue else ConditionFalse)
        (result_reason result) (hr_Message result) (om_Generation (app_Meta app))
  | Err err =>
      mkCondition ConditionTypeReady ConditionFalse (error_reason err) (Error err)
        (om_Generation (app_Meta app))
  end.

(** The only write: the application just read, with the Ready condition that the health check
    made since earns, and nothing else changed.  Nothing was written before. *)
Definition reports_health (req : NamespacedName) : guarantee ev := λ h R e,
  match e with
  | StatusUpdateApp x =>
      ∃ app r d, h = d ++ [Obs (GetApp req) (Ok app)]
        ∧ Forall (obs_sat (λ R e, mutates R e = false)) d
        ∧ ever h (CheckHealth app) r ∧ health_found app h r
        ∧ x = set_Ready (c_Status (earned app r)) (c_Reason (earned app r))
                (c_Message (earned app r)) app
  | e => mutates _ e = false
  end.

(** How a reconcile that began with [h] ends. *)
Definition comes_back (h : list event) (reply : Reply) : Prop :=
  match h with
  | Obs e r :: _ =>
      match e in ev R return R → Prop with
      | StatusUpdateApp _ => λ r, match r with
          | Ok _ => reply = (requeue_after HealthCheckInterval, None)
                    ∨ reply = (requeue_after Minute, None)
          | Err e => reply = (requeue_after Minute, None) ∨ reply = (done_result, Some e)
          end
      | GetApp _ => λ r, match r with
          | Ok _ => False
          | Err e => reply = (done_result, if IsNotFound e then None else Some e)
          end
      | _ => λ _, False
      end r
  | [] => False
  end.

(** Ready is reported only for an application whose Kustomization was seen ready and whose
    workloads, as read, were all at their replicas. *)
Lemma earned_true app h r :
  health_found app h r → c_Status (earned app r) = ConditionTrue →
  ∃ res, r = Ok res ∧ flux_seen app h true
    ∧ Forall (λ s, status_read h s ∧ replicas_ready s) (hr_WorkloadStatuses res).
Proof.
  destruct r as [res|e]; cbn; [|done]. intros (ks & Hin & Hv). unfold verdict_found in Hv.
  destruct (flux_verdict (ks_Conditions ks)) as [ready message] eqn:Hks.
  destruct Hv as (_ & Hh & Hv). destruct (hr_Healthy res); [|done]. intros _.
  symmetry in Hh. apply andb_true_iff in Hh as [-> Hw].
  destruct Hv as (ws & _ & Hs & Hr & _). exists res. split; [done|].
  split; [exists ks; split; [done|by rewrite Hks]|].
  apply Forall_and. split; [by eapply Forall2_checked_read|by apply Hr].
Qed.

(** A missing Kustomization is reported as such. *)
Lemma error_reason_not_found e :
  IsNotFound e = true →
  error_reason (Errorf_w "checking Flux resource: " e) = "KustomizationNotFound".
Proof. intros He. unfold error_reason, Errorf_w. by rewrite not_found_wrap, He. Qed.

(** C31: a reconcile of an application writes once at most: the application as read, with
    the Ready condition that the health check made in between earns (status, reason and message
    are those of its answer, for which [health_found] says what was seen) and no other change.
    It ends there: after a stored write it asks to be run again in half a minute or a minute,
    after a failed one it answers the error or asks to be run again in a minute, and it stops
    coming back only if the application is gone. *)
Theorem ManagedApp_Reconcile_spec req :
  wp any (reports_health req) (Reconcile req) []
    (λ o h, ∀ reply, o = Done reply → comes_back h reply).
Proof.
  unfold Reconcile. cbn [bind call wp]. split; [done|]. intros [app|e] _; cbn [wp].
  2:{ intros reply [= <-]. cbn. by rewrite ignore_not_found. }
  rewrite wp_bind. eapply wp_mono.
  - apply wp_conj; [apply (wp_ran (λ R e, mutates R e = false) any (λ _ R e, mutates R e = false))|].
    + eapply emits_mono; [by apply CheckHealth_within with (ks := health_kinds)|]. intros R e. by apply within_reads.
    + done.
    + eapply wp_mono; [apply (wp_emits_guard (within health_kinds));
        [apply CheckHealth_wp|by apply CheckHealth_within]| |done].
      intros h R e. by apply within_reads.
  - intros h R e He. by destruct e.
  - intros [r|m] h [(d & -> & Hd & Hran) [_ Hr]]; [|done]. specialize (Hr r eq_refl).
    assert (ever (d ++ [Obs (GetApp req) (Ok app)]) (CheckHealth app) r) by by apply ran_ever, Hran.
    destruct r as [result|err]; cbn [bind call wp].
    all: split; [by eexists app, _, d|]; intros [x|e] _; cbn; intros reply [= <-]; by auto.
Qed.
End laws.

(** ** On the model cluster *)

Definition shop_checked : outcome Reply * cluster * list event :=
  run env (Reconcile (P:=reference) (D:=no_helm) (mkKey "shop" "apps"))
    (shop_cluster false (shop_doc "1.0.0")) [].

Lemma ManagedApp_Reconcile_spec_witness :
  wp any (reports_health (P:=reference) (D:=no_helm) (mkKey "shop" "apps"))
    (Reconcile (P:=reference) (D:=no_helm) (mkKey "shop" "apps")) []
    (λ o h, ∀ reply, o = Done reply → comes_back (P:=reference) h reply)
  ∧ map (λ c, (c_Type c, c_Status c, c_Reason c)) (ast_Conditions (app_Status (cl_app (final shop_checked))))
    = [("Ready", "True", "KustomizationReady")].
Proof.
  split; [|vm_compute; reflexivity].
  exact (ManagedApp_Reconcile_spec (P:=reference) (D:=no_helm) (mkKey "shop" "apps")).
Defined.
