(* ===== verification/Shop.v ===== *)
(** * The model cluster keeps the promises of the API server

[Cluster] answers as [storage] asks, for UpgradeRequests and for RollbackRequests, so that
what is proved of every run holds of the concrete runs the witnesses evaluate. *)

From S2P Require Import Prelude GoLib Api Platform Footprint Discovery Controller Phases Operation.
From S2P Require Import Guard Runs Cluster.

Section accounted.
Context {P : Platform} {PL : PlatformLaws P} {O : Type} {Op : Operation O}.

(** The cluster holds the object in its first state, or one the history accounts for. *)
Definition accounted (held : cluster → option O) (a0 : astate) (w : cluster)
    (h : list event) : Prop :=
  ∃ u, held w = Some u ∧ ((candidates (O:=O) h = [] ∧ abs u = a0) ∨ In u (candidates h)).

(** A read answers the object held, a write replaces it. *)
Lemma accounted_get held a0 w h k u :
  held w = Some u → accounted held a0 w h →
  ∀ h', candidates (O:=O) h' = [u] →
  own_storage a0 (candidates h) (OwnGet k) (Ok u) ∧ accounted held a0 w h'.
Proof.
  intros Hu (v & Hv & Hin) h' Hc. simplify_eq. split.
  - destruct Hin as [?|Hin]; [by left|]. right. by exists u.
  - exists u. split; [done|]. right. rewrite Hc. by left.
Qed.
Lemma accounted_put held a0 w h u :
  held w = Some u → candidates (O:=O) h = [u] → accounted held a0 w h.
Proof. intros Hu Hc. exists u. split; [done|]. right. rewrite Hc. by left. Qed.
End accounted.

Section follows.
Context {P : Platform} {PL : PlatformLaws P}.

Ltac follow_tac Hu Hi :=
  first
    [ split; [done|exact Hi]
    | (* the object is read *)
      match goal with |- context [has_key ?k ?m] =>
        destruct (has_key k m);
        [refine (accounted_get _ _ _ _ k _ Hu Hi _ _); reflexivity|split; [done|exact Hi]]
      end
    | (* it is written *)
      split; [by repeat split|by eapply accounted_put]
    | (* the other object, or a test *)
      progress (repeat case_match); follow_tac Hu Hi ].

Lemma upgrade_follows a0 : follows (storage UpgradeRequest a0) env (accounted cl_upgrade a0).
Proof.
  intros w h R e Hi. pose proof Hi as (u & Hu & _).
  destruct e; cbn; rewrite ?Hu; try (destruct (cl_rollback w) eqn:Hr); cbn; follow_tac Hu Hi.
Qed.
Lemma rollback_follows a0 : follows (storage RollbackRequest a0) env (accounted cl_rollback a0).
Proof.
  intros w h R e Hi. pose proof Hi as (u & Hu & _).
  destruct e; cbn; rewrite ?Hu; try (destruct (cl_upgrade w) eqn:Hr); cbn; follow_tac Hu Hi.
Qed.

(** An object that is read has the name asked for. *)
Lemma has_key_true k m : has_key k m = true → keyOf m = k.
Proof.
  unfold has_key. intros [Hn%String.eqb_eq Hns%String.eqb_eq]%andb_true_iff.
  destruct k. unfold keyOf. cbn in *. by rewrite Hn, Hns.
Qed.
Ltac named_tac :=
  match goal with
  | |- context [match ?o with Some _ => _ | None => _ end] => destruct o as [x|]; [|done]
  end;
  match goal with |- context [has_key ?k ?m] => destruct (has_key k m) eqn:?Hk; [|done] end;
  intros ? [= <-]; by apply has_key_true.
Lemma env_named_upgrade w h R (e : ev R) : named UpgradeRequest h R e (env R w e).1.
Proof. destruct e; cbn; try done. named_tac. Qed.
Lemma env_named_rollback w h R (e : ev R) : named RollbackRequest h R e (env R w e).1.
Proof. destruct e; cbn; try done. named_tac. Qed.
Lemma follows_and {S} (Φ Ψ : protocol ev) (env : ∀ R, S → ev R → R * S) Inv :
  follows Φ env Inv → (∀ w h R e, Ψ h R e (env R w e).1) →
  follows (λ h R e a, Φ h R e a ∧ Ψ h R e a) env Inv.
Proof. intros Hf Hp w h R e Hi. destruct (Hf w h R e Hi). by split. Qed.
End follows.

Definition with_git : Reconciler := mkReconciler true.

(** What holds of every run holds of the concrete one. *)
Lemma trace_sound {A} (env : ∀ R, cluster → ev R → R * cluster) Φ G (p : M A) Inv w Q :
  follows Φ env Inv → wp Φ G p [] Q → Inv w [] → guaranteed G (trace (run env p w [])).
Proof.
  intros Hf Hwp Hi. pose proof (run_sound Φ G env Inv p w [] Q Hf Hi I Hwp) as H.
  unfold trace. destruct (run env p w []) as [[o w'] h]. apply H.
Qed.
Lemma run_trace {A} Φ G (p : M A) Inv w Q :
  follows Φ env Inv → wp Φ G p [] Q → Inv w [] → guaranteed G (trace (run env p w [])).
Proof. apply trace_sound. Qed.
