(* ===== verification/UpgradeTheorems.v ===== *)
(** * The properties of the upgrade reconciler

Over any number of reconciles, whatever the cluster answers: the status follows the
abstract machine, the commit happens once and only against a suspended Kustomization, a dry
run and a finished request change nothing, the finalizer is held, and no request is
forgotten. *)

From S2P Require Import Prelude GoLib Api Platform Footprint Discovery Workload Flux Snapshot Health.
From S2P Require Import Yaml Git Controller Phases Operation Guard Runs Progress.
From S2P Require Import Upgrade UpgradeGuard UpgradeProofs Cluster Shop.

(** ** The contracts *)

Section contracts.
Context {P : Platform} {Y : Kyaml}.

(** A status write is a step of the machine, to a reachable state. *)
Definition refines_machine (dry : bool) : guarantee ev := λ h R e,
  match e with
  | StatusUpdateUpgrade x =>
                  ∃ u : UpgradeRequest, latest h = Some u ∧ astep (abs u) (abs x)
                       ∧ rtc astep (initial dry) (abs x) ∧ ordered (abs x)
  | _ => True
  end.

(** What a commit requires, and what it writes. *)
Definition commits_guarded : guarantee ev := λ h R e,
  match e with
  | GitCommitFile change message =>
                  ∃ u : UpgradeRequest, latest h = Some u ∧ a_dry (abs u) = false
                       ∧ a_suspended (abs u) ≠ None ∧ a_stopped (abs u) = true
                       ∧ a_prepared (abs u) = true ∧ a_committed (abs u) = false
                       ∧ a_complete (abs u) = None ∧ commit_write h u change message
  | _ => True
  end.

(** No commit once the server has shown the request committed. *)
Definition commits_once : guarantee ev := λ h R e,
  match e with
  | GitCommitFile _ _ => ∀ v : UpgradeRequest, In v (shown h) → a_committed (abs v) = false
  | _ => True
  end.

(** Nothing but finalizers changes once the request was last read as finished. *)
Definition finished_left_alone : guarantee ev := λ h R e,
  mutates R e = true → kind_of e ≠ KUpdateUpgrade →
  ∃ u : UpgradeRequest, latest h = Some u ∧ terminal (abs u) = false.
(** Nor once the server has ever shown it finished. *)
Definition terminal_absorbed : guarantee ev := λ h R e, mutates R e = true → kind_of e ≠ KUpdateUpgrade →
              ∀ v : UpgradeRequest, In v (shown h) → terminal (abs v) = false.

(** The kinds of calls a dry run never makes. *)
Definition dry_run_harmless : guarantee ev := λ h R e, kmem (kind_of e)
                [KGitCommit; KCreateSnapshot; KDeleteSnapshot; KCreateRollback; KStatusApp;
                 KCreatePVC; KDeletePVC; KUpdateRollback; KStatusRollback] = false.

(** The state each disruptive operation requires. *)
Definition operations_ordered : guarantee ev := λ h R e,
  match e with
  | PatchDeployment _ _ | PatchStatefulSet _ _ =>
          ∃ u : UpgradeRequest, latest h = Some u ∧ terminal (abs u) = false
               ∧ a_suspended (abs u) ≠ None ∧ a_committed (abs u) = false
  | UpdateKustomization ks =>
          ∃ u : UpgradeRequest, latest h = Some u ∧ terminal (abs u) = false
               ∧ (ks_Suspend ks = true → a_committed (abs u) = false)
  | CreateSnapshotObj _ =>
          ∃ u : UpgradeRequest, latest h = Some u ∧ a_stopped (abs u) = true ∧ a_committed (abs u) = false
  | DeleteSnapshotObj _ | StatusUpdateApp _ =>
          ∃ u : UpgradeRequest, latest h = Some u ∧ a_healthy (abs u) = true ∧ a_committed (abs u) = true
  | _ => True
  end.

(** When an update may take the finalizer away. *)
Definition finalizer_held : guarantee ev := λ h R e,
  match e with
  | UpdateUpgrade x =>
                  ∃ u : UpgradeRequest, latest h = Some u ∧ same_but_finalizer UpgradeRequest u x
                  ∧ (ContainsFinalizer (ur_Meta x) OperationFinalizer = false →
                     om_DeletionTimestamp (ur_Meta u) ≠ None
                     ∨ ∃ y h', h = Obs (StatusUpdateUpgrade y) (Ok u) :: h'
                               ∧ terminal (abs y) = true)
  | _ => True
  end.

(** An answer without an error asks for another run, now or later, or nothing is left. *)
Definition woken (o : outcome Reply) (h : list event) : Prop :=
  ∀ c, o = Done (c, None) → cr_Requeue c = true ∨ 0 < cr_RequeueAfter c ∨ settled UpgradeRequest h.

(** What a rollback requires. *)
Definition rollbacks_guarded : guarantee ev := λ h R e,
  match e with
  | CreateRollback rb =>
                  ∃ u : UpgradeRequest, latest h = Some u ∧ a_committed (abs u) = true
                       ∧ terminal (abs u) = false ∧ rollback_write h u rb
  | _ => True
  end.
End contracts.

(** ** The theorems *)

Section theorems.
Context {P : Platform} {PL : PlatformLaws P} {D : Decoders} {Y : Kyaml}.
Variable r : Reconciler.
Variable key : NamespacedName.


(** C1: refinement.  Over any number of reconciles of a new request, every status the
    controller writes is one step of the abstract machine from the status last read, and
    all of them are reachable, so that the phases come in order (nothing is committed
    before workloads are stopped and snapshots ready, success needs health, ...).  Reads may
    be stale: each may answer any version the request ever had. *)
Theorem upgrade_refines_machine dry n :
  wp (cached UpgradeRequest (initial dry)) (refines_machine dry)
    (reconciles (Reconcile r key) n) []
    (λ _ h, ∀ u : UpgradeRequest, latest h = Some u → rtc astep (initial dry) (abs u)).
Proof.
  eapply wp_mono; [apply reconciles_refine, Reconcile_guarded| |done].
  intros h R e He. by destruct e.
Qed.

(** C2: a commit is made only for a live, non-dry request whose workloads are stopped and
    whose snapshots are ready, right after reading the application, seeing its
    Kustomization suspended and reading the file; it writes that file with the target
    version set at the configured path, and its message names the versions and snapshots.
    Reads may be stale. *)
Theorem upgrade_commit_guarded a0 n :
  wp (cached UpgradeRequest a0) commits_guarded
    (reconciles (Reconcile r key) n) [] (λ _ _, True).
Proof.
  apply (reconciles_inv _ (Reconcile_guarded r key) _ n (λ _, True));
    [apply cached_serves|done..| |done].
  intros h R e _ Hg. destruct e; try exact I.
  destruct (guard_inv _ _ _ Hg eq_refl) as (u & Hl & _ & Hp & Hd).
  exists u. split; [done|]. revert Hp Hd. cbn. unfold upgrade_permitted, terminal.
  destruct (abs u) as [[] [b|] [] [] [] rc hh [c|]]; cbn; try done.
Qed.

(** C3: at most one recorded commit: once the server has shown the request with
    GitCommitted true, no reconcile ever commits again.  This needs reads that answer what
    was last stored. *)
Theorem upgrade_commit_once a0 n :
  wp (storage UpgradeRequest a0) commits_once
    (reconciles (Reconcile r key) n) [] (λ _ _, True).
Proof.
  apply (reconciles_inv _ (Reconcile_guarded r key) _ n (lasting UpgradeRequest a_committed)).
  - apply storage_serves.
  - apply lasting_nil.
  - intros. eapply lasting_step; eauto using astep_committed.
  - intros h R e Hi Hg. destruct e; try exact I. intros v Hv.
    destruct (guard_inv _ _ _ Hg eq_refl) as (u & Hl & Hin & Hp & _).
    destruct (a_committed (abs v)) eqn:Hc; [|done].
    pose proof (Hi v Hv Hc u Hin) as Hu. revert Hp. cbn. unfold upgrade_permitted. rewrite Hu.
    by rewrite andb_false_r.
  - done.
Qed.

(** C4: a reconcile that reads the request as finished (Complete true or false) makes no call
    that changes anything but the update of its finalizers, also where reads are stale.  Where
    reads answer what was last stored, it is never worked on again: no reconcile makes such a
    call once the server has shown it finished. *)
Theorem upgrade_terminal_absorbing a0 n :
  wp (cached UpgradeRequest a0) finished_left_alone
    (reconciles (Reconcile r key) n) [] (λ _ _, True)
  ∧ wp (storage UpgradeRequest a0) terminal_absorbed
      (reconciles (Reconcile r key) n) [] (λ _ _, True).
Proof.
  split.
  - eapply wp_mono; [apply reconciles_left_alone, Reconcile_guarded| |done].
    intros h R e He Hm Hk. by apply He.
  - eapply wp_mono; [apply reconciles_absorbed, Reconcile_guarded| |done].
    intros h R e He Hm Hk. by apply He.
Qed.

(** C5: a dry run makes no commit, no snapshot, no volume, no rollback, deletes no
    snapshot and does not touch the status of the application, however long it runs and
    however stale its reads are. *)
Theorem upgrade_dry_run_harmless n :
  wp (cached UpgradeRequest (initial true)) dry_run_harmless
    (reconciles (Reconcile r key) n) [] (λ _ _, True).
Proof.
  apply (reconciles_inv _ (Reconcile_guarded r key) _ n (all_reach UpgradeRequest (initial true)));
    [apply cached_serves|apply all_reach_nil|apply all_reach_step| |done].
  intros h R e Hi Hg. unfold dry_run_harmless.
  destruct (mutates R e) eqn:Hm; [|rewrite mutates_kind in Hm; by destruct (kind_of e)].
  destruct (guard_reach _ _ _ _ Hi Hg Hm) as (u & _ & Ho & Hd & Hp & _).
  pose proof (ord_committed _ Ho) as Hc. revert Hp Hc. cbn. unfold upgrade_permitted. rewrite Hd.
  destruct (kind_of e); cbn; rewrite ?andb_false_r; try done.
  destruct (a_committed (abs u)); [|by rewrite andb_false_r].
  intros _ Hc. by destruct (Hc eq_refl).
Qed.

(** C6: the order of the disruptive operations.  Workloads are scaled, and the
    Kustomization is set to suspended, only before the commit and while the request is
    live; snapshots are created only between stopping the workloads and the commit; the
    application's status changes and old snapshots go only when all checks have passed.
    The state meant is that of the request as last read, which may be stale. *)
Theorem upgrade_operations_ordered dry n :
  wp (cached UpgradeRequest (initial dry)) operations_ordered
    (reconciles (Reconcile r key) n) [] (λ _ _, True).
Proof.
  apply (reconciles_inv _ (Reconcile_guarded r key) _ n (all_reach UpgradeRequest (initial dry)));
    [apply cached_serves|apply all_reach_nil|apply all_reach_step| |done].
  intros h R e Hi Hg. destruct (mutates R e) eqn:Hm; [|by destruct e].
  destruct (guard_reach _ _ _ _ Hi Hg Hm) as (u & Hl & Ho & _ & Hp & Hd).
  destruct e; try exact I; exists u; (split; [exact Hl|]); cbn in Hp.
  - destruct (permitted_retire _ Ho KStatusApp); auto.
  - destruct Hd as (? & ? & ? & _ & _ & _ & Hn).
    split; [by apply negb_true_iff|]. intros Hk. apply uncommitted_at_suspend; auto.
  - by apply permitted_scale.
  - by apply permitted_scale.
  - by apply permitted_snapshot.
  - destruct (permitted_retire _ Ho KDeleteSnapshot); auto.
Qed.

(** C10: the finalizer is held while the operation runs: it is removed only when the
    object is being deleted, or right after the write that finished the request was
    stored.  Every update of the object (as opposed to its status) writes what was last read,
    with the same spec, status and metadata and the same finalizers of others: it adds or
    removes this one finalizer only. *)
Theorem upgrade_finalizer_held a0 n :
  wp (cached UpgradeRequest a0) finalizer_held (reconciles (Reconcile r key) n) [] (λ _ _, True).
Proof.
  eapply wp_mono; [apply reconciles_finalizer, Reconcile_guarded| |done].
  intros h R e He. by destruct e.
Qed.

(** No lost wake-up.  A reconcile that returns no error either asks to be run again,
    or leaves nothing to do: the request was not found, is being deleted, or is finished. *)
Theorem upgrade_no_lost_wakeup h0 :
  wp (api_server UpgradeRequest) free (Reconcile r key) h0 woken.
Proof.
  eapply wp_mono; [apply Reconcile_guarded|done|].
  intros o h Hends c ->. by apply ends_woken.
Qed.

(** C11: progress, where reads answer what was last stored and nobody else writes the request.
    Of any number of reconciles at most seven, not counting those that added the finalizer, ask
    to be run again at once: each of them stored a later phase, and no phase is gone back to.
    All the others ask for a delay or failed with an error or a panic, or else one of them found
    nothing left to do: the request finished, being deleted, or gone. *)
Theorem upgrade_progresses a0 n :
  wp (storage UpgradeRequest a0) free (verdicts (Reconcile r key) n) [] (progresses (O:=UpgradeRequest) n).
Proof.
  eapply wp_mono; [apply verdicts_progress; [apply Reconcile_guarded|]|done|done].
  by eexists _, _, _.
Qed.

(** C12: a rollback is created only for a request whose commit is recorded and which is not
    finished, right after its application was read with automatic rollback on; it is
    owned by the request, names it, is marked automatic and is not a dry run. *)
Theorem upgrade_rollback_guarded a0 n :
  wp (cached UpgradeRequest a0) rollbacks_guarded (reconciles (Reconcile r key) n) [] (λ _ _, True).
Proof.
  apply (reconciles_inv _ (Reconcile_guarded r key) _ n (λ _, True));
    [apply cached_serves|done..| |done].
  intros h R e _ Hg. destruct e; try exact I.
  destruct (guard_inv _ _ _ Hg eq_refl) as (u & Hl & _ & Hp & Hd).
  exists u. split; [done|]. revert Hp. cbn. unfold upgrade_permitted.
  by destruct (terminal (abs u)), (a_committed (abs u)).
Qed.
End theorems.

(** ** Concrete runs *)

#[local] Existing Instance reference.
#[local] Existing Instance no_helm.
#[local] Existing Instance two_lines.

Definition shop_run (dry : bool) (n : nat) : outcome unit * cluster * list event :=
  run env (reconciles (Reconcile with_git shop_key) n) (shop_cluster dry (shop_doc "1.0.0")) [].

(** What holds of every run holds of this one. *)
Lemma shop_guaranteed Φ dry n G Q :
  (∀ h R e a, storage UpgradeRequest (initial dry) h R e a → Φ h R e a) →
  wp Φ G (reconciles (Reconcile with_git shop_key) n) [] Q →
  guaranteed G (trace (shop_run dry n)).
Proof.
  intros HΦ Hwp. eapply run_trace; [apply (upgrade_follows (initial dry))| |].
  - eapply wp_protocol; [exact Hwp|exact HΦ].
  - exists (shop_upgrade dry). split; [done|]. by left.
Qed.

(** ** Each theorem at work on the model cluster *)

Definition count (k : kind) (h : list event) : nat := length (calls k h).

Lemma upgrade_refines_machine_witness :
  guaranteed (refines_machine false) (trace (shop_run false 12))
  ∧ count KStatusUpgrade (trace (shop_run false 12)) = 7%nat.
Proof.
  split; [|vm_compute; reflexivity].
  eapply (shop_guaranteed (cached _ _));
    [apply storage_cached|]. apply (upgrade_refines_machine with_git shop_key false 12).
Defined.

Lemma upgrade_commit_guarded_witness :
  guaranteed commits_guarded (trace (shop_run false 12))
  ∧ count KGitCommit (trace (shop_run false 12)) = 1%nat.
Proof.
  split; [|vm_compute; reflexivity].
  eapply (shop_guaranteed (cached _ _));
    [apply storage_cached|]. apply (upgrade_commit_guarded with_git shop_key (initial false) 12).
Defined.

Lemma upgrade_commit_once_witness :
  guaranteed commits_once (trace (shop_run false 12))
  ∧ count KGitCommit (trace (shop_run false 12)) = 1%nat.
Proof.
  split; [|vm_compute; reflexivity].
  eapply (shop_guaranteed (storage _ _));
    [done|]. apply (upgrade_commit_once with_git shop_key (initial false) 12).
Defined.

Lemma upgrade_terminal_absorbing_witness :
  guaranteed (λ h R e, finished_left_alone h R e ∧ terminal_absorbed h R e) (trace (shop_run false 12))
  ∧ count KStatusUpgrade (trace (shop_run false 12)) = 7%nat
  ∧ count KUpdateUpgrade (trace (shop_run false 12)) = 3%nat.
Proof.
  split; [|split; vm_compute; reflexivity].
  destruct (upgrade_terminal_absorbing with_git shop_key (initial false) 12) as [Hread Hshown].
  apply guaranteed_both.
  - eapply (shop_guaranteed (cached _ _)); [apply storage_cached|]. apply Hread.
  - eapply (shop_guaranteed (storage _ _)); [done|]. apply Hshown.
Defined.

Lemma upgrade_dry_run_harmless_witness :
  guaranteed dry_run_harmless (trace (shop_run true 12))
  ∧ count KPatchWorkload (trace (shop_run true 12)) = 1%nat.
Proof.
  split; [|vm_compute; reflexivity].
  eapply (shop_guaranteed (cached _ _));
    [apply storage_cached|]. apply (upgrade_dry_run_harmless with_git shop_key 12).
Defined.

Lemma upgrade_operations_ordered_witness :
  guaranteed operations_ordered (trace (shop_run false 12))
  ∧ count KPatchWorkload (trace (shop_run false 12)) = 1%nat
  ∧ count KUpdateKs (trace (shop_run false 12)) = 2%nat.
Proof.
  split; [|vm_compute; by split].
  eapply (shop_guaranteed (cached _ _));
    [apply storage_cached|]. apply (upgrade_operations_ordered with_git shop_key false 12).
Defined.

Lemma upgrade_finalizer_held_witness :
  guaranteed finalizer_held (trace (shop_run false 12))
  ∧ count KUpdateUpgrade (trace (shop_run false 12)) = 3%nat.
Proof.
  split; [|vm_compute; reflexivity].
  eapply (shop_guaranteed (cached _ _));
    [apply storage_cached|]. apply (upgrade_finalizer_held with_git shop_key (initial false) 12).
Defined.

Lemma upgrade_no_lost_wakeup_witness :
  wp (api_server UpgradeRequest) free (Reconcile with_git shop_key) [] woken
  ∧ (run env (Reconcile with_git shop_key) (shop_cluster false (shop_doc "1.0.0")) []).1.1
    = Done (requeue_now, None).
Proof.
  split; [|vm_compute; reflexivity]. apply (upgrade_no_lost_wakeup with_git shop_key []).
Defined.

(** A successful upgrade: the finalizer, six phases, the end; then the finalizer is added once
    more. *)
Lemma upgrade_progresses_witness :
  wp (storage UpgradeRequest (initial false)) free (verdicts (Reconcile with_git shop_key) 12) []
    (progresses (O:=UpgradeRequest) 12)
  ∧ let '(o, _, h) := run env (verdicts (Reconcile with_git shop_key) 12)
                        (shop_cluster false (shop_doc "1.0.0")) [] in
    o = Done (replicate 7 AtOnce ++ [Over; AtOnce; Over; Over; Over])
    ∧ finalizers_added (O:=UpgradeRequest) h = 2%nat.
Proof.
  split; [|by vm_compute]. apply (upgrade_progresses with_git shop_key (initial false) 12).
Defined.

(** The same upgrade, its claim listed, after its commit, an hour later and with Flux not ready:
    the next reconcile fails it with a time-out, and asks for its rollback. *)
Definition listed_cluster : cluster := with_app listed_app (shop_cluster false (shop_doc "1.0.0")).
Definition stuck_env (R : Type) (w : cluster) (e : ev R) : R * cluster :=
  let '(a, w) := env R w e in
  (a, match e with
      | GitCommitFile _ _ => with_ks (map not_ready (cl_ks w)) w
      | GetKustomization _ => with_now (cl_now w + 300 * Second) w
      | _ => w
      end).
Definition stuck_run : outcome unit * cluster * list event :=
  run stuck_env (reconciles (Reconcile with_git shop_key) 12) listed_cluster [].

Lemma stuck_follows a0 : follows (storage UpgradeRequest a0) stuck_env (accounted cl_upgrade a0).
Proof.
  intros w h R e Hi. destruct (upgrade_follows a0 w h R e Hi) as [Ha Hw]. unfold stuck_env.
  destruct (env R w e) as [a w'] eqn:He. cbn [fst snd] in *. split; [done|].
  destruct Hw as (u & Hu & Hin). exists u. split; [|done]. by destruct e.
Qed.
Lemma upgrade_rollback_guarded_witness :
  guaranteed rollbacks_guarded (trace stuck_run)
  ∧ count KCreateRollback (trace stuck_run) = 1%nat
  ∧ option_map (λ rb, (rs_AutoTriggered (rb_Spec rb), rs_DryRun (rb_Spec rb))) (cl_rollback (final stuck_run))
    = Some (true, false).
Proof.
  split; [|split; vm_compute; reflexivity].
  eapply (trace_sound stuck_env); [apply (stuck_follows (initial false))| |].
  - eapply (wp_protocol (cached UpgradeRequest (initial false)));
      [apply (upgrade_rollback_guarded with_git shop_key (initial false) 12)|apply storage_cached].
  - exists (shop_upgrade false). split; [done|]. by left.
Defined.
