(* ===== verification/UpgradeFailure.v ===== *)
(** * Failures, time-outs and what an upgrade leaves behind

How [setFailed] ends a request, and behaviours of the reconciler that its comments do not
announce: the health-check time-out counts within one reconcile only, and automatic
discovery finds no claims once the pods are gone, so that no snapshot is taken; a run of
the model shows the consequences, and that the finalizer comes back after completion. *)

From S2P Require Import Prelude GoLib Api Platform Footprint Discovery Workload Flux Snapshot Health.
From S2P Require Import Yaml Git Controller Phases Operation Guard Runs.
From S2P Require Import Upgrade UpgradeGuard UpgradeProofs Cluster UpgradeTheorems.

Section failure.
Context {P : Platform} {PL : PlatformLaws P} {D : Decoders} {Y : Kyaml}.
Variable r : Reconciler.

(** The request says that it failed, why, and at least [message]. *)
Definition failed_with (reason message : string) (x : UpgradeRequest) : Prop :=
  ∃ c more, condition x ConditionTypeComplete = Some c
    ∧ c_Status c = ConditionFalse ∧ c_Reason c = reason ∧ c_Message c = message +:+ more.

Lemma failed_with_reason r1 r2 m1 m2 x :
  failed_with r1 m1 x → failed_with r2 m2 x → r1 = r2.
Proof. intros (c & ? & ? & ? & ? & ?) (c' & ? & ? & ? & ? & ?). congruence. Qed.

(** What [setFailed] may do, before the commit and after it. *)
Definition failure_call (committed : bool) (reason message : string) R (e : ev R) : Prop :=
  match e with
  | StatusUpdateUpgrade x => failed_with reason message x
  | UpdateKustomization ks => committed = false ∧ ks_Suspend ks = false
  | CreateRollback rb => committed = true ∧ rs_AutoTriggered (rb_Spec rb) = true
  | UpdateUpgrade _ => True
  | _ => mutates R e = false
  end.

Lemma failed_set u reason message more :
  failed_with reason message
    (generation_cond u ConditionTypeComplete ConditionFalse reason (message +:+ more)).
Proof. eexists _, more. split; [by apply condition_set|done]. Qed.

Lemma failed_other u t s reason' m reason message :
  t ≠ ConditionTypeComplete → failed_with reason message u →
  failed_with reason message (generation_cond u t s reason' m).
Proof.
  intros Ht (c & more & Hf & ?). exists c, more. split; [|done].
  rewrite condition_other; [done|]. intros Heq. by apply Ht.
Qed.

(** No error: then the failure was stored. *)
Definition reported (reason message : string) (o : outcome Reply) (h : list event) : Prop :=
  ∀ c, o = Done (c, None) →
  c = done_result
  ∧ ∃ x v, In (Obs (StatusUpdateUpgrade x) (Ok v)) h ∧ failed_with reason message x.
Notation fails committed reason message p :=
  (∀ h, wp any (λ _ R e, failure_call committed reason message R e) p h
          (reported reason message)).

Lemma finish_failure committed reason message u :
  failed_with reason message u → fails committed reason message (finish u).
Proof.
  intros Hu h. unfold finish. cbn. split; [done|]. intros [v|e] _; cbn; [|by intros].
  destruct (ContainsFinalizer _ _); cbn.
  2:{ intros c Hc. split; [by simplify_eq|]. exists u, v. split; [by left|done]. }
  split; [done|]. intros [w|e] _ c Hc; cbn in Hc; [|done]. split; [by simplify_eq|].
  exists u, v. split; [by right; left|done].
Qed.

Lemma setFailed_failure u reason message :
  fails (cond_true u ConditionTypeGitCommitted) reason message (setFailed u reason message).
Proof.
  intros h. unfold setFailed. destruct (cond_true u ConditionTypeGitCommitted).
  - assert (∀ more, fails true reason message
              (finish (generation_cond u ConditionTypeComplete ConditionFalse reason
                         (message +:+ more)))) as Hfin.
    { intros. apply finish_failure, failed_set. }
    unfold post_commit_message, getManagedApp, createAutoRollback. cbn. split; [done|].
    intros [app|e] _; cbn; [|apply Hfin].
    destruct (as_AutoRollback _); cbn; [|apply Hfin].
    split; [done|]. intros t _. split; [done|]. intros [rb|e] _; cbn; apply Hfin.
  - assert (failed_with reason message
              (generation_cond u ConditionTypeComplete ConditionFalse reason message)) as Hf.
    { pose proof (failed_set u reason message "") as Hf. by rewrite string_app_nil in Hf. }
    unfold resume_if_suspended.
    destruct (cond_true _ ConditionTypeSuspended); cbn; [|by apply finish_failure].
    split; [done|]. intros [app|e] _; cbn; [|by apply finish_failure].
    destruct (getSuspendTarget app) as [n ns]. unfold ResumeKustomization. cbn.
    split; [done|]. intros [ks|e] _; cbn; [|by apply finish_failure].
    destruct (ks_Suspend ks); cbn; [|by apply finish_failure, failed_other].
    split; [done|]. intros [ks'|e] _; cbn; [|by apply finish_failure].
    split; [done|]. intros ? _. by apply finish_failure, failed_other.
Qed.

(** What is done about a failure after the commit, the latest call first, and what the message
    says of it. *)
Inductive after_commit (u : UpgradeRequest) : list event → string → Prop :=
| App_gone e : after_commit u [Obs (GetApp (app_key u)) (Err e)] " - rollback required"
| Rollback_off app :
    as_AutoRollback (app_Spec app) = false →
    after_commit u [Obs (GetApp (app_key u)) (Ok app)] " - rollback required"
| Rollback_made app now rb answer :
    rollback_write [Obs Now now; Obs (GetApp (app_key u)) (Ok app)] u rb →
    after_commit u
      [Obs (CreateRollback rb) (Ok answer); Obs Now now; Obs (GetApp (app_key u)) (Ok app)]
      " - auto-rollback initiated"
| Rollback_not_made app now rb e :
    rollback_write [Obs Now now; Obs (GetApp (app_key u)) (Ok app)] u rb →
    after_commit u
      [Obs (CreateRollback rb) (Err e); Obs Now now; Obs (GetApp (app_key u)) (Ok app)]
      (" - rollback required (auto-rollback failed: "
       +:+ Error (Errorf_w "creating RollbackRequest: " e) +:+ ")").
(** What is done before it, and whether the Kustomization of the application is resumed then. *)
Inductive before_commit (u : UpgradeRequest) : list event → bool → Prop :=
| Not_suspended : cond_true u ConditionTypeSuspended = false → before_commit u [] false
| App_unread e :
    cond_true u ConditionTypeSuspended = true →
    before_commit u [Obs (GetApp (app_key u)) (Err e)] false
| Flux_unread app e :
    cond_true u ConditionTypeSuspended = true →
    before_commit u
      [Obs (GetKustomization (suspend_key app)) (Err e); Obs (GetApp (app_key u)) (Ok app)] false
| Found_resumed app ks :
    cond_true u ConditionTypeSuspended = true → ks_Suspend ks = false →
    before_commit u
      [Obs (GetKustomization (suspend_key app)) (Ok ks); Obs (GetApp (app_key u)) (Ok app)] true
| Resumed app ks ks' again :
    cond_true u ConditionTypeSuspended = true → ks_Suspend ks = true →
    before_commit u
      [Obs (GetKustomization (suspend_key app)) again;
       Obs (UpdateKustomization (ks_set_Suspend false ks)) (Ok ks');
       Obs (GetKustomization (suspend_key app)) (Ok ks); Obs (GetApp (app_key u)) (Ok app)] true
| Not_resumed app ks e :
    cond_true u ConditionTypeSuspended = true → ks_Suspend ks = true →
    before_commit u
      [Obs (UpdateKustomization (ks_set_Suspend false ks)) (Err e);
       Obs (GetKustomization (suspend_key app)) (Ok ks); Obs (GetApp (app_key u)) (Ok app)] false.
(** The status of a failure, with what was done about it. *)
Definition failure u reason message (d : list event) (x : UpgradeRequest) : Prop :=
  if cond_true u ConditionTypeGitCommitted then
    ∃ note, after_commit u d note
      ∧ x = generation_cond u ConditionTypeComplete ConditionFalse reason (message +:+ note)
  else
    ∃ resumed, before_commit u d resumed
      ∧ let y := generation_cond u ConditionTypeComplete ConditionFalse reason message in
        x = if resumed then
              generation_cond y ConditionTypeSuspended ConditionFalse "ResumedAfterFailure"
                "Kustomization resumed after upgrade failure"
            else y.
(** How it is stored: then the finalizer is taken off.  An error is that of one of the two. *)
Inductive stored (x : UpgradeRequest) : list event → option error → Prop :=
| Not_stored e : stored x [Obs (StatusUpdateUpgrade x) (Err e)] (Some e)
| Stored_bare v :
    ContainsFinalizer (ur_Meta v) OperationFinalizer = false →
    stored x [Obs (StatusUpdateUpgrade x) (Ok v)] None
| Stored v w :
    ContainsFinalizer (ur_Meta v) OperationFinalizer = true →
    stored x [Obs (UpdateUpgrade (ur_set_Meta (RemoveFinalizer (ur_Meta v) OperationFinalizer) v)) (Ok w);
              Obs (StatusUpdateUpgrade x) (Ok v)] None
| Stored_held v e :
    ContainsFinalizer (ur_Meta v) OperationFinalizer = true →
    stored x [Obs (UpdateUpgrade (ur_set_Meta (RemoveFinalizer (ur_Meta v) OperationFinalizer) v)) (Err e);
              Obs (StatusUpdateUpgrade x) (Ok v)] (Some e).
Definition failure_made u reason message h (o : outcome Reply) (h' : list event) : Prop :=
  ∃ d d' x err, o = Done (done_result, err) ∧ h' = d' ++ d ++ h
    ∧ failure u reason message d x ∧ failed_with reason message x ∧ stored x d' err.

Lemma finish_stored u reason message d x h :
  failure u reason message d x → failed_with reason message x →
  wp any free (finish x) (d ++ h) (failure_made u reason message h).
Proof.
  intros Hf Hx. unfold finish. cbn. split; [done|]. intros [v|e] _; cbn.
  2:{ exists d, [Obs (StatusUpdateUpgrade x) (Err e)], x, (Some e). by repeat (split; [done|]); constructor. }
  destruct (ContainsFinalizer (ur_Meta v) OperationFinalizer) eqn:Hc; cbn.
  - split; [done|]. intros [w|e] _; cbn;
      (eexists d, [_; _], x, _; split; [done|]; split; [done|]; do 2 (split; [done|]); by constructor).
  - eexists d, [_], x, _. split; [done|]. split; [done|]. do 2 (split; [done|]). by constructor.
Qed.

(** C26: what a failure does, call by call.  After the commit: the application is read and, if
    it wants automatic rollbacks, one is created, owned by the request and naming it; the
    Kustomization is left alone.  Before the commit: if the request says it is suspended, the
    Kustomization of the application is read and resumed.  Then a status is stored that has
    Complete false with the reason and the message, and after the commit a note of the rollback,
    before it Suspended false if the Kustomization was resumed; all else is as it was.  Then
    the finalizer is taken off what was stored.  Nothing else is called, there is no panic, and
    the error answered is that of the status write, or of the update after it. *)
Theorem setFailed_effects u reason message h :
  wp any free (setFailed u reason message) h (failure_made u reason message h).
Proof.
  unfold setFailed. destruct (cond_true u ConditionTypeGitCommitted) eqn:Hcm.
  - assert (∀ d note, after_commit u d note →
      wp any free (finish (generation_cond u ConditionTypeComplete ConditionFalse reason
                             (message +:+ note))) (d ++ h) (failure_made u reason message h)) as Hfin.
    { intros d note Hd. apply finish_stored; [|apply failed_set]. unfold failure. rewrite Hcm.
      by exists note. }
    unfold post_commit_message, getManagedApp, createAutoRollback. cbn. split; [done|].
    intros [app|e] _; cbn; [|apply (Hfin [_]); constructor].
    destruct (as_AutoRollback _) eqn:Hauto; cbn; [|apply (Hfin [_]); by constructor].
    split; [done|]. intros now _. split; [done|].
    intros [rb|e] _; cbn; apply (Hfin [_; _; _]); constructor; by exists app, now, [].
  - set (y := generation_cond u ConditionTypeComplete ConditionFalse reason message).
    assert (failed_with reason message y) as Hy.
    { pose proof (failed_set u reason message "") as Hf. by rewrite string_app_nil in Hf. }
    assert (cond_true y ConditionTypeSuspended = cond_true u ConditionTypeSuspended) as Hs.
    { unfold y. rewrite !cond_true_flagged, flagged_set. by seqb_lits. }
    assert (∀ d, before_commit u d false →
      wp any free (finish y) (d ++ h) (failure_made u reason message h)) as Hno.
    { intros d Hd. apply finish_stored; [|done]. unfold failure. rewrite Hcm. by exists false. }
    assert (∀ d, before_commit u d true →
      wp any free (finish (generation_cond y ConditionTypeSuspended ConditionFalse
        "ResumedAfterFailure" "Kustomization resumed after upgrade failure")) (d ++ h)
        (failure_made u reason message h)) as Hyes.
    { intros d Hd. apply finish_stored; [|by apply failed_other]. unfold failure. rewrite Hcm.
      by exists true. }
    unfold resume_if_suspended. rewrite Hs.
    destruct (cond_true u ConditionTypeSuspended) eqn:Hsu; [|by apply (Hno []); constructor].
    cbn. split; [done|]. change (app_key y) with (app_key u).
    intros [app|e] _; cbn; [|apply (Hno [_]); by constructor].
    destruct (getSuspendTarget app) as [name ns] eqn:Ht. unfold ResumeKustomization. cbn.
    replace (mkKey name ns) with (suspend_key app) by (unfold suspend_key; by rewrite Ht).
    split; [done|]. intros [ks|e] _; cbn; [|apply (Hno [_; _]); by constructor].
    destruct (ks_Suspend ks) eqn:Hk; cbn; [|apply (Hyes [_; _]); by constructor].
    split; [done|]. intros [ks'|e] _; cbn; [|apply (Hno [_; _; _]); by constructor].
    split; [done|]. intros again _. apply (Hyes [_; _; _; _]). by constructor.
Qed.
End failure.

(** ** The health-check time-out *)

Section health_timeout.
Context {P : Platform} {PL : PlatformLaws P} {D : Decoders} {Y : Kyaml}.

(** A request that fails with HealthCheckTimeout was watched that long by this reconcile. *)
Definition timed_out_here (u : UpgradeRequest) : guarantee ev := λ h R e,
  match e with
  | StatusUpdateUpgrade x =>
      ∀ m, failed_with "HealthCheckTimeout" m x →
      ∃ app t0 t1, In (Obs (GetApp (app_key u)) (Ok app)) h ∧ In (Obs Now t0) h
                   ∧ In (Obs Now t1) h ∧ health_timeout app < t1 - t0
  | _ => True
  end.

Definition waits_unrecorded (o : outcome Reply) (h : list event) : Prop :=
  o = Done (requeue_after (10 * Second), None) → calls KStatusUpgrade h = [].

Lemma not_failed (u : UpgradeRequest) c :
  is_terminal u = false → condition u ConditionTypeComplete = Some c →
  c_Status c ≠ ConditionFalse.
Proof.
  unfold is_terminal. intros Ht Hf Hs. rewrite Hf, Hs in Ht.
  by rewrite orb_true_r in Ht.
Qed.

Lemma setFailed_not_timeout u v reason message h :
  reason ≠ "HealthCheckTimeout" →
  wp any (timed_out_here u) (setFailed v reason message) h waits_unrecorded.
Proof.
  intros Hr. eapply wp_mono; [apply setFailed_failure| |].
  - intros h' R e He. destruct e; try exact I. intros m Hf. exfalso. apply Hr.
    by eapply failed_with_reason.
  - intros o h' Hrep Ho. destruct (Hrep _ Ho) as [Hc _]. discriminate Hc.
Qed.

(** The health-check time-out never accumulates.  The wait does not store
    PhaseStartedAt, so a request that arrives without it fails with HealthCheckTimeout
    only if the whole time-out passed between two looks at the clock of one reconcile. *)
Theorem health_timeout_never_accumulates u :
  ust_PhaseStartedAt (ur_Status u) = None → is_terminal u = false →
  wp any (timed_out_here u) (handleHealthChecking u) [] waits_unrecorded.
Proof.
  intros Hp Hterm. unfold handleHealthChecking, setPhaseStartIfNeeded.
  change (op_PhaseStartedAt (op_Status u)) with (ust_PhaseStartedAt (ur_Status u)). rewrite Hp.
  unfold getManagedApp. cbn [bind call wp].
  split; [done|]. intros t0 _. split; [done|]. intros [app|e] _.
  2:{ by apply setFailed_not_timeout. }
  change (app_key _) with (app_key u). set (h1 := Obs (GetApp _) (Ok app) :: _).
  eapply (wp_emits_bind (within health_kinds));
    [by apply CheckHealth_within|intros ? ? e _ He; by destruct e|by intros|].
  intros [res|e] d Hd; [|by apply setFailed_not_timeout].
  destruct (hr_Healthy res); cbn [negb].
  - unfold update_then. cbn [bind call wp]. split; [done|]. intros now _. split.
    2:{ intros [v|e] _ Ho; simplify_eq/=. }
    intros m (c & more & Hf & Hs & _). exfalso.
    rewrite condition_other in Hf by done.
    apply (not_failed u c); [done| |done]. rewrite <- Hf.
    by destruct (ust_Upgrade _).
  - unfold isPhaseTimedOut. cbn [op_PhaseStartedAt op_Status op_set_PhaseStartedAt
      upgrade_operation ust_PhaseStartedAt ust_set_PhaseStartedAt ur_set_Status ur_Status
      bind call wp]. split; [done|]. intros t1 _.
    destruct (Z.ltb_spec (health_timeout app) (t1 - t0)) as [Hlt|_].
    + set (seen := λ h, In (Obs (GetApp (app_key u)) (Ok app)) h
                        ∧ In (Obs Now t0) h ∧ In (Obs Now t1) h).
      eapply wp_mono; [eapply (wp_invariant _ _ seen); [apply setFailed_failure| |]| |].
      * unfold seen; cbn. rewrite !in_app_iff; cbn. tauto.
      * unfold seen; cbn. tauto.
      * intros h R e [_ (H1 & H2 & H3)]. destruct e; try exact I. intros m _.
        by exists app, t0, t1.
      * intros o h [Hrep _] Ho. destruct (Hrep _ Ho) as [Hc _]. discriminate Hc.
    + intros _. change (calls KStatusUpgrade ([Obs Now t1] ++ d ++ h1) = []).
      by rewrite !calls_app, (calls_within health_kinds KStatusUpgrade d).
Qed.
End health_timeout.

(** ** Automatic discovery without pods *)

Section no_pods.
Context {P : Platform} {PL : PlatformLaws P} {D : Decoders} {Y : Kyaml}.

(** The application lists no claims of its own, and no pod runs. *)
Definition no_pods : protocol ev := λ _ R e,
  match e in ev R return R → Prop with
  | ListPods _ _ => λ a, a = Ok []
  | GetApp _ => λ a, match a with Ok app => has_explicit_pvcs app = false | Err _ => True end
  | _ => λ _, True
  end.

Lemma collect_without_pods ws ns m h :
  wp no_pods free (collect_workloads ws ns m) h (λ o _, o = Done m).
Proof.
  revert h. induction ws as [|w ws IH]; intros h; cbn [collect_workloads]; [done|].
  unfold findPodsForWorkload. cbn [bind call wp]. split; [done|]. intros a ->. cbn. apply IH.
Qed.

Lemma findPVCs_without_pods ws ns h :
  wp no_pods free (findPVCsForWorkloads ws ns) h (λ o _, o = Done (Ok [])).
Proof.
  unfold findPVCsForWorkloads. rewrite wp_bind.
  eapply wp_mono; [apply collect_without_pods|done|]. intros o h' ->. cbn.
  split; [done|]. intros [l Hl] _. cbn.
  rewrite map_to_list_empty in Hl. cbn in Hl. apply Permutation.Permutation_sym in Hl.
  by apply Permutation.Permutation_nil in Hl as ->.
Qed.

Definition nothing (o : outcome (res (list PVCInfo))) (h : list event) : Prop :=
  (∃ e, o = Done (Err e)) ∨ o = Done (Ok []).

Lemma DiscoverPVCs_without_pods app h :
  has_explicit_pvcs app = false → wp no_pods free (DiscoverPVCs app) h nothing.
Proof.
  intros Hex. unfold DiscoverPVCs. rewrite Hex, wp_bind.
  assert (∀ ws ns h, wp no_pods free (findPVCsForWorkloads ws ns) h nothing) as Hfind.
  { intros. eapply wp_mono; [apply findPVCs_without_pods|done|]. by right. }
  assert (∀ e h, nothing (Done (Err e)) h) as Herr by (intros e h'; left; by exists e).
  assert (∀ h, nothing (Done (Ok [])) h) as Hnil by (intros h'; by right).
  eapply wp_mono with (G := free) (Q := nothing); [|done|].
  2:{ intros o h' [[e ->]| ->]; cbn; auto. }
  destruct (as_HelmReleaseRef (app_Spec app)) eqn:Href.
  - unfold discoverPVCsFromHelmRelease, findHelmReleaseSecret. rewrite Href.
    cbn [bind call wp]. split; [done|]. intros [secrets|e] _; cbn [bind wp]; [|auto].
    destruct (latest_secret _ _ _ _); cbn [bind wp]; [|auto].
    destruct (decodeHelmReleaseSecret _); cbn [wp]; auto.
  - unfold discoverPVCsFromKustomization. cbn [bind call wp]. split; [done|].
    intros [ks|e] _; cbn [wp]; [|auto].
    destruct (ks_Inventory ks) as [[|id ids]|]; cbn [wp]; auto.
Qed.

(** Snapshots are skipped in silence.  When the pods are gone, as scaling down leaves
    them, an application that relies on automatic discovery gets no snapshot: the phase
    creates none, and if it goes on it has stored SnapshotReady true. *)
Theorem no_pods_no_snapshot u h :
  recorded_snapshots u = [] →
  wp no_pods (λ _ R e, kind_of e ≠ KCreateSnapshot) (handleSnapshotting u) h
    (λ o h', o = Done (requeue_now, None) →
       ∃ x v, In (Obs (StatusUpdateUpgrade x) (Ok v)) h'
              ∧ cond_true x ConditionTypeSnapshotReady = true).
Proof.
  intros Hrec. unfold handleSnapshotting.
  assert (∀ v reason message h,
    wp no_pods (λ _ R e, kind_of e ≠ KCreateSnapshot) (setFailed v reason message) h
      (λ o h', o = Done (requeue_now, None) →
         ∃ x v, In (Obs (StatusUpdateUpgrade x) (Ok v)) h'
                ∧ cond_true x ConditionTypeSnapshotReady = true)) as Hfail.
  { intros. apply (wp_protocol any); [|done].
    eapply wp_mono; [apply setFailed_failure| |].
    - intros h' R e He. by destruct e.
    - intros o h' Hrep Ho. destruct (Hrep _ Ho) as [Hc _]. discriminate Hc. }
  rewrite wp_bind.
  eapply wp_mono with (G := λ _ R e, kind_of e ≠ KCreateSnapshot) (Q := λ o _, ∃ v, o = Done v ∧ recorded_snapshots v = []).
  { unfold setPhaseStartIfNeeded. destruct (op_PhaseStartedAt _); cbn; [by eauto|].
    split; [done|]. intros t _. eexists. split; [done|]. done. }
  { done. }
  intros o h1 (v & -> & Hv). unfold getManagedApp. cbn [bind call wp].
  split; [done|]. intros [app|e] Happ; [|apply Hfail]. rewrite Hv. change (len (@nil PVCSnapshotInfo) =? 0) with true. cbn iota.
  rewrite wp_bind. eapply wp_mono; [apply (wp_emits_guard (within discovery_kinds))| |].
  { by apply DiscoverPVCs_without_pods. }
  { by apply DiscoverPVCs_within. }
  { intros h' R e He. by apply (within_not discovery_kinds). }
  intros o h2 [[e ->]| ->]; [apply Hfail|]. change (len (@nil PVCInfo) =? 0) with true. cbn iota.
  unfold update_then. cbn [bind call wp]. split; [done|]. intros [w|e] _ Ho; [|done].
  eexists _, w. split; [by left|]. rewrite cond_true_flagged, flagged_set. by seqb_lits.
Qed.
End no_pods.

(** ** Whole runs on the model cluster *)

#[local] Existing Instance reference.
#[local] Existing Instance no_helm.
#[local] Existing Instance two_lines.

(** The model cluster after twelve reconciles of its request. *)
Definition shop_after (dry : bool) : cluster := final (shop_run dry 12).

(** On the model cluster an upgrade runs to completion: the file holds the new version,
    Flux is resumed, and the application reports the new version; but the request, though
    finished, holds the finalizer again, which the next reconcile added back. *)
Theorem shop_upgrade_completes :
  let w := shop_after false in
  cl_file w = shop_doc "1.1.0"
  ∧ map ks_Suspend (cl_ks w) = [false]
  ∧ ast_CurrentVersion (app_Status (cl_app w)) = Some (mkVersionInfo "1.1.0" [])
  ∧ (∃ u, cl_upgrade w = Some u ∧ cond_true u ConditionTypeComplete = true
          ∧ ContainsFinalizer (ur_Meta u) OperationFinalizer = true)
  ∧ cl_snapshots w = [].
Proof. vm_compute. repeat (split || eexists). Qed.

(** On the same cluster a dry run succeeds and leaves the file as it was, but the
    workload it scaled down stays at zero: once its pods are gone, discovery by pods no
    longer finds it and the scale-up phase is skipped. *)
Theorem shop_dry_run_leaves_workload_down :
  let w := shop_after true in
  cl_file w = shop_doc "1.0.0"
  ∧ map ks_Suspend (cl_ks w) = [false]
  ∧ (∃ u, cl_upgrade w = Some u ∧ cond_true u ConditionTypeComplete = true)
  ∧ map w_Replicas (cl_deployments (shop_cluster true "")) = [Some 2]
  ∧ map w_Replicas (cl_deployments w) = [Some 0].
Proof. vm_compute. repeat (split || eexists). Qed.

(** ** The theorems about failures at work *)

(** The upgrade of the shop once suspended, and once committed, and the cluster where it is. *)
Definition shop_at (committed : bool) : UpgradeRequest :=
  let u := generation_cond (shop_upgrade false) ConditionTypeSuspended ConditionTrue "" "" in
  if committed then generation_cond u ConditionTypeGitCommitted ConditionTrue "" "" else u.
Definition shop_suspended : cluster :=
  let w := shop_cluster false (shop_doc "1.0.0") in with_ks (map (ks_set_Suspend true) (cl_ks w)) w.
Definition failing (committed : bool) : outcome Reply * cluster * list event :=
  run env (setFailed (shop_at committed) "SuspendFailed" "no") shop_suspended [].
Lemma setFailed_effects_witness :
  (∀ committed, let '(o, _, h) := failing committed in
                failure_made (shop_at committed) "SuspendFailed" "no" [] o h)
  ∧ map ks_Suspend (cl_ks (final (failing false))) = [false]
  ∧ cl_rollback (final (failing false)) = None
  ∧ map ks_Suspend (cl_ks (final (failing true))) = [true]
  ∧ (rb_Spec <$> cl_rollback (final (failing true)))
    = Some (mkRollbackRequestSpec (mkObjectReference "shop-upgrade" "") true false)
  ∧ (cl_upgrade (final (failing true)) ≫= λ u, c_Message <$> condition u ConditionTypeComplete)
    = Some "no - auto-rollback initiated".
Proof.
  split; [|vm_compute; by repeat split].
  intros committed. unfold failing.
  pose proof (run_any free env (setFailed (shop_at committed) "SuspendFailed" "no") shop_suspended []
    _ I (setFailed_effects (shop_at committed) "SuspendFailed" "no" [])) as Hrun.
  destruct (run _ _ _ _) as [[o w] h]. by destruct Hrun.
Defined.

Lemma health_timeout_never_accumulates_witness :
  wp any (timed_out_here (shop_upgrade false)) (handleHealthChecking (shop_upgrade false)) []
    waits_unrecorded.
Proof. apply (health_timeout_never_accumulates (shop_upgrade false)); reflexivity. Defined.

Lemma no_pods_no_snapshot_witness :
  wp no_pods (λ _ R e, kind_of e ≠ KCreateSnapshot) (handleSnapshotting (shop_upgrade false)) []
    (λ o h', o = Done (requeue_now, None) →
       ∃ x v, In (Obs (StatusUpdateUpgrade x) (Ok v)) h'
              ∧ cond_true x ConditionTypeSnapshotReady = true).
Proof. apply (no_pods_no_snapshot (shop_upgrade false) []). reflexivity. Defined.
