(* ===== verification/Rollback.v ===== *)
(** * internal/controller/rollbackrequest_controller.go

The reconciler of RollbackRequests.  As in [Upgrade], each handler is the Go method of the
same name, the request it mutates through a pointer is passed along explicitly, and a
handler answers the [(ctrl.Result, error)] pair.  A finished UpgradeRequest says what to
restore: the snapshots it took and the version it replaced. *)

From S2P Require Import Prelude GoLib Api Platform Footprint Discovery Workload Flux Snapshot Health.
From S2P Require Import Yaml Git Controller Operation Guard Quiesce.

Section rollback.
Context {P : Platform} {D : Decoders} {Y : Kyaml}.
Variable r : Reconciler.

(** ** The upgrade that is rolled back *)

Definition upgrade_key (rollback : RollbackRequest) : NamespacedName :=
  let ref := rs_UpgradeRequestRef (rb_Spec rollback) in
  mkKey (ref_Name ref) (or_default (ref_Namespace ref) (om_Namespace (rb_Meta rollback))).
Definition getUpgradeRequest (rollback : RollbackRequest) : M (res UpgradeRequest) :=
  call (GetUpgrade (upgrade_key rollback)).

Definition isUpgradeTerminal (upgrade : UpgradeRequest) : bool :=
  match FindStatusCondition (ust_Conditions (ur_Status upgrade)) ConditionTypeComplete with
  | Some _ => true
  | None => false
  end.

Definition getVersionString (v : option VersionInfo) : string :=
  match v with
  | None => unknownVersion
  | Some v =>
      if negb (vi_Chart v =?s "") then vi_Chart v
      else match vi_Images v with image :: _ => ii_Tag image | [] => unknownVersion end
  end.

(** [upgrade.Status.Snapshot == nil || len(upgrade.Status.Snapshot.PVCSnapshots) == 0] *)
Definition no_snapshots (upgrade : UpgradeRequest) : bool :=
  len (recorded_snapshots upgrade) =? 0.
(** [upgrade.Spec.SkipSnapshot || ...]: is there nothing to restore? *)
Definition no_volumes (upgrade : UpgradeRequest) : bool :=
  us_SkipSnapshot (ur_Spec upgrade) || no_snapshots upgrade.

(** [upgrade.Status.Upgrade == nil || upgrade.Status.Upgrade.PreviousVersion == nil] *)
Definition no_previous_version (upgrade : UpgradeRequest) : bool :=
  match ust_Upgrade (ur_Status upgrade) with
  | None => true
  | Some up => match ups_PreviousVersion up with None => true | Some _ => false end
  end.

(** ** Preflight *)

(** Every snapshot to restore is there and ready; otherwise the error. *)
Fixpoint check_snapshots (snaps : list PVCSnapshotInfo) (namespace : string)
    : M (option error) :=
  match snaps with
  | [] => Ret None
  | snap :: snaps =>
      let? ready := IsSnapshotReady (psi_SnapshotName snap) namespace
        orelse err => Ret (Some (Errorf_w ("snapshot " +:+ psi_SnapshotName snap
                                   +:+ " no longer exists or cannot be checked: ") err)) in
      if negb ready
      then Ret (Some (ErrNew ("snapshot " +:+ psi_SnapshotName snap +:+ " is not ready")))
      else check_snapshots snaps namespace
  end.

Definition runRollbackPreflight (app : ManagedApp) (upgrade : UpgradeRequest)
    : M (res preflightResult) :=
  let ksRef := as_KustomizationRef (app_Spec app) in
  let ksNS := or_default (ref_Namespace ksRef) DefaultFluxNamespace in
  let? flux := fluxPreflight app orelse err => Ret (Err err) in
  let '(warnings, ksStatus) := flux in
  let head := "Kustomization " +:+ ksNS +:+ "/" +:+ ref_Name ksRef +:+ " " +:+ ksStatus in
  let snaps := recorded_snapshots upgrade in
  let hasSnapshots := (0 <? len snaps) && negb (us_SkipSnapshot (ur_Spec upgrade)) in
  if hasSnapshots then
    check check_snapshots snaps (om_Namespace (app_Meta app)) orelse err => Ret (Err err) in
    let? workloads := DiscoverWorkloadsForPVCs (map psi_PVCName snaps) (om_Namespace (app_Meta app))
      orelse err => Ret (Err (Errorf_w "workload discovery for PVCs failed: " err)) in
    let summary := head +:+ ". " +:+ itoa (len snaps) +:+ " snapshots to restore, "
                   +:+ itoa (len workloads) +:+ " workloads to scale" in
    Ret (Ok (mkPreflight workloads [] [summary] warnings))
  else Ret (Ok (mkPreflight [] [] [head +:+ ". No snapshots to restore"] warnings)).

(** The version a rollback writes: the chart, or the tag of the first image. *)
Definition revert_version (v : VersionInfo) : option string :=
  if negb (vi_Chart v =?s "") then Some (vi_Chart v)
  else match vi_Images v with image :: _ => Some (ii_Tag image) | [] => None end.

Definition runRollbackGitDiffPreview (app : ManagedApp) (upgrade : UpgradeRequest)
    : M (res (string * string * string)) :=
  let* up := deref "upgrade.Status.Upgrade" (ust_Upgrade (ur_Status upgrade)) in
  match ups_PreviousVersion up with
  | None => Ret (Err (ErrNew "no previous version recorded"))
  | Some targetVersion =>
      let versionPath := version_path app in
      match revert_version targetVersion with
      | None => Ret (Err (ErrNew "no chart version or images in previous version"))
      | Some revertVersion =>
          let path := as_GitPath (app_Spec app) in
          let? content := git_ReadFile r path
            orelse err => Ret (Err (Errorf_w ("cannot read Git file " +:+ path +:+ ": ") err)) in
          match GetVersion content versionPath with
          | Err err =>
              Ret (Err (Errorf_w ("cannot read version at path " +:+ versionPath +:+ ": ") err))
          | Ok currentVersion =>
              match UpdateVersion content versionPath revertVersion with
              | Err err => Ret (Err (Errorf_w "version revert would produce invalid YAML: " err))
              | Ok _ => Ret (Ok (currentVersion, revertVersion, versionPath))
              end
          end
      end
  end.

(** ** Failure *)

Definition setFailed (u : RollbackRequest) (reason message : string) : M Reply :=
  finish (generation_cond u ConditionTypeComplete ConditionFalse reason message).

(** ** Dry run *)

Definition setRollbackDryRunFailed := dry_run_failed setFailed.
Definition rollbackDryRunSuspend := dry_run_suspend setFailed.
Definition rollbackDryRunScaleDown := dry_run_scale_down setFailed.
Definition rollbackDryRunScaleUp := dry_run_scale_up setFailed.
Definition rollbackDryRunResumeAndComplete := dry_run_complete setFailed "rollback".
Definition runRollbackDryRunQuiescence := dry_run_quiescence setFailed "rollback".

Definition handleDryRun (u : RollbackRequest) : M Reply :=
  let? upgrade := getUpgradeRequest u
    orelse err => setFailed u "UpgradeRequestNotFound" (Error err) in
  if negb (isUpgradeTerminal upgrade) then
    setFailed u "UpgradeInProgress" "Cannot rollback an in-progress upgrade"
  else if no_snapshots upgrade then
    setFailed u "NoSnapshotsAvailable" "UpgradeRequest has no snapshots to restore from"
  else if no_previous_version upgrade then
    setFailed u "NoPreviousVersion" "UpgradeRequest has no previous version recorded"
  else
    let? app := getManagedApp upgrade orelse err => setFailed u "ManagedAppNotFound" (Error err) in
    let? versions :=
      (if r_GitManager r then runRollbackGitDiffPreview app upgrade else Ret (Ok ("", "", "")))
      orelse err => setFailed u "PreflightFailed" (Error err) in
    let '(currentVersion, revertVersion, versionPath) := versions in
    let? preflight := runRollbackPreflight app upgrade
      orelse err => setFailed u "PreflightFailed" (Error err) in
    runRollbackDryRunQuiescence u app preflight currentVersion revertVersion versionPath.

(** ** The phases of a rollback *)

(** [if rollback.Status.StartedAt == nil { ... }] *)
Definition set_started (u : RollbackRequest) : M RollbackRequest :=
  match rst_StartedAt (rb_Status u) with
  | None => let* now := call Now in
            Ret (rb_set_Status (rst_set_StartedAt (Some now) (rb_Status u)) u)
  | Some _ => Ret u
  end.

Definition handleSuspend (u : RollbackRequest) : M Reply :=
  let* u := set_started u in
  let? upgrade := getUpgradeRequest u
    orelse err => setFailed u "UpgradeRequestNotFound" (Error err) in
  if negb (isUpgradeTerminal upgrade) then
    setFailed u "UpgradeInProgress" "Cannot rollback an in-progress upgrade"
  else
    let? app := getManagedApp upgrade orelse err => setFailed u "ManagedAppNotFound" (Error err) in
    if negb (us_SkipSnapshot (ur_Spec upgrade)) && no_snapshots upgrade then
      setFailed u "NoSnapshotsAvailable" "UpgradeRequest has no snapshots to restore from"
    else if no_previous_version upgrade then
      setFailed u "NoPreviousVersion" "UpgradeRequest has no previous version recorded"
    else
      let* up := deref "upgrade.Status.Upgrade" (ust_Upgrade (ur_Status upgrade)) in
      let from := mkRestoredFromStatus (om_Name (ur_Meta upgrade)) (ups_PreviousVersion up)
                    (ups_NewVersion up) in
      let u := rb_set_Status (rst_set_RestoredFrom (Some from) (rb_Status u)) u in
      let? _v :=
        (if r_GitManager r then runRollbackGitDiffPreview app upgrade else Ret (Ok ("", "", "")))
        orelse err => setFailed u "PreflightFailed" (Error err) in
      let? _p := runRollbackPreflight app upgrade
        orelse err => setFailed u "PreflightFailed" (Error err) in
      let '(suspendName, suspendNS) := getSuspendTarget app in
      check SuspendKustomization suspendName suspendNS
        orelse err => setFailed u "SuspendFailed" (Error err) in
      let u := generation_cond u ConditionTypeSuspended ConditionTrue "KustomizationSuspended"
                 ("Suspended " +:+ suspendNS +:+ "/" +:+ suspendName) in
      let u :=
        if no_volumes upgrade
        then generation_cond u ConditionTypeVolumesRestored ConditionTrue "VolumesSkipped"
               "No snapshots to restore (upgrade had skipSnapshot=true or no snapshots)"
        else u in
      update_then u requeue_now.

Definition handleStopWorkload (u : RollbackRequest) : M (RollbackRequest * Reply * bool) :=
  let* u := setPhaseStartIfNeeded u in
  let? upgrade := getUpgradeRequest u
    orelse err => stop_here u (setFailed u "UpgradeRequestNotFound" (Error err)) in
  let? app := getManagedApp upgrade
    orelse err => stop_here u (setFailed u "ManagedAppNotFound" (Error err)) in
  if no_volumes upgrade then
    stop_skipped u "NoVolumesToRestore" "Workload stop skipped (no volumes to restore)"
  else
    let pvcNames := map psi_PVCName (recorded_snapshots upgrade) in
    let? workloads := DiscoverWorkloadsForPVCs pvcNames (om_Namespace (app_Meta app))
      orelse err => stop_here u (setFailed u "WorkloadDiscoveryFailed" (Error err)) in
    if len workloads =? 0 then
      stop_skipped u "NoWorkloadsFound" "No workloads found mounting the PVCs"
    else stop_workloads setFailed u workloads (om_Namespace (app_Meta app)).

(** *** Volumes *)

Definition set_VolumeRestore (vr : VolumeRestoreStatus) (u : RollbackRequest) : RollbackRequest :=
  rb_set_Status (rst_set_VolumeRestore (Some vr) (rb_Status u)) u.
Definition set_RestoredPVCs (pvcs : list RestoredPVCInfo) (vr : VolumeRestoreStatus)
    : VolumeRestoreStatus :=
  mkVolumeRestoreStatus pvcs (vr_StartedAt vr) (vr_CompletedAt vr).
(** [rollback.Status.VolumeRestore], which the code does not test again *)
Definition volume_restore (u : RollbackRequest) : M VolumeRestoreStatus :=
  deref "rollback.Status.VolumeRestore" (rst_VolumeRestore (rb_Status u)).

(** [if rollback.Status.VolumeRestore == nil { ... }] *)
Definition init_volume_restore (u : RollbackRequest) : M RollbackRequest :=
  match rst_VolumeRestore (rb_Status u) with
  | None => let* now := call Now in
            Ret (set_VolumeRestore (mkVolumeRestoreStatus [] (Some now) None) u)
  | Some _ => Ret u
  end.

Definition already_restored (name : string) (restored : list RestoredPVCInfo) : bool :=
  existsb (λ r, rpi_PVCName r =?s name) restored.

(** [DeletePVC], where a claim that is already gone is no error *)
Definition delete_claim (name namespace : string) : M (option error) :=
  check DeletePVC name namespace
    orelse err => Ret (if IsNotFound err then None else Some err) in
  Ret None.

(** Leave a loop with the handler's reply. *)
Definition stop_with (p : M Reply) : M (RollbackRequest + Reply) :=
  let* reply := p in Ret (inr reply).

(** The request that recreates a claim, under its old name, from its snapshot. *)
Definition restore_request (app : ManagedApp) (snap : PVCSnapshotInfo) : RestoreRequest :=
  let ns := om_Namespace (app_Meta app) in
  mkRestoreRequest (psi_SnapshotName snap) ns (psi_PVCName snap) ns ""
    {[ "fluxup.dev/restored-from" := psi_SnapshotName snap ]}.

(** The wait for a claim: ask again later, or fail when the phase has timed out. *)
Definition wait_volume (u : RollbackRequest) (reason message : string)
    : M (RollbackRequest + Reply) :=
  let* timedOut := isPhaseTimedOut u TimeoutVolumeRestore in
  stop_with (if timedOut then setFailed u reason message
             else Ret (requeue_after (10 * Second), None)).

(** Once its deletion was asked for: when the claim is gone, create it from the snapshot
    and record that in the status. *)
Definition recreate_claim (app : ManagedApp) (snap : PVCSnapshotInfo) (vr : VolumeRestoreStatus)
    (u : RollbackRequest) : M (RollbackRequest + Reply) :=
  let? deleted := IsPVCDeleted (psi_PVCName snap) (om_Namespace (app_Meta app))
    orelse err => stop_with (setFailed u "PVCDeleteCheckFailed" (Error err)) in
  if negb deleted then wait_volume u "PVCDeleteTimeout" "PVC deletion timed out"
  else
    let? _pvc := RestorePVCFromSnapshot (restore_request app snap)
      orelse err => stop_with (setFailed u "PVCRestoreFailed" (Error err)) in
    let info := mkRestoredPVCInfo (psi_PVCName snap) (psi_SnapshotName snap) "Pending" in
    let u := set_VolumeRestore (set_RestoredPVCs (vr_RestoredPVCs vr ++ [info]) vr) u in
    let? u := call (StatusUpdateRollback u)
      orelse err => Ret (inr (done_result, Some err)) in
    Ret (inl u).

(** The body of the loop over the upgrade's snapshots. *)
Definition restore_one (app : ManagedApp) (snap : PVCSnapshotInfo) (u : RollbackRequest)
    : M (RollbackRequest + Reply) :=
  let* vr := volume_restore u in
  if already_restored (psi_PVCName snap) (vr_RestoredPVCs vr) then Ret (inl u)
  else
    check delete_claim (psi_PVCName snap) (om_Namespace (app_Meta app))
      orelse err => stop_with (setFailed u "PVCDeleteFailed" (Error err)) in
    recreate_claim app snap vr u.

(** The loop that waits for the claims to be bound; it marks those that are, in place.
    [before] are the claims already looked at. *)
Fixpoint await_bound (app : ManagedApp) (u : RollbackRequest)
    (before after : list RestoredPVCInfo) : M (RollbackRequest + Reply) :=
  match after with
  | [] => Ret (inl u)
  | x :: after =>
      if rpi_RestorationState x =?s "Restored" then await_bound app u (before ++ [x]) after
      else
        let? bound := IsPVCBound (rpi_PVCName x) (om_Namespace (app_Meta app))
          orelse err => stop_with (setFailed u "PVCBoundCheckFailed" (Error err)) in
        if negb bound then wait_volume u "PVCBindTimeout" "PVC binding timed out"
        else
          let x := mkRestoredPVCInfo (rpi_PVCName x) (rpi_SnapshotName x) "Restored" in
          let* vr := volume_restore u in
          let u := set_VolumeRestore (set_RestoredPVCs (before ++ x :: after) vr) u in
          await_bound app u (before ++ [x]) after
  end.

(** The claims are restored and bound: the phase is over. *)
Definition volumes_restored (u : RollbackRequest) : M Reply :=
  let u := resetPhaseStart u in
  let* now := call Now in
  let* vr := volume_restore u in
  let u := set_VolumeRestore
             (mkVolumeRestoreStatus (vr_RestoredPVCs vr) (vr_StartedAt vr) (Some now)) u in
  let u := generation_cond u ConditionTypeVolumesRestored ConditionTrue "AllPVCsRestored"
             ("Restored " +:+ itoa (len (vr_RestoredPVCs vr)) +:+ " PVCs from snapshots") in
  update_then u requeue_now.

Definition handleVolumeRestore (u : RollbackRequest) : M Reply :=
  let* u := setPhaseStartIfNeeded u in
  let? upgrade := getUpgradeRequest u
    orelse err => setFailed u "UpgradeRequestNotFound" (Error err) in
  let? app := getManagedApp upgrade orelse err => setFailed u "ManagedAppNotFound" (Error err) in
  let '(suspendName, suspendNS) := getSuspendTarget app in
  check VerifyStillSuspended suspendName suspendNS
    orelse err => setFailed u "SuspendVerificationFailed" (Error err) in
  let* u := init_volume_restore u in
  let* st := deref "upgrade.Status.Snapshot" (ust_Snapshot (ur_Status upgrade)) in
  let* restored := for_each (sns_PVCSnapshots st) u (restore_one app) in
  match restored with
  | inr reply => Ret reply
  | inl u =>
      let* vr := volume_restore u in
      let* bound := await_bound app u [] (vr_RestoredPVCs vr) in
      match bound with
      | inr reply => Ret reply
      | inl u => volumes_restored u
      end
  end.

(** *** Git and Flux *)

(** The version that the rollback replaces, for the commit message. *)
Definition rolled_back_version (targetVersion : VersionInfo) (new : option VersionInfo) : string :=
  match new with
  | None => ""
  | Some v =>
      if negb (vi_Chart targetVersion =?s "") then vi_Chart v
      else match vi_Images v with image :: _ => ii_Tag image | [] => "" end
  end.

Definition handleGitRevert (u : RollbackRequest) : M Reply :=
  let? upgrade := getUpgradeRequest u
    orelse err => setFailed u "UpgradeRequestNotFound" (Error err) in
  let? app := getManagedApp upgrade orelse err => setFailed u "ManagedAppNotFound" (Error err) in
  let '(suspendName, suspendNS) := getSuspendTarget app in
  check VerifyStillSuspended suspendName suspendNS
    orelse err => setFailed u "SuspendVerificationFailed" (Error err) in
  let* up := deref "upgrade.Status.Upgrade" (ust_Upgrade (ur_Status upgrade)) in
  match ups_PreviousVersion up with
  | None => setFailed u "NoPreviousVersion" "UpgradeRequest has no previous version recorded"
  | Some targetVersion =>
      let versionPath := version_path app in
      match revert_version targetVersion with
      | None =>
          setFailed u "InvalidTargetVersion" "No chart version or images in previous version"
      | Some revertVersionStr =>
          let path := as_GitPath (app_Spec app) in
          let? content := git_ReadFile r path
            orelse err => setFailed u "GitReadFailed" (Error err) in
          match UpdateVersion content versionPath revertVersionStr with
          | Err err => setFailed u "YAMLUpdateFailed" (Error err)
          | Ok newContent =>
              let message :=
                FormatRevertCommitMessage (om_Name (app_Meta app))
                  (rolled_back_version targetVersion (ups_NewVersion up)) revertVersionStr
                  (om_Name (ur_Meta upgrade)) in
              let? commitInfo := git_CommitFile r (mkFileChange path newContent) message
                orelse err => setFailed u "GitCommitFailed" (Error err) in
              let* now := call Now in
              let u := rb_set_Status
                         (rst_set_GitRevert
                            (Some (mkGitRevertStatus (ci_SHA commitInfo) (Some now)))
                            (rb_Status u)) u in
              let u := generation_cond u ConditionTypeGitReverted ConditionTrue
                         "VersionReverted" ("Commit " +:+ ci_SHA commitInfo) in
              update_then u requeue_now
          end
      end
  end.

Definition handleReconciling (u : RollbackRequest) : M Reply :=
  let* u := setPhaseStartIfNeeded u in
  let? upgrade := getUpgradeRequest u
    orelse err => setFailed u "UpgradeRequestNotFound" (Error err) in
  let? app := getManagedApp upgrade orelse err => setFailed u "ManagedAppNotFound" (Error err) in
  let '(suspendName, suspendNS) := getSuspendTarget app in
  check ResumeKustomization suspendName suspendNS
    orelse err => setFailed u "ResumeFailed" (Error err) in
  let u := generation_cond u ConditionTypeSuspended ConditionFalse "KustomizationResumed"
             ("Resumed " +:+ suspendNS +:+ "/" +:+ suspendName) in
  let? u := call (StatusUpdateRollback u) orelse err => Ret (done_result, Some err) in
  let ksRef := as_KustomizationRef (app_Spec app) in
  let ksNS := or_default (ref_Namespace ksRef) DefaultFluxNamespace in
  let? reconciled := IsReconciled (ref_Name ksRef) ksNS
    orelse err => setFailed u "ReconciliationCheckFailed" (Error err) in
  if negb reconciled then
    let* timedOut := isPhaseTimedOut u TimeoutReconcile in
    if timedOut then
      setFailed u "ReconciliationTimeout" "Kustomization did not reconcile within timeout"
    else Ret (requeue_after (10 * Second), None)
  else
    let u := resetPhaseStart u in
    let u := generation_cond u ConditionTypeReconciled ConditionTrue "ReconciliationSucceeded"
               "Flux reconciled the changes" in
    update_then u requeue_now.

Definition handleHealthChecking (u : RollbackRequest) : M Reply :=
  let* u := setPhaseStartIfNeeded u in
  let? upgrade := getUpgradeRequest u
    orelse err => setFailed u "UpgradeRequestNotFound" (Error err) in
  let? app := getManagedApp upgrade orelse err => setFailed u "ManagedAppNotFound" (Error err) in
  let? healthResult := CheckHealth app
    orelse err => setFailed u "HealthCheckError" (Error err) in
  if negb (hr_Healthy healthResult) then
    let* timedOut := isPhaseTimedOut u (health_timeout app) in
    if timedOut then
      setFailed u "HealthCheckTimeout"
        ("App did not become healthy within timeout: " +:+ hr_Message healthResult)
    else Ret (requeue_after (10 * Second), None)
  else
    let u := generation_cond u ConditionTypeHealthy ConditionTrue "HealthCheckPassed"
               (hr_Message healthResult) in
    update_then u requeue_now.

Definition handleCompleted (u : RollbackRequest) : M Reply :=
  let versionStr :=
    match rst_RestoredFrom (rb_Status u) with
    | Some from => match rf_TargetVersion from with
                   | Some v => getVersionString (Some v)
                   | None => unknownVersion
                   end
    | None => unknownVersion
    end in
  let* now := call Now in
  let u := rb_set_Status (rst_set_CompletedAt (Some now) (rb_Status u)) u in
  finish (generation_cond u ConditionTypeComplete ConditionTrue "RollbackSucceeded"
            ("Rolled back to " +:+ versionStr)).

(** ** Reconcile *)

Definition after_stop (u : RollbackRequest) : M Reply :=
  if negb (cond_true u ConditionTypeVolumesRestored) then handleVolumeRestore u
  else if negb (cond_true u ConditionTypeGitReverted) then handleGitRevert u
  else if negb (cond_true u ConditionTypeReconciled) then handleReconciling u
  else if negb (cond_true u ConditionTypeHealthy) then handleHealthChecking u
  else handleCompleted u.

Definition dispatch (u : RollbackRequest) : M Reply :=
  if rs_DryRun (rb_Spec u) then handleDryRun u
  else
    match condition u ConditionTypeSuspended with
    | None => handleSuspend u
    | Some _ =>
        if negb (cond_true u ConditionTypeWorkloadStopped) then
          let* answer := handleStopWorkload u in
          let '(u, reply, shouldContinue) := answer in
          if negb shouldContinue then Ret reply else after_stop u
        else after_stop u
    end.

Definition Reconcile (key : NamespacedName) : M Reply :=
  let? u := call (GetRollback key) orelse err => Ret (done_result, IgnoreNotFound err) in
  with_finalizer dispatch u.
End rollback.
