(* ===== verification/RollbackGuard.v ===== *)
(** * The contract of the rollback reconciler

Which calls each state of a RollbackRequest permits, what the deletion and the recreation of
a claim and the revert commit must have seen, what calls the handlers make at all, and the
rules for the handlers' own helpers. *)

From S2P Require Import Prelude GoLib Api Platform Footprint Discovery Workload Flux Snapshot Health.
From S2P Require Import Yaml Git Controller Phases Operation Guard Quiesce Rollback.

(** ** Which calls a state allows *)

Definition rollback_permitted (a : astate) (k : kind) : bool :=
  let live := negb (terminal a) in
  let begun := match a_suspended a with Some _ => true | None => false end in
  match k with
  | KStatusRollback | KUpdateKs => live
  | KUpdateRollback => true
  | KPatchWorkload =>
      live && (if a_dry a
               then default false (a_suspended a) && negb (a_stopped a && a_prepared a)
               else begun && negb (a_stopped a))
  | KDeletePVC | KCreatePVC =>
      live && negb (a_dry a) && begun && a_stopped a && negb (a_prepared a)
  | KGitCommit =>
      live && negb (a_dry a) && begun && a_stopped a && a_prepared a && negb (a_committed a)
  | k => negb (kmut k)
  end.

(** ** The contract *)

Section machine.
Context {P : Platform} {Y : Kyaml}.
Implicit Types (h : list event) (u : RollbackRequest).

Definition rollback_asked h u (app : ManagedApp) : Prop :=
  ∃ upgrade, In (Obs (GetUpgrade (upgrade_key u)) (Ok upgrade)) h
             ∧ In (Obs (GetApp (app_key upgrade)) (Ok app)) h.

(** The upgrade, its application and the Kustomization, seen suspended, were just read. *)
Definition seen_suspended h u (upgrade : UpgradeRequest) (app : ManagedApp) h' : Prop :=
  ∃ ks, h = Obs (GetKustomization (suspend_key app)) (Ok ks)
            :: Obs (GetApp (app_key upgrade)) (Ok app)
            :: Obs (GetUpgrade (upgrade_key u)) (Ok upgrade) :: h'
        ∧ ks_Suspend ks = true.

(** The same in this reconcile, and only volumes and the own status were dealt with since. *)
Definition volume_kinds : list kind :=
  [KClock; KGetPVC; KDeletePVC; KCreatePVC; KGetSnapshot; KStatusRollback].
Definition suspended_since h u upgrade app : Prop :=
  ∃ d h1 h', h = d ++ h1 ∧ Forall (obs_sat (within volume_kinds)) d
             ∧ seen_suspended h1 u upgrade app h'.

Definition restored_in u : list RestoredPVCInfo :=
  match rst_VolumeRestore (rb_Status u) with Some vr => vr_RestoredPVCs vr | None => [] end.

(** A claim that a snapshot of the upgrade stands for and that was not restored yet. *)
Definition to_restore u (upgrade : UpgradeRequest) (app : ManagedApp) (snap : PVCSnapshotInfo)
    (k : NamespacedName) : Prop :=
  In snap (recorded_snapshots upgrade)
  ∧ k = mkKey (psi_PVCName snap) (om_Namespace (app_Meta app))
  ∧ already_restored (psi_PVCName snap) (restored_in u) = false.

Definition delete_write h u (k : NamespacedName) : Prop :=
  ∃ upgrade app snap, suspended_since h u upgrade app ∧ to_restore u upgrade app snap k.

(** It is created once its deletion was asked and it was seen gone, and its snapshot ready. *)
Definition create_write h u (p : PVC) : Prop :=
  ∃ upgrade app snap vs st gone a h',
    suspended_since h u upgrade app
    ∧ to_restore u upgrade app snap (keyOf (pvc_Meta p))
    ∧ h = Obs (GetSnapshot (mkKey (psi_SnapshotName snap) (om_Namespace (app_Meta app)))) (Ok vs)
          :: Obs (GetPVC (keyOf (pvc_Meta p))) (Err gone)
          :: Obs (DeletePVCObj (keyOf (pvc_Meta p))) a :: h'
    ∧ IgnoreNotFound gone = None
    ∧ vs_Status vs = Some st ∧ default false (vss_ReadyToUse st) = true
    ∧ pvc_StorageRequest p = vss_RestoreSize st
    ∧ pvc_DataSource p =
        Some (mkDataSource "snapshot.storage.k8s.io" "VolumeSnapshot" (psi_SnapshotName snap)).

Definition revert_write h u (change : FileChange) (message : string) : Prop :=
  ∃ upgrade app content up old new h1 h',
    h = Obs (GitReadFile (as_GitPath (app_Spec app))) (Ok content) :: h1
    ∧ seen_suspended h1 u upgrade app h'
    ∧ ust_Upgrade (ur_Status upgrade) = Some up ∧ ups_PreviousVersion up = Some old
    ∧ revert_version old = Some new
    ∧ UpdateVersion content (version_path app) new = Ok (fc_Content change)
    ∧ fc_Path change = as_GitPath (app_Spec app)
    ∧ message = FormatRevertCommitMessage (om_Name (app_Meta app))
                  (rolled_back_version old (ups_NewVersion up)) new (om_Name (ur_Meta upgrade)).

Definition rollback_extra h u R (e : ev R) : Prop :=
  match e with
  | DeletePVCObj k => delete_write h u k
  | CreatePVC p => create_write h u p
  | GitCommitFile change message => revert_write h u change message
  | _ => True
  end.

#[export] Instance rollback_machine : Machine RollbackRequest := {|
  permitted := rollback_permitted;
  asked := rollback_asked;
  extra := rollback_extra
|}.
#[export] Instance rollback_machine_laws : MachineLaws RollbackRequest.
Proof.
  split; cbn; unfold rollback_permitted.
  - intros d h u app (upgrade & ? & ?). exists upgrade. rewrite !in_app_iff. auto.
  - by intros a u ->.
  - done.
  - by intros a ->.
  - intros a -> -> Hs ->. cbn. by destruct (a_suspended a).
  - intros a -> -> ->. by cbn; intros ->.
  - by intros h u R [] He.
  - intros a k u Hp Hk Hu. destruct (terminal a); [|done]. by destruct k.
Qed.
End machine.

(** ** Footprints *)

Section footprints.
Context {P : Platform} {D : Decoders} {Y : Kyaml}.

Lemma check_snapshots_within ks snaps ns :
  subk [KGetSnapshot] ks = true → emits (within ks) (check_snapshots snaps ns).
Proof. intros. induction snaps as [|s snaps IH]; cbn [check_snapshots]; emits_tac; apply IH. Qed.
#[local] Hint Resolve check_snapshots_within : emits.
Lemma runRollbackPreflight_within ks app upgrade :
  subk (KGetSnapshot :: discovery_kinds) ks = true →
  emits (within ks) (runRollbackPreflight app upgrade).
Proof. intros. unfold runRollbackPreflight. emits_tac. Qed.
Lemma runRollbackGitDiffPreview_within ks r app upgrade :
  subk [KGitRead] ks = true → emits (within ks) (runRollbackGitDiffPreview r app upgrade).
Proof. intros. unfold runRollbackGitDiffPreview. emits_tac. Qed.
Lemma revert_preview_within ks r app upgrade :
  subk [KGitRead] ks = true →
  emits (within ks)
    (if r_GitManager r then runRollbackGitDiffPreview r app upgrade else Ret (Ok ("", "", ""))).
Proof. intros. destruct (r_GitManager r); [by apply runRollbackGitDiffPreview_within|done]. Qed.
Lemma set_started_within ks u : subk [KClock] ks = true → emits (within ks) (set_started u).
Proof. intros. unfold set_started. emits_tac. Qed.
Lemma getUpgradeRequest_within ks u :
  subk [KGetUpgrade] ks = true → emits (within ks) (getUpgradeRequest u).
Proof. intros. unfold getUpgradeRequest. emits_tac. Qed.
Lemma delete_claim_within ks n ns :
  subk [KDeletePVC] ks = true → emits (within ks) (delete_claim n ns).
Proof. intros. unfold delete_claim. emits_tac. Qed.
Lemma init_volume_restore_within ks u :
  subk [KClock] ks = true → emits (within ks) (init_volume_restore u).
Proof. intros. unfold init_volume_restore. emits_tac. Qed.
Lemma rollback_update_within ks (u : RollbackRequest) c :
  subk [KStatusRollback] ks = true → emits (within ks) (update_then u c).
Proof. intros. apply update_then_within; kind_tac. Qed.
Lemma rollback_finish_within ks (u : RollbackRequest) :
  subk [KStatusRollback; KUpdateRollback] ks = true → emits (within ks) (finish u).
Proof. intros. apply finish_within; kind_tac. Qed.
Lemma rollback_skipped_within ks (u : RollbackRequest) reason m :
  subk [KStatusRollback] ks = true → emits (within ks) (stop_skipped u reason m).
Proof. intros. apply stop_skipped_within; kind_tac. Qed.
Lemma rb_setFailed_within ks u reason m :
  subk [KStatusRollback; KUpdateRollback] ks = true → emits (within ks) (setFailed u reason m).
Proof. apply rollback_finish_within. Qed.
#[local] Hint Resolve rb_setFailed_within : emits.
Definition stop_kinds : list kind :=
  [KClock; KGetKs; KUpdateKs; KGetWorkload; KPatchWorkload; KListPods; KStatusRollback;
   KUpdateRollback].
Lemma rollback_stop_within ks (u : RollbackRequest) ws ns :
  subk stop_kinds ks = true → emits (within ks) (stop_workloads setFailed u ws ns).
Proof.
  intros. apply stop_workloads_within;
    first [kind_tac|intros; emits_tac].
Qed.
Lemma rollback_dry_run_within ks (u : RollbackRequest) app pf v1 v2 v3 :
  subk stop_kinds ks = true → emits (within ks) (runRollbackDryRunQuiescence u app pf v1 v2 v3).
Proof.
  intros. apply dry_run_quiescence_within;
    first [kind_tac|intros; emits_tac].
Qed.
End footprints.
#[export] Hint Resolve getUpgradeRequest_within delete_claim_within init_volume_restore_within
  rollback_update_within rollback_finish_within rollback_skipped_within rb_setFailed_within
  rollback_stop_within rollback_dry_run_within check_snapshots_within runRollbackPreflight_within
  runRollbackGitDiffPreview_within revert_preview_within set_started_within : emits.

(** ** All that a rollback calls *)

(** Everything but the calls on the request itself. *)
Definition rollback_around : list kind :=
  [KClock; KSleep; KRange; KGetUpgrade; KGetApp; KListApps; KGetKs; KUpdateKs; KGetWorkload;
   KPatchWorkload; KListPods; KGetPVC; KCreatePVC; KDeletePVC; KGetSnapshot; KListSnapshots;
   KListSecrets; KGetConfigMap; KGitRead; KGitCommit].
(** All the kinds of calls but the reading of a request. *)
Definition rollback_underway : list kind := KStatusRollback :: KUpdateRollback :: rollback_around.

Section calls.
Context {P : Platform} {D : Decoders} {Y : Kyaml}.
Variable (ks : list kind) (Hks : subk rollback_underway ks = true).

#[local] Hint Extern 1 (subk _ ks = true) => (eapply subk_trans; [|exact Hks]; reflexivity) : emits.
Lemma stop_with_within p : emits (within ks) p → emits (within ks) (stop_with p).
Proof. intros. unfold stop_with. emits_tac. Qed.
#[local] Hint Resolve stop_with_within : emits.
Lemma volume_restore_within u : emits (within ks) (volume_restore u).
Proof. unfold volume_restore. emits_tac. Qed.
Lemma wait_volume_within u reason m : emits (within ks) (wait_volume u reason m).
Proof. unfold wait_volume. emits_tac. apply stop_with_within. emits_tac. Qed.
#[local] Hint Resolve volume_restore_within wait_volume_within : emits.
Lemma restore_one_within app snap u : emits (within ks) (restore_one app snap u).
Proof. unfold restore_one, recreate_claim. emits_tac. Qed.
Lemma await_bound_within app u before after : emits (within ks) (await_bound app u before after).
Proof. induction after in u, before |- *; cbn [await_bound]; emits_tac. Qed.
Lemma volumes_restored_within u : emits (within ks) (volumes_restored u).
Proof. unfold volumes_restored. emits_tac. Qed.
#[local] Hint Resolve restore_one_within await_bound_within volumes_restored_within stop_here_within : emits.

Variable r : Reconciler.
Lemma rb_handleDryRun_within u : emits (within ks) (handleDryRun r u).
Proof. unfold handleDryRun. emits_tac. Qed.
Lemma rb_after_stop_within u : emits (within ks) (after_stop r u).
Proof.
  unfold after_stop, handleVolumeRestore, handleGitRevert, handleReconciling, handleHealthChecking,
    handleCompleted. emits_tac.
Qed.
#[local] Hint Resolve rb_handleDryRun_within rb_after_stop_within : emits.
Lemma rb_dispatch_within u : emits (within ks) (dispatch r u).
Proof. unfold dispatch, handleSuspend, handleStopWorkload. emits_tac. Qed.
End calls.
#[export] Hint Resolve volume_restore_within wait_volume_within restore_one_within
  await_bound_within volumes_restored_within rb_handleDryRun_within : emits.

(** ** Rules for the helpers *)

Section helpers.
Context {P : Platform} {PL : PlatformLaws P} {Y : Kyaml}.
Implicit Types (h : list event) (u : RollbackRequest).
Notation guarded p h := (wp (api_server RollbackRequest) (guard RollbackRequest) p h (ends RollbackRequest)).

Lemma at_upgrade_key h u0 u : at_ h u0 u → upgrade_key u = upgrade_key u0.
Proof. intros [_ Hs Hm]. unfold upgrade_key. cbn in Hs, Hm. by rewrite Hs, Hm. Qed.

Lemma wp_upgrade {B} Φ h u0 u (f : res UpgradeRequest → M B) Q :
  at_ h u0 u →
  (∀ x, latest (Obs (GetUpgrade (upgrade_key u0)) (Ok x) :: h) = Some u0 →
        wp Φ (guard RollbackRequest) (f (Ok x)) (Obs (GetUpgrade (upgrade_key u0)) (Ok x) :: h) Q) →
  (∀ e d, latest (d ++ h) = Some u0 → wp Φ (guard RollbackRequest) (f (Err e)) (d ++ h) Q) →
  wp Φ (guard RollbackRequest) (bind (getUpgradeRequest u) f) h Q.
Proof.
  intros Hat Hok Herr. unfold getUpgradeRequest. rewrite (at_upgrade_key _ _ _ Hat).
  destruct Hat as [Hl _ _]. apply wp_look; [done|].
  intros [app|e] _; [by apply Hok|]. by apply (Herr e [_]).
Qed.

Lemma wp_app_of {B} Φ h u0 upgrade (f : res ManagedApp → M B) Q :
  latest h = Some u0 →
  (∀ app, latest (Obs (GetApp (app_key upgrade)) (Ok app) :: h) = Some u0 →
          wp Φ (guard RollbackRequest) (f (Ok app)) (Obs (GetApp (app_key upgrade)) (Ok app) :: h) Q) →
  (∀ e d, latest (d ++ h) = Some u0 → wp Φ (guard RollbackRequest) (f (Err e)) (d ++ h) Q) →
  wp Φ (guard RollbackRequest) (bind (getManagedApp upgrade) f) h Q.
Proof.
  intros Hl Hok Herr. unfold getManagedApp. apply wp_look; [done|].
  intros [app|e] _; [by apply Hok|]. by apply (Herr e [_]).
Qed.

(** The tests of the handlers, under the names they use. *)
Lemma rollback_tests u :
  cond_true u ConditionTypeSuspended = default false (a_suspended (abs u))
  ∧ cond_true u ConditionTypeWorkloadStopped = a_stopped (abs u)
  ∧ cond_true u ConditionTypeVolumesRestored = a_prepared (abs u)
  ∧ cond_true u ConditionTypeGitReverted = a_committed (abs u)
  ∧ cond_true u ConditionTypeReconciled = a_reconciled (abs u)
  ∧ cond_true u ConditionTypeHealthy = a_healthy (abs u).
Proof. exact (cond_true_abs u). Qed.

Lemma wp_rb_setFailed : fails_guarded setFailed.
Proof.
  intros h u0 u reason m d s st sn c r hh s' Hat H0 Hu Hs. unfold setFailed.
  eapply wp_finish_set; [exact Hat| |]; abs_simp; [by constructor|done].
Qed.

(** The parts of the status that are not conditions. *)
Lemma abs_status (f : RollbackRequestStatus → RollbackRequestStatus) u :
  (∀ s, rst_Conditions (f s) = rst_Conditions s) →
  abs (rb_set_Status (f (rb_Status u)) u) = abs u.
Proof. intros Hf. apply abs_ext; cbn; auto. Qed.

(** The start of the rollback is stamped. *)
Lemma wp_started {B} Φ h u0 u (f : RollbackRequest → M B) Q :
  at_ h u0 u →
  (∀ u' d, at_ (d ++ h) u0 u' → same_conditions u u' →
           wp Φ (guard RollbackRequest) (f u') (d ++ h) Q) →
  wp Φ (guard RollbackRequest) (bind (set_started u) f) h Q.
Proof.
  intros Hat Hf. unfold set_started. destruct (rst_StartedAt _); cbn.
  - by apply (Hf u []).
  - split; [by apply guard_pure|]. intros t _. apply (Hf _ [Obs Now t]); [|done].
    eapply at_step; [exact Hat|by apply latest_clock, Hat|done|done|done].
Qed.

(** The Kustomization was just read as suspended. *)
Lemma wp_verified {B} h u0 upgrade app (f : option error → M B) Q h' :
  latest h = Some u0 →
  h = Obs (GetApp (app_key upgrade)) (Ok app)
      :: Obs (GetUpgrade (upgrade_key u0)) (Ok upgrade) :: h' →
  (∀ e d, latest (d ++ h) = Some u0 →
     wp (api_server RollbackRequest) (guard RollbackRequest) (f (Some e)) (d ++ h) Q) →
  (∀ h1, latest h1 = Some u0 → seen_suspended h1 u0 upgrade app h' →
     wp (api_server RollbackRequest) (guard RollbackRequest) (f None) h1 Q) →
  wp (api_server RollbackRequest) (guard RollbackRequest)
    (bind (VerifyStillSuspended (getSuspendTarget app).1 (getSuspendTarget app).2) f) h Q.
Proof.
  intros Hl Hh Herr Hok. unfold VerifyStillSuspended, IsSuspended. fold (suspend_key app).
  cbn [bind call wp]. split; [by apply guard_pure|]. intros [ks|e] _; cbn [bind].
  2:{ by apply (Herr _ [_]), latest_ks. }
  destruct (ks_Suspend ks) eqn:Hks; cbn [negb bind].
  - apply Hok; [by apply latest_ks|]. exists ks. by rewrite Hh.
  - by apply (Herr _ [_]), latest_ks.
Qed.
End helpers.
