(* ===== verification/RollbackProofs.v ===== *)
(** * The rollback reconciler keeps its contract

One lemma per handler, then [rb_Reconcile_guarded]: every reconcile keeps
[guard RollbackRequest] and ends as [ends] says.  The loop over the volumes has its own
invariant, [restoring]. *)

From S2P Require Import Prelude GoLib Api Platform Footprint Discovery Workload Flux Snapshot Health.
From S2P Require Import Yaml Git Controller Phases Operation Guard Quiesce Rollback RollbackGuard.

Ltac asked_tac :=
  cbn [asked rollback_machine] in *; unfold rollback_asked in *;
  first [ assumption
        | eexists; split;
          repeat first [assumption | apply in_eq | apply in_or_app; right | apply in_cons] ].

(** One step of a handler. *)
Ltac stamped_tac :=
  let u' := fresh "u" in let d := fresh "d" in
  let Ha := fresh "Hat" in let Hs := fresh "Habs" in
  intros u' d Ha Hs; apply same_conditions_abs in Hs;
  pose proof (at_latest _ _ _ Ha);
  match goal with H : abs ?u = AState _ _ _ _ _ _ _ _ |- _ => rewrite H in Hs at 1 end.
Ltac walk_step :=
  cbn beta iota;
  lazymatch goal with
  | |- wp _ _ (Ret _) _ (ends _) => cbn; first [exact I | left; requeue_tac]
  | |- wp _ _ (bind (setPhaseStartIfNeeded _) _) _ _ =>
      eapply wp_setPhase; [at_tac|stamped_tac]
  | |- wp _ _ (bind (set_started _) _) _ _ => eapply wp_started; [at_tac|stamped_tac]
  | |- wp _ _ (bind (getUpgradeRequest _) _) _ _ =>
      eapply wp_upgrade; [at_tac | intros ?upgrade ?Hup | intros ?e ?d ?Hl]
  | |- wp _ _ (bind (getManagedApp _) _) _ _ =>
      eapply wp_app_of; [eassumption | intros ?app ?Happ | intros ?e ?d ?Hl]
  | |- wp _ _ (let '(_, _) := getSuspendTarget ?a in _) _ _ =>
      rewrite (surjective_pairing (getSuspendTarget a))
  | |- wp _ _ (bind (ResumeKustomization _ _) _) _ _ =>
      eapply wp_resume; [eassumption | by abs_simp | asked_tac | intros ?e ?d ?Hl]
  | |- wp _ _ (bind (SuspendKustomization _ _) _) _ _ =>
      eapply wp_suspend; [eassumption|by abs_simp|asked_tac|left; by abs_simp|intros ?e ?d ?Hl]
  | |- wp _ _ (setFailed _ _ _) _ _ =>
      eapply wp_rb_setFailed; [at_tac | eassumption | by abs_simp | first [by left | by right]]
  | |- wp _ _ (update_then _ _) _ _ =>
      eapply wp_update_then; [at_tac | step_tac | requeue_tac]
  | |- wp _ _ (bind (call (StatusUpdateRollback ?x)) _) _ _ =>
      change (StatusUpdateRollback x) with (op_StatusUpdate x);
      eapply wp_status; [at_tac | step_tac | | intros; exact I];
      let v := fresh "v" in let h' := fresh "h" in let Hv := fresh "Hv" in
      let Hk := fresh "Hk" in
      intros v h' Hv Hk%kept_abs _; pose proof (at_start h' v Hv); revert Hk; abs_simp; intros Hk
  | |- wp _ _ (stop_here _ _) _ _ => apply wp_stop_here
  | |- wp _ _ (stop_skipped _ _ _) _ _ =>
      eapply wp_stop_skipped; [at_tac|eassumption|by abs_simp]
  | |- wp _ _ (stop_workloads _ _ _ _) _ _ =>
      eapply wp_stop_workloads; [apply wp_rb_setFailed|at_tac|eassumption|by abs_simp]
  | |- wp _ _ (match ?x with _ => _ end) _ _ => destruct x eqn:?
  | |- wp _ _ (let '_ := ?x in _) _ _ => destruct x eqn:?
  | |- wp _ _ (bind (deref _ ?x) _) _ _ => destruct x eqn:?; cbn [deref bind wp]; [|exact I]
  | |- wp _ _ (bind _ _) _ _ =>
      eapply wp_read; [solve [emits_tac] | eassumption | done | intros ?a ?d ?Hl]
  end.

Section handlers.
Context {P : Platform} {PL : PlatformLaws P} {D : Decoders} {Y : Kyaml}.
Variable r : Reconciler.
Implicit Types (h : list event) (u : RollbackRequest).
Notation guarded p h :=
  (wp (api_server RollbackRequest) (guard RollbackRequest) p h (ends RollbackRequest)).

Lemma rb_handleCompleted_guarded h u b :
  latest h = Some u → abs u = AState false (Some b) true true true true true None →
  guarded (handleCompleted u) h.
Proof.
  intros Hl Ha. pose proof (at_start h u Hl). unfold handleCompleted.
  walk_step. eapply wp_finish_set; [at_tac|step_tac|by abs_simp].
Qed.

Lemma rb_handleHealthChecking_guarded h u b :
  latest h = Some u → abs u = AState false (Some b) true true true true false None →
  guarded (handleHealthChecking u) h.
Proof.
  intros Hl Ha. pose proof (at_start h u Hl). unfold handleHealthChecking.
  repeat walk_step.
Qed.

Lemma rb_handleReconciling_guarded h u b hh :
  latest h = Some u → abs u = AState false (Some b) true true true false hh None →
  guarded (handleReconciling u) h.
Proof.
  intros Hl Ha. pose proof (at_start h u Hl). unfold handleReconciling.
  repeat walk_step.
Qed.

Lemma rb_handleSuspend_guarded h u st sn c rr hh :
  latest h = Some u → abs u = AState false None st sn c rr hh None →
  guarded (handleSuspend r u) h.
Proof.
  intros Hl Ha. pose proof (at_start h u Hl). unfold handleSuspend.
  repeat walk_step.
  eapply wp_update_then; destruct (no_volumes upgrade); try at_tac; try requeue_tac;
    abs_simp; apply Suspend; [by right|by left].
Qed.

Lemma handleStopWorkload_guarded h u b sn c rr hh :
  latest h = Some u → abs u = AState false (Some b) false sn c rr hh None →
  wp (api_server RollbackRequest) (guard RollbackRequest) (handleStopWorkload u) h stopped.
Proof.
  intros Hl Ha. pose proof (at_start h u Hl). unfold handleStopWorkload.
  repeat walk_step.
Qed.

Lemma rb_handleDryRun_guarded h u s st sn c rr hh :
  latest h = Some u → abs u = AState true s st sn c rr hh None →
  guarded (handleDryRun r u) h.
Proof.
  intros Hl Ha. pose proof (at_start h u Hl). unfold handleDryRun.
  repeat first
    [ lazymatch goal with
      | |- wp _ _ (runRollbackDryRunQuiescence _ _ _ _ _ _) _ _ =>
          eapply dry_run_guarded; [apply wp_rb_setFailed|eassumption|asked_tac|eassumption]
      end | walk_step].
Qed.

Lemma handleGitRevert_guarded h u b rr hh :
  latest h = Some u → abs u = AState false (Some b) true true false rr hh None →
  guarded (handleGitRevert r u) h.
Proof.
  intros Hl Ha. pose proof (at_start h u Hl). unfold handleGitRevert.
  walk_step; [|by repeat walk_step]. walk_step; [|by repeat walk_step].
  walk_step. cbn iota beta. eapply wp_verified; [eassumption|done|intros; by repeat walk_step|].
  intros h1 Hl1 Hseen.
  walk_step. walk_step; [|by repeat walk_step]. cbn iota. walk_step; [|by repeat walk_step].
  unfold git_ReadFile, git_CommitFile.
  destruct (r_GitManager r); cbn [bind call wp]; [|done].
  split; [by apply guard_pure|]. intros [content|e] _.
  2:{ eapply wp_rb_setFailed; [by apply at_start|eassumption|done|by left]. }
  set (h2 := Obs (GitReadFile _) _ :: h1).
  assert (∀ d reason m, latest (d ++ h2) = Some u → guarded (setFailed u reason m) (d ++ h2)) as Hfail.
  { intros. eapply wp_rb_setFailed; [by apply at_start|eassumption|done|by left]. }
  destruct (UpdateVersion content (version_path app) _) as [text|e] eqn:Hup';
    [|by apply (Hfail [])].
  cbn [bind call wp]. split.
  { intros _. exists u. split; [done|]. split; [by rewrite Ha|].
    exists upgrade, app, content, u0, v, s, h1, h. done. }
  intros [ci|e] _; [|by apply (Hfail [_])].
  cbn [bind call wp]. split; [by apply guard_pure|]. intros now _.
  eapply (wp_update_then _ u); [split; [done..|decided_tac]|step_tac|requeue_tac].
Qed.
End handlers.

(** ** The loop over the volumes *)

Section volumes.
Context {P : Platform} {PL : PlatformLaws P} {D : Decoders} {Y : Kyaml}.
Implicit Types (h : list event) (u : RollbackRequest).
Notation guarded p h :=
  (wp (api_server RollbackRequest) (guard RollbackRequest) p h (ends RollbackRequest)).
Context (upgrade : UpgradeRequest) (app : ManagedApp) (b c rr hh : bool).
Notation volumes_state := (AState false (Some b) true false c rr hh None).

(** The request at hand is the stored one but for parts of the status that no state shows. *)
Definition standing u h : Prop :=
  ∃ u0, at_ h u0 u ∧ abs u0 = volumes_state ∧ abs u = volumes_state.

(** The invariant: the suspension was seen, and the list of restored claims is the stored one. *)
Definition restoring u h : Prop :=
  ∃ u0, at_ h u0 u ∧ abs u0 = volumes_state ∧ abs u = volumes_state
        ∧ suspended_since h u0 upgrade app
        ∧ ∀ vr, rst_VolumeRestore (rb_Status u) = Some vr → vr_RestoredPVCs vr = restored_in u0.

(** How a loop ends: it goes on with the request, or it answers for the handler. *)
Definition leaves (I : RollbackRequest → list event → Prop)
    (o : outcome (RollbackRequest + Reply)) h : Prop :=
  match o with
  | Done (inl u) => I u h
  | Done (inr reply) => ends RollbackRequest (Done reply) h
  | Panicked _ => True
  end.

Lemma restoring_standing u h : restoring u h → standing u h.
Proof. intros (u0 & ? & ? & ? & _). by exists u0. Qed.

Lemma standing_fails u h reason m : standing u h → guarded (setFailed u reason m) h.
Proof. intros (u0 & Hat & H0 & Hu). by eapply wp_rb_setFailed; eauto. Qed.

Lemma wp_stop_with I p h :
  guarded p h → wp (api_server RollbackRequest) (guard RollbackRequest) (stop_with p) h (leaves I).
Proof.
  intros Hp. unfold stop_with. rewrite wp_bind. eapply wp_mono; [exact Hp|done|].
  by intros [x|m] h' Hends.
Qed.

Lemma since_cons h u R (e : ev R) a :
  within volume_kinds R e → suspended_since h u upgrade app →
  suspended_since (Obs e a :: h) u upgrade app.
Proof.
  intros He (d & h1 & h' & -> & Hd & Hs). exists (Obs e a :: d), h1, h'.
  split; [done|]. split; [by constructor|done].
Qed.

(** Calls about volumes, the request's own aside, keep both. *)
Lemma standing_cons u h R (e : ev R) a :
  elsewhere RollbackRequest R e → standing u h → standing u (Obs e a :: h).
Proof.
  intros Hels (u0 & Hat & H0 & Hu). exists u0. split; [|done].
  eapply at_step; [exact Hat|apply latest_other; [done|apply Hat]|done|done|done].
Qed.
Lemma restoring_cons u h R (e : ev R) a :
  elsewhere RollbackRequest R e → within volume_kinds R e →
  restoring u h → restoring u (Obs e a :: h).
Proof.
  intros Hels He (u0 & Hat & H0 & Hu & Hs & Hvr). exists u0.
  split; [|eauto using since_cons].
  eapply at_step; [exact Hat|apply latest_other; [done|apply Hat]|done|done|done].
Qed.

Lemma wp_wait I u h reason m :
  standing u h →
  wp (api_server RollbackRequest) (guard RollbackRequest) (wait_volume u reason m) h (leaves I).
Proof.
  intros Hst. unfold wait_volume, isPhaseTimedOut.
  assert (∀ h (timedOut : bool), standing u h →
    wp (api_server RollbackRequest) (guard RollbackRequest)
      (stop_with (if timedOut then setFailed u reason m
                  else Ret (requeue_after (10 * Second), None))) h (leaves I)) as Hstop.
  { intros h' [] Hst'; apply wp_stop_with; [by apply standing_fails|]. cbn. left. requeue_tac. }
  destruct (op_PhaseStartedAt _); cbn [bind call wp];
    [|by apply (Hstop h false)].
  split; [by apply guard_pure|]. intros now _. apply Hstop. by apply standing_cons.
Qed.

(** The claim is recreated: recorded in the request, which is stored. *)
Lemma restoring_recorded u h vr info :
  rst_VolumeRestore (rb_Status u) = Some vr → restoring u h →
  wp (api_server RollbackRequest) (guard RollbackRequest)
    (let? u := call (StatusUpdateRollback
                       (set_VolumeRestore (set_RestoredPVCs (vr_RestoredPVCs vr ++ [info]) vr) u))
       orelse err => Ret (inr (done_result, Some err)) in
     Ret (inl u)) h (leaves restoring).
Proof.
  intros Hv (u0 & Hat & H0 & Hu & Hs & Hvr).
  set (x := set_VolumeRestore _ u). change (StatusUpdateRollback x) with (op_StatusUpdate x).
  assert (abs x = volumes_state) as Hx by (rewrite <- Hu; by apply abs_ext).
  eapply wp_status with (u0 := u0).
  - eapply at_step; [exact Hat|apply Hat|done|done|done].
  - rewrite H0, Hx. constructor.
  - intros v h' Hl Hk ->. cbn [wp leaves]. exists v.
    pose proof (kept_abs _ _ Hk) as Hav. rewrite Hx in Hav.
    split; [by apply at_start|]. split; [done|]. split; [done|].
    destruct Hk as (Hsp & Hst & _ & Hkey).
    split; [|intros vr' Hvr'; unfold restored_in; by rewrite Hvr'].
    destruct Hs as (d & h1 & h' & -> & Hd & ks & -> & Hks).
    eexists (_ :: d), _, h'. split; [reflexivity|]. split; [by constructor|].
    exists ks. split; [|done]. do 3 f_equal. f_equal. unfold upgrade_key.
    destruct Hat as [_ Hsu Hmu]. cbn in Hsp, Hkey, Hsu, Hmu. unfold keyOf in Hkey.
    rewrite Hsp, <- Hsu, <- Hmu. by injection Hkey as _ ->.
  - intros e. exact I.
Qed.

(** What a claim may be deleted and created for. *)
Lemma restoring_target u h snap vr :
  restoring u h → In snap (recorded_snapshots upgrade) →
  rst_VolumeRestore (rb_Status u) = Some vr →
  already_restored (psi_PVCName snap) (vr_RestoredPVCs vr) = false →
  ∃ u0, latest h = Some u0 ∧ abs u0 = volumes_state ∧ suspended_since h u0 upgrade app
        ∧ to_restore u0 upgrade app snap (mkKey (psi_PVCName snap) (om_Namespace (app_Meta app))).
Proof.
  intros (u0 & Hat & H0 & _ & Hs & Hvr) Hin Hv Hnew. exists u0.
  split; [apply Hat|]. split; [done|]. split; [done|]. split; [done|]. split; [done|].
  by rewrite <- (Hvr _ Hv).
Qed.

Lemma recreate_claim_guarded u h h0 a snap vr :
  h = Obs (DeletePVCObj (mkKey (psi_PVCName snap) (om_Namespace (app_Meta app)))) a :: h0 →
  restoring u h → In snap (recorded_snapshots upgrade) →
  rst_VolumeRestore (rb_Status u) = Some vr →
  already_restored (psi_PVCName snap) (vr_RestoredPVCs vr) = false →
  wp (api_server RollbackRequest) (guard RollbackRequest) (recreate_claim app snap vr u) h
    (leaves restoring).
Proof.
  intros Hh Hr Hin Hv Hnew. unfold recreate_claim, IsPVCDeleted. cbn [bind call wp].
  set (k := mkKey (psi_PVCName snap) _) in *.
  split; [by apply guard_pure|]. intros [pvc|gone] _; cbn [bind negb].
  { by apply wp_wait, restoring_standing, restoring_cons. }
  apply (restoring_cons _ _ _ (GetPVC k) (Err gone)) in Hr; [|done..].
  destruct (IgnoreNotFound gone) eqn:Hgone; cbn [bind negb].
  { by apply wp_stop_with, standing_fails, restoring_standing. }
  unfold RestorePVCFromSnapshot. cbn [restore_request rr_SnapshotName rr_SnapshotNamespace
    rr_NewPVCName rr_NewPVCNamespace rr_StorageClassName rr_Labels bind call wp].
  split; [by apply guard_pure|]. intros [vs|e] _; cbn [bind];
    [|by apply wp_stop_with, standing_fails, restoring_standing, restoring_cons].
  set (g := GetSnapshot _). apply (restoring_cons _ _ _ g (Ok vs)) in Hr; [|done..].
  destruct (vs_Status vs) as [st|] eqn:Hst; cbn [bind];
    [|by apply wp_stop_with, standing_fails, restoring_standing].
  destruct (default false (vss_ReadyToUse st)) eqn:Hready; cbn [negb bind];
    [|by apply wp_stop_with, standing_fails, restoring_standing].
  destruct (vss_RestoreSize st) as [size|] eqn:Hsize; cbn [bind call wp];
    [|by apply wp_stop_with, standing_fails, restoring_standing].
  split.
  - intros _. destruct (restoring_target _ _ _ _ Hr Hin Hv Hnew) as (u0 & Hl & H0 & Hs & Ht).
    exists u0. split; [done|]. split; [by rewrite H0|].
    exists upgrade, app, snap, vs, st, gone, a, h0.
    split; [exact Hs|]. split; [exact Ht|]. split; [by rewrite Hh|]. by repeat split.
  - intros [pvc|e] _; cbn [bind];
      [|by apply wp_stop_with, standing_fails, restoring_standing, restoring_cons].
    by apply restoring_recorded; [|apply restoring_cons].
Qed.

Lemma restore_one_guarded snap u h :
  In snap (recorded_snapshots upgrade) → restoring u h →
  wp (api_server RollbackRequest) (guard RollbackRequest) (restore_one app snap u) h
    (leaves restoring).
Proof.
  intros Hin Hr. unfold restore_one, volume_restore.
  destruct (rst_VolumeRestore (rb_Status u)) as [vr|] eqn:Hv; cbn [deref bind wp]; [|exact I].
  destruct (already_restored _ _) eqn:Hnew; [exact Hr|].
  unfold delete_claim, DeletePVC. cbn [bind call wp]. split.
  - intros _. destruct (restoring_target _ _ _ _ Hr Hin Hv Hnew) as (u0 & Hl & H0 & Hs & Ht).
    exists u0. split; [done|]. split; [by rewrite H0|]. by exists upgrade, app, snap.
  - intros a _. set (k := mkKey _ _).
    assert (restoring u (Obs (DeletePVCObj k) a :: h)) as Hr' by (by apply restoring_cons).
    destruct a as [e|]; cbn [bind]; [destruct (IsNotFound _); cbn [bind]|];
      try (by eapply recreate_claim_guarded).
    by apply wp_stop_with, standing_fails, restoring_standing.
Qed.

Lemma await_bound_guarded before after u h :
  standing u h →
  wp (api_server RollbackRequest) (guard RollbackRequest) (await_bound app u before after) h
    (leaves standing).
Proof.
  revert before u h. induction after as [|x after IH]; intros before u h Hs; cbn [await_bound];
    [exact Hs|].
  destruct (rpi_RestorationState x =?s "Restored"); [by apply IH|].
  unfold IsPVCBound. cbn [bind call wp]. split; [by apply guard_pure|].
  intros [pvc|e] _; cbn [bind]; [|by apply wp_stop_with, standing_fails, standing_cons].
  destruct (pvc_Phase pvc =?s ClaimBound); cbn [negb]; [|by apply wp_wait, standing_cons].
  unfold volume_restore.
  destruct (rst_VolumeRestore (rb_Status u)) as [vr|]; cbn [deref bind wp]; [|exact I].
  apply IH, standing_cons; [done|]. destruct Hs as (u0 & Hat & H0 & Hu). exists u0.
  split; [eapply at_step; [exact Hat|apply Hat|done|done|done]|]. split; [done|].
  rewrite <- Hu. by apply abs_ext.
Qed.

Lemma volumes_restored_guarded u h : standing u h → guarded (volumes_restored u) h.
Proof.
  intros (u0 & Hat & H0 & Hu). unfold volumes_restored, volume_restore. cbn [bind call wp].
  split; [by apply guard_pure|]. intros now _.
  destruct (rst_VolumeRestore _) as [vr|]; cbn [deref bind wp]; [|exact I].
  pose proof (latest_clock h now u0 (at_latest _ _ _ Hat)).
  eapply wp_update_then; [at_tac|step_tac|requeue_tac].
Qed.
End volumes.

(** ** Reconcile *)

Section reconcile.
Context {P : Platform} {PL : PlatformLaws P} {D : Decoders} {Y : Kyaml}.
Variable r : Reconciler.
Implicit Types (h : list event) (u : RollbackRequest).
Notation guarded p h :=
  (wp (api_server RollbackRequest) (guard RollbackRequest) p h (ends RollbackRequest)).

(** The start of the volume restore is stamped: the invariant of the loop holds. *)
Lemma wp_init h0 u0 u upgrade app b c rr hh (f : RollbackRequest → M Reply) h' :
  at_ h0 u0 u → abs u0 = AState false (Some b) true false c rr hh None →
  abs u = AState false (Some b) true false c rr hh None →
  rst_VolumeRestore (rb_Status u) = rst_VolumeRestore (rb_Status u0) →
  seen_suspended h0 u0 upgrade app h' →
  (∀ v h, restoring upgrade app b c rr hh v h → guarded (f v) h) →
  guarded (bind (init_volume_restore u) f) h0.
Proof.
  intros Hat H0 Hu Hvr Hseen Hf. unfold init_volume_restore.
  destruct (rst_VolumeRestore (rb_Status u)) as [vr|] eqn:Hv; cbn [bind call wp].
  - apply Hf. exists u0. split; [done|]. split; [done|]. split; [done|]. split.
    + exists [], h0, h'. by split; [|split; [constructor|]].
    + intros x Hx. unfold restored_in. rewrite <- Hvr. congruence.
  - split; [by apply guard_pure|]. intros now _. apply Hf. exists u0.
    split; [eapply at_step; [exact Hat|by apply latest_clock, Hat|done|done|done]|].
    split; [done|]. split; [rewrite <- Hu; by apply abs_ext|]. split.
    + exists [Obs Now now], h0, h'. split; [done|]. split; [by constructor|done].
    + intros x [= <-]. unfold restored_in. by rewrite <- Hvr.
Qed.

(** The clock of the phase leaves the volumes alone. *)
Lemma wp_phase_volumes h u (f : RollbackRequest → M Reply) :
  latest h = Some u →
  (∀ u' d, at_ (d ++ h) u u' → abs u' = abs u →
     rst_VolumeRestore (rb_Status u') = rst_VolumeRestore (rb_Status u) →
     guarded (f u') (d ++ h)) →
  guarded (bind (setPhaseStartIfNeeded u) f) h.
Proof.
  intros Hl Hf. unfold setPhaseStartIfNeeded.
  destruct (op_PhaseStartedAt (op_Status u)); cbn [bind call wp].
  - by apply (Hf u []); [apply at_start|..].
  - split; [by apply guard_pure|]. intros t _. apply (Hf _ [Obs Now t]); [|by apply abs_ext|done].
    by split; [apply latest_clock|..].
Qed.

Lemma handleVolumeRestore_guarded h u b c rr hh :
  latest h = Some u → abs u = AState false (Some b) true false c rr hh None →
  guarded (handleVolumeRestore u) h.
Proof.
  intros Hl Ha. unfold handleVolumeRestore.
  apply wp_phase_volumes; [done|]. intros u' d Hat Habs Hvr. rewrite Ha in Habs.
  pose proof (at_latest _ _ _ Hat).
  walk_step; [|by repeat walk_step]. cbn iota. walk_step; [|by repeat walk_step].
  walk_step. cbn iota beta. eapply wp_verified; [eassumption|done|intros; by repeat walk_step|].
  intros h1 Hl1 Hseen.
  eapply wp_init; [by eapply at_step|eassumption|done|done|exact Hseen|].
  intros v h2 Hr. destruct (ust_Snapshot (ur_Status upgrade)) as [st|] eqn:Hst;
    cbn [deref bind]; [|done].
  rewrite wp_bind. eapply (wp_for_each _ _ (restoring upgrade app b c rr hh)); [exact Hr| |].
  - intros w h3 Hw. unfold volume_restore.
    destruct (rst_VolumeRestore (rb_Status w)) as [vr|]; cbn [deref bind wp]; [|done].
    rewrite wp_bind. eapply wp_mono; [by eapply await_bound_guarded, restoring_standing|done|].
    intros [[x|reply]|m] h4 Hx; [by eapply volumes_restored_guarded|exact Hx|exact I].
  - intros snap w h3 Hin Hw. eapply wp_mono; [apply restore_one_guarded; [|exact Hw]|done|].
    + unfold recorded_snapshots. by rewrite Hst.
    + by intros [[x|reply]|m] h4 Hx.
Qed.

Lemma after_stop_guarded h u :
  latest h = Some u → a_stopped (abs u) = true → a_dry (abs u) = false →
  a_complete (abs u) = None → a_suspended (abs u) ≠ None →
  guarded (after_stop r u) h.
Proof.
  intros Hl Hst Hd Hc Hs. unfold after_stop.
  destruct (rollback_tests u) as (_ & _ & -> & -> & -> & ->).
  destruct (abs u) as [d [b|] st sn cm rc hh co] eqn:Ha; cbn in *; [subst|done].
  destruct sn; cbn [negb]; [|by eapply handleVolumeRestore_guarded].
  destruct cm; cbn [negb]; [|by eapply handleGitRevert_guarded].
  destruct rc; cbn [negb]; [|by eapply rb_handleReconciling_guarded].
  destruct hh; cbn [negb]; [|by eapply rb_handleHealthChecking_guarded].
  by eapply rb_handleCompleted_guarded.
Qed.

Lemma rb_dispatch_guarded h u :
  latest h = Some u → a_complete (abs u) = None → guarded (dispatch r u) h.
Proof.
  intros Hl Hc. pose proof (suspended_absent u) as Habs. unfold dispatch.
  change (rs_DryRun (rb_Spec u)) with (a_dry (abs u)).
  destruct (rollback_tests u) as (_ & Hst & _). rewrite Hst.
  destruct (abs u) as [d s st sn cm rc hh co] eqn:Ha; cbn in Hc |- *; subst co.
  destruct d; [by eapply rb_handleDryRun_guarded|].
  cbn in Habs.
  destruct (condition _ _) as [sc|] eqn:Hf.
  2:{ rewrite (proj1 Habs eq_refl) in Ha. by eapply rb_handleSuspend_guarded. }
  destruct s as [b|]; [|by discriminate (proj2 Habs eq_refl)].
  destruct st; cbn [negb].
  { by apply after_stop_guarded; rewrite ?Ha. }
  rewrite wp_bind. eapply wp_mono; [by eapply handleStopWorkload_guarded|done|].
  intros [[[v reply] []]|m] h' Hq; cbn [negb]; [|exact Hq|exact I].
  destruct Hq as (? & ? & ? & ? & ?). by apply after_stop_guarded.
Qed.

(** Every reconcile, after any history. *)
Lemma rb_Reconcile_guarded key h : guarded (Reconcile r key) h.
Proof.
  unfold Reconcile. change (GetRollback key) with (op_Get RollbackRequest key).
  apply wp_fetch. intros. by apply rb_dispatch_guarded.
Qed.
End reconcile.
