(* ===== verification/RollbackTheorems.v ===== *)
(** * The properties of the rollback reconciler

Over any number of reconciles, whatever the cluster answers: the status follows the same
abstract machine as an upgrade's, a claim is deleted and recreated only under a suspension
seen in the same reconcile, the revert commit happens once and restores the recorded version,
a dry run and a finished request change nothing, and no request is forgotten. *)

From S2P Require Import Prelude GoLib Api Platform Footprint Discovery Workload Flux Snapshot Health.
From S2P Require Import Yaml Git Controller Phases Operation Guard Quiesce Runs Progress Cluster Shop.
From S2P Require Import Rollback RollbackGuard RollbackProofs.
From S2P Require Upgrade.

(** ** The contracts *)

Section contracts.
Context {P : Platform} {Y : Kyaml}.

(** A status write is a step of the machine, to a reachable state. *)
Definition rollback_steps (dry : bool) : guarantee ev := λ h R e,
  match e with
  | StatusUpdateRollback x =>
      ∃ u : RollbackRequest, latest h = Some u ∧ astep (abs u) (abs x)
                             ∧ rtc astep (initial dry) (abs x) ∧ ordered (abs x)
  | _ => True
  end.

(** The state in which volumes are dealt with. *)
Definition volumes_due (u : RollbackRequest) : Prop :=
  a_dry (abs u) = false ∧ a_stopped (abs u) = true ∧ a_prepared (abs u) = false
  ∧ a_committed (abs u) = false ∧ a_complete (abs u) = None.

(** When a claim may be deleted and when it may be created. *)
Definition volumes_guarded : guarantee ev := λ h R e,
  match e with
  | DeletePVCObj k => ∃ u, latest h = Some u ∧ volumes_due u ∧ delete_write h u k
  | CreatePVC p => ∃ u, latest h = Some u ∧ volumes_due u ∧ create_write h u p
  | _ => True
  end.

(** When the revert is committed, and what it writes. *)
Definition reverts_guarded : guarantee ev := λ h R e,
  match e with
  | GitCommitFile change message =>
      ∃ u, latest h = Some u ∧ a_dry (abs u) = false ∧ a_stopped (abs u) = true
           ∧ a_prepared (abs u) = true ∧ a_committed (abs u) = false ∧ a_complete (abs u) = None
           ∧ revert_write h u change message
  | _ => True
  end.
(** And not once the server has ever shown it made. *)
Definition reverts_once : guarantee ev := λ h R e,
  match e with
  | GitCommitFile change message =>
      ∀ v : RollbackRequest, In v (shown h) → a_committed (abs v) = false
  | _ => True
  end.

(** What a rollback never does, and what a dry run does not do: of all rollbacks, only that of
    this name is written. *)
Definition rollback_harmless (dry : bool) (key : NamespacedName) : guarantee ev := λ h R e,
  kmem (kind_of e) [KUpdateUpgrade; KStatusUpgrade; KCreateRollback; KStatusApp;
                    KCreateSnapshot; KDeleteSnapshot] = false
  ∧ match e with UpdateRollback x | StatusUpdateRollback x => keyOf (rb_Meta x) = key | _ => True end
  ∧ (dry = true → kmem (kind_of e) [KGitCommit; KCreatePVC; KDeletePVC] = false).
(** Nothing but finalizers changes once the request was last read as finished, or once the
    server has ever shown it finished. *)
Definition rollback_left_alone : guarantee ev := λ h R e,
  mutates R e = true → kind_of e ≠ KUpdateRollback →
  ∃ u : RollbackRequest, latest h = Some u ∧ terminal (abs u) = false.
Definition rollback_absorbed : guarantee ev := λ h R e,
  mutates R e = true → kind_of e ≠ KUpdateRollback →
  ∀ v : RollbackRequest, In v (shown h) → terminal (abs v) = false.

(** An answer without an error asks for another run, now or later, or nothing is left. *)
Definition rollback_woken (o : outcome Reply) (h : list event) : Prop :=
  ∀ c, o = Done (c, None) →
       cr_Requeue c = true ∨ 0 < cr_RequeueAfter c ∨ settled RollbackRequest h.
End contracts.

(** ** The theorems *)

Section theorems.
Context {P : Platform} {PL : PlatformLaws P} {D : Decoders} {Y : Kyaml}.
Variable r : Reconciler.
Variable key : NamespacedName.

(** C15: refinement.  Over any number of reconciles of a new RollbackRequest, every status the
    controller writes is one step of the abstract machine from the status last read, and
    every status written is reachable in it, even when reads are stale. *)
Theorem rollback_refines_machine dry n :
  wp (cached RollbackRequest (initial dry)) (rollback_steps dry)
    (reconciles (Reconcile r key) n) []
    (λ _ h, ∀ u : RollbackRequest, latest h = Some u → rtc astep (initial dry) (abs u)).
Proof.
  eapply wp_mono; [apply reconciles_refine, rb_Reconcile_guarded| |done].
  intros h R e He. by destruct e.
Qed.

Lemma permitted_volumes k (u : RollbackRequest) :
  k = KDeletePVC ∨ k = KCreatePVC → ordered (abs u) →
  rollback_permitted (abs u) k = true → volumes_due u.
Proof.
  intros Hk [_ H2 _ _ _ _] Hp. unfold volumes_due.
  assert (a_committed (abs u) = true → a_prepared (abs u) = true) as Hc by (intros; by apply H2).
  revert Hp Hc. unfold rollback_permitted, terminal.
  destruct Hk as [->| ->]; destruct (abs u) as [[] [s|] [] [] [] rc hh [c|]]; cbn; try done;
    intros _ Hc; by discriminate (Hc eq_refl).
Qed.

(** C13: volumes.  A claim is deleted only for a live, non-dry rollback whose workloads are
    stopped, after the application's Kustomization was seen suspended in the same reconcile,
    and only if a snapshot of the upgrade stands for it and it was not restored yet.  It is
    created only right after its deletion was asked for, it was seen gone and the snapshot
    was read as ready, with the snapshot as its source and the size the snapshot has.  Reads
    of the request may be stale. *)
Theorem rollback_volumes_guarded dry n :
  wp (cached RollbackRequest (initial dry)) volumes_guarded
    (reconciles (Reconcile r key) n) [] (λ _ _, True).
Proof.
  apply (reconciles_inv _ (rb_Reconcile_guarded r key) _ n (all_reach RollbackRequest (initial dry)));
    [apply cached_serves|apply all_reach_nil|apply all_reach_step| |done].
  intros h R e Hi Hg. destruct (mutates R e) eqn:Hm; [|by destruct e].
  destruct (guard_reach _ _ _ _ Hi Hg Hm) as (u & Hl & Ho & _ & Hp & Hd).
  destruct e; try exact I; exists u; (split; [exact Hl|]); (split; [|exact Hd]);
    by eapply permitted_volumes; eauto.
Qed.

(** C14: the revert commit is made only for a live, non-dry rollback whose volumes are
    restored and whose revert is not recorded, right after reading the upgrade and its
    application, seeing its Kustomization suspended and reading the file; it writes that file
    with the version the upgrade replaced.  This holds also where reads are stale.  Where reads
    answer what was last stored, no revert is committed any more once the server has shown the
    request as reverted. *)
Theorem rollback_revert_guarded a0 n :
  wp (cached RollbackRequest a0) reverts_guarded (reconciles (Reconcile r key) n) [] (λ _ _, True)
  ∧ wp (storage RollbackRequest a0) reverts_once (reconciles (Reconcile r key) n) [] (λ _ _, True).
Proof.
  split.
  - apply (reconciles_inv _ (rb_Reconcile_guarded r key) _ n (λ _, True));
      [apply cached_serves|done..| |done].
    intros h R e _ Hg. destruct e; try exact I.
    destruct (guard_inv _ _ _ Hg eq_refl) as (u & Hl & _ & Hp & Hd).
    exists u. split; [done|]. revert Hp Hd. cbn. unfold rollback_permitted, terminal.
    by destruct (abs u) as [[] [b|] [] [] [] rc hh [c|]].
  - apply (reconciles_inv _ (rb_Reconcile_guarded r key) _ n (lasting RollbackRequest a_committed));
      [apply storage_serves|apply lasting_nil| | |done].
    { intros. eapply lasting_step; eauto using astep_committed. }
    intros h R e Hi Hg. destruct e; try exact I.
    destruct (guard_inv _ _ _ Hg eq_refl) as (u & Hl & Hin & Hp & _).
    intros v Hv. destruct (a_committed (abs v)) eqn:Hc; [|done].
    pose proof (Hi v Hv Hc u Hin) as Hu. revert Hp. cbn. unfold rollback_permitted. rewrite Hu.
    by rewrite andb_false_r.
Qed.

(** No other rollback is read, so none is written. *)
Lemma rb_Reconcile_asks : emits (asks_for RollbackRequest key) (Reconcile r key).
Proof.
  unfold Reconcile. apply emits_bind; [by cbn|]. intros [u|e]; [|done].
  eapply emits_mono; [apply (with_finalizer_within rollback_underway); [done|]|].
  - intros v. by apply rb_dispatch_within.
  - intros R e He. by destruct e.
Qed.
Lemma written_key h R (e : ev R) :
  one_request RollbackRequest key h → guard RollbackRequest h R e →
  match e with UpdateRollback x | StatusUpdateRollback x => keyOf (rb_Meta x) = key | _ => True end.
Proof.
  intros Hi Hg. destruct e; try exact I;
    destruct (guard_own _ _ _ _ Hg eq_refl eq_refl) as (u & _ & Hu%candidates_versions & Hd);
    apply write_request in Hd as [_ Hk]; cbn in Hk; rewrite Hk; by apply Hi.
Qed.

(** C19: a rollback never writes an upgrade, an application, a snapshot or any other rollback
    than the one it is asked to reconcile, and creates none; a dry run makes no commit and
    leaves every claim alone.  A reconcile that reads the request as finished changes nothing
    but its finalizers.  All this holds where reads are stale; where they answer what was last
    stored, no reconcile changes anything but finalizers once the server has shown the request
    finished. *)
Theorem rollback_harmless_outside dry n :
  wp (λ h R e a, cached RollbackRequest (initial dry) h R e a ∧ named RollbackRequest h R e a)
    (λ h R e, rollback_harmless dry key h R e ∧ rollback_left_alone h R e)
    (reconciles (Reconcile r key) n) [] (λ _ _, True)
  ∧ wp (storage RollbackRequest (initial dry)) rollback_absorbed
      (reconciles (Reconcile r key) n) [] (λ _ _, True).
Proof.
  split.
  2:{ eapply wp_mono; [apply reconciles_absorbed, rb_Reconcile_guarded| |done].
      intros h R e He Hm Hk. by apply He. }
  set (Φ := λ h R e a, cached RollbackRequest (initial dry) h R e a ∧ named RollbackRequest h R e a).
  pose proof (reconciles_guarded _ (rb_Reconcile_guarded r key) Φ n []
    (λ h R e a H, cached_api _ h R e a (proj1 H))) as Hg.
  pose proof (wp_emits_guard (asks_for RollbackRequest key) Φ _ [] _ (wp_free _ _ _)
    (reconciles_emits _ _ n rb_Reconcile_asks)) as Ha.
  eapply wp_mono;
    [eapply (wp_invariant _ _ (λ h, all_reach RollbackRequest (initial dry) h
                                   ∧ one_request RollbackRequest key h));
       [exact (wp_both _ _ _ _ _ _ _ Hg Ha)|..]| |done].
  - split; [apply all_reach_nil|apply one_request_nil].
  - intros h R e a [Hi Hk] [Hge Hae] [Hs Hn]. split; [by eapply all_reach_step|].
    by eapply one_request_step.
  - intros h R e [[Hge _] [Hi Hk]]. pose proof (written_key h R e Hk Hge) as Hw.
    destruct (mutates R e) eqn:Hm.
    2:{ unfold rollback_harmless, rollback_left_alone. rewrite Hm. rewrite mutates_kind in Hm.
        split; [|done]. split; [|split; [exact Hw|]]; by destruct (kind_of e). }
    destruct (guard_reach _ _ _ _ Hi Hge Hm) as (u & Hl & Ho & Hd & Hp & _).
    rewrite mutates_kind in Hm. split; [split; [|split; [exact Hw|]]|].
    + revert Hp Hm. cbn. by destruct (kind_of e).
    + intros ->. revert Hp. cbn. unfold rollback_permitted. rewrite Hd.
      by destruct (kind_of e); cbn; rewrite ?andb_false_r.
    + intros _ Hke. exists u. split; [done|]. exact (permitted_live _ _ u Hp Hm Hke).
Qed.

(** No lost wake-up.  A reconcile that returns no error either asks to be run again,
    or leaves nothing to do: the request was not found, is being deleted, or is finished. *)
Theorem rollback_no_lost_wakeup h0 :
  wp (api_server RollbackRequest) free (Reconcile r key) h0 rollback_woken.
Proof.
  eapply wp_mono; [apply rb_Reconcile_guarded|done|].
  intros o h Hends c ->. by apply ends_woken.
Qed.

(** C20: progress, where reads answer what was last stored and nobody else writes the request.
    Of any number of reconciles of a rollback at most seven, not counting those that added the
    finalizer, ask to be run again at once; all the others ask for a delay or failed, or else
    one of them found nothing left to do: the request finished, being deleted, or gone. *)
Theorem rollback_progresses a0 n :
  wp (storage RollbackRequest a0) free (verdicts (Reconcile r key) n) [] (progresses (O:=RollbackRequest) n).
Proof.
  eapply wp_mono; [apply verdicts_progress; [apply rb_Reconcile_guarded|]|done|done].
  by eexists _, _, _.
Qed.
End theorems.

(** ** An upgrade and its rollback on the model cluster *)

#[local] Existing Instance reference.
#[local] Existing Instance no_helm.
#[local] Existing Instance two_lines.

(** The cluster after the upgrade of the application whose claim is listed. *)
Definition upgraded : cluster :=
  final (run env (reconciles (Upgrade.Reconcile with_git shop_key) 12)
           (with_app listed_app (shop_cluster false (shop_doc "1.0.0"))) []).
Definition rollback_run (dry : bool) (n : nat) : outcome unit * cluster * list event :=
  run env (reconciles (Reconcile with_git rollback_key) n)
    (with_rollback (Some (shop_rollback dry)) upgraded) [].

(** An upgrade, then its rollback.  On the model cluster the upgrade leaves the new
    version in the file and a snapshot of the claim; the rollback puts the old version back
    and replaces the claim by one restored from that snapshot, resumes Flux and succeeds.
    The application's status is left behind: it still reports the version rolled back. *)
Theorem shop_upgrade_then_rollback :
  let w := final (rollback_run false 12) in
  cl_file upgraded = shop_doc "1.1.0" ∧ cl_file w = shop_doc "1.0.0"
  ∧ (∃ s, cl_snapshots upgraded = [s] ∧ cl_snapshots w = [s]
          ∧ map (λ p, (om_Name (pvc_Meta p), ds_Name <$> pvc_DataSource p)) (cl_pvcs w)
            = [("data", Some (om_Name (vs_Meta s)))])
  ∧ map ks_Suspend (cl_ks w) = [false]
  ∧ (∃ u, cl_rollback w = Some u ∧ cond_true u ConditionTypeComplete = true)
  ∧ ast_CurrentVersion (app_Status (cl_app w)) = Some (mkVersionInfo "1.1.0" []).
Proof. vm_compute. repeat (split || eexists). Qed.

(** ** Each theorem at work on the model cluster *)

Lemma rollback_guaranteed Φ dry n G Q :
  (∀ h R e a, storage RollbackRequest (initial dry) h R e a → Φ h R e a) →
  wp Φ G (reconciles (Reconcile with_git rollback_key) n) [] Q →
  guaranteed G (trace (rollback_run dry n)).
Proof.
  intros HΦ Hwp. eapply run_trace; [apply (rollback_follows (initial dry))| |].
  - eapply wp_protocol; [exact Hwp|exact HΦ].
  - exists (shop_rollback dry). split; [done|]. by left.
Qed.

Definition made (k : kind) (dry : bool) : nat := length (calls k (trace (rollback_run dry 12))).

Lemma rollback_refines_machine_witness :
  guaranteed (rollback_steps false) (trace (rollback_run false 12))
  ∧ made KStatusRollback false = 9%nat.
Proof.
  split; [|vm_compute; reflexivity].
  eapply (rollback_guaranteed (cached _ _));
    [apply storage_cached|]. apply (rollback_refines_machine with_git rollback_key false 12).
Defined.

Lemma rollback_volumes_guarded_witness :
  guaranteed volumes_guarded (trace (rollback_run false 12))
  ∧ made KDeletePVC false = 1%nat ∧ made KCreatePVC false = 1%nat.
Proof.
  split; [|vm_compute; done].
  eapply (rollback_guaranteed (cached _ _));
    [apply storage_cached|]. apply (rollback_volumes_guarded with_git rollback_key false 12).
Defined.

Lemma rollback_revert_guarded_witness :
  guaranteed (λ h R e, reverts_guarded h R e ∧ reverts_once h R e) (trace (rollback_run false 12))
  ∧ made KGitCommit false = 1%nat.
Proof.
  split; [|vm_compute; reflexivity].
  destruct (rollback_revert_guarded with_git rollback_key (initial false) 12) as [Hguarded Honce].
  apply guaranteed_both.
  - eapply (rollback_guaranteed (cached _ _)); [apply storage_cached|]. apply Hguarded.
  - eapply (rollback_guaranteed (storage _ _)); [done|]. apply Honce.
Defined.

Lemma rollback_harmless_outside_witness :
  guaranteed (λ h R e, rollback_harmless true rollback_key h R e ∧ rollback_left_alone h R e)
    (trace (rollback_run true 12))
  ∧ guaranteed rollback_absorbed (trace (rollback_run true 12))
  ∧ made KUpdateKs true = 2%nat ∧ (0 < made KStatusRollback true)%nat.
Proof.
  split; [|split; [|split; vm_compute; [reflexivity|lia]]].
  - eapply run_trace; [exact (follows_and _ _ _ _ (rollback_follows (initial true)) env_named_rollback)| |].
    + eapply wp_protocol; [apply (rollback_harmless_outside with_git rollback_key true 12)|].
      intros h R e a [? ?]. split; [by apply storage_cached|done].
    + exists (shop_rollback true). split; [done|]. by left.
  - eapply (rollback_guaranteed (storage _ _)); [done|].
    apply (rollback_harmless_outside with_git rollback_key true 12).
Defined.

Lemma rollback_no_lost_wakeup_witness :
  wp (api_server RollbackRequest) free (Reconcile with_git rollback_key) [] rollback_woken
  ∧ (run env (Reconcile with_git rollback_key)
       (with_rollback (Some (shop_rollback false)) upgraded) []).1.1
    = Done (requeue_now, None).
Proof.
  split; [|vm_compute; reflexivity]. apply (rollback_no_lost_wakeup with_git rollback_key []).
Defined.

Lemma rollback_progresses_witness :
  wp (storage RollbackRequest (initial false)) free (verdicts (Reconcile with_git rollback_key) 12) []
    (progresses (O:=RollbackRequest) 12)
  ∧ let '(o, _, h) := run env (verdicts (Reconcile with_git rollback_key) 12)
                        (with_rollback (Some (shop_rollback false)) upgraded) [] in
    o = Done (replicate 6 AtOnce ++ [Over; AtOnce; Over; Over; Over; Over])
    ∧ finalizers_added (O:=RollbackRequest) h = 2%nat.
Proof.
  split; [|by vm_compute]. apply (rollback_progresses with_git rollback_key (initial false) 12).
Defined.
