(* ===== verification/RollbackFailure.v ===== *)
(** * A rollback that waits for ever

While a claim is being deleted the handler asks to be run again without storing its status,
so the clock of the phase, set at the top of the handler, starts anew in every reconcile:
[volume_wait_never_times_out]. *)

From S2P Require Import Prelude GoLib Api Platform Footprint Discovery Flux Snapshot Health Yaml.
From S2P Require Import Controller Phases Operation Guard Runs Cluster Shop.
From S2P Require Import Rollback RollbackGuard.

Section volume_wait.
Context {P : Platform} {PL : PlatformLaws P} {D : Decoders} {Y : Kyaml} (r : Reconciler).
Implicit Types (u : RollbackRequest) (upgrade : UpgradeRequest).

(** Volumes are due, and the status does not say since when. *)
Definition restoring_unrecorded u : Prop :=
  om_DeletionTimestamp (rb_Meta u) = None
  ∧ ContainsFinalizer (rb_Meta u) OperationFinalizer = true
  ∧ a_dry (abs u) = false ∧ a_suspended (abs u) ≠ None ∧ a_stopped (abs u) = true
  ∧ a_prepared (abs u) = false ∧ terminal (abs u) = false
  ∧ rst_PhaseStartedAt (rb_Status u) = None.

(** When a reconcile first looked at the clock. *)
Fixpoint begun (h : list event) : option Time :=
  match h with
  | [] => None
  | Obs e a :: h =>
      match e in ev R return R → option Time with
      | GetRollback _ => λ _, None
      | Now => λ t, Some (default t (begun h))
      | _ => λ _, begun h
      end a
  end.

(** The claim is deleted but stays (its finalizer is not removed), and each reconcile takes
    less than the time-out. *)
Definition claim_stays u upgrade : protocol ev := λ h R e,
  match e in ev R return R → Prop with
  | Now => λ t, ∀ t0, begun h = Some t0 → t ≤ t0 + TimeoutVolumeRestore
  | GetRollback _ => λ a, a = Ok u
  | GetUpgrade _ => λ a, a = Ok upgrade
  | GetApp _ => λ a, ∃ x, a = Ok x
  | GetKustomization _ => λ a, ∃ ks, a = Ok ks ∧ ks_Suspend ks = true
  | DeletePVCObj _ => λ a, a = None
  | GetPVC _ => λ a, ∃ x, a = Ok x
  | _ => λ _, True
  end.

Definition only_deletes : guarantee ev := λ _ R e, mutates R e = true → kind_of e = KDeletePVC.
Definition asks_again {A} (x : A) (o : outcome A) (_ : list event) : Prop := o = Done x.

Section handler.
Variables (u0 : RollbackRequest) (upgrade : UpgradeRequest).
Notation waits p h x := (wp (claim_stays u0 upgrade) only_deletes p h (asks_again x)).

Lemma restore_one_waits app snap u t vr h :
  rst_PhaseStartedAt (rb_Status u) = Some t → begun h = Some t →
  rst_VolumeRestore (rb_Status u) = Some vr →
  already_restored (psi_PVCName snap) (vr_RestoredPVCs vr) = false →
  waits (restore_one app snap u) h (inr (requeue_after (10 * Second), None)).
Proof.
  intros Ht Hb Hvr Hnew. unfold restore_one, volume_restore. rewrite Hvr. cbn [deref bind].
  rewrite Hnew. unfold delete_claim, DeletePVC. cbn [bind call wp]. split; [done|].
  intros a ->. cbn [bind]. unfold recreate_claim, IsPVCDeleted. cbn [bind call wp].
  split; [done|]. intros a [pvc ->]. cbn [bind negb]. unfold wait_volume, isPhaseTimedOut.
  cbn [op_PhaseStartedAt op_Status rollback_operation]. rewrite Ht. cbn [bind call wp].
  split; [done|]. intros now Hnow. specialize (Hnow t Hb).
  assert (TimeoutVolumeRestore <? now - t = false) as -> by (apply Z.ltb_ge; lia). done.
Qed.

Lemma init_recorded u t h :
  rst_PhaseStartedAt (rb_Status u) = Some t → begun h = Some t →
  wp (claim_stays u0 upgrade) only_deletes (init_volume_restore u) h
    (λ o h', ∃ u' vr, o = Done u' ∧ rst_PhaseStartedAt (rb_Status u') = Some t
                      ∧ begun h' = Some t ∧ rst_VolumeRestore (rb_Status u') = Some vr
                      ∧ vr_RestoredPVCs vr = restored_in u).
Proof.
  intros Ht Hb. unfold init_volume_restore, restored_in.
  destruct (rst_VolumeRestore (rb_Status u)) as [vr|] eqn:Hvr; cbn [bind call wp].
  - by exists u, vr.
  - split; [done|]. intros now _. eexists _, _. split; [done|]. split; [done|].
    split; [cbn; by rewrite Hb|done].
Qed.

Lemma handleVolumeRestore_waits u st snap snaps h :
  begun h = None →
  rst_PhaseStartedAt (rb_Status u) = None →
  ust_Snapshot (ur_Status upgrade) = Some st → sns_PVCSnapshots st = snap :: snaps →
  already_restored (psi_PVCName snap) (restored_in u) = false →
  waits (handleVolumeRestore u) h (requeue_after (10 * Second), None).
Proof.
  intros Hb Hclock Hsnap Hsnaps Hnew. unfold handleVolumeRestore, setPhaseStartIfNeeded.
  change (op_PhaseStartedAt (op_Status u)) with (rst_PhaseStartedAt (rb_Status u)).
  rewrite Hclock. unfold getUpgradeRequest. cbn [bind call wp].
  split; [done|]. intros t _. split; [done|]. intros a ->.
  unfold getManagedApp. cbn [bind call wp]. split; [done|]. intros a [app ->]. cbn [bind].
  destruct (getSuspendTarget app) as [n ns].
  unfold VerifyStillSuspended, IsSuspended. cbn [bind call wp].
  split; [done|]. intros a (ks & -> & Hks). cbn [bind]. rewrite Hks. cbn [negb bind].
  rewrite wp_bind. eapply wp_mono; [apply (init_recorded _ t); [done|cbn; by rewrite Hb]|done|].
  intros o h' (u' & vr & -> & Ht' & Hb' & Hvr & Hres). rewrite Hsnap. cbn [deref bind].
  rewrite Hsnaps. cbn [for_each]. rewrite !wp_bind.
  eapply wp_mono; [eapply restore_one_waits; [exact Ht'|exact Hb'|exact Hvr|by rewrite Hres]|done|].
  by intros o h'' ->.
Qed.
End handler.

Lemma Reconcile_waits key u upgrade st snap snaps h :
  restoring_unrecorded u →
  ust_Snapshot (ur_Status upgrade) = Some st → sns_PVCSnapshots st = snap :: snaps →
  already_restored (psi_PVCName snap) (restored_in u) = false →
  wp (claim_stays u upgrade) only_deletes (Reconcile r key) h
    (asks_again (requeue_after (10 * Second), None)).
Proof.
  intros (Hdel & Hfin & Hdry & Hsus & Hst & Hpr & Hter & Hclock) Hsnap Hsnaps Hnew.
  unfold Reconcile. cbn [bind call wp]. split; [done|]. intros a ->. cbn [bind].
  unfold with_finalizer. cbn [op_Meta rollback_operation]. rewrite Hdel, Hfin. cbn [negb].
  rewrite is_terminal_abs, Hter. unfold dispatch.
  change (rs_DryRun (rb_Spec u)) with (a_dry (abs u)). rewrite Hdry.
  destruct (condition u ConditionTypeSuspended) eqn:Hc; [|by apply suspended_absent in Hc].
  rewrite cond_true_flagged. change (flagged u ConditionTypeWorkloadStopped) with (a_stopped (abs u)).
  rewrite Hst. cbn [negb]. unfold after_stop. rewrite cond_true_flagged.
  change (flagged u ConditionTypeVolumesRestored) with (a_prepared (abs u)). rewrite Hpr. cbn [negb].
  by eapply handleVolumeRestore_waits.
Qed.

(** A claim's deletion never times out.  A rollback that has come to its volumes, without
    the beginning of this phase in its status, and whose claim stays while it is being
    deleted: however often it is reconciled, and however much time passes in all, nothing is
    ever written but the deletion asked for again, and every reconcile (that takes less than
    the time-out itself) asks to be run again in ten seconds. *)
Theorem volume_wait_never_times_out key u upgrade st snap snaps n :
  restoring_unrecorded u →
  ust_Snapshot (ur_Status upgrade) = Some st → sns_PVCSnapshots st = snap :: snaps →
  already_restored (psi_PVCName snap) (restored_in u) = false →
  wp (claim_stays u upgrade) only_deletes (reconciles (Reconcile r key) n) [] (λ _ _, True)
  ∧ ∀ h, wp (claim_stays u upgrade) only_deletes (Reconcile r key) h
           (asks_again (requeue_after (10 * Second), None)).
Proof.
  intros Hu Hsnap Hsnaps Hnew.
  assert (∀ h, wp (claim_stays u upgrade) only_deletes (Reconcile r key) h
                 (asks_again (requeue_after (10 * Second), None))) as Hwait
    by (intros h; by eapply Reconcile_waits).
  split; [|done]. apply reconciles_keep. intros h. by eapply wp_mono.
Qed.
End volume_wait.

(** ** On the model cluster *)

#[local] Existing Instance reference.
#[local] Existing Instance no_helm.
#[local] Existing Instance two_lines.

(** The rollback of [Shop] after its workloads were stopped. *)
Definition stopped_rollback : RollbackRequest :=
  let u := shop_rollback false in
  let u := rb_set_Meta (AddFinalizer (rb_Meta u) OperationFinalizer) u in
  let u := generation_cond u ConditionTypeSuspended ConditionTrue "KustomizationSuspended" "" in
  generation_cond u ConditionTypeWorkloadStopped ConditionTrue "WorkloadsStopped" "".
Definition shop_taken : SnapshotStatus :=
  mkSnapshotStatus [mkPVCSnapshotInfo "data" "shop-data-pre-upgrade-19700101000000"] None None.
Definition upgraded_shop : UpgradeRequest :=
  ur_set_Status (ust_set_Snapshot (Some shop_taken) (ur_Status (shop_upgrade false)))
    (shop_upgrade false).

Lemma volume_wait_never_times_out_witness :
  wp (claim_stays stopped_rollback upgraded_shop) only_deletes
    (reconciles (Reconcile with_git rollback_key) 1000) [] (λ _ _, True).
Proof.
  refine (proj1 (volume_wait_never_times_out with_git rollback_key stopped_rollback upgraded_shop
                   shop_taken _ [] 1000 _ _ _ _)); try reflexivity.
  by repeat split.
Defined.
