(* ===== verification/Race.v ===== *)
(** * Two controllers on one cluster: the automatic rollback and the upgrade it undoes

The manager runs the upgrade and the rollback controller concurrently.  A failing upgrade
creates its RollbackRequest first and stores its own failure afterwards; a rollback whose
upgrade is not finished fails for good.  This file states the second half for every request
([rollback_of_running_upgrade]), and interleaves the two reconcilers call by call on the
model cluster to find the schedules in which an automatic rollback is lost. *)

From S2P Require Import Prelude GoLib Api Platform Footprint Discovery Yaml Controller Phases.
From S2P Require Import Operation Guard Runs Cluster Shop.
From S2P Require Upgrade.
From S2P Require Import Rollback.

(** ** A rollback does not wait for its upgrade *)

Section rollback.
Context {P : Platform} {PL : PlatformLaws P} {D : Decoders} {K : Kyaml} (r : Reconciler).
Implicit Types (u x : RollbackRequest) (up : UpgradeRequest).

(** The server answers with this rollback request and this upgrade. *)
Definition shows u up : protocol ev := λ _ R e,
  match e in ev R return R → Prop with
  | GetRollback _ => λ a, a = Ok u
  | GetUpgrade _ => λ a, a = Ok up
  | StatusUpdateRollback x => λ a, match a with Ok y => rb_Meta y = rb_Meta x | Err _ => True end
  | _ => λ _, True
  end.

(** The request is failed with the reason, and then only loses its finalizer. *)
Definition fails_only u (reason : string) : guarantee ev := λ _ R e,
  match e with
  | StatusUpdateRollback x =>
      rb_Spec x = rb_Spec u
      ∧ ∃ c, condition x ConditionTypeComplete = Some c
             ∧ c_Status c = ConditionFalse ∧ c_Reason c = reason
  | UpdateRollback x => ContainsFinalizer (rb_Meta x) OperationFinalizer = false
  | e => mutates _ e = false
  end.

(** Not coming back; without an error, because a status was stored. *)
Definition gives_up (o : outcome Reply) (h : list event) : Prop :=
  ∃ err, o = Done (done_result, err)
         ∧ (err = None → ∃ x y, In (Obs (StatusUpdateRollback x) (Ok y)) h).

Lemma setFailed_gives_up u0 u up reason message h :
  rb_Spec u = rb_Spec u0 →
  wp (shows u0 up) (fails_only u0 reason) (setFailed u reason message) h gives_up.
Proof.
  intros Hs. unfold setFailed, finish. cbn [bind call wp op_StatusUpdate rollback_operation].
  split.
  { split; [done|]. eexists. split; [apply condition_set|done]. }
  intros [y|e] _; cbn [wp]; [|by eexists].
  destruct (ContainsFinalizer (op_Meta y) OperationFinalizer); cbn [bind call wp].
  - split; [apply contains_remove|].
    intros [z|e] _; cbn [wp]; (eexists; split; [reflexivity|]); [|done].
    intros _. eexists _, y. right. by left.
  - eexists. split; [reflexivity|]. intros _. eexists _, y. by left.
Qed.

(** A rollback does not wait for its upgrade.  A new rollback (not a dry run) whose
    upgrade is still running when it is first worked on is failed for good: its status is
    written once, with Complete false and the reason UpgradeInProgress, nothing else is
    touched, and it is not looked at again. *)
Theorem rollback_of_running_upgrade key u up :
  om_DeletionTimestamp (rb_Meta u) = None →
  ContainsFinalizer (rb_Meta u) OperationFinalizer = true →
  is_terminal u = false → rs_DryRun (rb_Spec u) = false →
  condition u ConditionTypeSuspended = None → isUpgradeTerminal up = false →
  wp (shows u up) (fails_only u "UpgradeInProgress") (Reconcile r key) [] gives_up.
Proof.
  intros Hdel Hfin Hter Hdry Hsus Hup. unfold Reconcile. cbn [bind call wp].
  split; [done|]. intros a ->. unfold with_finalizer.
  cbn [op_Meta rollback_operation]. rewrite Hdel, Hfin. cbn [negb]. rewrite Hter.
  unfold dispatch. rewrite Hdry, Hsus. unfold handleSuspend, set_started, getUpgradeRequest.
  destruct (rst_StartedAt (rb_Status u)); cbn [bind call wp].
  - split; [done|]. intros a ->. rewrite Hup. by apply setFailed_gives_up.
  - split; [done|]. intros now _. cbn [bind call wp].
    split; [done|]. intros a ->. rewrite Hup. by apply setFailed_gives_up.
Qed.
End rollback.

(** ** Call by call *)

(** One call of a program; a finished program stays as it is. *)
Definition tick {A} (p : M A) (w : cluster) : M A * cluster :=
  match p with
  | Vis e k => let '(a, w) := env _ w e in (k a, w)
  | p => (p, w)
  end.
(** [n] calls of the first program, then all of the second, then the rest of the first. *)
Fixpoint paused {A B} (n : nat) (p : M A) (q : cluster → M B) (w : cluster) : cluster :=
  match n with
  | O => final (run env p (final (run env (q w) w [])) [])
  | S n => let '(p, w) := tick p w in paused n p q w
  end.

#[local] Existing Instance reference.
#[local] Existing Instance no_helm.
#[local] Existing Instance two_lines.

(** The upgrade of [Shop] after its commit, an hour later, with Flux not ready: the next
    reconcile fails it with a time-out, and its application wants an automatic rollback. *)
Definition stuck : cluster :=
  let w := final (run env (reconciles (Upgrade.Reconcile with_git shop_key) 5)
                    (with_app listed_app (shop_cluster false (shop_doc "1.0.0"))) []) in
  let w := final (run env (Upgrade.Reconcile with_git shop_key)
                    (with_ks (map not_ready (cl_ks w)) w) []) in
  with_now (cl_now w + 3600 * Second) w.
Definition upgrade_step : M Reply := Upgrade.Reconcile with_git shop_key.

(** The rollback controller, for whatever rollback request there is: [n] reconciles. *)
Definition rollback_steps (n : nat) (w : cluster) : M unit :=
  match cl_rollback w with
  | Some x => reconciles (Reconcile with_git (keyOf (rb_Meta x))) n
  | None => Ret tt
  end.
(** The rollback controller runs after [n] calls of the upgrade's last reconcile, which then
    goes on, and again when that is over. *)
Definition raced (n : nat) : cluster :=
  let w := paused n upgrade_step (rollback_steps 2) stuck in
  final (run env (rollback_steps 12 w) w []).
Definition reason_of (cs : list Condition) : string :=
  match Ref.find cs ConditionTypeComplete with Some c => c_Reason c | None => "" end.
Definition verdicts (w : cluster) : string * string * string :=
  (match cl_upgrade w with Some u => reason_of (ust_Conditions (ur_Status u)) | None => "" end,
   match cl_rollback w with Some x => reason_of (rst_Conditions (rb_Status x)) | None => "" end,
   cl_file w).

(** The window in which an automatic rollback is lost.  Let the rollback controller in
    after any number of calls of the reconcile that fails the upgrade.  After eight of them
    the rollback exists and the failure is not stored yet: the rollback fails with
    UpgradeInProgress and the new version stays in the file for good.  At every other
    moment the old version is put back. *)
Theorem auto_rollback_window n :
  (n <= 12)%nat →
  verdicts (raced n) =
  if (n =? 8)%nat
  then ("ReconciliationTimeout", "UpgradeInProgress", shop_doc "1.1.0")
  else ("ReconciliationTimeout", "", shop_doc "1.0.0").
Proof. intros Hn. do 13 (destruct n as [|n]; [vm_compute; reflexivity|]). lia. Qed.

(** ** A witness: the rollback the upgrade of [stuck] creates, seen at that moment *)

Definition early_rollback : RollbackRequest :=
  mkRollbackRequest
    (om_set_Finalizers [OperationFinalizer] (plainMeta "shop-auto-rollback" "apps"))
    (mkRollbackRequestSpec (mkObjectReference "shop-upgrade" "") true false)
    (mkRollbackRequestStatus None None None None None None None []).
Lemma rollback_of_running_upgrade_witness :
  isUpgradeTerminal (shop_upgrade false) = false
  ∧ wp (shows early_rollback (shop_upgrade false)) (fails_only early_rollback "UpgradeInProgress")
      (Reconcile with_git (mkKey "shop-auto-rollback" "apps")) [] gives_up.
Proof.
  split; [reflexivity|].
  apply (rollback_of_running_upgrade with_git (mkKey "shop-auto-rollback" "apps") early_rollback
           (shop_upgrade false)); reflexivity.
Defined.
Lemma auto_rollback_window_witness :
  (8 <= 12)%nat
  ∧ verdicts (raced 8) = ("ReconciliationTimeout", "UpgradeInProgress", shop_doc "1.1.0").
Proof. split; [lia|]. exact (auto_rollback_window 8 ltac:(lia)). Defined.
