(* ===== verification/Threads.v ===== *)
(** * Programs that run side by side

A pool runs one program per actor; each step performs one call of one of them, answered in
the light of all calls made so far.  What an actor has seen of a shared history is its own
part.  If the outside, given that everybody keeps to what they guarantee, answers each actor
as its protocol expects, then what was proved of each program alone holds of it in the pool
([pool_sound]): the rely-guarantee rule for programs that share a server. *)

From S2P Require Import Prelude.

Section threads.
Context {E : Type → Type} {I : Type} `{EqDecision I}.

Definition pool : Type := I → prog E unit.
Definition shared : Type := list (I * obs E).

(** All calls, and those of one actor. *)
Fixpoint everyone (H : shared) : list (obs E) :=
  match H with [] => [] | (_, o) :: H => o :: everyone H end.
Fixpoint own (i : I) (H : shared) : list (obs E) :=
  match H with
  | [] => []
  | (j, o) :: H => if decide (j = i) then o :: own i H else own i H
  end.

(** What the pool [ps0] can come to, and the calls made on the way: each step is the next
    call of one actor.  (An inductive of its own keeps pools out of the universe of lists.) *)
Inductive pool_run (Ψ : protocol E) (ps0 : pool) : pool → shared → Prop :=
| RunStart : pool_run Ψ ps0 ps0 []
| RunCall ps H i R (e : E R) k r :
    pool_run Ψ ps0 ps H → ps i = Vis e k → Ψ (everyone H) R e r →
    pool_run Ψ ps0 (λ j, if decide (j = i) then k r else ps j) ((i, Obs e r) :: H).

(** Everyone kept to the guarantee, and the outside to the protocol, when it was due. *)
Fixpoint kept_by (Ψ : protocol E) (G : I → guarantee E) (H : shared) : Prop :=
  match H with
  | [] => True
  | (i, Obs e r) :: H' => Ψ (everyone H') _ e r ∧ G i (own i H') _ e ∧ kept_by Ψ G H'
  end.

Lemma own_same i (o : obs E) (H : shared) : own i ((i, o) :: H) = o :: own i H.
Proof. cbn. by destruct (decide (i = i)). Qed.
Lemma own_other i j (o : obs E) (H : shared) : j ≠ i → own i ((j, o) :: H) = own i H.
Proof. intros Hne. cbn. by destruct (decide (j = i)). Qed.

Lemma own_everyone i o H : In o (own i H) → In o (everyone H).
Proof.
  induction H as [|[j p] H IH]; [done|]. cbn. destruct (decide (j = i)); [|by auto].
  intros [->|Hin]; auto.
Qed.
Lemma kept_by_app Ψ G H1 H2 : kept_by Ψ G (H1 ++ H2) → kept_by Ψ G H2.
Proof. induction H1 as [|[i [R e r]] H1 IH]; [done|]. intros (_ & _ & Hk). auto. Qed.

Lemma pool_run_mono Ψ Ψ' ps0 ps H :
  pool_run Ψ ps0 ps H → (∀ h R (e : E R) r, Ψ h R e r → Ψ' h R e r) → pool_run Ψ' ps0 ps H.
Proof. intros Hrun HΨ. induction Hrun; [apply RunStart|eapply RunCall; eauto]. Qed.

(** The calls of one actor, judged by what it had seen. *)
Lemma kept_own Ψ G i H : kept_by Ψ G H → guaranteed (G i) (own i H).
Proof.
  induction H as [|[j [R e r]] H IH]; [done|]. intros (_ & He & Hk). cbn.
  destruct (decide (j = i)) as [->|]; [split|]; auto.
Qed.

Section sound.
Variables (Ψ : protocol E) (Φ : I → protocol E) (G : I → guarantee E).
Variable Q : I → outcome unit → list (obs E) → Prop.

(** The outside answers each actor as it expects. *)
Hypothesis expected : ∀ H i R (e : E R) r,
  kept_by Ψ G H → G i (own i H) R e → Ψ (everyone H) R e r → Φ i (own i H) R e r.

Theorem pool_sound ps0 ps H :
  (∀ i, wp (Φ i) (G i) (ps0 i) [] (Q i)) → pool_run Ψ ps0 ps H →
  kept_by Ψ G H ∧ ∀ i, wp (Φ i) (G i) (ps i) (own i H) (Q i).
Proof using expected.
  intros Hwp0. induction 1 as [|ps H i R e k r _ [Hk Hwp] Hi Hr]; [by split|].
  pose proof (Hwp i) as Hw. rewrite Hi in Hw. cbn in Hw. destruct Hw as [He Hw].
  split; [done|]. intros j. cbn. destruct (decide (j = i)) as [->|Hne].
  - rewrite decide_True by done. apply Hw. by eapply expected.
  - rewrite decide_False by congruence. apply Hwp.
Qed.
End sound.

(** ** Playing a schedule

Each entry lets one actor make its next call, if it has one left. *)

Section play.
Context {W : Type}.
Variable env : ∀ R, W → E R → R * W.

Fixpoint play (schedule : list I) (ps : pool) (w : W) (H : shared) : W * shared :=
  match schedule with
  | [] => (w, H)
  | i :: schedule =>
      match ps i with
      | Vis e k =>
          let '(r, w) := env _ w e in
          play schedule (λ j, if decide (j = i) then k r else ps j) w ((i, Obs e r) :: H)
      | _ => play schedule ps w H
      end
  end.

Lemma play_run Ψ Inv ps0 schedule ps w H :
  follows Ψ env Inv → Inv w (everyone H) → pool_run Ψ ps0 ps H →
  ∃ ps', pool_run Ψ ps0 ps' (play schedule ps w H).2.
Proof.
  intros Hf. revert ps w H.
  induction schedule as [|i schedule IH]; intros ps w H Hi Hrun; cbn; [by exists ps|].
  destruct (ps i) as [a|m|R e k] eqn:Hp; [by apply IH..|].
  destruct (Hf w (everyone H) R e Hi) as [Hr Hi']. destruct (env R w e) as [r w'].
  apply IH; [done|]. by eapply RunCall.
Qed.
End play.
End threads.
Arguments pool E I : clear implicits.
Arguments shared E I : clear implicits.
