(* ===== verification/Shared.v ===== *)
(** * One object, one writer, many readers

The contract of a reconciler is proved against [storage]: nobody else writes its object.
Here that assumption is discharged for a pool in which other actors may read the object at
any moment.  [own_storage_local]: seen by the writer alone, the shared server is a [storage];
[writer_knows]: what the writer last read is what the server holds; [finished_for_all]: once
anybody was shown the object finished, it is finished for everybody. *)

From S2P Require Import Prelude Threads GoLib Api Platform Footprint Controller Phases.
From S2P Require Import Operation Guard Runs.

Section shared_object.
Context {P : Platform} {PL : PlatformLaws P} {O : Type} {Op : Operation O} {OL : OperationLaws O}.
Context {Mc : Machine O} {ML : MachineLaws O}.
Context {I : Type} `{EqDecision I}.
Variables (a0 : astate) (writer : I) (Ψ : protocol ev) (G : I → guarantee ev).
Implicit Types (H : shared ev I) (u v w x : O).

Hypothesis serves_all : ∀ h R (e : ev R) r, Ψ h R e r → storage O a0 h R e r.
Hypothesis writer_guarded : ∀ h R (e : ev R), G writer h R e → guard O h R e.
Hypothesis others_read : ∀ i h R (e : ev R) c,
  i ≠ writer → G i h R e → op_view O e = Some c → mutates R e = false.

Definition same u v : Prop := op_Spec v = op_Spec u ∧ op_Status v = op_Status u.
Lemma same_refl u : same u u.
Proof. done. Qed.
Lemma same_trans u v w : same u v → same v w → same u w.
Proof. intros [? ?] [? ?]. split; congruence. Qed.
Lemma same_sym u v : same u v → same v u.
Proof. intros [? ?]. by split. Qed.
Lemma same_abstract u v : same u v → abs v = abs u.
Proof. intros [? ?]. by apply same_abs. Qed.
Lemma kept_same u v : kept u v → same u v.
Proof. by intros (? & ? & _). Qed.

(** How what the writer has seen stands to all there is. *)
Record coherent H : Prop := {
  co_latest u : latest (own writer H) = Some u →
                ∀ v, In v (candidates (everyone H)) → same u v;
  co_known : candidates (O:=O) (everyone H) = [] → candidates (O:=O) (own writer H) = [];
  co_local v : In v (candidates (everyone H)) →
               (candidates (O:=O) (own writer H) = [] ∧ abs v = a0)
               ∨ ∃ w, In w (candidates (own writer H)) ∧ same w v;
  co_finished v : In v (shown (everyone H)) → terminal (abs v) = true →
                  ∀ w : O, In w (candidates (everyone H)) → terminal (abs w) = true
}.

Lemma coherent_nil : coherent [].
Proof. by split. Qed.

(** What the writer knows, if it knows anything, is what there is. *)
Lemma writer_candidate H u :
  coherent H → latest (own writer H) = Some u →
  ∃ v, In v (candidates (everyone H)) ∧ same u v.
Proof.
  intros Hco Hl. pose proof (latest_candidate _ _ Hl) as Hin.
  destruct (candidates (everyone H)) as [|v l] eqn:Hc.
  - by rewrite (co_known _ Hco Hc) in Hin.
  - exists v. split; [by left|]. apply (co_latest _ Hco _ Hl). rewrite Hc. by left.
Qed.

(** A call that shows nothing and stores nothing. *)
Definition idle {R} (e : ev R) (r : R) : Prop := ∀ h,
  candidates (O:=O) (Obs e r :: h) = candidates h ∧ shown (O:=O) (Obs e r :: h) = shown h
  ∧ ∀ u, latest (O:=O) (Obs e r :: h) = Some u → latest h = Some u.
Lemma idle_elsewhere R (e : ev R) r : op_view O e = None → idle e r.
Proof. intros He h. cbn. by rewrite He. Qed.
Lemma coherent_idle i H R (e : ev R) r : idle e r → coherent H → coherent ((i, Obs e r) :: H).
Proof.
  intros He [H1 H2 H3 H4]. destruct (He (everyone H)) as (Hc & Hs & _).
  destruct (He (own writer H)) as (Hcw & _ & Hl).
  assert (candidates (O:=O) (own writer ((i, Obs e r) :: H)) = candidates (own writer H)) as Hcw'.
  { cbn [own]. by destruct (decide (i = writer)). }
  split; rewrite ?Hcw'; cbn [everyone]; rewrite ?Hc, ?Hs; auto.
  intros u. cbn [own]. destruct (decide (i = writer)); eauto.
Qed.

(** Everything there is is one object, and the writer has seen it now or knew it before. *)
Lemma coherent_one i H R (e : ev R) c r u :
  op_view O e = Some c → own_answer c r = Some u →
  (i ≠ writer → (∀ w, latest (own writer H) = Some w → same w u)
                ∧ ((candidates (O:=O) (own writer H) = [] ∧ abs u = a0)
                   ∨ ∃ w, In w (candidates (own writer H)) ∧ same w u)) →
  (∀ v, In v (shown (everyone H)) → terminal (abs v) = true → terminal (abs u) = true) →
  coherent ((i, Obs e r) :: H).
Proof.
  intros Hc Hr Hother Hfin.
  assert (candidates (everyone ((i, Obs e r) :: H)) = [u]
          ∧ shown (everyone ((i, Obs e r) :: H)) = u :: shown (everyone H)) as [Hcand Hsh].
  { cbn. rewrite Hc. destruct c; cbn in *; destruct r; by simplify_eq. }
  assert (i = writer → latest (own writer ((i, Obs e r) :: H)) = Some u
          ∧ candidates (own writer ((i, Obs e r) :: H)) = [u]) as Hown.
  { intros ->. rewrite own_same. cbn. rewrite Hc. destruct c; cbn in *; destruct r; by simplify_eq. }
  split; rewrite ?Hcand, ?Hsh.
  - intros w Hl v [<-|[]]. destruct (decide (i = writer)) as [Hi|Hne].
    + destruct (Hown Hi) as [Hl' _]. rewrite Hl' in Hl. by simplify_eq.
    + rewrite own_other in Hl by done. by apply Hother.
  - done.
  - intros v [<-|[]]. destruct (decide (i = writer)) as [Hi|Hne].
    + destruct (Hown Hi) as [_ ->]. right. exists u. split; [by left|done].
    + rewrite own_other by done. by apply Hother.
  - intros v [<-|Hv] Ht w [<-|[]]; eauto.
Qed.

Lemma coherent_read i H R (e : ev R) (c : own_call O R) r :
  op_view O e = Some c → own_storage a0 (candidates (everyone H)) c r → mutates R e = false →
  coherent H → coherent ((i, Obs e r) :: H).
Proof.
  intros Hc Hst Hm Hco. rewrite (view_mutates _ _ _ Hc) in Hm.
  destruct c as [k| |]; [|done..]. destruct r as [u|err].
  2:{ apply coherent_idle; [|done]. intros h. cbn. by rewrite Hc. }
  eapply coherent_one; [exact Hc|done|..].
  - intros _. cbn in Hst. destruct Hst as [[Hn Ha]|(w & Hw & Hww)].
    + split; [|left; split; [by apply (co_known _ Hco)|done]].
      intros w (v & Hv & _)%(writer_candidate _ _ Hco). by rewrite Hn in Hv.
    + split.
      * intros w' Hl. eapply same_trans; [by eapply (co_latest _ Hco)|exact Hww].
      * destruct (co_local _ Hco _ Hw) as [[Hn Ha]|(w' & Hw' & Hs)].
        { left. split; [done|]. rewrite <- Ha. by apply same_abstract. }
        right. exists w'. split; [done|]. by eapply same_trans.
  - intros v Hv Ht. cbn in Hst. destruct Hst as [[Hn Ha]|(w & Hw & Hww)].
    + by rewrite (shown_candidate _ Hn) in Hv.
    + rewrite (same_abstract w u) by done. by eapply (co_finished _ Hco).
Qed.

(** A write of the writer: what it knows is what there is, and it is not finished. *)
Lemma coherent_write H R (e : ev R) (c : own_call O R) r :
  op_view O e = Some c → own_stored c r → mutates R e = true → guard O (own writer H) R e →
  coherent H → coherent ((writer, Obs e r) :: H).
Proof.
  intros Hc Hst Hm Hg Hco. destruct (guard_own _ _ _ _ Hg Hc Hm) as (u & Hl & Hin & Hd).
  destruct (writer_candidate _ _ Hco Hl) as (w & Hw & Huw).
  pose proof (view_mutates _ _ _ Hc) as Hmc. rewrite Hm in Hmc.
  destruct c as [k|x|x]; [done|..].
  - destruct Hd as (Hs & Ht & _). destruct r as [y|err].
    2:{ apply coherent_idle; [|done]. intros h. cbn. by rewrite Hc. }
    eapply coherent_one; [exact Hc|done|done|]. intros v Hv Htv.
    pose proof (co_finished _ Hco v Hv Htv w Hw) as Hf. rewrite (same_abstract u w Huw) in Hf.
    rewrite (same_abstract u y); [done|]. eapply same_trans; [|by apply kept_same]. by split.
  - destruct Hd as (_ & _ & _ & Hstep).
    assert (∀ v, In v (shown (everyone H)) → terminal (abs v) = true → False) as Hlive.
    { intros v Hv Htv. pose proof (co_finished _ Hco v Hv Htv w Hw) as Hf.
      rewrite (same_abstract u w Huw) in Hf. unfold terminal in Hf.
      by rewrite (astep_nonterminal _ _ Hstep) in Hf. }
    destruct r as [y|err].
    { eapply coherent_one; [exact Hc|done|done|]. intros v Hv Htv. by destruct (Hlive v). }
    destruct Hco as [_ _ H3 _].
    split; rewrite ?own_same; cbn; rewrite Hc; cbn; try done.
    + intros v [<-|Hv]; right; [by exists x; auto using same_refl|].
      destruct (H3 v Hv) as [[Hn _]|(z & Hz & Hzv)]; [by rewrite Hn in Hin|].
      exists z. auto.
    + intros v Hv Htv. by destruct (Hlive v).
Qed.

Lemma coherent_kept H : kept_by Ψ G H → coherent H.
Proof using OL ML serves_all writer_guarded others_read.
  induction H as [|[i [R e r]] H IH]; [intros _; apply coherent_nil|].
  intros (Hr & He & Hk). specialize (IH Hk). apply serves_all in Hr. unfold storage in Hr.
  destruct (op_view O e) as [c|] eqn:Hc; [|by apply coherent_idle, IH; apply idle_elsewhere].
  destruct (decide (i = writer)) as [->|Hne].
  - apply writer_guarded in He. destruct (mutates R e) eqn:Hm; [|by eapply coherent_read].
    eapply coherent_write; eauto. rewrite (view_mutates _ _ _ Hc) in Hm. by destruct c.
  - eapply coherent_read; eauto.
Qed.

(** Seen by its writer alone, the shared server is a storage. *)
Theorem own_storage_local H R (e : ev R) r :
  kept_by Ψ G H → storage O a0 (everyone H) R e r → storage O a0 (own writer H) R e r.
Proof using OL ML serves_all writer_guarded others_read.
  intros Hco%coherent_kept. unfold storage. destruct (op_view O e) as [c|]; [|done].
  destruct c; cbn; try done. destruct r as [u|]; [|done].
  intros [[Hn Ha]|(w & Hw & Hs & Ht)]; [left; split; [by apply (co_known _ Hco)|done]|].
  destruct (co_local _ Hco w Hw) as [[Hn Ha]|(z & Hz & [? ?])].
  - left. split; [done|]. rewrite <- Ha. by apply same_abs.
  - right. exists z. split; [done|]. split; congruence.
Qed.

(** Once anybody was shown the object finished, its writer knows. *)
Theorem finished_for_writer H v u :
  kept_by Ψ G H → In v (shown (everyone H)) → terminal (abs v) = true →
  latest (own writer H) = Some u → terminal (abs u) = true.
Proof using OL ML serves_all writer_guarded others_read.
  intros Hco%coherent_kept Hv Ht Hl. destruct (writer_candidate _ _ Hco Hl) as (w & Hw & Huw).
  rewrite <- (same_abstract _ _ Huw). by eapply (co_finished _ Hco).
Qed.

(** A new object does not say that it is complete, or not; others say one or the other. *)
Hypothesis new_decided : ∀ h R (e : ev R) (c : own_call O R) r u,
  Ψ h R e r → candidates (O:=O) h = [] → op_view O e = Some c → mutates R e = false →
  own_answer c r = Some u → decided u.

Lemma same_decided u v : same u v → decided u → decided v.
Proof. intros [_ Ht]. apply decided_ext. by rewrite Ht. Qed.

Lemma versions_decided H : kept_by Ψ G H → ∀ v : O, In v (versions (everyone H)) → decided v.
Proof using OL ML serves_all writer_guarded others_read new_decided.
  induction H as [|[i [R e r]] H IH]; [by intros _ v []|].
  intros Hk. pose proof Hk as (Hr & He & Hk'). specialize (IH Hk').
  pose proof (coherent_kept H Hk') as Hco. intros v. cbn.
  destruct (op_view O e) as [c|] eqn:Hc; [|apply IH].
  pose proof (serves_all _ _ _ _ Hr) as Hst. unfold storage in Hst. rewrite Hc in Hst.
  destruct (mutates R e) eqn:Hm.
  - destruct (decide (i = writer)) as [->|Hne].
    2:{ by rewrite (others_read _ _ _ _ _ Hne He Hc) in Hm. }
    destruct (guard_own _ _ _ _ (writer_guarded _ _ _ He) Hc Hm) as (u & Hl & _ & Hd).
    destruct (writer_candidate _ _ Hco Hl) as (w & Hw & Huw).
    assert (decided u) as Hu.
    { eapply same_decided; [by apply same_sym|]. by apply IH, candidates_versions. }
    rewrite (view_mutates _ _ _ Hc) in Hm. destruct c as [k|x|x]; [done|..].
    + destruct Hd as (Hs & Ht & _). destruct r as [y|]; cbn; [|apply IH].
      intros [<-|Hv]; [|auto]. eapply same_decided; [by apply kept_same|].
      eapply same_decided; [|exact Hu]. by split.
    + destruct Hd as (_ & _ & Hx & _). specialize (Hx Hu).
      destruct r as [y|]; cbn; (intros [<-|Hv]; [|auto]); [|done].
      eapply same_decided; [by apply kept_same|done].
  - pose proof (view_mutates _ _ _ Hc) as Hmc. rewrite Hm in Hmc.
    destruct c as [k| |]; [|done..]. destruct r as [u|]; cbn; [|apply IH].
    intros [<-|Hv]; [|auto]. destruct Hst as [[Hn _]|(w & Hw & Hww)].
    + by eapply (new_decided _ _ _ _ (Ok u)).
    + eapply same_decided; [exact Hww|]. by apply IH, candidates_versions.
Qed.
End shared_object.
