(* ===== verification/Concurrent.v ===== *)
(** * The controllers side by side

The manager runs the controllers concurrently, and they meet in the objects of one server.
A rollback reads the upgrade it undoes, and changes nothing of the application before it was
shown that upgrade finished ([rollback_waits_for_upgrade]).  In any interleaving of their
calls, with any other actors that leave the two requests alone, the reconcilers keep all that
was proved of each alone ([controllers_compose]), and the upgrade changes nothing any more
once the rollback has started to ([upgrade_and_rollback_exclusive]). *)

From S2P Require Import Prelude Threads GoLib Api Platform Footprint Discovery Health Yaml.
From S2P Require Import Controller Phases Operation Guard Runs Shared.
From S2P Require Upgrade.
From S2P Require UpgradeProofs.
From S2P Require Import UpgradeGuard.
From S2P Require Import Rollback RollbackGuard RollbackProofs Cluster Shop.
From S2P Require ManagedAppController.
From S2P Require UpdatesController.
From S2P Require RollbackTheorems.
From S2P Require Renovate.

(** ** A rollback waits to be shown its upgrade finished *)

Section waits.
Context {P : Platform} {PL : PlatformLaws P} {D : Decoders} {Y : Kyaml}.
Variable r : Reconciler.
Implicit Types (h : list event) (u x : RollbackRequest).

(** The calls by which a rollback changes anything but its own request. *)
Definition disruptive R (e : ev R) : Prop :=
  mutates R e = true ∧ kmem (kind_of e) [KUpdateRollback; KStatusRollback] = false.
(** The upgrade the request names was read, and has a Complete condition. *)
Definition seen_finished h : Prop :=
  ∃ u up, In u (versions h) ∧ In (Obs (GetUpgrade (upgrade_key u)) (Ok up)) h
          ∧ isUpgradeTerminal up = true.
Definition under_way h : Prop :=
  ∃ u, In u (versions h) ∧ a_suspended (abs u) ≠ None.

(** A call that starts the operation, or says that it has started. *)
Definition starts R (e : ev R) : Prop :=
  disruptive R e ∨ match e with
                   | StatusUpdateRollback x => a_suspended (abs x) ≠ None
                   | _ => False
                   end.
Definition start_seen : guarantee ev := λ h R e,
  starts R e → seen_finished h ∨ under_way h.

Lemma seen_stays h R (e : ev R) a : seen_finished h → seen_finished (Obs e a :: h).
Proof.
  intros (u & up & Hu & Hin & Ht). exists u, up. split; [by apply versions_stay|].
  split; [by right|done].
Qed.
Lemma seen_or_way_stays h R (e : ev R) a :
  seen_finished h ∨ under_way h → seen_finished (Obs e a :: h) ∨ under_way (Obs e a :: h).
Proof.
  intros [Hs|(u & Hin & Hs)]; [left; by apply seen_stays|].
  right. exists u. split; [by apply versions_stay|done].
Qed.
Lemma wp_start_seen {A} Φ (p : M A) h :
  seen_finished h ∨ under_way h → wp Φ start_seen p h (λ _ _, True).
Proof. intros Hk. apply (wp_once _ _ (λ h, seen_finished h ∨ under_way h)); [done|apply seen_or_way_stays|].
  by intros h' R e Hk' _. Qed.

Lemma setFailed_not_started Φ u reason message h :
  a_suspended (abs u) = None → wp Φ start_seen (setFailed u reason message) h (λ _ _, True).
Proof.
  intros Hu. unfold setFailed, finish. cbn [bind call wp op_StatusUpdate rollback_operation].
  split.
  { intros [[_ Hk]|Hs]; [done|]. rewrite abs_set in Hs. cbn in Hs. by destruct Hs. }
  intros [y|e] _; cbn [wp]; [|done].
  destruct (ContainsFinalizer (op_Meta y) OperationFinalizer); cbn [bind call wp]; [|done].
  split; [by intros [[_ Hk]|Hs]|]. by intros [z|e] _.
Qed.

(** The check both handlers begin with. *)
Lemma wp_checked Φ u0 u r1 r2 m2 (rest : UpgradeRequest → M Reply) h :
  a_suspended (abs u) = None → In u0 (versions h) → upgrade_key u = upgrade_key u0 →
  wp Φ start_seen
    (let? upgrade := getUpgradeRequest u orelse err => setFailed u r1 (Error err) in
     if negb (isUpgradeTerminal upgrade) then setFailed u r2 m2 else rest upgrade)
    h (λ _ _, True).
Proof.
  intros Hu Hu0 Hkey. unfold getUpgradeRequest. rewrite Hkey. cbn [bind call wp]. split; [by intros [[]|]|].
  intros [up|err] _; [|by apply setFailed_not_started].
  destruct (isUpgradeTerminal up) eqn:Hup; cbn [negb]; [|by apply setFailed_not_started].
  apply wp_start_seen. left. exists u0, up. split; [by apply versions_stay|].
  split; [by left|done].
Qed.

Lemma Reconcile_starts_seen Φ key h : wp Φ start_seen (Reconcile r key) h (λ _ _, True).
Proof.
  unfold Reconcile. cbn [bind call wp]. split; [by intros [[]|]|].
  intros [u|err] _; cbn [wp]; [|done].
  destruct (a_suspended (abs u)) eqn:Hu.
  { apply wp_start_seen. right. exists u. split; [by left|]. by rewrite Hu. }
  unfold with_finalizer. destruct (om_DeletionTimestamp _).
  { destruct (ContainsFinalizer _ _); cbn [bind call wp]; [|done].
    split; [by intros [[]|]|]. by intros [v|e] _. }
  destruct (negb (ContainsFinalizer _ _)); cbn [bind call wp].
  { split; [by intros [[]|]|]. by intros [v|e] _. }
  destruct (is_terminal u); [done|].
  unfold dispatch. rewrite (proj2 (suspended_absent u) Hu).
  assert (In u (versions (Obs (GetRollback key) (Ok u) :: h))) as Hin by by left.
  destruct (rs_DryRun (rb_Spec u)); [by apply (wp_checked _ u)|].
  unfold handleSuspend, set_started.
  destruct (rst_StartedAt (rb_Status u)); [by apply (wp_checked _ u)|].
  cbn [bind call wp]. split; [by intros [[]|]|]. intros now _.
  apply (wp_checked _ u); [by rewrite (abs_ext u)|exact Hin|done].
Qed.

(** What a rollback has to have seen before it changes anything. *)
Definition waits_for_upgrade : guarantee ev := λ h R e, disruptive R e → seen_finished h.

Definition way_seen h : Prop := under_way h → seen_finished h.

Lemma way_seen_step a0 h R (e : ev R) a :
  a_suspended a0 = None → way_seen h → guard RollbackRequest h R e → start_seen h R e →
  cached RollbackRequest a0 h R e a → way_seen (Obs e a :: h).
Proof.
  intros Ha Hw Hg Hs Hst (v & Hin & Hv).
  destruct (version_step _ _ _ _ _ _ Hg Hst Hin)
    as [[_ Hv']|(w & Hw' & [Heq|[_ (c & Hc & Hx)]])].
  - congruence.
  - apply seen_stays, Hw. exists w. split; [done|]. congruence.
  - apply seen_stays. destruct e; cbn in Hc; simplify_eq; try done.
    destruct Hs as [Hs|Hs]; [|done|by apply Hw]. right. cbn in Hx. by rewrite <- Hx.
Qed.

(** A rollback touches nothing before its upgrade is over.  Over any number of
    reconciles of a new rollback, whatever is answered and however stale the reads of the
    request are: before the first call that suspends, scales, deletes, creates or commits
    anything, the upgrade it names was read with a Complete condition. *)
Theorem rollback_waits_for_upgrade a0 key n :
  a_suspended a0 = None →
  wp (cached RollbackRequest a0) waits_for_upgrade (reconciles (Reconcile r key) n) []
    (λ _ _, True).
Proof.
  intros Ha.
  pose proof (wp_both _ _ _ _ _ _ _
    (reconciles_guarded _ (rb_Reconcile_guarded r key) _ n [] (cached_serves a0))
    (reconciles_keep (Reconcile r key) (cached RollbackRequest a0) start_seen n []
       (Reconcile_starts_seen _ key))) as Hwp.
  apply (wp_invariant _ _ way_seen) in Hwp.
  - eapply wp_mono; [exact Hwp| |done]. cbn. intros h R e [[_ Hs] Hw] Hd.
    destruct Hs as [?|?]; [by left|done|by apply Hw].
  - by intros (u & [] & _).
  - intros h R e a Hw [Hg Hs] Hst. by eapply way_seen_step.
Qed.
End waits.

(** ** The team *)

Inductive actor := Upgrader | Rollbacker | Other (i : nat).
#[export] Instance actor_eq_dec : EqDecision actor.
Proof. solve_decision. Defined.

(** Everybody but the two reconcilers leaves the requests alone. *)
Definition requests_alone R (e : ev R) : Prop :=
  kmem (kind_of e) [KUpdateUpgrade; KStatusUpgrade; KUpdateRollback; KStatusRollback] = false.

Section team.
Context {P : Platform} {PL : PlatformLaws P} {D : Decoders} {Y : Kyaml}.
Variables (rU rR : Reconciler) (keyU keyR : NamespacedName) (nU nR : nat).
Variable others : nat → M unit.
Hypothesis others_alone : ∀ i, emits requests_alone (others i).

Definition team : pool ev actor := λ i,
  match i with
  | Upgrader => reconciles (Upgrade.Reconcile rU keyU) nU
  | Rollbacker => reconciles (Reconcile rR keyR) nR
  | Other i => others i
  end.

(** One server for all: a read of a request answers what was last stored of it. *)
Definition shared_server (aU aR : astate) : protocol ev := λ h R e a,
  storage UpgradeRequest aU h R e a ∧ storage RollbackRequest aR h R e a.

(** The upgrade is new when it is first read: it says nothing of its completion. *)
Definition new_upgrade : protocol ev := λ h R e,
  match e in ev R return R → Prop with
  | GetUpgrade _ => λ a, match a with
                         | Ok u => candidates (O:=UpgradeRequest) h = [] →
                                   condition u ConditionTypeComplete = None
                         | Err _ => True
                         end
  | _ => λ _, True
  end.
Definition each (GU GR : guarantee ev) (i : actor) : guarantee ev :=
  match i with
  | Upgrader => λ h R e, guard UpgradeRequest h R e ∧ GU h R e
  | Rollbacker => λ h R e, guard RollbackRequest h R e ∧ GR h R e
  | Other _ => λ _ R e, requests_alone R e
  end.
Definition expects (aU aR : astate) (i : actor) : protocol ev :=
  match i with
  | Upgrader => storage UpgradeRequest aU
  | Rollbacker => storage RollbackRequest aR
  | Other _ => any
  end.

Section serving.
Variables (aU aR : astate) (Ψ : protocol ev) (GU GR : guarantee ev).
Hypothesis serves_both : ∀ h R (e : ev R) a, Ψ h R e a → shared_server aU aR h R e a.

Lemma upgrade_served h R (e : ev R) a : Ψ h R e a → storage UpgradeRequest aU h R e a.
Proof using serves_both. intros H. by apply serves_both in H as [? _]. Qed.
Lemma rollback_served h R (e : ev R) a : Ψ h R e a → storage RollbackRequest aR h R e a.
Proof using serves_both. intros H. by apply serves_both in H as [_ ?]. Qed.
Lemma upgrade_guarded h R (e : ev R) : each GU GR Upgrader h R e → guard UpgradeRequest h R e.
Proof. by intros [? _]. Qed.
Lemma rollback_guarded h R (e : ev R) : each GU GR Rollbacker h R e → guard RollbackRequest h R e.
Proof. by intros [? _]. Qed.

(** Neither reconciler writes the other's request. *)
Lemma upgrade_others i h R (e : ev R) c :
  i ≠ Upgrader → each GU GR i h R e → op_view UpgradeRequest e = Some c → mutates R e = false.
Proof.
  intros Hi He Hc. destruct (mutates R e) eqn:Hm; [|done].
  assert (kmem (kind_of e) [KUpdateUpgrade; KStatusUpgrade] = true) as Hk
    by (destruct e; cbn in Hc, Hm |- *; done).
  destruct i as [| |i]; [done| |].
  - destruct He as [Hg _]. destruct (Hg Hm) as (u & _ & Hp & _).
    destruct e; cbn in Hk; try done; cbn in Hp; by rewrite ?andb_false_r in Hp.
  - unfold each, requests_alone in He. by destruct e.
Qed.
Lemma rollback_others i h R (e : ev R) c :
  i ≠ Rollbacker → each GU GR i h R e → op_view RollbackRequest e = Some c → mutates R e = false.
Proof.
  intros Hi He Hc. destruct (mutates R e) eqn:Hm; [|done].
  assert (kmem (kind_of e) [KUpdateRollback; KStatusRollback] = true) as Hk
    by (destruct e; cbn in Hc, Hm |- *; done).
  destruct i as [| |i]; [|done|].
  - destruct He as [Hg _]. destruct (Hg Hm) as (u & _ & Hp & _).
    destruct e; cbn in Hk; try done; cbn in Hp; by rewrite ?andb_false_r in Hp.
  - unfold each, requests_alone in He. by destruct e.
Qed.

Lemma team_expected H i R (e : ev R) a :
  kept_by Ψ (each GU GR) H → each GU GR i (own i H) R e → Ψ (everyone H) R e a →
  expects aU aR i (own i H) R e a.
Proof using serves_both PL.
  intros Hk _ Ha. destruct i as [| |i]; cbn; [| |done].
  - eapply (own_storage_local aU Upgrader Ψ (each GU GR));
      eauto using upgrade_served, upgrade_guarded, upgrade_others.
  - eapply (own_storage_local aR Rollbacker Ψ (each GU GR));
      eauto using rollback_served, rollback_guarded, rollback_others.
Qed.

(** The upgrade, as everybody sees it. *)
Lemma team_finished H (v u : UpgradeRequest) :
  kept_by Ψ (each GU GR) H → In v (shown (everyone H)) → terminal (abs v) = true →
  latest (own Upgrader H) = Some u → terminal (abs u) = true.
Proof using serves_both PL.
  apply (finished_for_writer aU);
    eauto using upgrade_served, upgrade_guarded, upgrade_others.
Qed.
Lemma team_decided H (v : UpgradeRequest) :
  (∀ h R (e : ev R) a, Ψ h R e a → new_upgrade h R e a) →
  kept_by Ψ (each GU GR) H → In v (versions (everyone H)) → decided v.
Proof using serves_both PL.
  intros Hnew Hk. apply (versions_decided aU Upgrader Ψ (each GU GR));
    eauto using upgrade_served, upgrade_guarded, upgrade_others.
  intros h R e c a u Ha%Hnew Hn Hc Hm Hu d Hd.
  destruct e; cbn in Hc, Hm; simplify_eq. destruct a as [w|]; cbn in Hu; simplify_eq.
  specialize (Ha Hn). unfold condition in Ha. congruence.
Qed.

(** What each controller was proved to guarantee alone, it guarantees in the team. *)
Lemma team_kept ps H :
  wp (storage UpgradeRequest aU) GU (team Upgrader) [] (λ _ _, True) →
  wp (storage RollbackRequest aR) GR (team Rollbacker) [] (λ _ _, True) →
  pool_run Ψ team ps H → kept_by Ψ (each GU GR) H.
Proof using serves_both PL others_alone.
  intros HU HR Hrun.
  eapply (pool_sound Ψ (expects aU aR) (each GU GR) (λ _ _ _, True));
    [apply team_expected| |exact Hrun].
  intros [| |i].
  - eapply wp_mono; [apply wp_both; [|exact HU]|done..].
    apply reconciles_guarded; [apply UpgradeProofs.Reconcile_guarded|apply storage_serves].
  - eapply wp_mono; [apply wp_both; [|exact HR]|done..].
    apply reconciles_guarded; [apply rb_Reconcile_guarded|apply storage_serves].
  - apply (wp_emits_guard requests_alone); [apply wp_free|apply others_alone].
Qed.

Lemma team_keeps ps H :
  wp (storage UpgradeRequest aU) GU (team Upgrader) [] (λ _ _, True) →
  wp (storage RollbackRequest aR) GR (team Rollbacker) [] (λ _ _, True) →
  pool_run Ψ team ps H →
  guaranteed GU (own Upgrader H) ∧ guaranteed GR (own Rollbacker H).
Proof using serves_both PL others_alone.
  intros HU HR Hrun. pose proof (team_kept ps H HU HR Hrun) as Hk.
  split; (eapply guaranteed_mono; [apply (kept_own _ _ _ _ Hk)|by intros h R e [_ ?]]).
Qed.
End serving.

(** C22: composition.  The upgrade controller, the rollback controller and any number of
    others that leave the two kinds of requests alone run side by side, their calls
    interleaved in any way, on a server where a read of a request answers what was last
    stored of it, by whomever.  Then each of the two reconcilers keeps every guarantee that
    was proved of its reconciles alone, against a server nobody else writes to. *)
Theorem controllers_compose aU aR (GU GR : guarantee ev) ps H :
  wp (storage UpgradeRequest aU) GU (team Upgrader) [] (λ _ _, True) →
  wp (storage RollbackRequest aR) GR (team Rollbacker) [] (λ _ _, True) →
  pool_run (shared_server aU aR) team ps H →
  guaranteed GU (own Upgrader H) ∧ guaranteed GR (own Rollbacker H).
Proof using PL others_alone. by apply team_keeps. Qed.

Definition fresh_server (aU aR : astate) : protocol ev := λ h R e a,
  shared_server aU aR h R e a ∧ new_upgrade h R e a.

(** Whatever the upgrade changes but its finalizers comes before whatever the rollback
    changes but its own request. *)
Definition exclusive (H : shared ev actor) : Prop :=
  ∀ later R (e : ev R) a before,
    H = later ++ (Upgrader, Obs e a) :: before →
    mutates R e = true → kind_of e ≠ KUpdateUpgrade →
    Forall (λ o, ¬ obs_sat disruptive o) (own Rollbacker before).

Lemma disruption_seen h o :
  guaranteed waits_for_upgrade h → In o h → obs_sat disruptive o → seen_finished h.
Proof.
  induction h as [|[R e a] h IH]; [done|]. intros [He Hg] [<-|Hin] Ho; apply seen_stays.
  - by apply He.
  - by apply IH.
Qed.

Lemma finished_upgrade up :
  decided up → isUpgradeTerminal up = true → terminal (abs up) = true.
Proof using PL.
  intros Hd Ht. apply (decided_terminal up Hd). unfold isUpgradeTerminal in Ht.
  unfold condition. cbn. destruct (FindStatusCondition _ _); [by eexists|done].
Qed.

(** C21: mutual exclusion.  A server holds one upgrade, new when it is first read, with no
    Complete condition, and one rollback, not begun when it is first read, with no Suspended
    condition; a read of either answers what was last stored of it, by whomever.  In any
    interleaving of the two controllers, and of others that leave both kinds of requests alone:
    once the rollback has changed anything but its own request, the upgrade changes nothing any
    more but its finalizers.  Their changes to the application and the cluster never alternate:
    all of the upgrade's come before the first of the rollback's. *)
Theorem upgrade_and_rollback_exclusive aU aR ps H :
  a_suspended aR = None →
  pool_run (fresh_server aU aR) team ps H →
  exclusive H.
Proof using PL others_alone.
  intros HaR Hrun later R e a before -> Hm Hkind.
  assert (∀ h R (e : ev R) a, fresh_server aU aR h R e a → shared_server aU aR h R e a) as Hserve
    by by intros ? ? ? ? [? _].
  pose proof (team_kept aU aR _ free waits_for_upgrade Hserve _ _ (wp_free _ _ _)
    (wp_protocol _ _ _ _ _ _ (rollback_waits_for_upgrade rR aR keyR nR HaR)
       (storage_cached aR)) Hrun) as Hk%kept_by_app.
  destruct Hk as (_ & [Hg _] & Hk).
  destruct (Hg Hm) as (u & Hl & Hp & _).
  apply List.Forall_forall. intros o Ho Hd.
  pose proof (kept_own _ _ Rollbacker _ Hk) as Hown.
  assert (guaranteed waits_for_upgrade (own Rollbacker before)) as Hwait
    by (eapply guaranteed_mono; [exact Hown|by intros ? ? ? [_ ?]]).
  destruct (disruption_seen _ o Hwait Ho Hd) as (x & up & _ & Hup%own_everyone & Hter).
  assert (In up (shown (everyone before))) as Hshown by by eapply shown_in.
  assert (terminal (abs up) = true) as Hup'.
  { apply finished_upgrade; [|done].
    eapply (team_decided aU aR (fresh_server aU aR)); [exact Hserve|by intros ? ? ? ? [_ ?]|exact Hk|].
    by apply shown_versions. }
  assert (terminal (abs u) = true) as Hu by by eapply (team_finished aU aR (fresh_server aU aR)).
  rewrite mutates_kind in Hm. pose proof (permitted_live _ _ u Hp Hm Hkind). congruence.
Qed.
End team.

(** ** The other controllers leave the requests alone *)

Section others.
Context {P : Platform} {D : Decoders} {J : Renovate.EntryDecoder}.

Lemma within_alone ks R (e : ev R) :
  forallb (λ k, negb (kmem k [KUpdateUpgrade; KStatusUpgrade; KUpdateRollback; KStatusRollback])) ks
    = true →
  within ks R e → requests_alone R e.
Proof.
  intros Hks He. unfold within in He. apply kmem_In in He.
  rewrite forallb_forall in Hks. specialize (Hks _ He). by apply negb_true_iff in Hks.
Qed.

Lemma managed_app_alone req : emits requests_alone (ManagedAppController.Reconcile req).
Proof.
  split; [done|]. intros [app|e]; cbn [bind]; [|done]. apply emits_bind.
  - eapply emits_mono; [by apply (CheckHealth_within health_kinds)|]. intros R e. by apply within_alone.
  - by intros [x|e]; (split; [done|]); intros [].
Qed.
Lemma updates_alone u req : emits requests_alone (UpdatesController.Reconcile u req).
Proof.
  eapply emits_mono; [apply UpdatesController.Reconcile_keeps|]. by intros R [].
Qed.
End others.

(** ** On the model cluster *)

#[local] Existing Instance reference.
#[local] Existing Instance no_helm.
#[local] Existing Instance two_lines.

(** A user asks for an upgrade and for its rollback; the application is checked meanwhile. *)
Definition both_asked : cluster :=
  with_rollback (Some (shop_rollback false)) (with_app listed_app (shop_cluster false (shop_doc "1.0.0"))).
Definition checker (i : nat) : M unit :=
  match i with
  | O => reconciles (ManagedAppController.Reconcile (mkKey "shop" "apps")) 3
  | _ => Ret tt
  end.
Definition shop_team : pool ev actor :=
  team with_git with_git shop_key rollback_key 12 12 checker.

Lemma checker_alone i : emits requests_alone (checker i).
Proof. destruct i as [|i]; [|done]. apply reconciles_emits, managed_app_alone. Qed.

(** The upgrade makes [n] calls, with a call of the health check after each; then the
    rollback and the upgrade take turns. *)
Fixpoint turns (n : nat) (l : list actor) : list actor :=
  match n with O => [] | S n => l ++ turns n l end.
Definition shop_schedule (n : nat) : list actor :=
  turns n [Upgrader; Other 0] ++ turns 150 [Rollbacker; Upgrader].
Definition shop_played (n : nat) : cluster * shared ev actor :=
  play env (shop_schedule n) shop_team both_asked [].

(** The model cluster is such a server. *)
Definition untouched (w : cluster) (h : list event) : Prop :=
  candidates (O:=UpgradeRequest) h = [] →
  ∀ u, cl_upgrade w = Some u → condition u ConditionTypeComplete = None.
Lemma new_follows : follows new_upgrade env untouched.
Proof.
  intros w h R e Hi. unfold untouched in *.
  destruct e; cbn; try done;
    try (destruct (cl_upgrade w) eqn:Hu; cbn in *; try done; by rewrite ?Hu);
    try (by destruct (cl_rollback w)).
  destruct (cl_upgrade w) as [u|]; cbn; [|by split].
  destruct (has_key k (ur_Meta u)); cbn; (split; [|done]); [|done]. intros Hc. by apply Hi.
Qed.

Lemma shop_pool_run n :
  ∃ ps, pool_run (fresh_server (initial false) (initial false)) shop_team ps (shop_played n).2.
Proof.
  eapply play_run.
  - apply follows_both; [|apply new_follows].
    apply follows_both; [apply (upgrade_follows (initial false))|apply (rollback_follows (initial false))].
  - split; [split|].
    + eexists. split; [reflexivity|]. by left.
    + eexists. split; [reflexivity|]. by left.
    + intros _ u [= <-]. done.
  - apply RunStart.
Qed.

Definition disruptions (h : list event) : list kind :=
  List.filter (λ k, kmut k && negb (kmem k [KUpdateRollback; KStatusRollback]))
    (map (λ o : event, match o with Obs e _ => kind_of e end) h).

Lemma rollback_waits_for_upgrade_witness :
  guaranteed waits_for_upgrade (trace (RollbackTheorems.rollback_run false 12))
  ∧ disruptions (trace (RollbackTheorems.rollback_run false 12))
    = [KUpdateKs; KGitCommit; KCreatePVC; KDeletePVC; KUpdateKs].
Proof.
  split; [|vm_compute; reflexivity].
  eapply (RollbackTheorems.rollback_guaranteed (cached _ (initial false)));
    [apply storage_cached|].
  apply (rollback_waits_for_upgrade with_git (initial false) rollback_key 12). reflexivity.
Defined.

Lemma controllers_compose_witness :
  (guaranteed (guard UpgradeRequest) (own Upgrader (shop_played 68).2)
   ∧ guaranteed (guard RollbackRequest) (own Rollbacker (shop_played 68).2))
  ∧ length (own (Other 0) (shop_played 68).2) = 21%nat
  ∧ cl_file (shop_played 68).1 = shop_doc "1.0.0".
Proof.
  split; [|by split; vm_compute; reflexivity].
  destruct (shop_pool_run 68) as [ps Hrun].
  apply (controllers_compose with_git with_git shop_key rollback_key 12 12 checker checker_alone
           (initial false) (initial false) _ _ ps).
  - apply reconciles_guarded; [apply UpgradeProofs.Reconcile_guarded|apply storage_serves].
  - apply reconciles_guarded; [apply rb_Reconcile_guarded|apply storage_serves].
  - eapply pool_run_mono; [exact Hrun|]. by intros h R e a [? _].
Defined.

Lemma upgrade_and_rollback_exclusive_witness :
  exclusive (shop_played 68).2
  ∧ disruptions (own Rollbacker (shop_played 68).2)
    = [KUpdateKs; KGitCommit; KCreatePVC; KDeletePVC; KUpdateKs]
  ∧ length (disruptions (own Upgrader (shop_played 68).2)) = 17%nat.
Proof.
  split; [|by split; vm_compute; reflexivity].
  destruct (shop_pool_run 68) as [ps Hrun].
  apply (upgrade_and_rollback_exclusive with_git with_git shop_key rollback_key 12 12 checker
           checker_alone (initial false) (initial false) ps); [reflexivity|exact Hrun].
Defined.
