(* ===== verification/Staleness.v ===== *)
(** * What a stale read can do

That an upgrade is committed once was proved against [storage], where a read answers what was
last stored.  Here the API server is one that [cached] allows, an informer cache that lags
behind once, and that refuses writes made on an outdated read: the commit is made twice
([stale_read_commits_twice]). *)

From S2P Require Import Prelude GoLib Api Platform Footprint Discovery Yaml Controller Phases.
From S2P Require Import Operation Guard Runs Cluster Shop.
From S2P Require Import Upgrade.

#[local] Existing Instance reference.
#[local] Existing Instance no_helm.
#[local] Existing Instance two_lines.

(** What the cache holds: what the server does, once something was read; the version before
    the one that records the commit; nothing since that was read. *)
Inductive lag := Unread | UpToDate | Behind (u : UpgradeRequest) | Outdated.

Definition conflict : error := ErrAPI (mkAPIStatus "Conflict" "the object has been modified").

(** After a status is stored that is the first to record the commit, the cache is behind. *)
Definition lagging (l : lag) (held : option UpgradeRequest) (x : UpgradeRequest) : lag :=
  match l, held with
  | UpToDate, Some u => if a_committed (abs x) && negb (a_committed (abs u)) then Behind u else l
  | _, _ => l
  end.
Definition passed {R} (l : lag) (a : R * cluster) : R * (cluster * lag) := (a.1, (a.2, l)).

Definition env_lag (R : Type) (s : cluster * lag) (e : ev R) : R * (cluster * lag) :=
  let '(w, l) := s in
  match e in ev R return R * (cluster * lag) with
  | GetUpgrade k =>
      match l with
      | Behind u => (Ok u, (w, Outdated))
      | _ => let a := env _ w (GetUpgrade k) in
             passed (match a.1 with Ok _ => UpToDate | Err _ => l end) a
      end
  | StatusUpdateUpgrade x =>
      match l with
      | Outdated => (Err conflict, s)
      | _ => passed (lagging l (cl_upgrade w) x) (env _ w (StatusUpdateUpgrade x))
      end
  | UpdateUpgrade x =>
      match l with
      | Outdated => (Err conflict, s)
      | _ => passed l (env _ w (UpdateUpgrade x))
      end
  | e => passed l (env _ w e)
  end.

(** ** It answers as [cached] allows *)

Definition lag_inv (a0 : astate) (s : cluster * lag) (h : list event) : Prop :=
  ∃ u, cl_upgrade s.1 = Some u
  ∧ ((versions (O:=UpgradeRequest) h = [] ∧ abs u = a0 ∧ s.2 = Unread) ∨ In u (versions h))
  ∧ match s.2 with Behind v => In v (versions h) | _ => True end.

(** A call that does not touch the upgrade. *)
Lemma lag_inv_elsewhere a0 w w' l h R (e : ev R) a :
  op_view UpgradeRequest e = None → cl_upgrade w' = cl_upgrade w →
  lag_inv a0 (w, l) h → lag_inv a0 (w', l) (Obs e a :: h).
Proof.
  intros He Hw (u & Hu & Hk & Hl). unfold lag_inv. cbn [versions fst snd] in *. rewrite He, Hw.
  by exists u.
Qed.

Lemma lag_inv_stored a0 w l h R (e : ev R) a x :
  cl_upgrade w = Some x → In x (versions (Obs e a :: h)) →
  match l with Behind v => In v (versions h) | _ => True end →
  lag_inv a0 (w, l) (Obs e a :: h).
Proof.
  intros Hw Hx Hl. exists x. split; [done|]. split; [by right|].
  cbn [snd]. destruct l; try done. by apply versions_stay.
Qed.

Lemma lag_follows a0 : follows (cached UpgradeRequest a0) env_lag (lag_inv a0).
Proof.
  intros [w l] h R e Hi. pose proof Hi as (u & Hu & Hk & Hl). cbn [fst snd] in *.
  destruct e;
    try (split; [done|]; apply (lag_inv_elsewhere a0 w); [done| |exact Hi];
         cbn; repeat case_match; done).
  - (* GetUpgrade *)
    assert (∀ v, (versions (O:=UpgradeRequest) h = [] ∧ abs v = a0) ∨ In v (versions h) →
      cached UpgradeRequest a0 h _ (GetUpgrade k) (Ok v)) as Hread.
    { intros v [?|Hv]; [by left|right; by exists v]. }
    assert (∀ l', lag_inv a0 (w, match l' with Behind _ => UpToDate | _ => l' end)
                    (Obs (GetUpgrade k) (Ok u) :: h)) as Hnow
      by (intros l'; apply (lag_inv_stored a0 w _ h _ _ _ u); [done|by left|by destruct l']).
    cbn [env_lag]. destruct l as [| |v|]; cbn [env]; rewrite ?Hu.
    3:{ cbn. split; [apply Hread; by right|]. destruct Hk as [(_ & _ & ?)|Hk]; [done|].
        apply (lag_inv_stored a0 w _ h _ _ _ u); [done|by right|done]. }
    all: destruct (has_key k (ur_Meta u)); cbn [passed fst snd];
      [split; [apply Hread; intuition|exact (Hnow UpToDate)]|by split].
  - (* UpdateUpgrade *)
    cbn [env_lag]. destruct l as [| |v|]; cbn [env]; rewrite ?Hu.
    4:{ cbn [fst snd]. split; [done|]. destruct Hk as [(_ & _ & ?)|Hk]; [done|].
        by apply (lag_inv_stored a0 w _ h _ _ _ u). }
    all: cbn [passed fst snd]; split; [by repeat split|];
      apply (lag_inv_stored a0 _ _ h _ _ _ u0); [done|by left|done].
  - (* StatusUpdateUpgrade *)
    cbn [env_lag]. destruct l as [| |v|]; cbn [env]; rewrite ?Hu.
    4:{ cbn [fst snd]. split; [done|]. destruct Hk as [(_ & _ & ?)|Hk]; [done|].
        apply (lag_inv_stored a0 w _ h _ _ _ u); [done|by right|done]. }
    all: cbn [passed fst snd]; split; [by repeat split|];
      apply (lag_inv_stored a0 _ _ h _ _ _ u0); [done|by left|cbn [lagging]; try done].
    destruct (_ && _); [|done]. by destruct Hk as [(_ & _ & ?)|Hk].
Qed.

(** ** The run *)

Definition lagged : outcome unit * (cluster * lag) * list event :=
  run env_lag (reconciles (Reconcile with_git shop_key) 14)
    (with_app listed_app (shop_cluster false (shop_doc "1.0.0")), Unread) [].

(** A stale read commits twice.  On a server that keeps to [cached], and refuses every write
    made on an outdated read, the upgrade is committed a second time: the reconcile that
    follows the write of GitCommitted is answered the version before it.  The upgrade still
    completes. *)
Theorem stale_read_commits_twice :
  answered (cached UpgradeRequest (initial false)) lagged.2
  ∧ length (calls KGitCommit lagged.2) = 2%nat
  ∧ cl_file lagged.1.2.1 = shop_doc "1.1.0"
  ∧ (∃ u, cl_upgrade lagged.1.2.1 = Some u ∧ cond_true u ConditionTypeComplete = true).
Proof.
  split; [|vm_compute; repeat (split || eexists)].
  unfold lagged. apply (run_answered _ _ (lag_inv (initial false))); [apply lag_follows| |done].
  eexists. split; [reflexivity|]. split; [by left|done].
Qed.
