(* ===== verification/Waits.v ===== *)
(** * The waiting helpers come to an end

Each [WaitFor...] helper polls until a deadline.  With the fuel [rounds timeout], against
a clock that does not run backwards and sleeps that last, none of them runs out of fuel:
the Go loops return. *)

From S2P Require Import Prelude GoLib Api Platform Poll Footprint Discovery Workload Flux Snapshot.

Section waits.
Context {P : Platform}.

(** The helper returned (or panicked), it did not run out of fuel. *)
Definition finished (o : outcome (option (option error))) (h : list event) : Prop :=
  o ≠ Done None.

Lemma look_finishes ks timeout err look h :
  emits (within ks) look → kmem KClock ks = false → kmem KSleep ks = false →
  wp monotonic free (poll_until (rounds timeout) timeout err look) h finished.
Proof. intros. apply poll_until_finishes. by eapply emits_timeless. Qed.

Lemma WaitForReconciliation_finishes n ns timeout h :
  wp monotonic free (WaitForReconciliation (rounds timeout) n ns timeout) h finished.
Proof.
  unfold WaitForReconciliation, rounds. cbn [bind call wp]. split; [done|]. intros now _.
  split; [done|]. intros [ks|e] _; [|done].
  eapply poll_fuel with (t := now); [|done|by apply rounds_enough].
  cbn. split; [done|]. intros [k|e]; [by destruct (_ <? _)|done].
Qed.

(** C36: every waiting helper returns, within the rounds its time-out allows. *)
Theorem waits_finish timeout h :
  (∀ n ns, wp monotonic free (WaitForReconciliation (rounds timeout) n ns timeout) h finished)
  ∧ (∀ k n ns, wp monotonic free (WaitForScaleDown (rounds timeout) k n ns timeout) h finished)
  ∧ (∀ k n ns c, wp monotonic free (WaitForScaleUp (rounds timeout) k n ns c timeout) h finished)
  ∧ (∀ n ns, wp monotonic free (WaitForSnapshotReady (rounds timeout) n ns timeout) h finished)
  ∧ (∀ n ns, wp monotonic free (WaitForPVCBound (rounds timeout) n ns timeout) h finished)
  ∧ (∀ n ns, wp monotonic free (WaitForPVCDeleted (rounds timeout) n ns timeout) h finished).
Proof.
  split; [intros; apply WaitForReconciliation_finishes|].
  repeat split; intros.
  - by eapply (look_finishes [KGetWorkload; KListPods]); [apply scaled_down_yet_within|..].
  - by eapply (look_finishes [KGetWorkload]); [apply scaled_up_yet_within|..].
  - by eapply (look_finishes [KGetSnapshot]); [apply snapshot_ready_yet_within|..].
  - by eapply (look_finishes [KGetPVC]); [apply pvc_bound_yet_within|..].
  - by eapply (look_finishes [KGetPVC]); [apply pvc_deleted_yet_within|..].
Qed.
End waits.
