(* ===== verification/Memory.v ===== *)
(** * Go's memory: pointers, slices, and copying them

The rest of the development treats API objects as values.  Here they are what Go has: structs
in a heap, with pointers and slices into it.  [represents h a b] says that the struct [a], with
what it points to in [h], is the value [b].  [copies f] is the contract of a deep copy: [f]
changes nothing that there was, and its result represents the same value in the memory it
allocated alone.  The combinators of [copies] are the four patterns of generated code. *)

From S2P Require Import Prelude.

Notation loc := positive (only parsing).
Notation heap := (gmap loc).

(** A pointer to an [A], and a slice: an array with an offset and a length. *)
Inductive ptr (A : Type) := Nil | At (l : loc).
Arguments Nil {A}.
Arguments At {A} l.
Inductive slice (A : Type) := NilSlice | SliceOf (l : loc) (off len : nat).
Arguments NilSlice {A}.
Arguments SliceOf {A} l off len.

(** The types of which the heap holds values, in one cell type, and their zero values. *)
Class Stored (cell A : Type) := {
  to_cell : A → cell;
  of_cell : cell → option A;
  of_to_cell a : of_cell (to_cell a) = Some a
}.
Class Zero (A : Type) := zero : A.

Section memory.
Context {cell : Type}.

(** Computations on the heap; [None] is a run-time panic. *)
Definition mem (A : Type) := heap cell → option (A * heap cell).
#[export] Instance mem_ret : MRet mem := λ A a h, Some (a, h).
#[export] Instance mem_bind : MBind mem := λ A B k m h,
  match m h with Some (a, h) => k a h | None => None end.

Definition panics {A} : mem A := λ _, None.
Definition lift {A} (o : option A) : mem A := λ h, (λ a, (a, h)) <$> o.

Section cells.
Context {A} {St : Stored cell A}.

Definition peek (h : heap cell) (l : loc) : option A := h !! l ≫= of_cell.
Definition load (p : ptr A) : mem A := λ h,
  match p with
  | Nil => None
  | At l => (λ a, (a, h)) <$> peek h l
  end.
Definition store (p : ptr A) (a : A) : mem unit := λ h,
  match p with
  | Nil => None
  | At l => Some (tt, <[l := to_cell a]> h)
  end.
Definition alloc (a : A) : mem loc := λ h, let l := fresh (dom h) in Some (l, <[l := to_cell a]> h).
(** [new(A)] *)
Definition new {Z : Zero A} : mem (ptr A) := l ← alloc zero; mret (At l).
End cells.

Section slices.
Context {A} {St : Stored cell (list A)}.

(** The elements of a slice, and [s[i]]. *)
Definition elements (s : slice A) : mem (list A) := λ h,
  match s with
  | NilSlice => Some ([], h)
  | SliceOf l off len =>
      match peek h l with
      | Some xs => if (off + len <=? length xs)%nat then Some (take len (drop off xs), h) else None
      | None => None
      end
  end.
Definition index (s : slice A) (i : nat) : mem A :=
  xs ← elements s; lift (xs !! i).
(** [s[i] = a] *)
Definition set_index (s : slice A) (i : nat) (a : A) : mem unit :=
  match s with
  | NilSlice => panics
  | SliceOf l off len =>
      xs ← load (At l);
      if (i <? len)%nat && (off + len <=? length xs)%nat then store (At l) (<[(off + i)%nat := a]> xs)
      else panics
  end.
Definition slice_len (s : slice A) : nat :=
  match s with NilSlice => 0 | SliceOf _ _ len => len end.
(** [make([]A, n)], and [copy(dst, src)] for slices of one length *)
Definition make {Z : Zero A} (n : nat) : mem (slice A) :=
  l ← alloc (replicate n (zero : A)); mret (SliceOf l 0 n).
Fixpoint copy_from (dst : slice A) (i : nat) (xs : list A) : mem unit :=
  match xs with
  | [] => mret tt
  | x :: xs => _ ← set_index dst i x; copy_from dst (1 + i) xs
  end.
Definition copy (dst src : slice A) : mem unit := xs ← elements src; copy_from dst 0 xs.
(** [for i := range src { src[i].DeepCopyInto(&dst[i]) }], from [i] on, [n] times *)
Fixpoint copy_each (f : A → mem A) (dst src : slice A) (i n : nat) : mem unit :=
  match n with
  | 0%nat => mret tt
  | S n => a ← index src i; b ← f a; _ ← set_index dst i b; copy_each f dst src (1 + i) n
  end.
End slices.

(** ** The four patterns

The field of the copy, from that of the original. *)

Section patterns.
(** [if in.X != nil { *out = new(A); **out = **in }] *)
Definition ptr_copy {A} {St : Stored cell A} {Z : Zero A} (p : ptr A) : mem (ptr A) :=
  match p with
  | Nil => mret Nil
  | At _ => q ← new; a ← load p; _ ← store q a; mret q
  end.
(** [if in.X != nil { *out = new(A); ( *in).DeepCopyInto( *out) }] *)
Definition ptr_deep {A} {St : Stored cell A} {Z : Zero A} (f : A → mem A) (p : ptr A)
    : mem (ptr A) :=
  match p with
  | Nil => mret Nil
  | At _ => q ← new; a ← load p; b ← f a; _ ← store q b; mret q
  end.
(** [if in.X != nil { *out = make([]A, len( *in)); copy( *out, *in) }] *)
Definition slice_copy {A} {St : Stored cell (list A)} {Z : Zero A} (s : slice A) : mem (slice A) :=
  match s with
  | NilSlice => mret NilSlice
  | SliceOf _ _ _ => t ← make (slice_len s); _ ← copy t s; mret t
  end.
(** [if in.X != nil { *out = make([]A, len( *in)); for i := range *in { ... } }] *)
Definition slice_deep {A} {St : Stored cell (list A)} {Z : Zero A} (f : A → mem A) (s : slice A)
    : mem (slice A) :=
  match s with
  | NilSlice => mret NilSlice
  | SliceOf _ _ _ => t ← make (slice_len s); _ ← copy_each f t s 0 (slice_len s); mret t
  end.
End patterns.
End memory.
Arguments mem : clear implicits.

(** ** What a struct represents *)

Class Rep (cell A B : Type) := {
  represents : heap cell → A → B → Prop;
  represents_mono h h' a b : h ⊆ h' → represents h a b → represents h' a b
}.
#[export] Hint Mode Rep + + - : typeclass_instances.

Section rep.
Context {cell : Type}.

(** A type without pointers represents itself. *)
Definition flat {A} : Rep cell A A.
Proof. by refine {| represents _ a b := a = b |}. Defined.

Lemma peek_mono {A} {St : Stored cell A} (h h' : heap cell) l a :
  h ⊆ h' → peek (A:=A) h l = Some a → peek h' l = Some a.
Proof.
  unfold peek. intros Hsub. rewrite !bind_Some. intros (c & Hc & Ha).
  exists c. split; [by eapply lookup_weaken|done].
Qed.

#[export] Instance ptr_rep {A B} {St : Stored cell A} {Rp : Rep cell A B} :
  Rep cell (ptr A) (option B).
Proof.
  refine {| represents h p o := match p, o with
              | Nil, None => True
              | At l, Some b => ∃ a, peek h l = Some a ∧ represents h a b
              | _, _ => False
              end |}.
  intros h h' [|l] [b|] Hsub; try done. intros (a & Ha & Hb). exists a.
  split; [by eapply peek_mono|by eapply represents_mono].
Defined.

Lemma Forall2_mono {A B} {Rp : Rep cell A B} (h h' : heap cell) (xs : list A) (bs : list B) :
  h ⊆ h' → Forall2 (represents h) xs bs → Forall2 (represents h') xs bs.
Proof. intros Hsub Hr. eapply Forall2_impl; [exact Hr|]. intros a b. by apply represents_mono. Qed.

#[export] Instance slice_rep {A B} {St : Stored cell (list A)} {Rp : Rep cell A B} :
  Rep cell (slice A) (list B).
Proof.
  refine {| represents h s bs := match s with
              | NilSlice => bs = []
              | SliceOf l off len => ∃ xs, peek h l = Some xs ∧ (off + len ≤ length xs)%nat
                                     ∧ Forall2 (represents h) (take len (drop off xs)) bs
              end |}.
  intros h h' [|l off len] bs Hsub; [done|]. intros (xs & Hxs & Hlen & Hr). exists xs.
  split; [by eapply peek_mono|]. split; [done|]. by eapply Forall2_mono.
Defined.

(** ** Running in new memory *)

(** [m] ends, changes nothing in [h], and what it allocates is as [Q] says. *)
Definition run_new {A} (m : mem cell A) (h : heap cell) (Q : A → heap cell → Prop) : Prop :=
  ∃ a n, m h = Some (a, n ∪ h) ∧ n ##ₘ h ∧ Q a n.
Definition copies {A B} {Rp : Rep cell A B} (f : A → mem cell A) : Prop :=
  ∀ h a b, represents h a b → run_new (f a) h (λ a' n, represents n a' b).

Lemma run_ret {A} (a : A) h Q : Q a ∅ → run_new (mret a) h Q.
Proof. intros HQ. exists a, ∅. rewrite (left_id_L ∅ (∪)). split; [done|]. split; [apply map_disjoint_empty_l|done]. Qed.
Lemma copies_ret {A B} {Rp : Rep cell A B} :
  (∀ (h h' : heap cell) a b, represents (Rep:=Rp) h a b → represents h' a b) → copies (λ a : A, mret a).
Proof. intros Hflat h a b Hr. apply run_ret. by eapply Hflat. Qed.

Lemma bind_run {A B} (m : mem cell A) (k : A → mem cell B) h a h' :
  m h = Some (a, h') → (m ≫= k) h = k a h'.
Proof. intros Hm. unfold mbind, mem_bind. by rewrite Hm. Qed.

(** A cell written last, in memory that has been allocated around it. *)
Lemma insert_over (h n : heap cell) l c c' :
  <[l := c']> (n ∪ <[l := c]> h) = <[l := c']> n ∪ h.
Proof.
  apply map_eq. intros i. destruct (decide (i = l)) as [->|Hi].
  - by rewrite lookup_insert_eq, (lookup_union_Some_l _ _ _ c') by apply lookup_insert_eq.
  - by rewrite lookup_insert_ne, !lookup_union, !lookup_insert_ne by done.
Qed.
Lemma fresh_None (h : heap cell) : h !! fresh (dom h) = None.
Proof. apply not_elem_of_dom, is_fresh. Qed.

Lemma ptr_deep_copies {A B} {St : Stored cell A} {Z : Zero A} {Rp : Rep cell A B}
    (f : A → mem cell A) : copies f → copies (ptr_deep f).
Proof.
  intros Hf h [|p] [b|] Hr; try done; [by apply run_ret|]. destruct Hr as (a & Ha & Hr).
  set (l := fresh (dom h)). assert (h !! l = None) as Hl by apply fresh_None.
  assert (h ⊆ <[l := to_cell (zero (A:=A))]> h) as Hsub by by apply insert_subseteq.
  destruct (Hf (<[l := to_cell (zero (A:=A))]> h) a b) as (a' & n & Hm & Hd & Hr');
    [by eapply represents_mono|].
  apply map_disjoint_insert_r in Hd as [Hn Hd].
  exists (At l), (<[l := to_cell a']> n). split; [|split].
  - unfold ptr_deep, mbind, mem_bind, new, mbind, mem_bind, alloc, load, store. simpl. fold l.
    rewrite (peek_mono _ _ _ _ Hsub Ha). simpl. rewrite Hm. by rewrite insert_over.
  - by apply map_disjoint_insert_l.
  - exists a'. unfold peek. rewrite lookup_insert_eq. simpl. rewrite of_to_cell. split; [done|].
    eapply represents_mono; [|exact Hr']. by apply insert_subseteq.
Qed.

(** A plain copy is the deep copy of elements that stand for themselves. *)
Lemma ptr_copy_copies {A B} {St : Stored cell A} {Z : Zero A} {Rp : Rep cell A B} :
  copies (λ a : A, mret a) → copies (ptr_copy (A:=A)).
Proof. intros Hf h p b Hr. exact (ptr_deep_copies _ Hf h p b Hr). Qed.

Lemma copies_flat {A B} {Rp : Rep cell A B} (h n : heap cell) (a : A) (b : B) :
  copies (λ a : A, mret a) → represents h a b → represents n a b.
Proof.
  intros Hf Hr. destruct (Hf h a b Hr) as (a' & m & [= <- Hm] & Hd & Hr').
  assert (m = ∅) as ->.
  { apply map_empty. intros i. destruct (m !! i) as [c|] eqn:Hi; [|done].
    exfalso. pose proof (map_disjoint_Some_l _ _ _ _ Hd Hi) as Hhi.
    rewrite Hm, (lookup_union_Some_l _ _ _ _ Hi) in Hhi. done. }
  eapply represents_mono; [|exact Hr']. apply map_empty_subseteq.
Qed.

(** ** Slices *)

Section slices.
Context {A B : Type} {St : Stored cell (list A)} {Zr : Zero A} {Rp : Rep cell A B}.
Implicit Types (xs ys : list A) (bs : list B) (h n : heap cell) (s : slice A).

Lemma peek_insert h l xs : peek (<[l := to_cell xs]> h) l = Some xs.
Proof. unfold peek. rewrite lookup_insert_eq. simpl. apply of_to_cell. Qed.

Lemma make_run h k :
  let l := fresh (dom h) in
  make k h = Some (SliceOf l 0 k : slice A, <[l := to_cell (replicate k zero)]> h).
Proof. done. Qed.

Lemma set_index_run h l ys x y zs :
  set_index (SliceOf l 0 (length ys + S (length zs))) (length ys) x
    (<[l := to_cell (ys ++ y :: zs)]> h)
  = Some (tt, <[l := to_cell (ys ++ x :: zs)]> h).
Proof.
  unfold set_index, mbind, mem_bind, load. rewrite peek_insert. simpl.
  rewrite length_app. simpl. rewrite (proj2 (Nat.ltb_lt _ _)), (proj2 (Nat.leb_le _ _)) by lia.
  simpl. unfold store. rewrite insert_insert_eq. do 4 f_equal.
  by rewrite insert_app_r_alt, Nat.sub_diag by lia.
Qed.

Lemma copy_from_run xs ys h l :
  copy_from (SliceOf l 0 (length ys + length xs)) (length ys) xs
    (<[l := to_cell (ys ++ replicate (length xs) zero)]> h)
  = Some (tt, <[l := to_cell (ys ++ xs)]> h).
Proof.
  revert ys. induction xs as [|x xs IH]; intros ys; [done|]. cbn [copy_from length replicate].
  pose proof (set_index_run h l ys x zero (replicate (length xs) zero)) as Hset.
  rewrite length_replicate in Hset. unfold mbind, mem_bind. rewrite Hset.
  specialize (IH (ys ++ [x])). rewrite length_app, <- !(assoc_L (++)) in IH. simpl in IH.
  by replace (length ys + 1 + length xs)%nat with (length ys + S (length xs))%nat in IH by lia;
    replace (length ys + 1)%nat with (S (length ys)) in IH by lia.
Qed.

(** What a slice that stands for [bs] holds, in any larger memory. *)
Lemma slice_elements h l off len bs :
  represents h (SliceOf l off len : slice A) bs →
  ∃ xs, length xs = len ∧ Forall2 (represents h) xs bs
        ∧ ∀ h', h ⊆ h' → elements (SliceOf l off len) h' = Some (xs, h').
Proof.
  intros (xs & Hxs & Hlen & Hr). exists (take len (drop off xs)).
  split; [rewrite length_take, length_drop; lia|]. split; [done|]. intros h' Hsub. unfold elements.
  rewrite (peek_mono _ _ _ _ Hsub Hxs). by rewrite (proj2 (Nat.leb_le _ _)).
Qed.

Lemma slice_copy_copies : copies (λ a : A, mret a) → copies (slice_copy (A:=A)).
Proof.
  intros Hf h [|p off len] bs Hr; [by apply run_ret|].
  destruct (slice_elements _ _ _ _ _ Hr) as (xs & <- & Hxs & Hel).
  set (l := fresh (dom h)). assert (h !! l = None) as Hl by apply fresh_None.
  exists (SliceOf l 0 (length xs)), {[ l := to_cell xs ]}. split; [|split].
  - unfold slice_copy, copy, slice_len. rewrite (bind_run _ _ _ _ _ (make_run h (length xs))).
    erewrite bind_run; [|erewrite bind_run; [|by apply Hel, insert_subseteq];
                         apply (copy_from_run xs [])].
    simpl. by rewrite insert_union_singleton_l.
  - by apply map_disjoint_singleton_l.
  - exists xs. split; [apply (peek_insert ∅)|]. rewrite drop_0, firstn_all. split; [done|].
    eapply Forall2_impl; [exact Hxs|]. intros a b. by apply copies_flat.
Qed.

Lemma copy_each_run (f : A → mem cell A) s xs bs h l k ys n :
  copies f → (∀ h', h ⊆ h' → elements s h' = Some (xs, h')) → Forall2 (represents h) xs bs →
  h !! l = None → (length ys + k = length xs)%nat →
  n ##ₘ h → n !! l = None → Forall2 (represents n) ys (take (length ys) bs) →
  ∃ ys' n', copy_each f (SliceOf l 0 (length xs)) s (length ys) k
              (<[l := to_cell (ys ++ replicate k zero)]> (n ∪ h))
            = Some (tt, <[l := to_cell ys']> (n' ∪ h))
    ∧ n' ##ₘ h ∧ n' !! l = None ∧ Forall2 (represents n') ys' bs.
Proof.
  intros Hf Hel Hxs Hl. revert ys n. induction k as [|k IH]; intros ys n Hk Hd Hn Hys.
  { exists ys, n. simpl. rewrite app_nil_r. split; [done|]. split; [done|]. split; [done|].
    rewrite take_ge in Hys; [done|]. pose proof (Forall2_length _ _ _ Hxs). lia. }
  destruct (lookup_lt_is_Some_2 xs (length ys)) as [a Ha]; [lia|].
  destruct (Forall2_lookup_l _ _ _ _ _ Hxs Ha) as (b & Hb & Hab).
  set (H := <[l := to_cell (ys ++ replicate (S k) zero)]> (n ∪ h)).
  assert (h ⊆ H) as Hsub.
  { transitivity (n ∪ h); [by apply map_union_subseteq_r|]. apply insert_subseteq.
    by apply lookup_union_None. }
  destruct (Hf H a b) as (a' & m & Hm & Hdm & Hr); [by eapply represents_mono|].
  apply map_disjoint_insert_r in Hdm as [Hml Hdm]. apply map_disjoint_union_r in Hdm as [Hmn Hmh].
  destruct (IH (ys ++ [a']) (m ∪ n)) as (ys' & n' & Hrun & Hn'); [| | | |].
  - rewrite length_app. simpl. lia.
  - by apply map_disjoint_union_l.
  - by apply lookup_union_None.
  - rewrite length_app. simpl. rewrite Nat.add_1_r, (take_S_r _ _ _ Hb). apply Forall2_app.
    + eapply Forall2_mono; [|exact Hys]. by apply map_union_subseteq_r.
    + apply Forall2_cons. split; [|done]. eapply represents_mono; [|exact Hr].
      by apply map_union_subseteq_l.
  - exists ys', n'. split; [|done]. rewrite <- Hrun. cbn [copy_each].
    rewrite (bind_run _ _ H a H)
      by (unfold index; rewrite (bind_run _ _ _ _ _ (Hel H Hsub)); unfold lift; by rewrite Ha).
    rewrite (bind_run _ _ _ _ _ Hm). unfold H. rewrite <- insert_union_r, (assoc_L (∪)) by done.
    replace (length xs) with (length ys + S (length (replicate k (zero : A))))%nat
      by (rewrite length_replicate; lia). cbn [replicate].
    rewrite (bind_run _ _ _ _ _ (set_index_run _ _ _ _ _ _)).
    by rewrite length_app, Nat.add_1_r, <- !(assoc_L (++)).
Qed.

Lemma slice_deep_copies (f : A → mem cell A) : copies f → copies (slice_deep f).
Proof.
  intros Hf h [|p off len] bs Hr; [by apply run_ret|].
  destruct (slice_elements _ _ _ _ _ Hr) as (xs & <- & Hxs & Hel).
  set (l := fresh (dom h)). assert (h !! l = None) as Hl by apply fresh_None.
  destruct (copy_each_run f _ xs bs h l (length xs) [] ∅ Hf Hel Hxs Hl)
    as (ys & n & Hrun & Hd & Hn & Hys); [done|apply map_disjoint_empty_l|done|by apply Forall2_nil|].
  rewrite (left_id_L ∅ (∪)) in Hrun. simpl in Hrun.
  exists (SliceOf l 0 (length xs)), (<[l := to_cell ys]> n). split; [|split].
  - unfold slice_deep, slice_len. rewrite (bind_run _ _ _ _ _ (make_run h (length xs))).
    rewrite (bind_run _ _ _ _ _ Hrun). by rewrite insert_union_l.
  - by apply map_disjoint_insert_l.
  - exists ys. split; [apply peek_insert|]. rewrite drop_0.
    assert (length xs = length ys) as Hlen.
    { by rewrite (Forall2_length _ _ _ Hxs), (Forall2_length _ _ _ Hys). }
    rewrite Hlen, firstn_all. split; [simpl; lia|]. eapply Forall2_mono; [|exact Hys].
    by apply insert_subseteq.
Qed.
End slices.

(** ** Structs, field by field *)

(** [m] run when [N] has been allocated: it ends with more, and leaves [h] as it was. *)
Definition run_from {A} (h N : heap cell) (m : mem cell A) (Q : A → heap cell → Prop) : Prop :=
  N ##ₘ h → ∃ a n, m (N ∪ h) = Some (a, n ∪ h) ∧ n ##ₘ h ∧ Q a n.

Lemma run_from_new {A} h (m : mem cell A) Q : run_from h ∅ m Q → run_new m h Q.
Proof. intros Hm. unfold run_from in Hm. rewrite (left_id_L ∅ (∪)) in Hm. apply Hm, map_disjoint_empty_l. Qed.
Lemma run_from_ret {A} h N (a : A) Q : Q a N → run_from h N (mret a) Q.
Proof. intros HQ Hd. by exists a, N. Qed.
(** A field copied first, the others after it. *)
Lemma run_field {A B C} {Rp : Rep cell A B} (f : A → mem cell A) (k : A → mem cell C)
    (h N : heap cell) (a : A) (b : B) Q :
  copies f → represents h a b →
  (∀ a' N', N ⊆ N' → represents N' a' b → run_from h N' (k a') Q) →
  run_from h N (f a ≫= k) Q.
Proof.
  intros Hf Hr Hk Hd. destruct (Hf (N ∪ h) a b) as (a' & n & Hm & Hn & Hr').
  { eapply represents_mono; [|exact Hr]. by apply map_union_subseteq_r. }
  apply map_disjoint_union_r in Hn as [HnN Hnh].
  destruct (Hk a' (n ∪ N)) as (c & n' & Hc & Hn' & HQ).
  - by apply map_union_subseteq_r.
  - eapply represents_mono; [|exact Hr']. apply map_union_subseteq_l.
  - by apply map_disjoint_union_l.
  - exists c, n'. rewrite (bind_run _ _ _ _ _ Hm), (assoc_L (∪)). done.
Qed.
End rep.

(** What was copied stays copied while more is. *)
Ltac copied_field :=
  intros ? ? Hsub ?;
  repeat match type of Hsub with
  | ?N ⊆ _ => match goal with
              | H : represents N _ _ |- _ => apply (represents_mono _ _ _ _ Hsub) in H
              end
  end; clear Hsub.

(** A struct represents what its fields do. *)
Ltac represents_fields :=
  intros; destruct_and?; split_and?; try done; eapply represents_mono; eassumption.
