(* ===== verification/Structs.v ===== *)
(** * The structs of [api/v1alpha1] as Go holds them

The types of [Api] with their pointers and slices, the cells of a heap that holds them, their
zero values, and which value of [Api] a struct represents.  The structs of apimachinery
([metav1.Time], [Condition], [ObjectMeta], [ListMeta]) are parameters: [MetaV1]. *)

From S2P Require Import Prelude Api Memory.

(** What apimachinery declares: its structs, what else they hold in the heap, and the value of
    a [ListMeta]. *)
Class MetaV1 := {
  Time_s : Type; Condition_s : Type; ObjectMeta_s : Type; ListMeta_s : Type;
  lib_cell : Type;
  ListMeta : Type;
  Time_zero :: Zero Time_s; Condition_zero :: Zero Condition_s;
  ObjectMeta_zero :: Zero ObjectMeta_s; ListMeta_zero :: Zero ListMeta_s
}.
Record TypeMeta := mkTypeMeta { tm_Kind : string; tm_APIVersion : string }.

Section structs.
Context {M : MetaV1}.

(** ** Structs *)

(** managedapp_types.go *)
Record RetentionPolicy_s := mkRetentionPolicy_s {
  s_rp_MaxCount : ptr Z }.
Record VolumeSnapshotConfig_s := mkVolumeSnapshotConfig_s {
  s_vsc_Enabled : bool; s_vsc_VolumeSnapshotClassName : string; s_vsc_PVCs : slice PVCRef;
  s_vsc_ExcludePVCs : slice PVCRef; s_vsc_RetentionPolicy : ptr RetentionPolicy_s }.
Record ManagedAppSpec_s := mkManagedAppSpec_s {
  s_as_GitPath : string; s_as_KustomizationRef : ObjectReference;
  s_as_SuspendRef : ptr ObjectReference; s_as_HelmReleaseRef : ptr ObjectReference;
  s_as_VolumeSnapshots : ptr VolumeSnapshotConfig_s; s_as_VersionPolicy : ptr VersionPolicy;
  s_as_HealthCheck : ptr HealthCheckConfig; s_as_AutoRollback : bool }.
Record VersionInfo_s := mkVersionInfo_s {
  s_vi_Chart : string; s_vi_Images : slice ImageInfo }.
Record UpgradeInfo_s := mkUpgradeInfo_s {
  s_ui_FromVersion : ptr VersionInfo_s; s_ui_ToVersion : ptr VersionInfo_s;
  s_ui_Timestamp : ptr Time_s; s_ui_Status : string }.
Record ManagedAppStatus_s := mkManagedAppStatus_s {
  s_ast_CurrentVersion : ptr VersionInfo_s; s_ast_AvailableUpdate : ptr VersionInfo_s;
  s_ast_LastUpgrade : ptr UpgradeInfo_s; s_ast_Conditions : slice Condition_s }.

(** upgraderequest_types.go *)
Record UpgradeRequestSpec_s := mkUpgradeRequestSpec_s {
  s_us_ManagedAppRef : ObjectReference; s_us_TargetVersion : ptr VersionInfo_s;
  s_us_SkipSnapshot : bool; s_us_DryRun : bool }.
Record ScalingStatus_s := mkScalingStatus_s {
  s_ss_Workloads : slice WorkloadScalingInfo; s_ss_ScaledDownAt : ptr Time_s }.
Record SnapshotStatus_s := mkSnapshotStatus_s {
  s_sns_PVCSnapshots : slice PVCSnapshotInfo; s_sns_CreatedAt : ptr Time_s;
  s_sns_ReadyAt : ptr Time_s }.
Record UpgradeStatus_s := mkUpgradeStatus_s {
  s_ups_PreviousVersion : ptr VersionInfo_s; s_ups_NewVersion : ptr VersionInfo_s;
  s_ups_GitCommit : string; s_ups_StartedAt : ptr Time_s; s_ups_CompletedAt : ptr Time_s }.
Record HealthCheckStatus_s := mkHealthCheckStatus_s {
  s_hcs_Status : string; s_hcs_CheckedAt : ptr Time_s; s_hcs_Message : string }.
Record UpgradeRequestStatus_s := mkUpgradeRequestStatus_s {
  s_ust_Scaling : ptr ScalingStatus_s; s_ust_Snapshot : ptr SnapshotStatus_s;
  s_ust_Upgrade : ptr UpgradeStatus_s; s_ust_HealthCheck : ptr HealthCheckStatus_s;
  s_ust_PhaseStartedAt : ptr Time_s; s_ust_Conditions : slice Condition_s }.

(** rollbackrequest_types.go *)
Record RestoredFromStatus_s := mkRestoredFromStatus_s {
  s_rf_UpgradeRequestName : string; s_rf_TargetVersion : ptr VersionInfo_s;
  s_rf_RolledBackVersion : ptr VersionInfo_s }.
Record VolumeRestoreStatus_s := mkVolumeRestoreStatus_s {
  s_vr_RestoredPVCs : slice RestoredPVCInfo; s_vr_StartedAt : ptr Time_s;
  s_vr_CompletedAt : ptr Time_s }.
Record GitRevertStatus_s := mkGitRevertStatus_s {
  s_gr_CommitSHA : string; s_gr_CommittedAt : ptr Time_s }.
Record RollbackRequestStatus_s := mkRollbackRequestStatus_s {
  s_rst_RestoredFrom : ptr RestoredFromStatus_s; s_rst_Scaling : ptr ScalingStatus_s;
  s_rst_VolumeRestore : ptr VolumeRestoreStatus_s; s_rst_GitRevert : ptr GitRevertStatus_s;
  s_rst_StartedAt : ptr Time_s; s_rst_CompletedAt : ptr Time_s;
  s_rst_PhaseStartedAt : ptr Time_s; s_rst_Conditions : slice Condition_s }.

(** The kinds and their lists *)
Record ManagedApp_s := mkManagedApp_s {
  s_app_TypeMeta : TypeMeta; s_app_Meta : ObjectMeta_s; s_app_Spec : ManagedAppSpec_s;
  s_app_Status : ManagedAppStatus_s }.
Record ManagedAppList_s := mkManagedAppList_s {
  s_appl_TypeMeta : TypeMeta; s_appl_Meta : ListMeta_s; s_appl_Items : slice ManagedApp_s }.
Record UpgradeRequest_s := mkUpgradeRequest_s {
  s_ur_TypeMeta : TypeMeta; s_ur_Meta : ObjectMeta_s; s_ur_Spec : UpgradeRequestSpec_s;
  s_ur_Status : UpgradeRequestStatus_s }.
Record UpgradeRequestList_s := mkUpgradeRequestList_s {
  s_url_TypeMeta : TypeMeta; s_url_Meta : ListMeta_s; s_url_Items : slice UpgradeRequest_s }.
Record RollbackRequest_s := mkRollbackRequest_s {
  s_rb_TypeMeta : TypeMeta; s_rb_Meta : ObjectMeta_s; s_rb_Spec : RollbackRequestSpec;
  s_rb_Status : RollbackRequestStatus_s }.
Record RollbackRequestList_s := mkRollbackRequestList_s {
  s_rbl_TypeMeta : TypeMeta; s_rbl_Meta : ListMeta_s; s_rbl_Items : slice RollbackRequest_s }.

(** ** Cells *)

(** A variable of one of the types, the array behind a slice, or what the library keeps. *)
Inductive cell :=
  | CLib (c : lib_cell) | CInt (x : Z) | CTime (x : Time_s) | CImageInfo (x : ImageInfo)
  | CObjectReference (x : ObjectReference) | CPVCRef (x : PVCRef)
  | CPVCSnapshotInfo (x : PVCSnapshotInfo) | CRestoredPVCInfo (x : RestoredPVCInfo)
  | CHealthCheckConfig (x : HealthCheckConfig) | CVersionPolicy (x : VersionPolicy)
  | CWorkloadScalingInfo (x : WorkloadScalingInfo)
  | CRollbackRequestSpec (x : RollbackRequestSpec) | CRetentionPolicy (x : RetentionPolicy_s)
  | CVolumeSnapshotConfig (x : VolumeSnapshotConfig_s) | CManagedAppSpec (x : ManagedAppSpec_s)
  | CVersionInfo (x : VersionInfo_s) | CUpgradeInfo (x : UpgradeInfo_s)
  | CManagedAppStatus (x : ManagedAppStatus_s) | CUpgradeRequestSpec (x : UpgradeRequestSpec_s)
  | CScalingStatus (x : ScalingStatus_s) | CSnapshotStatus (x : SnapshotStatus_s)
  | CUpgradeStatus (x : UpgradeStatus_s) | CHealthCheckStatus (x : HealthCheckStatus_s)
  | CUpgradeRequestStatus (x : UpgradeRequestStatus_s)
  | CRestoredFromStatus (x : RestoredFromStatus_s)
  | CVolumeRestoreStatus (x : VolumeRestoreStatus_s) | CGitRevertStatus (x : GitRevertStatus_s)
  | CRollbackRequestStatus (x : RollbackRequestStatus_s) | CManagedApp (x : ManagedApp_s)
  | CUpgradeRequest (x : UpgradeRequest_s) | CRollbackRequest (x : RollbackRequest_s)
  | CManagedAppList (x : ManagedAppList_s) | CUpgradeRequestList (x : UpgradeRequestList_s)
  | CRollbackRequestList (x : RollbackRequestList_s) | CImageInfos (xs : list ImageInfo)
  | CPVCRefs (xs : list PVCRef) | CWorkloadScalingInfos (xs : list WorkloadScalingInfo)
  | CPVCSnapshotInfos (xs : list PVCSnapshotInfo)
  | CRestoredPVCInfos (xs : list RestoredPVCInfo) | CConditions (xs : list Condition_s)
  | CManagedApps (xs : list ManagedApp_s) | CUpgradeRequests (xs : list UpgradeRequest_s)
  | CRollbackRequests (xs : list RollbackRequest_s).

#[export] Instance Int_stored : Stored cell Z :=
  {| to_cell := CInt; of_to_cell _ := eq_refl;
     of_cell c := match c with CInt x => Some x | _ => None end |}.
#[export] Instance Time_stored : Stored cell Time_s :=
  {| to_cell := CTime; of_to_cell _ := eq_refl;
     of_cell c := match c with CTime x => Some x | _ => None end |}.
#[export] Instance ImageInfo_stored : Stored cell ImageInfo :=
  {| to_cell := CImageInfo; of_to_cell _ := eq_refl;
     of_cell c := match c with CImageInfo x => Some x | _ => None end |}.
#[export] Instance ObjectReference_stored : Stored cell ObjectReference :=
  {| to_cell := CObjectReference; of_to_cell _ := eq_refl;
     of_cell c := match c with CObjectReference x => Some x | _ => None end |}.
#[export] Instance PVCRef_stored : Stored cell PVCRef :=
  {| to_cell := CPVCRef; of_to_cell _ := eq_refl;
     of_cell c := match c with CPVCRef x => Some x | _ => None end |}.
#[export] Instance PVCSnapshotInfo_stored : Stored cell PVCSnapshotInfo :=
  {| to_cell := CPVCSnapshotInfo; of_to_cell _ := eq_refl;
     of_cell c := match c with CPVCSnapshotInfo x => Some x | _ => None end |}.
#[export] Instance RestoredPVCInfo_stored : Stored cell RestoredPVCInfo :=
  {| to_cell := CRestoredPVCInfo; of_to_cell _ := eq_refl;
     of_cell c := match c with CRestoredPVCInfo x => Some x | _ => None end |}.
#[export] Instance HealthCheckConfig_stored : Stored cell HealthCheckConfig :=
  {| to_cell := CHealthCheckConfig; of_to_cell _ := eq_refl;
     of_cell c := match c with CHealthCheckConfig x => Some x | _ => None end |}.
#[export] Instance VersionPolicy_stored : Stored cell VersionPolicy :=
  {| to_cell := CVersionPolicy; of_to_cell _ := eq_refl;
     of_cell c := match c with CVersionPolicy x => Some x | _ => None end |}.
#[export] Instance WorkloadScalingInfo_stored : Stored cell WorkloadScalingInfo :=
  {| to_cell := CWorkloadScalingInfo; of_to_cell _ := eq_refl;
     of_cell c := match c with CWorkloadScalingInfo x => Some x | _ => None end |}.
#[export] Instance RollbackRequestSpec_stored : Stored cell RollbackRequestSpec :=
  {| to_cell := CRollbackRequestSpec; of_to_cell _ := eq_refl;
     of_cell c := match c with CRollbackRequestSpec x => Some x | _ => None end |}.
#[export] Instance RetentionPolicy_stored : Stored cell RetentionPolicy_s :=
  {| to_cell := CRetentionPolicy; of_to_cell _ := eq_refl;
     of_cell c := match c with CRetentionPolicy x => Some x | _ => None end |}.
#[export] Instance VolumeSnapshotConfig_stored : Stored cell VolumeSnapshotConfig_s :=
  {| to_cell := CVolumeSnapshotConfig; of_to_cell _ := eq_refl;
     of_cell c := match c with CVolumeSnapshotConfig x => Some x | _ => None end |}.
#[export] Instance ManagedAppSpec_stored : Stored cell ManagedAppSpec_s :=
  {| to_cell := CManagedAppSpec; of_to_cell _ := eq_refl;
     of_cell c := match c with CManagedAppSpec x => Some x | _ => None end |}.
#[export] Instance VersionInfo_stored : Stored cell VersionInfo_s :=
  {| to_cell := CVersionInfo; of_to_cell _ := eq_refl;
     of_cell c := match c with CVersionInfo x => Some x | _ => None end |}.
#[export] Instance UpgradeInfo_stored : Stored cell UpgradeInfo_s :=
  {| to_cell := CUpgradeInfo; of_to_cell _ := eq_refl;
     of_cell c := match c with CUpgradeInfo x => Some x | _ => None end |}.
#[export] Instance ManagedAppStatus_stored : Stored cell ManagedAppStatus_s :=
  {| to_cell := CManagedAppStatus; of_to_cell _ := eq_refl;
     of_cell c := match c with CManagedAppStatus x => Some x | _ => None end |}.
#[export] Instance UpgradeRequestSpec_stored : Stored cell UpgradeRequestSpec_s :=
  {| to_cell := CUpgradeRequestSpec; of_to_cell _ := eq_refl;
     of_cell c := match c with CUpgradeRequestSpec x => Some x | _ => None end |}.
#[export] Instance ScalingStatus_stored : Stored cell ScalingStatus_s :=
  {| to_cell := CScalingStatus; of_to_cell _ := eq_refl;
     of_cell c := match c with CScalingStatus x => Some x | _ => None end |}.
#[export] Instance SnapshotStatus_stored : Stored cell SnapshotStatus_s :=
  {| to_cell := CSnapshotStatus; of_to_cell _ := eq_refl;
     of_cell c := match c with CSnapshotStatus x => Some x | _ => None end |}.
#[export] Instance UpgradeStatus_stored : Stored cell UpgradeStatus_s :=
  {| to_cell := CUpgradeStatus; of_to_cell _ := eq_refl;
     of_cell c := match c with CUpgradeStatus x => Some x | _ => None end |}.
#[export] Instance HealthCheckStatus_stored : Stored cell HealthCheckStatus_s :=
  {| to_cell := CHealthCheckStatus; of_to_cell _ := eq_refl;
     of_cell c := match c with CHealthCheckStatus x => Some x | _ => None end |}.
#[export] Instance UpgradeRequestStatus_stored : Stored cell UpgradeRequestStatus_s :=
  {| to_cell := CUpgradeRequestStatus; of_to_cell _ := eq_refl;
     of_cell c := match c with CUpgradeRequestStatus x => Some x | _ => None end |}.
#[export] Instance RestoredFromStatus_stored : Stored cell RestoredFromStatus_s :=
  {| to_cell := CRestoredFromStatus; of_to_cell _ := eq_refl;
     of_cell c := match c with CRestoredFromStatus x => Some x | _ => None end |}.
#[export] Instance VolumeRestoreStatus_stored : Stored cell VolumeRestoreStatus_s :=
  {| to_cell := CVolumeRestoreStatus; of_to_cell _ := eq_refl;
     of_cell c := match c with CVolumeRestoreStatus x => Some x | _ => None end |}.
#[export] Instance GitRevertStatus_stored : Stored cell GitRevertStatus_s :=
  {| to_cell := CGitRevertStatus; of_to_cell _ := eq_refl;
     of_cell c := match c with CGitRevertStatus x => Some x | _ => None end |}.
#[export] Instance RollbackRequestStatus_stored : Stored cell RollbackRequestStatus_s :=
  {| to_cell := CRollbackRequestStatus; of_to_cell _ := eq_refl;
     of_cell c := match c with CRollbackRequestStatus x => Some x | _ => None end |}.
#[export] Instance ManagedApp_stored : Stored cell ManagedApp_s :=
  {| to_cell := CManagedApp; of_to_cell _ := eq_refl;
     of_cell c := match c with CManagedApp x => Some x | _ => None end |}.
#[export] Instance UpgradeRequest_stored : Stored cell UpgradeRequest_s :=
  {| to_cell := CUpgradeRequest; of_to_cell _ := eq_refl;
     of_cell c := match c with CUpgradeRequest x => Some x | _ => None end |}.
#[export] Instance RollbackRequest_stored : Stored cell RollbackRequest_s :=
  {| to_cell := CRollbackRequest; of_to_cell _ := eq_refl;
     of_cell c := match c with CRollbackRequest x => Some x | _ => None end |}.
#[export] Instance ManagedAppList_stored : Stored cell ManagedAppList_s :=
  {| to_cell := CManagedAppList; of_to_cell _ := eq_refl;
     of_cell c := match c with CManagedAppList x => Some x | _ => None end |}.
#[export] Instance UpgradeRequestList_stored : Stored cell UpgradeRequestList_s :=
  {| to_cell := CUpgradeRequestList; of_to_cell _ := eq_refl;
     of_cell c := match c with CUpgradeRequestList x => Some x | _ => None end |}.
#[export] Instance RollbackRequestList_stored : Stored cell RollbackRequestList_s :=
  {| to_cell := CRollbackRequestList; of_to_cell _ := eq_refl;
     of_cell c := match c with CRollbackRequestList x => Some x | _ => None end |}.
#[export] Instance ImageInfos_stored : Stored cell (list ImageInfo) :=
  {| to_cell := CImageInfos; of_to_cell _ := eq_refl;
     of_cell c := match c with CImageInfos x => Some x | _ => None end |}.
#[export] Instance PVCRefs_stored : Stored cell (list PVCRef) :=
  {| to_cell := CPVCRefs; of_to_cell _ := eq_refl;
     of_cell c := match c with CPVCRefs x => Some x | _ => None end |}.
#[export] Instance WorkloadScalingInfos_stored : Stored cell (list WorkloadScalingInfo) :=
  {| to_cell := CWorkloadScalingInfos; of_to_cell _ := eq_refl;
     of_cell c := match c with CWorkloadScalingInfos x => Some x | _ => None end |}.
#[export] Instance PVCSnapshotInfos_stored : Stored cell (list PVCSnapshotInfo) :=
  {| to_cell := CPVCSnapshotInfos; of_to_cell _ := eq_refl;
     of_cell c := match c with CPVCSnapshotInfos x => Some x | _ => None end |}.
#[export] Instance RestoredPVCInfos_stored : Stored cell (list RestoredPVCInfo) :=
  {| to_cell := CRestoredPVCInfos; of_to_cell _ := eq_refl;
     of_cell c := match c with CRestoredPVCInfos x => Some x | _ => None end |}.
#[export] Instance Conditions_stored : Stored cell (list Condition_s) :=
  {| to_cell := CConditions; of_to_cell _ := eq_refl;
     of_cell c := match c with CConditions x => Some x | _ => None end |}.
#[export] Instance ManagedApps_stored : Stored cell (list ManagedApp_s) :=
  {| to_cell := CManagedApps; of_to_cell _ := eq_refl;
     of_cell c := match c with CManagedApps x => Some x | _ => None end |}.
#[export] Instance UpgradeRequests_stored : Stored cell (list UpgradeRequest_s) :=
  {| to_cell := CUpgradeRequests; of_to_cell _ := eq_refl;
     of_cell c := match c with CUpgradeRequests x => Some x | _ => None end |}.
#[export] Instance RollbackRequests_stored : Stored cell (list RollbackRequest_s) :=
  {| to_cell := CRollbackRequests; of_to_cell _ := eq_refl;
     of_cell c := match c with CRollbackRequests x => Some x | _ => None end |}.

(** ** Zero values *)

#[export] Instance string_zero : Zero string := "".
#[export] Instance bool_zero : Zero bool := false.
#[export] Instance Z_zero : Zero Z := 0.
#[export] Instance ptr_zero {A} : Zero (ptr A) := Nil.
#[export] Instance slice_zero {A} : Zero (slice A) := NilSlice.
#[export] Instance ImageInfo_zero : Zero ImageInfo := mkImageInfo zero zero.
#[export] Instance ObjectReference_zero : Zero ObjectReference := mkObjectReference zero zero.
#[export] Instance PVCRef_zero : Zero PVCRef := mkPVCRef zero zero.
#[export] Instance PVCSnapshotInfo_zero : Zero PVCSnapshotInfo := mkPVCSnapshotInfo zero zero.
#[export] Instance RestoredPVCInfo_zero : Zero RestoredPVCInfo := mkRestoredPVCInfo zero zero zero.
#[export] Instance HealthCheckConfig_zero : Zero HealthCheckConfig := mkHealthCheckConfig zero.
#[export] Instance VersionPolicy_zero : Zero VersionPolicy := mkVersionPolicy zero zero.
#[export] Instance WorkloadScalingInfo_zero : Zero WorkloadScalingInfo := mkWorkloadScalingInfo zero zero zero.
#[export] Instance RollbackRequestSpec_zero : Zero RollbackRequestSpec := mkRollbackRequestSpec zero zero zero.
#[export] Instance TypeMeta_zero : Zero TypeMeta := mkTypeMeta zero zero.
#[export] Instance RetentionPolicy_zero : Zero RetentionPolicy_s :=
  mkRetentionPolicy_s zero.
#[export] Instance VolumeSnapshotConfig_zero : Zero VolumeSnapshotConfig_s :=
  mkVolumeSnapshotConfig_s zero zero zero zero zero.
#[export] Instance ManagedAppSpec_zero : Zero ManagedAppSpec_s :=
  mkManagedAppSpec_s zero zero zero zero zero zero zero zero.
#[export] Instance VersionInfo_zero : Zero VersionInfo_s :=
  mkVersionInfo_s zero zero.
#[export] Instance UpgradeInfo_zero : Zero UpgradeInfo_s :=
  mkUpgradeInfo_s zero zero zero zero.
#[export] Instance ManagedAppStatus_zero : Zero ManagedAppStatus_s :=
  mkManagedAppStatus_s zero zero zero zero.
#[export] Instance UpgradeRequestSpec_zero : Zero UpgradeRequestSpec_s :=
  mkUpgradeRequestSpec_s zero zero zero zero.
#[export] Instance ScalingStatus_zero : Zero ScalingStatus_s :=
  mkScalingStatus_s zero zero.
#[export] Instance SnapshotStatus_zero : Zero SnapshotStatus_s :=
  mkSnapshotStatus_s zero zero zero.
#[export] Instance UpgradeStatus_zero : Zero UpgradeStatus_s :=
  mkUpgradeStatus_s zero zero zero zero zero.
#[export] Instance HealthCheckStatus_zero : Zero HealthCheckStatus_s :=
  mkHealthCheckStatus_s zero zero zero.
#[export] Instance UpgradeRequestStatus_zero : Zero UpgradeRequestStatus_s :=
  mkUpgradeRequestStatus_s zero zero zero zero zero zero.
#[export] Instance RestoredFromStatus_zero : Zero RestoredFromStatus_s :=
  mkRestoredFromStatus_s zero zero zero.
#[export] Instance VolumeRestoreStatus_zero : Zero VolumeRestoreStatus_s :=
  mkVolumeRestoreStatus_s zero zero zero.
#[export] Instance GitRevertStatus_zero : Zero GitRevertStatus_s :=
  mkGitRevertStatus_s zero zero.
#[export] Instance RollbackRequestStatus_zero : Zero RollbackRequestStatus_s :=
  mkRollbackRequestStatus_s zero zero zero zero zero zero zero zero.
#[export] Instance ManagedApp_zero : Zero ManagedApp_s := mkManagedApp_s zero zero zero zero.
#[export] Instance ManagedAppList_zero : Zero ManagedAppList_s := mkManagedAppList_s zero zero zero.
#[export] Instance UpgradeRequest_zero : Zero UpgradeRequest_s := mkUpgradeRequest_s zero zero zero zero.
#[export] Instance UpgradeRequestList_zero : Zero UpgradeRequestList_s := mkUpgradeRequestList_s zero zero zero.
#[export] Instance RollbackRequest_zero : Zero RollbackRequest_s := mkRollbackRequest_s zero zero zero zero.
#[export] Instance RollbackRequestList_zero : Zero RollbackRequestList_s := mkRollbackRequestList_s zero zero zero.

(** ** What they represent *)

(** The values of apimachinery's structs *)
Class MetaV1Rep := {
  Time_rep :: Rep cell Time_s Time; Condition_rep :: Rep cell Condition_s Condition;
  ObjectMeta_rep :: Rep cell ObjectMeta_s ObjectMeta; ListMeta_rep :: Rep cell ListMeta_s ListMeta
}.
Context {MR : MetaV1Rep}.

#[export] Instance Z_rep : Rep cell Z Z := flat.
#[export] Instance TypeMeta_rep : Rep cell TypeMeta TypeMeta := flat.
#[export] Instance ImageInfo_rep : Rep cell ImageInfo ImageInfo := flat.
#[export] Instance ObjectReference_rep : Rep cell ObjectReference ObjectReference := flat.
#[export] Instance PVCRef_rep : Rep cell PVCRef PVCRef := flat.
#[export] Instance PVCSnapshotInfo_rep : Rep cell PVCSnapshotInfo PVCSnapshotInfo := flat.
#[export] Instance RestoredPVCInfo_rep : Rep cell RestoredPVCInfo RestoredPVCInfo := flat.
#[export] Instance HealthCheckConfig_rep : Rep cell HealthCheckConfig HealthCheckConfig := flat.
#[export] Instance VersionPolicy_rep : Rep cell VersionPolicy VersionPolicy := flat.
#[export] Instance WorkloadScalingInfo_rep : Rep cell WorkloadScalingInfo WorkloadScalingInfo := flat.
#[export] Instance RollbackRequestSpec_rep : Rep cell RollbackRequestSpec RollbackRequestSpec := flat.

#[export] Instance RetentionPolicy_rep : Rep cell RetentionPolicy_s RetentionPolicy.
Proof.
  refine {| represents h s v :=
    represents h (s_rp_MaxCount s) (rp_MaxCount v) |}.
  represents_fields.
Defined.
#[export] Instance VolumeSnapshotConfig_rep : Rep cell VolumeSnapshotConfig_s VolumeSnapshotConfig.
Proof.
  refine {| represents h s v :=
    s_vsc_Enabled s = vsc_Enabled v
    ∧ s_vsc_VolumeSnapshotClassName s = vsc_VolumeSnapshotClassName v
    ∧ represents h (s_vsc_PVCs s) (vsc_PVCs v)
    ∧ represents h (s_vsc_ExcludePVCs s) (vsc_ExcludePVCs v)
    ∧ represents h (s_vsc_RetentionPolicy s) (vsc_RetentionPolicy v) |}.
  represents_fields.
Defined.
#[export] Instance ManagedAppSpec_rep : Rep cell ManagedAppSpec_s ManagedAppSpec.
Proof.
  refine {| represents h s v :=
    s_as_GitPath s = as_GitPath v
    ∧ s_as_KustomizationRef s = as_KustomizationRef v
    ∧ represents h (s_as_SuspendRef s) (as_SuspendRef v)
    ∧ represents h (s_as_HelmReleaseRef s) (as_HelmReleaseRef v)
    ∧ represents h (s_as_VolumeSnapshots s) (as_VolumeSnapshots v)
    ∧ represents h (s_as_VersionPolicy s) (as_VersionPolicy v)
    ∧ represents h (s_as_HealthCheck s) (as_HealthCheck v)
    ∧ s_as_AutoRollback s = as_AutoRollback v |}.
  represents_fields.
Defined.
#[export] Instance VersionInfo_rep : Rep cell VersionInfo_s VersionInfo.
Proof.
  refine {| represents h s v :=
    s_vi_Chart s = vi_Chart v
    ∧ represents h (s_vi_Images s) (vi_Images v) |}.
  represents_fields.
Defined.
#[export] Instance UpgradeInfo_rep : Rep cell UpgradeInfo_s UpgradeInfo.
Proof.
  refine {| represents h s v :=
    represents h (s_ui_FromVersion s) (ui_FromVersion v)
    ∧ represents h (s_ui_ToVersion s) (ui_ToVersion v)
    ∧ represents h (s_ui_Timestamp s) (ui_Timestamp v)
    ∧ s_ui_Status s = ui_Status v |}.
  represents_fields.
Defined.
#[export] Instance ManagedAppStatus_rep : Rep cell ManagedAppStatus_s ManagedAppStatus.
Proof.
  refine {| represents h s v :=
    represents h (s_ast_CurrentVersion s) (ast_CurrentVersion v)
    ∧ represents h (s_ast_AvailableUpdate s) (ast_AvailableUpdate v)
    ∧ represents h (s_ast_LastUpgrade s) (ast_LastUpgrade v)
    ∧ represents h (s_ast_Conditions s) (ast_Conditions v) |}.
  represents_fields.
Defined.
#[export] Instance UpgradeRequestSpec_rep : Rep cell UpgradeRequestSpec_s UpgradeRequestSpec.
Proof.
  refine {| represents h s v :=
    s_us_ManagedAppRef s = us_ManagedAppRef v
    ∧ represents h (s_us_TargetVersion s) (us_TargetVersion v)
    ∧ s_us_SkipSnapshot s = us_SkipSnapshot v
    ∧ s_us_DryRun s = us_DryRun v |}.
  represents_fields.
Defined.
#[export] Instance ScalingStatus_rep : Rep cell ScalingStatus_s ScalingStatus.
Proof.
  refine {| represents h s v :=
    represents h (s_ss_Workloads s) (ss_Workloads v)
    ∧ represents h (s_ss_ScaledDownAt s) (ss_ScaledDownAt v) |}.
  represents_fields.
Defined.
#[export] Instance SnapshotStatus_rep : Rep cell SnapshotStatus_s SnapshotStatus.
Proof.
  refine {| represents h s v :=
    represents h (s_sns_PVCSnapshots s) (sns_PVCSnapshots v)
    ∧ represents h (s_sns_CreatedAt s) (sns_CreatedAt v)
    ∧ represents h (s_sns_ReadyAt s) (sns_ReadyAt v) |}.
  represents_fields.
Defined.
#[export] Instance UpgradeStatus_rep : Rep cell UpgradeStatus_s UpgradeStatus.
Proof.
  refine {| represents h s v :=
    represents h (s_ups_PreviousVersion s) (ups_PreviousVersion v)
    ∧ represents h (s_ups_NewVersion s) (ups_NewVersion v)
    ∧ s_ups_GitCommit s = ups_GitCommit v
    ∧ represents h (s_ups_StartedAt s) (ups_StartedAt v)
    ∧ represents h (s_ups_CompletedAt s) (ups_CompletedAt v) |}.
  represents_fields.
Defined.
#[export] Instance HealthCheckStatus_rep : Rep cell HealthCheckStatus_s HealthCheckStatus.
Proof.
  refine {| represents h s v :=
    s_hcs_Status s = hcs_Status v
    ∧ represents h (s_hcs_CheckedAt s) (hcs_CheckedAt v)
    ∧ s_hcs_Message s = hcs_Message v |}.
  represents_fields.
Defined.
#[export] Instance UpgradeRequestStatus_rep : Rep cell UpgradeRequestStatus_s UpgradeRequestStatus.
Proof.
  refine {| represents h s v :=
    represents h (s_ust_Scaling s) (ust_Scaling v)
    ∧ represents h (s_ust_Snapshot s) (ust_Snapshot v)
    ∧ represents h (s_ust_Upgrade s) (ust_Upgrade v)
    ∧ represents h (s_ust_HealthCheck s) (ust_HealthCheck v)
    ∧ represents h (s_ust_PhaseStartedAt s) (ust_PhaseStartedAt v)
    ∧ represents h (s_ust_Conditions s) (ust_Conditions v) |}.
  represents_fields.
Defined.
#[export] Instance RestoredFromStatus_rep : Rep cell RestoredFromStatus_s RestoredFromStatus.
Proof.
  refine {| represents h s v :=
    s_rf_UpgradeRequestName s = rf_UpgradeRequestName v
    ∧ represents h (s_rf_TargetVersion s) (rf_TargetVersion v)
    ∧ represents h (s_rf_RolledBackVersion s) (rf_RolledBackVersion v) |}.
  represents_fields.
Defined.
#[export] Instance VolumeRestoreStatus_rep : Rep cell VolumeRestoreStatus_s VolumeRestoreStatus.
Proof.
  refine {| represents h s v :=
    represents h (s_vr_RestoredPVCs s) (vr_RestoredPVCs v)
    ∧ represents h (s_vr_StartedAt s) (vr_StartedAt v)
    ∧ represents h (s_vr_CompletedAt s) (vr_CompletedAt v) |}.
  represents_fields.
Defined.
#[export] Instance GitRevertStatus_rep : Rep cell GitRevertStatus_s GitRevertStatus.
Proof.
  refine {| represents h s v :=
    s_gr_CommitSHA s = gr_CommitSHA v
    ∧ represents h (s_gr_CommittedAt s) (gr_CommittedAt v) |}.
  represents_fields.
Defined.
#[export] Instance RollbackRequestStatus_rep : Rep cell RollbackRequestStatus_s RollbackRequestStatus.
Proof.
  refine {| represents h s v :=
    represents h (s_rst_RestoredFrom s) (rst_RestoredFrom v)
    ∧ represents h (s_rst_Scaling s) (rst_Scaling v)
    ∧ represents h (s_rst_VolumeRestore s) (rst_VolumeRestore v)
    ∧ represents h (s_rst_GitRevert s) (rst_GitRevert v)
    ∧ represents h (s_rst_StartedAt s) (rst_StartedAt v)
    ∧ represents h (s_rst_CompletedAt s) (rst_CompletedAt v)
    ∧ represents h (s_rst_PhaseStartedAt s) (rst_PhaseStartedAt v)
    ∧ represents h (s_rst_Conditions s) (rst_Conditions v) |}.
  represents_fields.
Defined.

(** An object's value is its kind and the value of [Api]; a list's, those of its items. *)
#[export] Instance ManagedApp_rep : Rep cell ManagedApp_s (TypeMeta * ManagedApp).
Proof.
  refine {| represents h s v :=
    s_app_TypeMeta s = v.1
    ∧ represents h (s_app_Meta s) (app_Meta v.2)
    ∧ represents h (s_app_Spec s) (app_Spec v.2)
    ∧ represents h (s_app_Status s) (app_Status v.2) |}.
  represents_fields.
Defined.
#[export] Instance ManagedAppList_rep :
  Rep cell ManagedAppList_s (TypeMeta * ListMeta * list (TypeMeta * ManagedApp)).
Proof.
  refine {| represents h s v :=
    s_appl_TypeMeta s = v.1.1
    ∧ represents h (s_appl_Meta s) v.1.2
    ∧ represents h (s_appl_Items s) v.2 |}.
  represents_fields.
Defined.
#[export] Instance UpgradeRequest_rep : Rep cell UpgradeRequest_s (TypeMeta * UpgradeRequest).
Proof.
  refine {| represents h s v :=
    s_ur_TypeMeta s = v.1
    ∧ represents h (s_ur_Meta s) (ur_Meta v.2)
    ∧ represents h (s_ur_Spec s) (ur_Spec v.2)
    ∧ represents h (s_ur_Status s) (ur_Status v.2) |}.
  represents_fields.
Defined.
#[export] Instance UpgradeRequestList_rep :
  Rep cell UpgradeRequestList_s (TypeMeta * ListMeta * list (TypeMeta * UpgradeRequest)).
Proof.
  refine {| represents h s v :=
    s_url_TypeMeta s = v.1.1
    ∧ represents h (s_url_Meta s) v.1.2
    ∧ represents h (s_url_Items s) v.2 |}.
  represents_fields.
Defined.
#[export] Instance RollbackRequest_rep : Rep cell RollbackRequest_s (TypeMeta * RollbackRequest).
Proof.
  refine {| represents h s v :=
    s_rb_TypeMeta s = v.1
    ∧ represents h (s_rb_Meta s) (rb_Meta v.2)
    ∧ represents h (s_rb_Spec s) (rb_Spec v.2)
    ∧ represents h (s_rb_Status s) (rb_Status v.2) |}.
  represents_fields.
Defined.
#[export] Instance RollbackRequestList_rep :
  Rep cell RollbackRequestList_s (TypeMeta * ListMeta * list (TypeMeta * RollbackRequest)).
Proof.
  refine {| represents h s v :=
    s_rbl_TypeMeta s = v.1.1
    ∧ represents h (s_rbl_Meta s) v.1.2
    ∧ represents h (s_rbl_Items s) v.2 |}.
  represents_fields.
Defined.
End structs.
