(* ===== verification/DeepCopy.v ===== *)
(** * zz_generated.deepcopy.go: the copies the API machinery takes

[X_DeepCopyInto] takes the struct [*in] and returns what it leaves in [*out]; [X_DeepCopy] takes
and returns a pointer; [X_DeepCopyObject] returns a [runtime.Object], whose nil is not a nil
pointer.  The functions of apimachinery they call are parameters ([MetaV1Ops]), with their
documented behaviour ([MetaV1Copies]): a deep copy is a copy.  The rest of the development takes
the objects a client returns as values of their own; that is what these functions are for: the
client's cache hands out deep copies. *)

From S2P Require Import Prelude Api Memory Structs.

Class MetaV1Ops {M : MetaV1} := {
  Time_DeepCopy : ptr Time_s → mem cell (ptr Time_s);
  Condition_DeepCopyInto : Condition_s → mem cell Condition_s;
  ObjectMeta_DeepCopyInto : ObjectMeta_s → mem cell ObjectMeta_s;
  ListMeta_DeepCopyInto : ListMeta_s → mem cell ListMeta_s
}.
Class MetaV1Copies {M : MetaV1} {MR : MetaV1Rep} {MO : MetaV1Ops} := {
  Time_copies : copies Time_DeepCopy;
  Condition_copies : copies Condition_DeepCopyInto;
  ObjectMeta_copies : copies ObjectMeta_DeepCopyInto;
  ListMeta_copies : copies ListMeta_DeepCopyInto
}.

Section deepcopy.
Context {M : MetaV1} {MO : MetaV1Ops}.

(** ** DeepCopyInto

[if in.T != nil { *out = ( *in).DeepCopy() }] *)
Definition time_copy (t : ptr Time_s) : mem cell (ptr Time_s) :=
  match t with Nil => mret Nil | At _ => Time_DeepCopy t end.


Definition ImageInfo_DeepCopyInto (s : ImageInfo) : mem cell ImageInfo := mret s.
Definition ObjectReference_DeepCopyInto (s : ObjectReference) : mem cell ObjectReference := mret s.
Definition PVCRef_DeepCopyInto (s : PVCRef) : mem cell PVCRef := mret s.
Definition PVCSnapshotInfo_DeepCopyInto (s : PVCSnapshotInfo) : mem cell PVCSnapshotInfo := mret s.
Definition RestoredPVCInfo_DeepCopyInto (s : RestoredPVCInfo) : mem cell RestoredPVCInfo := mret s.
Definition HealthCheckConfig_DeepCopyInto (s : HealthCheckConfig) : mem cell HealthCheckConfig := mret s.
Definition VersionPolicy_DeepCopyInto (s : VersionPolicy) : mem cell VersionPolicy := mret s.
Definition WorkloadScalingInfo_DeepCopyInto (s : WorkloadScalingInfo) : mem cell WorkloadScalingInfo := mret s.
Definition RollbackRequestSpec_DeepCopyInto (s : RollbackRequestSpec) : mem cell RollbackRequestSpec := mret s.
Definition RetentionPolicy_DeepCopyInto (s : RetentionPolicy_s) : mem cell RetentionPolicy_s :=
  MaxCount ← ptr_copy (s_rp_MaxCount s);
  mret (mkRetentionPolicy_s
    MaxCount).
Definition VolumeSnapshotConfig_DeepCopyInto (s : VolumeSnapshotConfig_s) : mem cell VolumeSnapshotConfig_s :=
  PVCs ← slice_copy (s_vsc_PVCs s);
  ExcludePVCs ← slice_copy (s_vsc_ExcludePVCs s);
  RetentionPolicy ← ptr_deep RetentionPolicy_DeepCopyInto (s_vsc_RetentionPolicy s);
  mret (mkVolumeSnapshotConfig_s
    (s_vsc_Enabled s) (s_vsc_VolumeSnapshotClassName s) PVCs ExcludePVCs RetentionPolicy).
Definition ManagedAppSpec_DeepCopyInto (s : ManagedAppSpec_s) : mem cell ManagedAppSpec_s :=
  SuspendRef ← ptr_copy (s_as_SuspendRef s);
  HelmReleaseRef ← ptr_copy (s_as_HelmReleaseRef s);
  VolumeSnapshots ← ptr_deep VolumeSnapshotConfig_DeepCopyInto (s_as_VolumeSnapshots s);
  VersionPolicy ← ptr_copy (s_as_VersionPolicy s);
  HealthCheck ← ptr_copy (s_as_HealthCheck s);
  mret (mkManagedAppSpec_s
    (s_as_GitPath s) (s_as_KustomizationRef s) SuspendRef HelmReleaseRef VolumeSnapshots
    VersionPolicy HealthCheck (s_as_AutoRollback s)).
Definition VersionInfo_DeepCopyInto (s : VersionInfo_s) : mem cell VersionInfo_s :=
  Images ← slice_copy (s_vi_Images s);
  mret (mkVersionInfo_s
    (s_vi_Chart s) Images).
Definition UpgradeInfo_DeepCopyInto (s : UpgradeInfo_s) : mem cell UpgradeInfo_s :=
  FromVersion ← ptr_deep VersionInfo_DeepCopyInto (s_ui_FromVersion s);
  ToVersion ← ptr_deep VersionInfo_DeepCopyInto (s_ui_ToVersion s);
  Timestamp ← time_copy (s_ui_Timestamp s);
  mret (mkUpgradeInfo_s
    FromVersion ToVersion Timestamp (s_ui_Status s)).
Definition ManagedAppStatus_DeepCopyInto (s : ManagedAppStatus_s) : mem cell ManagedAppStatus_s :=
  CurrentVersion ← ptr_deep VersionInfo_DeepCopyInto (s_ast_CurrentVersion s);
  AvailableUpdate ← ptr_deep VersionInfo_DeepCopyInto (s_ast_AvailableUpdate s);
  LastUpgrade ← ptr_deep UpgradeInfo_DeepCopyInto (s_ast_LastUpgrade s);
  Conditions ← slice_deep Condition_DeepCopyInto (s_ast_Conditions s);
  mret (mkManagedAppStatus_s
    CurrentVersion AvailableUpdate LastUpgrade Conditions).
Definition UpgradeRequestSpec_DeepCopyInto (s : UpgradeRequestSpec_s) : mem cell UpgradeRequestSpec_s :=
  TargetVersion ← ptr_deep VersionInfo_DeepCopyInto (s_us_TargetVersion s);
  mret (mkUpgradeRequestSpec_s
    (s_us_ManagedAppRef s) TargetVersion (s_us_SkipSnapshot s) (s_us_DryRun s)).
Definition ScalingStatus_DeepCopyInto (s : ScalingStatus_s) : mem cell ScalingStatus_s :=
  Workloads ← slice_copy (s_ss_Workloads s);
  ScaledDownAt ← time_copy (s_ss_ScaledDownAt s);
  mret (mkScalingStatus_s
    Workloads ScaledDownAt).
Definition SnapshotStatus_DeepCopyInto (s : SnapshotStatus_s) : mem cell SnapshotStatus_s :=
  PVCSnapshots ← slice_copy (s_sns_PVCSnapshots s);
  CreatedAt ← time_copy (s_sns_CreatedAt s);
  ReadyAt ← time_copy (s_sns_ReadyAt s);
  mret (mkSnapshotStatus_s
    PVCSnapshots CreatedAt ReadyAt).
Definition UpgradeStatus_DeepCopyInto (s : UpgradeStatus_s) : mem cell UpgradeStatus_s :=
  PreviousVersion ← ptr_deep VersionInfo_DeepCopyInto (s_ups_PreviousVersion s);
  NewVersion ← ptr_deep VersionInfo_DeepCopyInto (s_ups_NewVersion s);
  StartedAt ← time_copy (s_ups_StartedAt s);
  CompletedAt ← time_copy (s_ups_CompletedAt s);
  mret (mkUpgradeStatus_s
    PreviousVersion NewVersion (s_ups_GitCommit s) StartedAt CompletedAt).
Definition HealthCheckStatus_DeepCopyInto (s : HealthCheckStatus_s) : mem cell HealthCheckStatus_s :=
  CheckedAt ← time_copy (s_hcs_CheckedAt s);
  mret (mkHealthCheckStatus_s
    (s_hcs_Status s) CheckedAt (s_hcs_Message s)).
Definition UpgradeRequestStatus_DeepCopyInto (s : UpgradeRequestStatus_s) : mem cell UpgradeRequestStatus_s :=
  Scaling ← ptr_deep ScalingStatus_DeepCopyInto (s_ust_Scaling s);
  Snapshot ← ptr_deep SnapshotStatus_DeepCopyInto (s_ust_Snapshot s);
  Upgrade ← ptr_deep UpgradeStatus_DeepCopyInto (s_ust_Upgrade s);
  HealthCheck ← ptr_deep HealthCheckStatus_DeepCopyInto (s_ust_HealthCheck s);
  PhaseStartedAt ← time_copy (s_ust_PhaseStartedAt s);
  Conditions ← slice_deep Condition_DeepCopyInto (s_ust_Conditions s);
  mret (mkUpgradeRequestStatus_s
    Scaling Snapshot Upgrade HealthCheck PhaseStartedAt Conditions).
Definition RestoredFromStatus_DeepCopyInto (s : RestoredFromStatus_s) : mem cell RestoredFromStatus_s :=
  TargetVersion ← ptr_deep VersionInfo_DeepCopyInto (s_rf_TargetVersion s);
  RolledBackVersion ← ptr_deep VersionInfo_DeepCopyInto (s_rf_RolledBackVersion s);
  mret (mkRestoredFromStatus_s
    (s_rf_UpgradeRequestName s) TargetVersion RolledBackVersion).
Definition VolumeRestoreStatus_DeepCopyInto (s : VolumeRestoreStatus_s) : mem cell VolumeRestoreStatus_s :=
  RestoredPVCs ← slice_copy (s_vr_RestoredPVCs s);
  StartedAt ← time_copy (s_vr_StartedAt s);
  CompletedAt ← time_copy (s_vr_CompletedAt s);
  mret (mkVolumeRestoreStatus_s
    RestoredPVCs StartedAt CompletedAt).
Definition GitRevertStatus_DeepCopyInto (s : GitRevertStatus_s) : mem cell GitRevertStatus_s :=
  CommittedAt ← time_copy (s_gr_CommittedAt s);
  mret (mkGitRevertStatus_s
    (s_gr_CommitSHA s) CommittedAt).
Definition RollbackRequestStatus_DeepCopyInto (s : RollbackRequestStatus_s) : mem cell RollbackRequestStatus_s :=
  RestoredFrom ← ptr_deep RestoredFromStatus_DeepCopyInto (s_rst_RestoredFrom s);
  Scaling ← ptr_deep ScalingStatus_DeepCopyInto (s_rst_Scaling s);
  VolumeRestore ← ptr_deep VolumeRestoreStatus_DeepCopyInto (s_rst_VolumeRestore s);
  GitRevert ← ptr_deep GitRevertStatus_DeepCopyInto (s_rst_GitRevert s);
  StartedAt ← time_copy (s_rst_StartedAt s);
  CompletedAt ← time_copy (s_rst_CompletedAt s);
  PhaseStartedAt ← time_copy (s_rst_PhaseStartedAt s);
  Conditions ← slice_deep Condition_DeepCopyInto (s_rst_Conditions s);
  mret (mkRollbackRequestStatus_s
    RestoredFrom Scaling VolumeRestore GitRevert StartedAt CompletedAt PhaseStartedAt
    Conditions).
Definition ManagedApp_DeepCopyInto (s : ManagedApp_s) : mem cell ManagedApp_s :=
  Meta ← ObjectMeta_DeepCopyInto (s_app_Meta s);
  Spec ← ManagedAppSpec_DeepCopyInto (s_app_Spec s);
  Status ← ManagedAppStatus_DeepCopyInto (s_app_Status s);
  mret (mkManagedApp_s
    (s_app_TypeMeta s) Meta Spec Status).
Definition ManagedAppList_DeepCopyInto (s : ManagedAppList_s) : mem cell ManagedAppList_s :=
  Meta ← ListMeta_DeepCopyInto (s_appl_Meta s);
  Items ← slice_deep ManagedApp_DeepCopyInto (s_appl_Items s);
  mret (mkManagedAppList_s
    (s_appl_TypeMeta s) Meta Items).
Definition UpgradeRequest_DeepCopyInto (s : UpgradeRequest_s) : mem cell UpgradeRequest_s :=
  Meta ← ObjectMeta_DeepCopyInto (s_ur_Meta s);
  Spec ← UpgradeRequestSpec_DeepCopyInto (s_ur_Spec s);
  Status ← UpgradeRequestStatus_DeepCopyInto (s_ur_Status s);
  mret (mkUpgradeRequest_s
    (s_ur_TypeMeta s) Meta Spec Status).
Definition UpgradeRequestList_DeepCopyInto (s : UpgradeRequestList_s) : mem cell UpgradeRequestList_s :=
  Meta ← ListMeta_DeepCopyInto (s_url_Meta s);
  Items ← slice_deep UpgradeRequest_DeepCopyInto (s_url_Items s);
  mret (mkUpgradeRequestList_s
    (s_url_TypeMeta s) Meta Items).
Definition RollbackRequest_DeepCopyInto (s : RollbackRequest_s) : mem cell RollbackRequest_s :=
  Meta ← ObjectMeta_DeepCopyInto (s_rb_Meta s);
  Status ← RollbackRequestStatus_DeepCopyInto (s_rb_Status s);
  mret (mkRollbackRequest_s
    (s_rb_TypeMeta s) Meta (s_rb_Spec s) Status).
Definition RollbackRequestList_DeepCopyInto (s : RollbackRequestList_s) : mem cell RollbackRequestList_s :=
  Meta ← ListMeta_DeepCopyInto (s_rbl_Meta s);
  Items ← slice_deep RollbackRequest_DeepCopyInto (s_rbl_Items s);
  mret (mkRollbackRequestList_s
    (s_rbl_TypeMeta s) Meta Items).

(** ** DeepCopy

[if in == nil { return nil }; out := new(X); in.DeepCopyInto(out); return out] *)

Definition ImageInfo_DeepCopy : ptr ImageInfo → mem cell (ptr ImageInfo) :=
  ptr_deep ImageInfo_DeepCopyInto.
Definition ObjectReference_DeepCopy : ptr ObjectReference → mem cell (ptr ObjectReference) :=
  ptr_deep ObjectReference_DeepCopyInto.
Definition PVCRef_DeepCopy : ptr PVCRef → mem cell (ptr PVCRef) := ptr_deep PVCRef_DeepCopyInto.
Definition PVCSnapshotInfo_DeepCopy : ptr PVCSnapshotInfo → mem cell (ptr PVCSnapshotInfo) :=
  ptr_deep PVCSnapshotInfo_DeepCopyInto.
Definition RestoredPVCInfo_DeepCopy : ptr RestoredPVCInfo → mem cell (ptr RestoredPVCInfo) :=
  ptr_deep RestoredPVCInfo_DeepCopyInto.
Definition HealthCheckConfig_DeepCopy : ptr HealthCheckConfig → mem cell (ptr HealthCheckConfig) :=
  ptr_deep HealthCheckConfig_DeepCopyInto.
Definition VersionPolicy_DeepCopy : ptr VersionPolicy → mem cell (ptr VersionPolicy) :=
  ptr_deep VersionPolicy_DeepCopyInto.
Definition WorkloadScalingInfo_DeepCopy : ptr WorkloadScalingInfo → mem cell (ptr WorkloadScalingInfo) :=
  ptr_deep WorkloadScalingInfo_DeepCopyInto.
Definition RollbackRequestSpec_DeepCopy : ptr RollbackRequestSpec → mem cell (ptr RollbackRequestSpec) :=
  ptr_deep RollbackRequestSpec_DeepCopyInto.
Definition RetentionPolicy_DeepCopy : ptr RetentionPolicy_s → mem cell (ptr RetentionPolicy_s) :=
  ptr_deep RetentionPolicy_DeepCopyInto.
Definition VolumeSnapshotConfig_DeepCopy : ptr VolumeSnapshotConfig_s → mem cell (ptr VolumeSnapshotConfig_s) :=
  ptr_deep VolumeSnapshotConfig_DeepCopyInto.
Definition ManagedAppSpec_DeepCopy : ptr ManagedAppSpec_s → mem cell (ptr ManagedAppSpec_s) :=
  ptr_deep ManagedAppSpec_DeepCopyInto.
Definition VersionInfo_DeepCopy : ptr VersionInfo_s → mem cell (ptr VersionInfo_s) :=
  ptr_deep VersionInfo_DeepCopyInto.
Definition UpgradeInfo_DeepCopy : ptr UpgradeInfo_s → mem cell (ptr UpgradeInfo_s) :=
  ptr_deep UpgradeInfo_DeepCopyInto.
Definition ManagedAppStatus_DeepCopy : ptr ManagedAppStatus_s → mem cell (ptr ManagedAppStatus_s) :=
  ptr_deep ManagedAppStatus_DeepCopyInto.
Definition UpgradeRequestSpec_DeepCopy : ptr UpgradeRequestSpec_s → mem cell (ptr UpgradeRequestSpec_s) :=
  ptr_deep UpgradeRequestSpec_DeepCopyInto.
Definition ScalingStatus_DeepCopy : ptr ScalingStatus_s → mem cell (ptr ScalingStatus_s) :=
  ptr_deep ScalingStatus_DeepCopyInto.
Definition SnapshotStatus_DeepCopy : ptr SnapshotStatus_s → mem cell (ptr SnapshotStatus_s) :=
  ptr_deep SnapshotStatus_DeepCopyInto.
Definition UpgradeStatus_DeepCopy : ptr UpgradeStatus_s → mem cell (ptr UpgradeStatus_s) :=
  ptr_deep UpgradeStatus_DeepCopyInto.
Definition HealthCheckStatus_DeepCopy : ptr HealthCheckStatus_s → mem cell (ptr HealthCheckStatus_s) :=
  ptr_deep HealthCheckStatus_DeepCopyInto.
Definition UpgradeRequestStatus_DeepCopy : ptr UpgradeRequestStatus_s → mem cell (ptr UpgradeRequestStatus_s) :=
  ptr_deep UpgradeRequestStatus_DeepCopyInto.
Definition RestoredFromStatus_DeepCopy : ptr RestoredFromStatus_s → mem cell (ptr RestoredFromStatus_s) :=
  ptr_deep RestoredFromStatus_DeepCopyInto.
Definition VolumeRestoreStatus_DeepCopy : ptr VolumeRestoreStatus_s → mem cell (ptr VolumeRestoreStatus_s) :=
  ptr_deep VolumeRestoreStatus_DeepCopyInto.
Definition GitRevertStatus_DeepCopy : ptr GitRevertStatus_s → mem cell (ptr GitRevertStatus_s) :=
  ptr_deep GitRevertStatus_DeepCopyInto.
Definition RollbackRequestStatus_DeepCopy : ptr RollbackRequestStatus_s → mem cell (ptr RollbackRequestStatus_s) :=
  ptr_deep RollbackRequestStatus_DeepCopyInto.
Definition ManagedApp_DeepCopy : ptr ManagedApp_s → mem cell (ptr ManagedApp_s) :=
  ptr_deep ManagedApp_DeepCopyInto.
Definition UpgradeRequest_DeepCopy : ptr UpgradeRequest_s → mem cell (ptr UpgradeRequest_s) :=
  ptr_deep UpgradeRequest_DeepCopyInto.
Definition RollbackRequest_DeepCopy : ptr RollbackRequest_s → mem cell (ptr RollbackRequest_s) :=
  ptr_deep RollbackRequest_DeepCopyInto.
Definition ManagedAppList_DeepCopy : ptr ManagedAppList_s → mem cell (ptr ManagedAppList_s) :=
  ptr_deep ManagedAppList_DeepCopyInto.
Definition UpgradeRequestList_DeepCopy : ptr UpgradeRequestList_s → mem cell (ptr UpgradeRequestList_s) :=
  ptr_deep UpgradeRequestList_DeepCopyInto.
Definition RollbackRequestList_DeepCopy : ptr RollbackRequestList_s → mem cell (ptr RollbackRequestList_s) :=
  ptr_deep RollbackRequestList_DeepCopyInto.

(** ** DeepCopyObject

[if c := in.DeepCopy(); c != nil { return c }; return nil]: the nil interface is [None]. *)
Definition DeepCopyObject {A} (DeepCopy : ptr A → mem cell (ptr A)) (p : ptr A)
    : mem cell (option (ptr A)) :=
  c ← DeepCopy p;
  match c with
  | Nil => mret None
  | At _ => mret (Some c)
  end.

Definition ManagedApp_DeepCopyObject : ptr ManagedApp_s → mem cell (option (ptr ManagedApp_s)) :=
  DeepCopyObject ManagedApp_DeepCopy.
Definition ManagedAppList_DeepCopyObject : ptr ManagedAppList_s → mem cell (option (ptr ManagedAppList_s)) :=
  DeepCopyObject ManagedAppList_DeepCopy.
Definition UpgradeRequest_DeepCopyObject : ptr UpgradeRequest_s → mem cell (option (ptr UpgradeRequest_s)) :=
  DeepCopyObject UpgradeRequest_DeepCopy.
Definition UpgradeRequestList_DeepCopyObject : ptr UpgradeRequestList_s → mem cell (option (ptr UpgradeRequestList_s)) :=
  DeepCopyObject UpgradeRequestList_DeepCopy.
Definition RollbackRequest_DeepCopyObject : ptr RollbackRequest_s → mem cell (option (ptr RollbackRequest_s)) :=
  DeepCopyObject RollbackRequest_DeepCopy.
Definition RollbackRequestList_DeepCopyObject : ptr RollbackRequestList_s → mem cell (option (ptr RollbackRequestList_s)) :=
  DeepCopyObject RollbackRequestList_DeepCopy.

(** ** Each of them copies *)

Context {MR : MetaV1Rep} {ML : MetaV1Copies}.

Lemma time_copy_copies : copies time_copy.
Proof. intros h [|l] t Hr; [destruct t; [done|by apply run_ret]|by apply Time_copies]. Qed.

Lemma ImageInfo_copies : copies ImageInfo_DeepCopyInto.
Proof. apply copies_ret. by intros ????. Qed.
Lemma ObjectReference_copies : copies ObjectReference_DeepCopyInto.
Proof. apply copies_ret. by intros ????. Qed.
Lemma PVCRef_copies : copies PVCRef_DeepCopyInto.
Proof. apply copies_ret. by intros ????. Qed.
Lemma PVCSnapshotInfo_copies : copies PVCSnapshotInfo_DeepCopyInto.
Proof. apply copies_ret. by intros ????. Qed.
Lemma RestoredPVCInfo_copies : copies RestoredPVCInfo_DeepCopyInto.
Proof. apply copies_ret. by intros ????. Qed.
Lemma HealthCheckConfig_copies : copies HealthCheckConfig_DeepCopyInto.
Proof. apply copies_ret. by intros ????. Qed.
Lemma VersionPolicy_copies : copies VersionPolicy_DeepCopyInto.
Proof. apply copies_ret. by intros ????. Qed.
Lemma WorkloadScalingInfo_copies : copies WorkloadScalingInfo_DeepCopyInto.
Proof. apply copies_ret. by intros ????. Qed.
Lemma RollbackRequestSpec_copies : copies RollbackRequestSpec_DeepCopyInto.
Proof. apply copies_ret. by intros ????. Qed.

#[local] Hint Resolve Time_copies Condition_copies ObjectMeta_copies ListMeta_copies
  time_copy_copies ptr_copy_copies ptr_deep_copies slice_copy_copies slice_deep_copies : copies.
#[local] Hint Extern 1 (copies (λ a, mret a)) => apply copies_ret; by intros ???? : copies.

(** One field after the other, and the struct of their copies. *)
Local Tactic Notation "copies_fields" reference(f) reference(r) :=
  let Hr := fresh in
  intros h s v Hr; unfold f, r in *; cbn [represents] in *; destruct_and?;
  apply run_from_new;
  repeat (eapply run_field; [by auto with copies|eassumption|copied_field]);
  apply run_from_ret; cbn [represents]; split_and?; by eauto.


Lemma RetentionPolicy_copies : copies RetentionPolicy_DeepCopyInto.
Proof. copies_fields RetentionPolicy_DeepCopyInto RetentionPolicy_rep. Qed.
#[local] Hint Resolve RetentionPolicy_copies : copies.
Lemma VolumeSnapshotConfig_copies : copies VolumeSnapshotConfig_DeepCopyInto.
Proof. copies_fields VolumeSnapshotConfig_DeepCopyInto VolumeSnapshotConfig_rep. Qed.
#[local] Hint Resolve VolumeSnapshotConfig_copies : copies.
Lemma ManagedAppSpec_copies : copies ManagedAppSpec_DeepCopyInto.
Proof. copies_fields ManagedAppSpec_DeepCopyInto ManagedAppSpec_rep. Qed.
#[local] Hint Resolve ManagedAppSpec_copies : copies.
Lemma VersionInfo_copies : copies VersionInfo_DeepCopyInto.
Proof. copies_fields VersionInfo_DeepCopyInto VersionInfo_rep. Qed.
#[local] Hint Resolve VersionInfo_copies : copies.
Lemma UpgradeInfo_copies : copies UpgradeInfo_DeepCopyInto.
Proof. copies_fields UpgradeInfo_DeepCopyInto UpgradeInfo_rep. Qed.
#[local] Hint Resolve UpgradeInfo_copies : copies.
Lemma ManagedAppStatus_copies : copies ManagedAppStatus_DeepCopyInto.
Proof. copies_fields ManagedAppStatus_DeepCopyInto ManagedAppStatus_rep. Qed.
#[local] Hint Resolve ManagedAppStatus_copies : copies.
Lemma UpgradeRequestSpec_copies : copies UpgradeRequestSpec_DeepCopyInto.
Proof. copies_fields UpgradeRequestSpec_DeepCopyInto UpgradeRequestSpec_rep. Qed.
#[local] Hint Resolve UpgradeRequestSpec_copies : copies.
Lemma ScalingStatus_copies : copies ScalingStatus_DeepCopyInto.
Proof. copies_fields ScalingStatus_DeepCopyInto ScalingStatus_rep. Qed.
#[local] Hint Resolve ScalingStatus_copies : copies.
Lemma SnapshotStatus_copies : copies SnapshotStatus_DeepCopyInto.
Proof. copies_fields SnapshotStatus_DeepCopyInto SnapshotStatus_rep. Qed.
#[local] Hint Resolve SnapshotStatus_copies : copies.
Lemma UpgradeStatus_copies : copies UpgradeStatus_DeepCopyInto.
Proof. copies_fields UpgradeStatus_DeepCopyInto UpgradeStatus_rep. Qed.
#[local] Hint Resolve UpgradeStatus_copies : copies.
Lemma HealthCheckStatus_copies : copies HealthCheckStatus_DeepCopyInto.
Proof. copies_fields HealthCheckStatus_DeepCopyInto HealthCheckStatus_rep. Qed.
#[local] Hint Resolve HealthCheckStatus_copies : copies.
Lemma UpgradeRequestStatus_copies : copies UpgradeRequestStatus_DeepCopyInto.
Proof. copies_fields UpgradeRequestStatus_DeepCopyInto UpgradeRequestStatus_rep. Qed.
#[local] Hint Resolve UpgradeRequestStatus_copies : copies.
Lemma RestoredFromStatus_copies : copies RestoredFromStatus_DeepCopyInto.
Proof. copies_fields RestoredFromStatus_DeepCopyInto RestoredFromStatus_rep. Qed.
#[local] Hint Resolve RestoredFromStatus_copies : copies.
Lemma VolumeRestoreStatus_copies : copies VolumeRestoreStatus_DeepCopyInto.
Proof. copies_fields VolumeRestoreStatus_DeepCopyInto VolumeRestoreStatus_rep. Qed.
#[local] Hint Resolve VolumeRestoreStatus_copies : copies.
Lemma GitRevertStatus_copies : copies GitRevertStatus_DeepCopyInto.
Proof. copies_fields GitRevertStatus_DeepCopyInto GitRevertStatus_rep. Qed.
#[local] Hint Resolve GitRevertStatus_copies : copies.
Lemma RollbackRequestStatus_copies : copies RollbackRequestStatus_DeepCopyInto.
Proof. copies_fields RollbackRequestStatus_DeepCopyInto RollbackRequestStatus_rep. Qed.
#[local] Hint Resolve RollbackRequestStatus_copies : copies.
Lemma ManagedApp_copies : copies ManagedApp_DeepCopyInto.
Proof. copies_fields ManagedApp_DeepCopyInto ManagedApp_rep. Qed.
#[local] Hint Resolve ManagedApp_copies : copies.
Lemma ManagedAppList_copies : copies ManagedAppList_DeepCopyInto.
Proof. copies_fields ManagedAppList_DeepCopyInto ManagedAppList_rep. Qed.
#[local] Hint Resolve ManagedAppList_copies : copies.
Lemma UpgradeRequest_copies : copies UpgradeRequest_DeepCopyInto.
Proof. copies_fields UpgradeRequest_DeepCopyInto UpgradeRequest_rep. Qed.
#[local] Hint Resolve UpgradeRequest_copies : copies.
Lemma UpgradeRequestList_copies : copies UpgradeRequestList_DeepCopyInto.
Proof. copies_fields UpgradeRequestList_DeepCopyInto UpgradeRequestList_rep. Qed.
#[local] Hint Resolve UpgradeRequestList_copies : copies.
Lemma RollbackRequest_copies : copies RollbackRequest_DeepCopyInto.
Proof. copies_fields RollbackRequest_DeepCopyInto RollbackRequest_rep. Qed.
#[local] Hint Resolve RollbackRequest_copies : copies.
Lemma RollbackRequestList_copies : copies RollbackRequestList_DeepCopyInto.
Proof. copies_fields RollbackRequestList_DeepCopyInto RollbackRequestList_rep. Qed.
#[local] Hint Resolve RollbackRequestList_copies : copies.

(** ** The contract of a deep copy

[q], of the new memory [n], stands for the value [p] stands for in [h], whatever becomes of the
memory [p] is in; and the other way round. *)
Definition independent {A B} {St : Stored cell A} {Rp : Rep cell A B} (h h' : heap cell)
    (p q : ptr A) (v : option B) : Prop :=
  ∃ n, h' = n ∪ h ∧ n ##ₘ h
       ∧ (∀ m, n ##ₘ m → represents (n ∪ m) q v)
       ∧ (∀ m, m ##ₘ h → represents (m ∪ h) p v).
Definition deep_copies {A B} {St : Stored cell A} {Rp : Rep cell A B}
    (f : ptr A → mem cell (ptr A)) : Prop :=
  ∀ h p (v : option B), represents h p v →
  ∃ q h', f p h = Some (q, h') ∧ independent h h' p q v.
(** The interface is nil for a nil pointer, and never holds one. *)
Definition deep_copies_object {A B} {St : Stored cell A} {Rp : Rep cell A B}
    (f : ptr A → mem cell (option (ptr A))) : Prop :=
  ∀ h p (v : option B), represents h p v →
  match v with
  | None => f p h = Some (None, h)
  | Some _ => ∃ l h', f p h = Some (Some (At l), h') ∧ independent h h' p (At l) v
  end.

Section contract.
Context {A B : Type} {St : Stored cell A} {Zr : Zero A} {Rp : Rep cell A B}.

Lemma copies_independent f h (p : ptr A) (v : option B) :
  copies f → represents h p v → ∃ q h', f p h = Some (q, h') ∧ independent h h' p q v.
Proof.
  intros Hf Hr. destruct (Hf h p v Hr) as (q & n & Hm & Hd & Hq).
  exists q, (n ∪ h). split; [done|]. exists n. do 2 (split; [done|]).
  split; intros m Hm'; (eapply represents_mono; [|eassumption]).
  - by apply map_union_subseteq_l.
  - by apply map_union_subseteq_r.
Qed.
Lemma DeepCopy_contract (f : A → mem cell A) :
  copies f → deep_copies (Rp:=Rp) (ptr_deep f).
Proof. intros Hf h p v. apply copies_independent. by apply ptr_deep_copies. Qed.
Lemma DeepCopyObject_contract (f : A → mem cell A) :
  copies f → deep_copies_object (Rp:=Rp) (DeepCopyObject (ptr_deep f)).
Proof.
  intros Hf h p v Hr. destruct (DeepCopy_contract f Hf h p v Hr) as (q & h' & Hq & Hi).
  unfold DeepCopyObject. destruct p as [|p], v as [v|]; try done.
  rewrite (bind_run _ _ _ _ _ Hq). destruct q as [|l].
  - destruct Hi as (n & _ & _ & Hq' & _). destruct (Hq' ∅). apply map_disjoint_empty_r.
  - by exists l, h'.
Qed.
End contract.

(** Every generated [DeepCopy] is a deep copy: on any heap it returns, without a panic, a
    pointer to the same value (nil for nil), reached through newly allocated memory alone and
    leaving every cell there was as it was, so that what is later written to the one is never
    seen through the other. *)
Theorem DeepCopy_independent :
  deep_copies ImageInfo_DeepCopy
  ∧ deep_copies ObjectReference_DeepCopy
  ∧ deep_copies PVCRef_DeepCopy
  ∧ deep_copies PVCSnapshotInfo_DeepCopy
  ∧ deep_copies RestoredPVCInfo_DeepCopy
  ∧ deep_copies HealthCheckConfig_DeepCopy
  ∧ deep_copies VersionPolicy_DeepCopy
  ∧ deep_copies WorkloadScalingInfo_DeepCopy
  ∧ deep_copies RollbackRequestSpec_DeepCopy
  ∧ deep_copies RetentionPolicy_DeepCopy
  ∧ deep_copies VolumeSnapshotConfig_DeepCopy
  ∧ deep_copies ManagedAppSpec_DeepCopy
  ∧ deep_copies VersionInfo_DeepCopy
  ∧ deep_copies UpgradeInfo_DeepCopy
  ∧ deep_copies ManagedAppStatus_DeepCopy
  ∧ deep_copies UpgradeRequestSpec_DeepCopy
  ∧ deep_copies ScalingStatus_DeepCopy
  ∧ deep_copies SnapshotStatus_DeepCopy
  ∧ deep_copies UpgradeStatus_DeepCopy
  ∧ deep_copies HealthCheckStatus_DeepCopy
  ∧ deep_copies UpgradeRequestStatus_DeepCopy
  ∧ deep_copies RestoredFromStatus_DeepCopy
  ∧ deep_copies VolumeRestoreStatus_DeepCopy
  ∧ deep_copies GitRevertStatus_DeepCopy
  ∧ deep_copies RollbackRequestStatus_DeepCopy
  ∧ deep_copies ManagedApp_DeepCopy
  ∧ deep_copies UpgradeRequest_DeepCopy
  ∧ deep_copies RollbackRequest_DeepCopy
  ∧ deep_copies ManagedAppList_DeepCopy
  ∧ deep_copies UpgradeRequestList_DeepCopy
  ∧ deep_copies RollbackRequestList_DeepCopy.
Proof.
  split_and!; apply DeepCopy_contract; auto using ImageInfo_copies, ObjectReference_copies, PVCRef_copies, PVCSnapshotInfo_copies, RestoredPVCInfo_copies, HealthCheckConfig_copies, VersionPolicy_copies, WorkloadScalingInfo_copies, RollbackRequestSpec_copies with copies.
Qed.

(** C28: [DeepCopyObject], what the API machinery calls on the six kinds it registers, returns such
    a copy as a [runtime.Object]; for a nil pointer it returns the nil interface, never an
    interface that holds a nil pointer. *)
Theorem DeepCopyObject_independent :
  deep_copies_object ManagedApp_DeepCopyObject
  ∧ deep_copies_object ManagedAppList_DeepCopyObject
  ∧ deep_copies_object UpgradeRequest_DeepCopyObject
  ∧ deep_copies_object UpgradeRequestList_DeepCopyObject
  ∧ deep_copies_object RollbackRequest_DeepCopyObject
  ∧ deep_copies_object RollbackRequestList_DeepCopyObject.
Proof. split_and!; apply DeepCopyObject_contract; auto with copies. Qed.
End deepcopy.

(** ** A library whose structs are plain values

[metav1.Time] and the rest without pointers, copied by assignment. *)
Module Plain.
#[export] Instance meta : MetaV1 := {|
  Time_s := Time; Condition_s := Condition; ObjectMeta_s := ObjectMeta; ListMeta_s := string;
  lib_cell := Empty_set; ListMeta := string;
  Time_zero := 0; Condition_zero := mkCondition "" "" "" "" 0;
  ObjectMeta_zero := plainMeta "" ""; ListMeta_zero := "" |}.
#[export] Instance meta_rep : MetaV1Rep :=
  {| Time_rep := flat; Condition_rep := flat; ObjectMeta_rep := flat; ListMeta_rep := flat |}.
#[export] Instance meta_ops : MetaV1Ops := {|
  Time_DeepCopy := ptr_copy; Condition_DeepCopyInto := mret; ObjectMeta_DeepCopyInto := mret;
  ListMeta_DeepCopyInto := mret |}.
#[export] Instance meta_copies : MetaV1Copies.
Proof.
  split; [apply ptr_copy_copies| | |]; apply copies_ret; by intros ????.
Qed.

(** A rollback request in the heap: its status points to the versions, a slice of images and a
    time. *)
Definition image : ImageInfo := mkImageInfo "shop" "1.2".
Definition version : VersionInfo_s := mkVersionInfo_s "" (SliceOf 2%positive 1 1).
Definition status : RollbackRequestStatus_s :=
  mkRollbackRequestStatus_s (At 4%positive) Nil Nil Nil (At 5%positive) Nil Nil NilSlice.
Definition shop : heap cell := list_to_map [
  (1%positive, CRollbackRequest (mkRollbackRequest_s (mkTypeMeta "RollbackRequest" "v1alpha1")
     (plainMeta "back" "shop") (mkRollbackRequestSpec (mkObjectReference "up" "") false false)
     status));
  (2%positive, CImageInfos [mkImageInfo "db" "7"; image]);
  (3%positive, CVersionInfo version);
  (4%positive, CRestoredFromStatus (mkRestoredFromStatus_s "up" (At 3%positive) (At 3%positive)));
  (5%positive, CTime 77)].
Definition back : TypeMeta * RollbackRequest :=
  (mkTypeMeta "RollbackRequest" "v1alpha1",
   mkRollbackRequest (plainMeta "back" "shop")
     (mkRollbackRequestSpec (mkObjectReference "up" "") false false)
     (mkRollbackRequestStatus
        (Some (mkRestoredFromStatus "up" (Some (mkVersionInfo "" [image]))
                 (Some (mkVersionInfo "" [image]))))
        None None None (Some 77) None None [])).

Lemma shop_version :
  represents shop (At 3%positive : ptr VersionInfo_s) (Some (mkVersionInfo "" [image])).
Proof.
  eexists. split; [reflexivity|]. split; [done|].
  exists [mkImageInfo "db" "7"; image]. split; [done|]. split; [simpl; lia|]. by repeat constructor.
Qed.
Lemma shop_back : represents shop (At 1%positive : ptr RollbackRequest_s) (Some back).
Proof.
  eexists. split; [reflexivity|]. do 3 (split; [done|]).
  split; [|split_and!; try done; by exists 77].
  eexists. split; [reflexivity|]. split; [done|]. split; apply shop_version.
Qed.

(** The copy, cell by cell, in new memory: each version has an array of its own, with the one
    image of its slice; what there was is as it was. *)
Example shop_copied :
  fmap (M:=option) (λ r, (r.1, r.2 ∖ shop, filter (λ lc, (lc.1 <= 5)%positive) r.2))
    (RollbackRequest_DeepCopyObject (At 1%positive) shop)
  = Some (Some (At 6%positive), list_to_map [
      (6%positive, CRollbackRequest (mkRollbackRequest_s
         (mkTypeMeta "RollbackRequest" "v1alpha1") (plainMeta "back" "shop")
         (mkRollbackRequestSpec (mkObjectReference "up" "") false false)
         (mkRollbackRequestStatus_s (At 7%positive) Nil Nil Nil (At 12%positive) Nil Nil NilSlice)));
      (7%positive, CRestoredFromStatus
         (mkRestoredFromStatus_s "up" (At 8%positive) (At 10%positive)));
      (8%positive, CVersionInfo (mkVersionInfo_s "" (SliceOf 9%positive 0 1)));
      (9%positive, CImageInfos [image]);
      (10%positive, CVersionInfo (mkVersionInfo_s "" (SliceOf 11%positive 0 1)));
      (11%positive, CImageInfos [image]);
      (12%positive, CTime 77)], shop).
Proof. vm_compute. reflexivity. Qed.
Example nil_copied : RollbackRequest_DeepCopyObject Nil shop = Some (None, shop).
Proof. reflexivity. Qed.

Lemma DeepCopy_independent_witness :
  represents shop (At 3%positive : ptr VersionInfo_s) (Some (mkVersionInfo "" [image]))
  ∧ ∃ q h', VersionInfo_DeepCopy (At 3%positive) shop = Some (q, h')
            ∧ independent shop h' (At 3%positive) q (Some (mkVersionInfo "" [image])).
Proof.
  split; [apply shop_version|]. pose proof DeepCopy_independent as Hall. apply Hall, shop_version.
Defined.

Lemma DeepCopyObject_independent_witness :
  represents shop (At 1%positive : ptr RollbackRequest_s) (Some back)
  ∧ ∃ l h', RollbackRequest_DeepCopyObject (At 1%positive) shop = Some (Some (At l), h')
            ∧ independent shop h' (At 1%positive) (At l) (Some back).
Proof.
  split; [apply shop_back|]. pose proof DeepCopyObject_independent as Hall.
  destruct Hall as (_ & _ & _ & _ & Hback & _).
  exact (Hback shop (At 1%positive) (Some back) shop_back).
Defined.

(** Assigning the struct is no deep copy: the images would be shared. *)
Lemma assignment_shares : ¬ deep_copies (ptr_copy (A:=VersionInfo_s)).
Proof.
  intros Hc. destruct (Hc _ _ _ shop_version) as (q & h' & Hq & n & Hh & Hd & Hn & _).
  assert (Some (At 6%positive, <[6%positive := CVersionInfo version]> shop) = Some (q, h')) as [= <- <-]
    by (rewrite <- Hq; vm_compute; reflexivity).
  specialize (Hn ∅ (map_disjoint_empty_r _)). rewrite (right_id_L ∅ (∪)) in Hn.
  destruct Hn as (a & Ha & Hv).
  assert (n !! 6%positive = Some (CVersionInfo version)) as H6.
  { assert ((n ∪ shop) !! 6%positive = Some (CVersionInfo version)) as H6 by by rewrite <- Hh.
    apply lookup_union_Some in H6 as [H6|H6]; [done|discriminate|done]. }
  unfold peek in Ha. rewrite H6 in Ha. injection Ha as <-.
  destruct Hv as (_ & xs & Hxs & _). unfold peek in Hxs.
  by rewrite (map_disjoint_Some_r n shop 2%positive _ Hd eq_refl) in Hxs.
Qed.
End Plain.
