(* ===== verification/Provenance.v ===== *)
(** * Where a committed version comes from

Any number of upgrades, rollbacks and applications, each reconciled as often as one likes,
and the reader of Renovate's report share one server.  The versions pass between them through
[status.availableUpdate] of the applications: the updates controller offers one, the
application's controller and the upgrades write the same status, an upgrade commits what it
read there.  [commits_were_asked_for]: however the calls interleave and however stale the
reads are, an upgrade commits a version only if its request asks for it, or if a report that
was read before offers it for that application. *)

From S2P Require Import Prelude Threads GoLib Api Platform Footprint Discovery Health Yaml.
From S2P Require Import Controller Phases Operation Guard Runs.
From S2P Require Upgrade.
From S2P Require UpgradeProofs.
From S2P Require Import UpgradeGuard.
From S2P Require Import Rollback RollbackGuard RollbackProofs Cluster Shop.
From S2P Require ManagedAppController.
From S2P Require UpdatesController.
From S2P Require Import Renovate.

(** One controller per object; the updates controller has one object. *)
Inductive actor :=
| Upgrading (k : NamespacedName) | RollingBack (k : NamespacedName)
| Checking (k : NamespacedName) | Updating.
#[export] Instance actor_eq_dec : EqDecision actor.
Proof. solve_decision. Defined.

Definition available_update (app : ManagedApp) : option VersionInfo :=
  ast_AvailableUpdate (app_Status app).

Section provenance.
Context {P : Platform} {PL : PlatformLaws P} {D : Decoders} {Y : Kyaml} {J : EntryDecoder}.
Variables (rU rR : Reconciler) (scanner : StatusUpdater) (rounds : actor → nat).
Implicit Types (h : list event) (k : NamespacedName) (v : VersionInfo).

Definition system : pool ev actor := λ i,
  match i with
  | Upgrading k => reconciles (Upgrade.Reconcile rU k) (rounds i)
  | RollingBack k => reconciles (Reconcile rR k) (rounds i)
  | Checking k => reconciles (ManagedAppController.Reconcile k) (rounds i)
  | Updating =>
      reconciles
        (UpdatesController.Reconcile scanner
           (mkKey UpdatesController.UpdatesConfigMapName
              UpdatesController.UpdatesConfigMapNamespace)) (rounds i)
  end.

(** A report that was read, against applications that were listed, offers [v] for [k]. *)
Definition offered_in h k v : Prop :=
  ∃ cm apps config,
    In (Obs (GetConfigMap (mkKey (p_configMap (su_parser scanner))
                             (p_namespace (su_parser scanner)))) (Ok cm)) h
    ∧ In (Obs ListApps (Ok apps)) h
    ∧ report cm = Some config ∧ offered apps (available config) k = Some v.

(** ** What everybody keeps to: no version is made up *)

Definition honest_write h (x : ManagedApp) : Prop :=
  available_update x = None
  ∨ ∃ k app, In (Obs (GetApp k) (Ok app)) h ∧ keyOf (app_Meta x) = keyOf (app_Meta app)
      ∧ (available_update x = available_update app
         ∨ ∃ v, available_update x = Some v ∧ offered_in h k v).
Definition honest : guarantee ev := λ h R e,
  match e with StatusUpdateApp x => honest_write h x | _ => True end.

Lemma honest_silent h R (e : ev R) : kind_of e ≠ KStatusApp → honest h R e.
Proof. by destruct e. Qed.
Lemma honest_within ks h R (e : ev R) :
  kmem KStatusApp ks = false → within ks R e → honest h R e.
Proof. intros Hk He. by eapply honest_silent, within_not. Qed.

Lemma upgrade_honest h R (e : ev R) : guard UpgradeRequest h R e → honest h R e.
Proof.
  intros Hg. destruct e; cbn; try done. destruct (Hg eq_refl) as (u & _ & _ & Hx). by left.
Qed.
Lemma rollback_honest h R (e : ev R) : guard RollbackRequest h R e → honest h R e.
Proof.
  intros Hg. destruct e; cbn; try done. destruct (Hg eq_refl) as (u & _ & Hp & _).
  cbn in Hp. by rewrite ?andb_false_r in Hp.
Qed.

(** The application's controller writes the status it read, with another condition. *)
Lemma checking_honest k h : wp any honest (ManagedAppController.Reconcile k) h (λ _ _, True).
Proof.
  unfold ManagedAppController.Reconcile. split; [done|]. intros [app|e] _; [|done].
  cbn [bind]. rewrite wp_bind.
  eapply wp_emits; [by apply (CheckHealth_within health_kinds)| |].
  - intros d R e _. by apply honest_within.
  - intros [[res|e]|m] d _; [| |done]; cbn [bind call wp].
    all: split; [right; exists k, app; split; [apply in_app_iff; right; by left|]; by auto|];
      by intros [].
Qed.

(** The updates controller writes what the report offers. *)
Lemma offered_stays d h k v : offered_in h k v → offered_in (d ++ h) k v.
Proof.
  intros (cm & apps & config & ? & ? & ?). exists cm, apps, config. rewrite !in_app_iff. auto.
Qed.
Lemma update_honest k v h :
  offered_in h k v →
  wp any honest (updateManagedAppStatus k v) h (λ o h', ∃ e d, o = Done e ∧ h' = d ++ h).
Proof.
  intros Hv. unfold updateManagedAppStatus. split; [done|]. intros [app|e] _; cbn [bind call wp].
  2:{ by exists (Some e), [Obs (GetApp k) (Err e)]. }
  split.
  - right. exists k, app. split; [by left|]. split; [done|]. right. exists v. split; [done|].
    by apply (offered_stays [_]).
  - intros [x|e] _; by eexists _, [_; _].
Qed.
Lemma publish_each_honest mapped keys h :
  (∀ k v, mapped !! k = Some v → offered_in h k v) →
  wp any honest (publish_each mapped keys) h (λ _ _, True).
Proof.
  revert h. induction keys as [|k keys IH]; intros h Hm; cbn [publish_each]; [done|].
  destruct (mapped !! k) as [v|] eqn:Hv; [|by apply IH].
  rewrite wp_bind. eapply wp_mono; [by apply update_honest, Hm|done|].
  intros o h' (e & d & -> & ->). apply IH. intros k' v' Hv'. by apply offered_stays, Hm.
Qed.
Lemma Parse_reads p h :
  wp any honest (Parse p) h (λ o h', ∀ updates, o = Done (Ok updates) → updates ≠ [] →
    ∃ cm config, h' = Obs (GetConfigMap (mkKey (p_configMap p) (p_namespace p))) (Ok cm) :: h
                 ∧ report cm = Some config ∧ updates = available config).
Proof.
  unfold Parse. split; [done|]. intros [cm|e] _; [|done]. unfold report. cbn [bind call].
  destruct (updates_data cm =?s "") eqn:Hd; [by intros ? [= <-]|].
  destruct (json_entry (updates_data cm)) as [entry|e] eqn:Hj; [|done].
  destruct (rl_Config entry) as [config|] eqn:Hc; [|by intros ? [= <-]].
  intros ? [= <-] _. exists cm, config. by rewrite Hd, Hj, extract_comprehension.
Qed.
Lemma updating_honest req h :
  wp any honest (UpdatesController.Reconcile scanner req) h (λ _ _, True).
Proof.
  unfold UpdatesController.Reconcile. destruct (_ || _); [done|].
  rewrite wp_bind. eapply wp_mono with (Q:=λ _ _, True); [|done|by intros [[]|] ? _].
  unfold ProcessRenovateOutput. rewrite wp_bind.
  eapply wp_mono; [apply Parse_reads|done|]. intros [[updates|e]|m] h' Hr; [|done..].
  destruct (len updates =? 0) eqn:Hl; [done|].
  destruct (Hr updates eq_refl) as (cm & config & -> & Hc & ->); [by intros ->|].
  cbn [bind call wp]. split; [done|]. intros [apps|e] _; [|done].
  cbn [bind call wp]. split; [done|]. intros [keys Hkeys] _.
  rewrite wp_bind. eapply wp_mono; [apply publish_each_honest|done|by intros [[]|m] ? _].
  intros k v Hv. rewrite mapped_offered in Hv. exists cm, apps, config. cbn. auto 10.
Qed.

(** ** One server for all

Reads of an application answer it in any state it was ever in: with the update it had at
first, or the one of some status written before, stored or not.  Of the requests only their
own controllers' writes are answered with what was stored. *)

Variable offered_first : NamespacedName → option VersionInfo.

Definition app_reads : protocol ev := λ h R e,
  match e in ev R return R → Prop with
  | GetApp k => λ r, match r with
      | Ok app => keyOf (app_Meta app) = k
          ∧ (available_update app = offered_first k
             ∨ ∃ x r, In (Obs (StatusUpdateApp x) r) h ∧ keyOf (app_Meta x) = k
                      ∧ available_update x = available_update app)
      | Err _ => True
      end
  | _ => λ _, True
  end.
Definition server : protocol ev := λ h R e r,
  api_server UpgradeRequest h R e r ∧ api_server RollbackRequest h R e r ∧ app_reads h R e r.

Definition keeps (i : actor) : guarantee ev := λ h R e,
  honest h R e ∧ match i with Upgrading _ => guard UpgradeRequest h R e | _ => True end.
Definition expects (i : actor) : protocol ev := λ h R e r,
  api_server UpgradeRequest h R e r ∧ api_server RollbackRequest h R e r.

Lemma system_wp i : wp (expects i) (keeps i) (system i) [] (λ _ _, True).
Proof.
  destruct i as [k|k|k|]; cbn.
  - eapply wp_mono with (G:=guard UpgradeRequest);
      [apply reconciles_guarded; [apply UpgradeProofs.Reconcile_guarded|by intros ? ? ? ? [? _]]| |done].
    intros h R e He. split; [by apply upgrade_honest|done].
  - eapply wp_mono with (G:=guard RollbackRequest);
      [apply reconciles_guarded; [apply rb_Reconcile_guarded|by intros ? ? ? ? [_ ?]]| |done].
    intros h R e He. split; [by apply rollback_honest|done].
  - apply reconciles_keep. intros h.
    eapply wp_mono; [eapply wp_protocol; [apply checking_honest|done]|done..].
  - apply reconciles_keep. intros h.
    eapply wp_mono; [eapply wp_protocol; [apply updating_honest|done]|done..].
Qed.

Lemma system_kept ps H : pool_run server system ps H → kept_by server keeps H.
Proof.
  intros Hrun. eapply (pool_sound server expects keeps (λ _ _ _, True)); [|apply system_wp|exact Hrun].
  intros H' i R e r _ _ (? & ? & _). by split.
Qed.

(** ** No update is ever made up *)

(** What the applications may be offered after [h]. *)
Definition sourced h k (o : option VersionInfo) : Prop :=
  ∀ v, o = Some v → offered_first k = Some v ∨ offered_in h k v.
Definition call_sourced h (o : event) : Prop :=
  match o with
  | Obs e r =>
      match e in ev R return R → Prop with
      | StatusUpdateApp x => λ _, sourced h (keyOf (app_Meta x)) (available_update x)
      | GetApp k => λ r, match r with
          | Ok app => keyOf (app_Meta app) = k ∧ sourced h k (available_update app)
          | Err _ => True
          end
      | _ => λ _, True
      end r
  end.

Lemma sourced_stays o h k x : sourced h k x → sourced (o :: h) k x.
Proof. intros Hs v [Hv|Hv]%Hs; [by left|right]. by apply (offered_stays [o]). Qed.
Lemma offered_everyone (i : actor) H k v : offered_in (own i H) k v → offered_in (everyone H) k v.
Proof.
  intros (cm & apps & config & Hc%own_everyone & Ha%own_everyone & ?).
  by exists cm, apps, config.
Qed.

Lemma call_sourced_stays o h o' : call_sourced h o' → call_sourced (o :: h) o'.
Proof.
  destruct o' as [R e r]; destruct e; cbn; try done; [|by apply sourced_stays].
  destruct r; [|done]. intros [? ?]. split; [done|]. by apply sourced_stays.
Qed.

Lemma all_sourced H :
  kept_by server keeps H → ∀ o, In o (everyone H) → call_sourced (everyone H) o.
Proof.
  induction H as [|[i [R e r]] H IH]; [by intros _ o []|].
  intros ((_ & _ & Hr) & [He _] & Hk). specialize (IH Hk). cbn [everyone].
  intros o [<-|Hin]; apply call_sourced_stays; [|by apply IH].
  destruct e; cbn in *; try done.
  - (* an application is read *)
    destruct r as [app|]; [|done]. destruct Hr as [Hkey Hr]. split; [done|].
    destruct Hr as [Hr|(x & r & Hx%IH & Hkx & Hr)]; intros v Hv; [left; congruence|].
    cbn in Hx. rewrite Hkx in Hx. apply Hx. congruence.
  - (* its status is written *)
    destruct He as [Hn|(k & app & Ha%own_everyone%IH & Hkx & He)]; intros v Hv; [congruence|].
    cbn in Ha. destruct Ha as [Hka Ha]. rewrite Hkx, Hka.
    destruct He as [He|(v' & He & Ho)]; [apply Ha; congruence|right].
    replace v with v' by congruence. by eapply offered_everyone.
Qed.

(** The version in a change was asked for, or offered: seen from before the commit. *)
Definition asked_for (before : shared ev actor) k (change : FileChange) : Prop :=
  ∃ u app version new content,
    latest (own (Upgrading k) before) = Some u
    ∧ In (Obs (GetApp (app_key u)) (Ok app)) (own (Upgrading k) before)
    ∧ keyOf (app_Meta app) = app_key u
    ∧ fc_Path change = as_GitPath (app_Spec app)
    ∧ Upgrade.commit_version app version = inl new
    ∧ UpdateVersion content (version_path app) new = Ok (fc_Content change)
    ∧ match us_TargetVersion (ur_Spec u) with
      | Some asked => version = asked
      | None => offered_first (app_key u) = Some version
                ∨ offered_in (everyone before) (app_key u) version
      end.

(** C23: provenance.  Upgrades, rollbacks, applications and the reader of Renovate's report,
    any number of each, are reconciled side by side, their calls interleaved in any way, on a
    server whose reads may be stale.  Whenever an upgrade commits, it commits, to the file of an
    application it read, at the version path configured there, the version its request asks
    for; or, if it names none, the one the application was offered: at first, or by a report
    that was read before, whose updates of that application's file it is made of. *)
Theorem commits_were_asked_for ps H later k change message r before :
  pool_run server system ps H →
  H = later ++ (Upgrading k, Obs (GitCommitFile change message) r) :: before →
  asked_for before k change.
Proof.
  intros Hrun%system_kept ->. apply kept_by_app in Hrun as (_ & [_ Hg] & Hk).
  destruct (Hg eq_refl) as (u & Hl & _ & app & ks & content & version & new & h' & Hh & _ & Hv & Hnew
    & Hup & Hpath & _).
  assert (In (Obs (GetApp (app_key u)) (Ok app)) (own (Upgrading k) before)) as Hin.
  { rewrite Hh. do 2 right. by left. }
  destruct (all_sourced _ Hk _ (own_everyone _ _ _ Hin)) as [Hkey Hs].
  exists u, app, version, new, content. do 6 (split; [done|]).
  unfold Upgrade.target_version in Hv. destruct (us_TargetVersion (ur_Spec u)); [by simplify_eq|].
  by apply Hs.
Qed.
End provenance.

(** ** On the model cluster

Nothing is offered at first.  Renovate reports 1.1.0, the updates controller offers it, the
application's controller checks the health in between, and an upgrade that names no version
commits it. *)

#[local] Existing Instance reference.
#[local] Existing Instance no_helm.
#[local] Existing Instance two_lines.

Definition shop_report : EntryDecoder := λ _,
  Ok (mkRenovateLogEntry "renovate" 20 "packageFiles with updates"
        (Some (mkRenovateConfig
           [mkPackageFile "clusters/shop.yaml"
              [mkDependency "shop" "1.0.0" "helm" "" [mkUpdate "1.1.0" "minor"]]] [] []))).
#[local] Existing Instance shop_report.

Definition env_report R (w : cluster) (e : ev R) : R * cluster :=
  match e in ev R return R * cluster with
  | GetConfigMap _ => (Ok demo_cm, w)
  | e => env _ w e
  end.
Definition unoffered_app : ManagedApp :=
  app_set_Status (mkManagedAppStatus (Some (mkVersionInfo "1.0.0" [])) None None []) listed_app.
Definition unoffered : cluster := with_app unoffered_app (shop_cluster false (shop_doc "1.0.0")).

Definition shop_scanner : StatusUpdater := NewStatusUpdater "fluxup-system" "fluxup-updates".
Definition shop_rounds (i : actor) : nat :=
  match i with Upgrading _ => 12%nat | Checking _ => 3%nat | _ => 1%nat end.
Definition shop_system : pool ev actor := system with_git with_git shop_scanner shop_rounds.
Fixpoint repeated (n : nat) (l : list actor) : list actor :=
  match n with O => [] | S n => l ++ repeated n l end.
Definition shop_play : cluster * shared ev actor :=
  play env_report
    (repeated 10 [Updating] ++ repeated 150 [Upgrading shop_key; Checking (mkKey "shop" "apps")])
    shop_system unoffered [].

(** The cluster answers as such a server. *)
Definition offer_known (w : cluster) (h : list event) : Prop :=
  available_update (cl_app w) = None
  ∨ ∃ x r, In (Obs (StatusUpdateApp x) r) h ∧ keyOf (app_Meta x) = keyOf (app_Meta (cl_app w))
           ∧ available_update x = available_update (cl_app w).
Lemma offer_known_stays w w' h o : cl_app w' = cl_app w → offer_known w h → offer_known w' (o :: h).
Proof.
  unfold offer_known. intros ->. intros [?|(x & r & ? & ?)]; [by left|right].
  exists x, r. split; [by right|done].
Qed.
Lemma has_key_keyOf k m : has_key k m = true → keyOf m = k.
Proof.
  unfold has_key. intros Hk. apply andb_true_iff in Hk as [Hn Hs]. destruct k as [n ns]. cbn in *.
  destruct (seqb_spec (om_Name m) n) as [<-|]; [|done].
  by destruct (seqb_spec (om_Namespace m) ns) as [<-|].
Qed.

Lemma report_follows : follows (server (λ _, None)) env_report offer_known.
Proof.
  intros w h R e Hi. unfold server.
  destruct e; cbn; try (split; [done|by apply (offer_known_stays w)]).
  all: try match goal with |- context [cl_upgrade ?c] => destruct (cl_upgrade c) end.
  all: try match goal with |- context [cl_rollback ?c] => destruct (cl_rollback c) end.
  all: cbn; try (split; [by repeat split|by apply (offer_known_stays w)]).
  - split; [|by apply (offer_known_stays w)]. do 2 (split; [done|]).
    destruct (has_key k _) eqn:Hk; [|done]. apply has_key_keyOf in Hk as <-. by split.
  - split; [done|]. right. eexists _, _. split; [by left|done].
Qed.

(** The last commit an upgrade made, and what came before it. *)
Fixpoint last_commit (H : shared ev actor) : option (FileChange * shared ev actor) :=
  match H with
  | [] => None
  | (Upgrading _, Obs (GitCommitFile change _) _) :: before => Some (change, before)
  | _ :: H => last_commit H
  end.
Lemma last_commit_split H change before :
  last_commit H = Some (change, before) →
  ∃ later k m r, H = later ++ (Upgrading k, Obs (GitCommitFile change m) r) :: before.
Proof.
  induction H as [|[i [R e r]] H IH]; [done|]. intros Hc.
  assert ((∃ k m r', (i, Obs e r) = (Upgrading k, Obs (GitCommitFile change m) r') ∧ H = before)
          ∨ last_commit H = Some (change, before)) as [(k & m & r' & -> & ->)|Hc'].
  { destruct i; [|by right..]. destruct e; cbn in Hc; simplify_eq; eauto 10. }
  - by exists [], k, m, r'.
  - destruct (IH Hc') as (later & k & m & r' & ->). by exists ((i, Obs e r) :: later), k, m, r'.
Qed.

Lemma shop_system_run : ∃ ps, pool_run (server (λ _, None)) shop_system ps shop_play.2.
Proof.
  eapply play_run; [apply report_follows|by left|apply RunStart].
Qed.

Lemma commits_were_asked_for_witness :
  ∃ change before k,
    last_commit shop_play.2 = Some (change, before)
    ∧ fc_Content change = shop_doc "1.1.0"
    ∧ asked_for shop_scanner (λ _, None) before k change.
Proof.
  destruct (last_commit shop_play.2) as [[change before]|] eqn:Hc; [|by vm_compute in Hc].
  destruct (last_commit_split _ _ _ Hc) as (later & k & m & r & HH).
  destruct shop_system_run as [ps Hrun].
  exists change, before, k. split; [done|]. split.
  - assert (match last_commit shop_play.2 with
            | Some (c, _) => fc_Content c = shop_doc "1.1.0"
            | None => False
            end) as Hv by (vm_compute; reflexivity).
    by rewrite Hc in Hv.
  - by eapply (commits_were_asked_for with_git with_git shop_scanner shop_rounds (λ _, None) ps).
Defined.
