(* ===== verification/Earned.v ===== *)
(** * What a condition stands for

The contract of [Guard] orders the phases; it does not say why a phase is reported over.  Here
every condition that an operation newly reports is traced to what was seen, in terms of [ran]
and [ever] ([Prelude]): [ran p d a] says that the calls [d] and their answers are a run of the
program [p] that answers [a];
[this_time O h p a] that the history [h] holds such a run since the request was last read,
[ever h p a] that it holds one at all.  What counts as evidence is the interface [Evidence], of
which each of the two requests has an instance.  [earned] is the guarantee that every
[milestone] newly reported has its evidence, [caused] that a failure newly reported has the
cause its reason names ([blame]).  The evidence of one reconcile may lean on what an earlier
one noted in the status, such as a claim recorded as restored: [notes] are what a status says
of this kind, [noted] what is to be seen for one, and [notes_kept] that none is written down
before.  A handler is walked through once for all three ([honest]).
[reconciles_succeed] lifts them to the success of any number of reconciles of a request that is
new ([new_request]): each of its steps was reported in a status of that very request over what
was seen for it ([success_seen]).  Dry runs report nothing of the kind, and are left out. *)

From S2P Require Import Prelude GoLib Api Platform Footprint Discovery Workload.
From S2P Require Import Controller Phases Operation Guard Quiesce Runs Cluster Shop.

Section earned.
Context {P : Platform} {PL : PlatformLaws P} {O : Type} {Op : Operation O} {OL : OperationLaws O}.
Implicit Types (h : list event) (u v x : O).

(** Not a reading of the request, with which a reconcile begins. *)
Definition within_reconcile R (e : ev R) : Prop :=
  match op_view O e with Some (OwnGet _) => False | _ => True end.
Lemma elsewhere_within R (e : ev R) : elsewhere O R e → within_reconcile R e.
Proof. unfold elsewhere, within_reconcile. by intros ->. Qed.

Definition this_time h {A} (p : M A) (a : A) : Prop :=
  ∃ d1 d2 h', h = d1 ++ d2 ++ h' ∧ ran p d2 a ∧ Forall (obs_sat within_reconcile) (d1 ++ d2).

Lemma this_time_ever h A (p : M A) a : this_time h p a → ever h p a.
Proof. intros (d1 & d2 & h' & ? & ? & _). by exists d1, d2, h'. Qed.

(** What was seen stays seen for the rest of the reconcile. *)
Definition grows h h' : Prop := ∀ A (p : M A) a, this_time h p a → this_time h' p a.
Lemma grows_trans h h' h'' : grows h h' → grows h' h'' → grows h h''.
Proof. intros H H' A p a Ha. by apply H', H. Qed.
Lemma grows_app d h : Forall (obs_sat within_reconcile) d → grows h (d ++ h).
Proof.
  intros Hd A p a (d1 & d2 & h' & -> & Hr & Hf). exists (d ++ d1), d2, h'.
  rewrite <- !app_assoc. split; [done|]. split; [done|].
  apply List.Forall_app. by split.
Qed.
End earned.
Arguments within_reconcile O {Op} R e.
Arguments this_time O {Op} h {A} p a.
Arguments grows O {Op} h h'.

(** ** Milestones and their evidence *)

Inductive milestone := Stopped | Prepared | Committed | Reconciled | Healthy.
Definition reached (m : milestone) (a : astate) : bool :=
  match m with
  | Stopped => a_stopped a
  | Prepared => a_prepared a
  | Committed => a_committed a
  | Reconciled => a_reconciled a
  | Healthy => a_healthy a
  end.

(** Which programs have been seen to answer what. *)
Definition sight := ∀ A, M A → A → Prop.

(** A request keeps [notes] of what was done across reconciles, each of which stands for
    something seen, then or before, for that request ([noted]).  [evidence] is what there must be to see for a
    milestone, given the notes that can be relied on; [blame] what for the reason of a failure;
    [around] are the calls that do not concern the request. *)
Class Evidence (O : Type) {Op : Operation O} := {
  note : Type;
  notes : O → list note;
  noted : sight → O → note → Prop;
  noted_mono (S T : sight) u n : (∀ A p a, S A p a → T A p a) → noted S u n → noted T u n;
  noted_request S (u v : O) n : same_request u v → noted S u n → noted S v n;
  notes_status (u v : O) : op_Status u = op_Status v → notes u = notes v;
  notes_conditions cs u : notes (op_set_Conditions cs u) = notes u;
  notes_phase t u : notes (op_set_PhaseStartedAt t u) = notes u;
  notes_scaling s u : notes (op_set_Scaling s u) = notes u;
  evidence : milestone → sight → (note → Prop) → O → Prop;
  evidence_mono m (S T : sight) (N N' : note → Prop) x :
    (∀ A p a, S A p a → T A p a) → (∀ n, N n → N' n) →
    evidence m S N x → evidence m T N' x;
  blame : sight → O → string → Prop;
  blame_mono (S T : sight) x reason :
    (∀ A p a, S A p a → T A p a) → blame S x reason → blame T x reason;
  around : list kind;
  around_elsewhere R (e : ev R) : within around R e → elsewhere O R e
}.
#[export] Hint Mode Evidence + - : typeclass_instances.
Arguments around O {Op _}.

Section guarantee.
Context {P : Platform} {PL : PlatformLaws P} {O : Type} {Op : Operation O} {OL : OperationLaws O}.
Context {Ev : Evidence O}.
Implicit Types (h : list event) (u v x : O).

(** A status write reports nothing new without evidence of its own reconcile. *)
Definition earned_status h u x : Prop := ∀ m,
  reached m (abs x) = true →
  reached m (abs u) = true ∨ evidence m (@this_time O Op h) (λ n, In n (notes u)) x.
Definition earned : guarantee ev := λ h R e,
  match op_view O e with
  | Some (OwnStatus x) => ∀ u, latest h = Some u → a_dry (abs u) = false → earned_status h u x
  | _ => True
  end.
(** Nor a failure without what its reason names. *)
Definition caused_status h u x : Prop :=
  a_complete (abs x) = Some false →
  a_complete (abs u) = Some false
  ∨ ∃ c, condition x ConditionTypeComplete = Some c ∧ blame (@this_time O Op h) x (c_Reason c).
Definition caused : guarantee ev := λ h R e,
  match op_view O e with
  | Some (OwnStatus x) => ∀ u, latest h = Some u → a_dry (abs u) = false → caused_status h u x
  | _ => True
  end.
(** Nor notes of what was not seen. *)
Definition noted_status h u x : Prop := ∀ n,
  In n (notes x) → In n (notes u) ∨ noted (@this_time O Op h) x n.
Definition notes_kept : guarantee ev := λ h R e,
  match op_view O e with
  | Some (OwnStatus x) => ∀ u, latest h = Some u → a_dry (abs u) = false → noted_status h u x
  | _ => True
  end.
(** The walk shows all three. *)
Definition honest_status h u x : Prop :=
  earned_status h u x ∧ caused_status h u x ∧ noted_status h u x.
Definition honest : guarantee ev := λ h R e, earned h R e ∧ caused h R e ∧ notes_kept h R e.
Notation earning p h Q := (wp (api_server O) honest p h Q).
Notation earns p h := (earning p h (λ _ _, True)).

Lemma honest_elsewhere h R (e : ev R) : elsewhere O R e → honest h R e.
Proof. unfold elsewhere, honest, earned, caused, notes_kept. by intros ->. Qed.
(** A call other than a status write, or one that tells the truth. *)
Lemma honest_call h R (e : ev R) :
  match op_view O e with
  | Some (OwnStatus x) => ∀ u, latest h = Some u → a_dry (abs u) = false → honest_status h u x
  | _ => True
  end → honest h R e.
Proof.
  unfold honest, earned, caused, notes_kept. destruct (op_view O e) as [[]|]; try done.
  intros He. split; [|split]; intros v Hl Hd; by destruct (He v Hl Hd) as (? & ? & ?).
Qed.

(** ** The rules of the walk *)

(** A part of a handler that leaves the request alone. *)
Lemma e_pass {A B} (p : M A) (f : A → M B) h u Q :
  emits (within (around O)) p → latest h = Some u → (∀ m h', Q (Panicked m) h') →
  (∀ a h', this_time O h' p a → grows O h h' → latest h' = Some u → earning (f a) h' Q) →
  earning (bind p f) h Q.
Proof.
  intros Hp Hl Hm Hf. rewrite wp_bind.
  eapply wp_mono; [eapply (wp_ran (within (around O))); [exact Hp|]|done|].
  { intros h' R e He. by apply honest_elsewhere, around_elsewhere. }
  intros [a|m] h' (d & -> & Hd & Hr); [|by apply Hm].
  assert (Forall (obs_sat (within_reconcile O)) d) as Hw.
  { eapply obs_sat_mono; [exact Hd|]. intros R e He. by apply elsewhere_within, around_elsewhere. }
  apply Hf.
  - exists [], d, h. split; [done|]. split; [by apply Hr|done].
  - by apply grows_app.
  - rewrite latest_app; [done|]. eapply obs_sat_mono; [exact Hd|apply around_elsewhere].
Qed.

(** A status write: with what it reports, the rest goes on from the answer. *)
Lemma e_status {B} h u x (f : res O → M B) Q :
  latest h = Some u → honest_status h u x →
  (∀ v h', latest h' = Some v → kept x v → grows O h h' → earning (f (Ok v)) h' Q) →
  (∀ e h', earning (f (Err e)) h' Q) →
  earning (bind (call (op_StatusUpdate x)) f) h Q.
Proof using OL.
  intros Hl He Hok Herr. cbn [bind call wp]. split.
  { apply honest_call. rewrite view_status. intros u' Hl' _. by simplify_eq. }
  intros a Ha%server_status. destruct a as [v|e]; [|apply Herr].
  apply Hok; [cbn; by rewrite view_status|exact Ha|]. apply (grows_app [_]).
  repeat constructor. cbn. unfold within_reconcile. by rewrite view_status.
Qed.
Lemma e_update_then h u x c :
  latest h = Some u → honest_status h u x → earns (update_then x c) h.
Proof using OL. intros Hl He. unfold update_then. by apply (e_status h u x). Qed.

(** Nothing new is reported. *)
Definition nothing_new u x : Prop :=
  (∀ m, reached m (abs x) = true → reached m (abs u) = true)
  ∧ (a_complete (abs x) = Some false → a_complete (abs u) = Some false).
Lemma nothing_new_honest h u x : nothing_new u x → noted_status h u x → honest_status h u x.
Proof. intros [Hn Hc] Ht. split; [intros m Hm; left; auto|]. split; [intros Hf; left; auto|done]. Qed.
Lemma noted_same h u x : notes x = notes u → noted_status h u x.
Proof. intros Hx n Hn. left. by rewrite <- Hx. Qed.
Lemma noted_grows h h' u x : grows O h h' → noted_status h u x → noted_status h' u x.
Proof.
  intros Hg Hx n Hn. destruct (Hx n Hn) as [?|Hs]; [by left|right]. by eapply noted_mono.
Qed.
Lemma notes_generation_cond x t s reason m : notes (generation_cond x t s reason m) = notes x.
Proof. apply notes_conditions. Qed.
Lemma noted_as h u x y :
  notes y = notes x → same_request x y → noted_status h u x → noted_status h u y.
Proof.
  intros Hn Hr Hx n Hy. rewrite Hn in Hy. destruct (Hx n Hy) as [?|Hs]; [by left|right].
  by eapply noted_request.
Qed.
Lemma noted_cond h u x t s reason m :
  noted_status h u x → noted_status h u (generation_cond x t s reason m).
Proof using OL.
  apply noted_as; [apply notes_generation_cond|]. unfold generation_cond.
  split; [apply spec_set_conditions|by rewrite meta_set_conditions].
Qed.

Lemma e_update {B} h x (f : res O → M B) :
  (∀ a h', earns (f a) h') → earns (bind (call (op_Update x)) f) h.
Proof using OL.
  intros Hf. cbn [bind call wp].
  split; [apply honest_call; by rewrite view_update|]. intros a _. apply Hf.
Qed.
Lemma e_finish h u x : latest h = Some u → honest_status h u x → earns (finish x) h.
Proof using OL.
  intros Hl He. unfold finish. apply (e_status h u x); [done|done| |done].
  intros v h' _ _ _. cbn beta iota. destruct (ContainsFinalizer _ _); [|done].
  apply e_update. by intros [].
Qed.

(** The clock of the phase. *)
Lemma e_setPhase {B} h u x (f : O → M B) Q :
  latest h = Some u →
  (∀ x' h', same_conditions x x' → notes x' = notes x → grows O h h' → latest h' = Some u →
            earning (f x') h' Q) →
  earning (bind (setPhaseStartIfNeeded x) f) h Q.
Proof using OL.
  intros Hl Hf. unfold setPhaseStartIfNeeded.
  destruct (op_PhaseStartedAt (op_Status x)); cbn [bind call wp].
  - apply Hf; try done. by apply (grows_app []).
  - assert (elsewhere O _ Now) as Hn by by apply view_other.
    split; [by apply honest_elsewhere|]. intros now _. apply Hf.
    + split; [apply spec_set_phase|]. split; [apply meta_set_phase|apply conditions_set_phase].
    + apply notes_phase.
    + apply (grows_app [_]). repeat constructor. by apply elsewhere_within.
    + rewrite <- Hl. apply (latest_app [_]). by repeat constructor.
Qed.

(** ** Dry runs report nothing of the kind *)

Definition all_dry h : Prop := ∀ v : O, latest h = Some v → a_dry (abs v) = true.

Context {Mc : Machine O} {ML : MachineLaws O}.

Lemma all_dry_step h R (e : ev R) a :
  all_dry h → guard O h R e → within_reconcile O R e → api_server O h R e a →
  all_dry (Obs e a :: h).
Proof using OL PL.
  intros Hi Hg Hw Hs v Hv. unfold within_reconcile in Hw. unfold api_server in Hs. cbn in Hv.
  destruct (op_view O e) as [c|] eqn:Hc; [|by apply Hi].
  destruct c as [k|x|x]; [done|..];
    destruct (guard_own _ _ _ _ Hg Hc (view_mutates _ _ _ Hc)) as (u0 & Hl & _ & Hd);
    destruct a as [v'|]; try done; cbn in Hv, Hs; simplify_eq; rewrite (kept_abs _ _ Hs).
  - destruct Hd as (Hsp & Hst & _). rewrite (same_abs _ u0); [by apply Hi|done..].
  - destruct Hd as (_ & _ & _ & Hstep). rewrite (astep_dry _ _ Hstep). by apply Hi.
Qed.

(** Of a dry run nothing is asked. *)
Lemma dry_earns {A} ks (p : M A) h u Q :
  emits (within ks) p → (∀ R e, within ks R e → within_reconcile O R e) →
  latest h = Some u → a_dry (abs u) = true →
  wp (api_server O) (guard O) p h Q → earns p h.
Proof using OL PL.
  intros Hp Hks Hl Hd Hg.
  pose proof (wp_emits_guard _ (api_server O) _ h _ (wp_free _ _ _) Hp) as He.
  eapply wp_mono; [eapply (wp_invariant _ _ all_dry); [apply (wp_both _ _ _ _ _ _ _ Hg He)|..]| |done].
  - intros v Hv. by simplify_eq.
  - intros h' R e a Hi [Hg' He'%Hks] Hs. by apply all_dry_step.
  - intros h' R e [_ Hi]. apply honest_call. destruct (op_view O e) as [[]|]; try done.
    intros v Hv Hn. by rewrite (Hi v Hv) in Hn.
Qed.

(** ** Reconcile *)

Lemma e_fetch h key (live : O → M Reply) :
  (∀ h' u, latest h' = Some u → a_complete (abs u) = None → earns (live u) h') →
  earns (let? u := call (op_Get O key) orelse err => Ret (done_result, IgnoreNotFound err) in
         with_finalizer live u) h.
Proof using OL PL.
  intros Hlive. cbn [bind call wp].
  split; [apply honest_call; by rewrite view_get|].
  intros [u|e] _; [|done]. unfold with_finalizer. destruct (om_DeletionTimestamp _).
  { destruct (ContainsFinalizer _ _); [|done]. apply e_update. by intros []. }
  destruct (ContainsFinalizer _ _); cbn [negb]; [|apply e_update; by intros []].
  rewrite is_terminal_abs. unfold terminal. destruct (a_complete (abs u)) eqn:Hc; [done|].
  apply Hlive; [|done]. cbn. by rewrite view_get.
Qed.

(** ** From one reconcile to all of them *)

(** At first there is nothing to rely on: the request comes without notes. *)
Definition fresh : protocol ev := λ h R e,
  match op_view O e with
  | Some c => match c in own_call _ R return R → Prop with
              | OwnGet _ => λ a, ∀ u : O, a = Ok u → versions (O:=O) h = [] → notes u = []
              | _ => λ _, True
              end
  | None => λ _, True
  end.

(** All that the versions of the request note was seen at some time. *)
Definition all_noted h : Prop := ∀ v n,
  In v (versions h) → In n (notes v) → noted (@ever ev h) v n.
Lemma noted_cons o h x n : noted (@ever ev h) x n → noted (@ever ev (o :: h)) x n.
Proof. apply noted_mono. intros. by apply ever_cons. Qed.
Lemma noted_ever h x n : noted (@this_time O Op h) x n → noted (@ever ev h) x n.
Proof. apply noted_mono. intros A p a. apply this_time_ever. Qed.

Lemma all_noted_step key h R (e : ev R) a :
  all_reach O (initial false) h → one_request O key (Obs e a :: h) → all_noted h →
  guard O h R e → notes_kept h R e → cached O (initial false) h R e a → fresh h R e a →
  all_noted (Obs e a :: h).
Proof using OL PL ML.
  intros Hr Hone Hi Hg Hk Hs Hf v n Hv Hn. apply noted_cons.
  assert (∀ w, In w (versions h) → In n (notes w) → noted (@ever ev h) v n) as Hold.
  { intros w Hw Hnw. eapply noted_request; [|by eapply Hi].
    apply Hone; [done|]. by apply versions_stay. }
  unfold cached in Hs. unfold fresh in Hf. unfold notes_kept in Hk. cbn in Hv.
  destruct (op_view O e) as [c|] eqn:Hc; [|by eapply Hold].
  destruct c as [k|x|x].
  - destruct a as [u|?]; cbn in Hv; [|by eapply Hold]. destruct Hv as [<-|Hv]; [|by eapply Hold].
    destruct Hs as [[Hnil _]|(w & Hw & _ & Ht)].
    + rewrite (Hf u eq_refl Hnil) in Hn. done.
    + rewrite (notes_status _ _ Ht) in Hn. by eapply Hold.
  - destruct (guard_own _ _ _ _ Hg Hc (view_mutates _ _ _ Hc)) as (u0 & _ & Hin & _ & Ht & _).
    destruct a as [w|?]; cbn in Hv; [|by eapply Hold]. destruct Hv as [<-|Hv]; [|by eapply Hold].
    destruct Hs as (_ & Hs & _).
    rewrite (notes_status w u0) in Hn by congruence. eapply Hold; [by apply candidates_versions|done].
  - destruct (guard_reach _ _ _ _ Hr Hg (view_mutates _ _ _ Hc)) as (u & Hl & _ & Hd & _ & Hdet).
    unfold detail in Hdet. rewrite Hc in Hdet. apply write_request in Hdet.
    assert (In u (versions h)) as Hu by by apply candidates_versions, latest_candidate.
    assert (In v (versions (Obs e a :: h)) → In n (notes x) → noted (@ever ev h) v n) as Hx.
    { intros Hv' Hnx. destruct (Hk u Hl Hd n Hnx) as [Hnu|Hnu]; [by eapply Hold|].
      eapply noted_request; [|by apply noted_ever].
      eapply same_request_trans; [by apply same_request_sym|]. apply Hone; [done|].
      by apply versions_stay. }
    cbn in Hx. rewrite Hc in Hx. specialize (Hx Hv).
    destruct a as [w|?]; (destruct Hv as [<-|Hv]; [|by apply (Hold v)]); [|by apply Hx].
    apply Hx. by rewrite <- (notes_status w x) by apply Hs.
Qed.

(** A milestone of a request, reported in one of its statuses, over what was seen for it. *)
Definition ever_evidence m h x : Prop := evidence m (@ever ev h) (noted (@ever ev h) x) x.
Definition proven h x m : Prop := ∃ y,
  same_request x y ∧ reached m (abs y) = true ∧ ever_evidence m h y.
Definition all_proven h : Prop := ∀ v m,
  In v (versions h) → reached m (abs v) = true → proven h v m.

Lemma proven_cons o h x m : proven h x m → proven (o :: h) x m.
Proof.
  intros (y & Hy & Hm & He). exists y. split; [done|]. split; [done|].
  eapply evidence_mono; [| |exact He]; [intros; by apply ever_cons|intros n; apply noted_cons].
Qed.
Lemma proven_same h x x' m : same_request x x' → proven h x m → proven h x' m.
Proof.
  intros Hx (y & Hy & Hm). exists y. split; [|done].
  eapply same_request_trans; [by apply same_request_sym|done].
Qed.
(** A write adds what it reports anew. *)
Lemma proven_write h u x m :
  all_noted h → all_proven h → latest h = Some u → same_request u x → earned_status h u x →
  reached m (abs x) = true → proven h x m.
Proof.
  intros Hi Hp Hl Hux He Hm.
  assert (In u (versions h)) as Hu by by apply candidates_versions, latest_candidate.
  destruct (He m Hm) as [Hmu|Hx]; [eapply proven_same; [exact Hux|by apply Hp]|].
  exists x. split; [by split|]. split; [done|].
  eapply evidence_mono; [| |exact Hx]; [intros A p a; apply this_time_ever|].
  intros n Hn. eapply noted_request; [exact Hux|]. by eapply Hi.
Qed.

Lemma all_proven_step key h R (e : ev R) a :
  all_reach O (initial false) h → one_request O key (Obs e a :: h) → all_noted h → all_proven h →
  guard O h R e → earned h R e → cached O (initial false) h R e a → all_proven (Obs e a :: h).
Proof using OL PL ML.
  intros Hr Hone Hn Hi Hg He Hs v m Hv Hm. destruct (Hone v Hv) as [_ Hsame].
  destruct (version_step _ _ _ _ _ _ Hg Hs Hv) as [[_ Hv0]|(w & Hw & [Hvw|(_ & c & Hc & Hwr)])].
  - rewrite Hv0 in Hm. by destruct m.
  - apply proven_cons. eapply proven_same; [by apply Hsame, versions_stay|].
    apply Hi; [done|]. by rewrite <- Hvw.
  - destruct c as [|x'|x']; try done. cbn in Hwr. rewrite Hwr in Hm.
    destruct (guard_reach _ _ _ _ Hr Hg (view_mutates _ _ _ Hc)) as (u & Hl & _ & Hd & _ & Hdet).
    unfold detail in Hdet. rewrite Hc in Hdet. apply write_request in Hdet.
    unfold earned in He. rewrite Hc in He.
    apply proven_cons. apply (proven_same _ x').
    + eapply same_request_trans; [by apply same_request_sym|].
      by apply Hsame, versions_stay, candidates_versions, latest_candidate.
    + eapply proven_write; [done..|by apply He|done].
Qed.

(** A success is reported after all the work was reported and seen done, for this request. *)
Definition success_seen h x : Prop := ∀ m, proven h x m.
Definition succeeds_earned : guarantee ev := λ h R e,
  match op_view O e with
  | Some (OwnStatus x) => a_complete (abs x) = Some true → success_seen h x
  | _ => True
  end.

Lemma success_write h R (e : ev R) :
  all_reach O (initial false) h → all_noted h → all_proven h → guard O h R e → earned h R e →
  succeeds_earned h R e.
Proof using OL PL ML.
  intros Hr Hn Hi Hg He. unfold succeeds_earned, earned in *.
  destruct (op_view O e) as [c|] eqn:Hv; [destruct c as [|x|x]|]; try done. intros Hc.
  destruct (guard_reach _ _ _ _ Hr Hg (view_mutates _ _ _ Hv)) as (u & Hl & Ho & Hd & _ & Hdet).
  unfold detail in Hdet. rewrite Hv in Hdet. pose proof (write_request _ _ _ _ Hdet) as Hux.
  destruct Hdet as (_ & _ & _ & Hstep).
  pose proof (astep_ordered _ _ Hstep Ho) as [_ Hcm Hrc _ Hhe Hco].
  rewrite (astep_dry _ _ Hstep) in Hco.
  pose proof (Hco Hc Hd) as Hhx. pose proof (Hhe Hhx) as Hrx. pose proof (Hrc Hrx) as Hcx.
  destruct (Hcm Hcx) as (_ & Hsx & Hpx).
  intros m. eapply proven_write; [done..|by apply He|by destruct m].
Qed.

(** A request that is new, not a dry run, and written by nobody else; reads may be stale. *)
Definition new_request : protocol ev := λ h R e a,
  cached O (initial false) h R e a ∧ named O h R e a ∧ fresh h R e a.
Lemma new_request_serves : serves (O:=O) new_request.
Proof. intros h R e a [Hs _]. by eapply cached_serves. Qed.

Lemma reconciles_succeed reconcile key n :
  (∀ h, wp (api_server O) (guard O) reconcile h (ends O)) → (∀ h, earns reconcile h) →
  emits (asks_for O key) reconcile →
  wp new_request succeeds_earned (reconciles reconcile n) [] (λ _ _, True).
Proof using OL PL ML.
  intros Hrec Hearn Hask. pose proof new_request_serves as Hsv.
  pose proof (reconciles_guarded reconcile Hrec _ n [] Hsv) as Hg.
  pose proof (wp_emits_guard (asks_for O key) new_request _ [] _ (wp_free _ _ _)
    (reconciles_emits _ _ n Hask)) as Ha.
  assert (wp new_request honest (reconciles reconcile n) [] (λ _ _, True)) as He.
  { apply reconciles_keep. intros h. eapply wp_protocol; [apply Hearn|apply Hsv]. }
  eapply wp_mono;
    [eapply (wp_invariant _ _ (λ h, (all_reach O (initial false) h ∧ one_request O key h)
                                    ∧ all_noted h ∧ all_proven h));
     [exact (wp_both _ _ _ _ _ _ _ (wp_both _ _ _ _ _ _ _ Hg Ha) He)|..]| |done].
  - split; [split; [apply all_reach_nil|apply one_request_nil]|]. by split; intros v.
  - intros h R e a [[Hr Ho] [Hn Hi]] [[Hg' Ha'] (He' & _ & Hk)] (Hs & Hname & Hf).
    assert (one_request O key (Obs e a :: h)) as Ho' by by eapply one_request_step.
    split; [split; [by eapply all_reach_step|done]|].
    split; [by eapply all_noted_step|by eapply all_proven_step].
  - intros h R e [[[Hg' _] (He' & _)] [[Hr _] [Hn Hi]]]. by apply success_write.
Qed.
End guarantee.
Arguments earned {P} O {Op Ev} h R e.
Arguments caused {P} O {Op Ev} h R e.
Arguments honest {P} O {Op Ev} h R e.
Arguments fresh O {Op Ev} h R e.
Arguments new_request {P} O {Op Ev} h R e a.
Arguments succeeds_earned {P} O {Op Ev} h R e.

(** ** What both controllers do *)

(** What is returned without a call. *)
Lemma this_time_ret {O} {Op : Operation O} h {A} (a b : A) : this_time O h (Ret a) b → b = a.
Proof. intros (d1 & d2 & h' & _ & Hr & _). by inversion Hr. Qed.
(** A commit that was answered was made. *)
Lemma this_time_commit {O} {Op : Operation O} r h change message ci :
  this_time O h (git_CommitFile r change message) (Ok ci) →
  this_time O h (call (GitCommitFile change message)) (Ok ci).
Proof.
  unfold git_CommitFile. destruct (r_GitManager r); [done|].
  intros (d1 & d2 & h' & _ & Hr & _). inversion Hr.
Qed.

(** ** Automation *)

(** Facts of the history so far are taken along. *)
Ltac lift Hg :=
  lazymatch type of Hg with
  | grows _ ?h _ =>
      repeat match goal with
      | H : this_time _ h _ _ |- _ => apply Hg in H
      | H : grows _ _ h |- _ => apply grows_trans with (2 := Hg) in H
      end; clear Hg
  end.

(** The state of a request whose conditions were just set, from that of the stored one. *)
Ltac abs_of :=
  unfold set_scaled_at, set_scaled_workloads; abs_simp;
  repeat match goal with
  | |- context [abs (op_set_Scaling ?s ?x)] => rewrite (abs_set_scaling s x)
  | |- context [abs (resetPhaseStart ?x)] => rewrite (abs_reset x)
  end;
  repeat match goal with
  | H : abs ?x = abs ?u |- context [abs ?y] =>
      lazymatch y with u => fail | _ => idtac end; change (abs y) with (abs x); rewrite H
  | _ : latest _ = Some ?u |- context [abs ?y] =>
      lazymatch y with u => fail | _ => idtac end; change (abs y) with (abs u)
  end.
Ltac notes_tac :=
  unfold resetPhaseStart, set_scaled_at, set_scaled_workloads;
  repeat first [rewrite notes_generation_cond | rewrite notes_phase | rewrite notes_scaling];
  first [assumption | reflexivity | congruence].
Ltac noted_tac := apply noted_same; notes_tac.
Ltac new_tac := split; [intros []; cbn [reached]; abs_of; tauto|abs_of; first [tauto|congruence]].
(** The milestones reported anew are left to show. *)
Ltac same_tac := apply nothing_new_honest; [new_tac|noted_tac].
Ltac earned_tac :=
  split;
    [intros []; cbn [reached]; abs_of; try (intros; left; assumption); intros _; right
    |split; [intros Hf; left; revert Hf; abs_of; first [tauto|congruence]|try noted_tac]].

(** The cause of a failure is among what was seen. *)
Ltac cause_tac :=
  repeat match goal with
         | H : this_time _ _ (Ret _) (Err _) |- _ => by apply this_time_ret in H
         | H : negb _ = true |- _ => apply negb_true_iff in H
         | H : negb _ = false |- _ => apply negb_false_iff in H
         | H : _ && _ = true |- _ => apply andb_true_iff in H as [? H]
         end; subst;
  solve [econstructor; eassumption].

(** One step of a handler; the evidence for what it reports is left. *)
Ltac e_step :=
  lazymatch goal with
  | Hl : latest ?h = Some ?u |- wp _ _ ?p ?h _ =>
      lazymatch p with
      | Ret _ => exact I
      | update_then _ _ => eapply e_update_then; [eassumption|]
      | finish _ => eapply e_finish; [eassumption|]
      | bind (setPhaseStartIfNeeded _) _ =>
          eapply e_setPhase; [eassumption|];
          let Hx := fresh in let Hg := fresh in intros ?x ?h Hx ? Hg ?;
          pose proof (same_conditions_abs _ _ Hx); lift Hg; cbn beta iota
      | bind (if ?c then _ else _) _ => destruct c eqn:?
      | bind (match ?c with _ => _ end) _ => destruct c eqn:?
      | bind (deref _ ?o) _ => destruct o eqn:?; cbn [deref bind]; [|exact I]
      | bind ?q _ =>
          eapply (e_pass q); [emits_tac|eassumption|done|];
          let Hg := fresh in intros ?a ?h ? Hg ?; lift Hg; cbn beta iota
      | if ?c then _ else _ => destruct c eqn:?
      | match ?c with _ => _ end => destruct c eqn:?
      end
  end.

(** ** Stopping the workloads *)

Section stopping.
Context {P : Platform} {PL : PlatformLaws P} {O : Type} {Op : Operation O} {OL : OperationLaws O}.
Context {Ev : Evidence O}.
Implicit Types (h : list event) (u v x : O).
Notation earns p h := (wp (api_server O) (honest O) p h (λ _ _, True)).

(** What is left to the caller: the request as the server has it. *)
Definition goes_on (o : outcome (O * Reply * bool)) h : Prop :=
  match o with Done (v, _, true) => latest h = Some v | _ => True end.
Notation earns_on p h := (wp (api_server O) (honest O) p h goes_on).

(** A failure reports no progress, and has its cause. *)
Variable setFailed : O → string → string → M Reply.
Definition fails_earning : Prop := ∀ h u x reason m,
  latest h = Some u → nothing_new u x → noted_status h u x → blame (@this_time O Op h) x reason →
  earns (setFailed x reason m) h.

(** What there is to see when the workloads cannot be stopped. *)
Inductive scale_failure (S : sight) (x : O) (ws : list WorkloadInfo) (ns : string) : string → Prop :=
| Scale_refused err :
    S _ (scale_all_down ws ns []) (inr err) → scale_failure S x ws ns "ScaleDownFailed"
| Scale_unknown l e :
    S _ (scale_all_down ws ns []) (inl l) → S _ (all_scaled_down l) (Err e) →
    scale_failure S x ws ns "ScaleDownCheckFailed"
| Scale_late l :
    S _ (scale_all_down ws ns []) (inl l) → S _ (all_scaled_down l) (Ok false) →
    S _ (isPhaseTimedOut x TimeoutScaleDown) true →
    scale_failure S x ws ns "ScaleDownTimeout".
Lemma scale_failure_mono (S T : sight) x ws ns reason :
  (∀ A p a, S A p a → T A p a) → scale_failure S x ws ns reason → scale_failure T x ws ns reason.
Proof. intros HST []; [eapply Scale_refused|eapply Scale_unknown|eapply Scale_late]; eauto. Qed.
(** The request at hand when they are stopped. *)
Definition scaling x y : Prop := y = x ∨ ∃ l, y = set_scaled_workloads l x.
Hypothesis Hfail : fails_earning.
Hypothesis around_stop :
  subk [KClock; KRange; KGetWorkload; KPatchWorkload; KListPods] (around O) = true.

Lemma e_stop_here u p h : earns p h → earns_on (stop_here u p) h.
Proof using.
  intros Hp. unfold stop_here. rewrite wp_bind. eapply wp_mono; [exact Hp|done|].
  by intros [?|?] h' _.
Qed.
Lemma e_stop_skipped h u x reason m :
  latest h = Some u →
  honest_status h u (generation_cond x ConditionTypeWorkloadStopped ConditionTrue reason m) →
  earns_on (stop_skipped x reason m) h.
Proof using OL PL.
  intros Hl Hs. unfold stop_skipped. eapply e_status; [exact Hl|exact Hs| |done].
  by intros v h' Hv _ _.
Qed.
Lemma e_stop_workloads h u x ws ns :
  latest h = Some u → abs x = abs u → notes x = notes u →
  (∀ h' y reason, grows O h h' → scaling x y → scale_failure (@this_time O Op h') y ws ns reason →
     blame (@this_time O Op h') y reason) →
  (∀ h' l now reason m, grows O h h' → this_time O h' (scale_all_down ws ns []) (inl l) →
     this_time O h' (all_scaled_down l) (Ok true) →
     honest_status h' u
       (generation_cond (set_scaled_at now l (resetPhaseStart (set_scaled_workloads l x)))
          ConditionTypeWorkloadStopped ConditionTrue reason m)) →
  earns_on (stop_workloads setFailed x ws ns) h.
Proof using Hfail OL PL around_stop.
  intros Hl Hx Hnt Hbl Hev. assert (grows O h h) by by apply (grows_app []). unfold stop_workloads.
  repeat first
    [ lazymatch goal with
      | |- wp _ _ (stop_here _ _) _ _ => apply e_stop_here
      | |- wp _ _ (setFailed _ _ _) _ _ => eapply Hfail; [eassumption|new_tac|noted_tac|apply Hbl; [assumption|..]]
      end | e_step].
  all: try lazymatch goal with
       | |- scaling _ (set_scaled_workloads ?l _) => right; by exists l
       | |- scaling _ _ => by left
       | |- scale_failure _ _ _ _ _ => cause_tac
       end.
  - same_tac.
  - apply Hev; [done|assumption|]. by match goal with H : negb ?b = false |- _ => destruct b end.
Qed.
End stopping.

(** ** The requests of the model cluster are new *)

Section model.
Context {P : Platform} {PL : PlatformLaws P}.

(** The request held is in its first state, without notes, or one the history accounts for. *)
Definition starting {O} {Op : Operation O} {Ev : Evidence O} (held : cluster → option O)
    (w : cluster) (h : list event) : Prop :=
  accounted held (initial false) w h
  ∧ (candidates (O:=O) h = [] → ∀ x, held w = Some x → notes x = []).
Lemma starting_get {O} {Op : Operation O} {OL : OperationLaws O} {Ev : Evidence O} held w h k (x : O) :
  starting held w h → held w = Some x → fresh O h _ (op_Get O k) (Ok x).
Proof.
  intros [_ Hb] Hx. unfold fresh. rewrite view_get. intros ? [= <-] Hv. apply Hb; [|done].
  destruct (candidates h) as [|v l] eqn:Hc; [done|]. exfalso.
  pose proof (candidates_versions h v) as Hin. rewrite Hc, Hv in Hin. apply Hin. by left.
Qed.
Ltac starting_tac Hi :=
  pose proof Hi as [(u & Hu & _) Hb]; pose proof (λ k, starting_get _ _ _ k u Hi Hu) as Hget;
  rewrite Hu in Hb;
  match goal with e : ev _ |- _ => destruct e end; cbn in *; rewrite ?Hu; cbn;
  repeat case_match; cbn; rewrite ?Hu; try (by split); (split; [by eauto|done]).

Lemma new_upgrade_follows {Ev : Evidence UpgradeRequest} :
  follows (new_request UpgradeRequest) env (starting cl_upgrade).
Proof.
  intros w h R e Hi. destruct (upgrade_follows (initial false) w h R e (proj1 Hi)) as [Hs Ha].
  pose proof (env_named_upgrade w h R e) as Hn.
  assert (fresh UpgradeRequest h R e (env R w e).1
          ∧ (candidates (O:=UpgradeRequest) (Obs e (env R w e).1 :: h) = [] →
             ∀ x, cl_upgrade (env R w e).2 = Some x → notes x = [])) as [Hf Hb].
  { clear Hs Ha Hn. starting_tac Hi. }
  split; [|by split]. split; [by apply storage_cached|by split].
Qed.
Lemma new_rollback_follows {Ev : Evidence RollbackRequest} :
  follows (new_request RollbackRequest) env (starting cl_rollback).
Proof.
  intros w h R e Hi. destruct (rollback_follows (initial false) w h R e (proj1 Hi)) as [Hs Ha].
  pose proof (env_named_rollback w h R e) as Hn.
  assert (fresh RollbackRequest h R e (env R w e).1
          ∧ (candidates (O:=RollbackRequest) (Obs e (env R w e).1 :: h) = [] →
             ∀ x, cl_rollback (env R w e).2 = Some x → notes x = [])) as [Hf Hb].
  { clear Hs Ha Hn. starting_tac Hi. }
  split; [|by split]. split; [by apply storage_cached|by split].
Qed.
End model.
