(* ===== verification/UpgradeEarned.v ===== *)
(** * An upgrade's conditions are earned

The evidence for each condition of an UpgradeRequest and the cause of each of its failures, and
that its reconciler reports none without: [conditions_earned] and [failures_caused] for one
reconcile, after any history; [success_earned] for the success of any number of them. *)

From S2P Require Import Prelude GoLib Api Platform Footprint Discovery Workload Flux Snapshot Health.
From S2P Require Import Yaml Git Controller Phases Operation Guard Quiesce Runs Upgrade UpgradeGuard.
From S2P Require Import UpgradeProofs UpgradeTheorems Earned Cluster Shop.

(** ** The evidence for each condition *)

Section evidence.
Context {P : Platform} {D : Decoders} {Y : Kyaml}.
Variable seen : sight.
Arguments seen {A}.
Implicit Types (x : UpgradeRequest) (app : ManagedApp).

Definition app_seen x app : Prop := seen (getManagedApp x) (Ok app).
(** Snapshots are disabled, or no workload mounts a claim, or the workloads discovered were
    scaled down, recorded, and all seen down. *)
Definition stop_seen x : Prop :=
  ∃ app, app_seen x app
    ∧ (snapshots_enabled x app = false ∨ seen (DiscoverWorkloads app) (Ok [])
       ∨ ∃ ws s, seen (DiscoverWorkloads app) (Ok ws)
              ∧ seen (scale_all_down ws (om_Namespace (app_Meta app)) []) (inl (ss_Workloads s))
              ∧ ust_Scaling (ur_Status x) = Some s
              ∧ seen (all_scaled_down (ss_Workloads s)) (Ok true)).
(** The snapshots recorded are those created for the claims discovered. *)
Definition taken x (infos : list PVCSnapshotInfo) : Prop :=
  ∃ app pvcs vs snapshots,
    app_seen x app ∧ seen (DiscoverPVCs app) (Ok pvcs) ∧ pvcs ≠ []
    ∧ as_VolumeSnapshots (app_Spec app) = Some vs
    ∧ seen (CreateSnapshotsForUpgrade (om_Name (app_Meta app)) (om_Namespace (app_Meta app))
              (map (λ pvc, mkPVCRef (pi_Name pvc) (pi_Namespace pvc)) pvcs)
              (vsc_VolumeSnapshotClassName vs)) (Ok snapshots)
    ∧ infos = map (λ s, mkPVCSnapshotInfo (sni_PVCName s) (sni_SnapshotName s)) snapshots.
(** Snapshots are disabled, or there is no claim, or the snapshots taken, now or before, are
    recorded and all were seen ready. *)
Definition snapshots_seen (before : list PVCSnapshotInfo → Prop) x : Prop :=
  ∃ app, app_seen x app
    ∧ (snapshots_enabled x app = false ∨ seen (DiscoverPVCs app) (Ok [])
       ∨ ∃ s, ust_Snapshot (ur_Status x) = Some s
              ∧ before (sns_PVCSnapshots s)
              ∧ seen (all_snapshots_ready (sns_PVCSnapshots s) (om_Namespace (app_Meta app)))
                  (Ok true)).
(** The version recorded was committed to the application's file, and the commit is the one
    recorded. *)
Definition commit_seen x : Prop :=
  ∃ app version text message ci up,
    app_seen x app ∧ target_version x app = Some version
    ∧ seen (call (GitCommitFile (mkFileChange (as_GitPath (app_Spec app)) text) message)) (Ok ci)
    ∧ ust_Upgrade (ur_Status x) = Some up
    ∧ ups_NewVersion up = Some version ∧ ups_GitCommit up = ci_SHA ci
    ∧ ups_PreviousVersion up = ast_CurrentVersion (app_Status app).
(** The Kustomization was resumed, and seen ready. *)
Definition reconciled_seen x : Prop :=
  ∃ app, app_seen x app
    ∧ seen (ResumeKustomization (getSuspendTarget app).1 (getSuspendTarget app).2) None
    ∧ seen (IsReconciled (ref_Name (as_KustomizationRef (app_Spec app)))
              (or_default (ref_Namespace (as_KustomizationRef (app_Spec app)))
                 DefaultFluxNamespace)) (Ok true).
(** The application was checked, and healthy. *)
Definition health_seen x : Prop :=
  ∃ app result, app_seen x app ∧ seen (CheckHealth app) (Ok result) ∧ hr_Healthy result = true.

Definition upgrade_evidence (m : milestone) before x : Prop :=
  match m with
  | Stopped => stop_seen x
  | Prepared => snapshots_seen before x
  | Committed => commit_seen x
  | Reconciled => reconciled_seen x
  | Healthy => health_seen x
  end.

(** The list of snapshots that a status records is its note. *)
Definition snapshot_notes x : list (list PVCSnapshotInfo) :=
  match ust_Snapshot (ur_Status x) with Some s => [sns_PVCSnapshots s] | None => [] end.

(** ** The cause of each failure

By the reason that the Complete condition gives, in the order of the phases. *)

Variable r : Reconciler.
Inductive upgrade_failure x : string → Prop :=
| App_unread err :
    seen (getManagedApp x) (Err err) → upgrade_failure x "ManagedAppNotFound"
| No_update app :
    app_seen x app → target_version x app = None → upgrade_failure x "NoUpdateAvailable"
| No_preview app version err :
    app_seen x app → target_version x app = Some version →
    seen (runGitDiffPreview r app version) (Err err) → upgrade_failure x (preview_reason err)
| No_preflight app err :
    app_seen x app → seen (runUpgradePreflight app (snapshots_enabled x app)) (Err err) →
    upgrade_failure x "PreflightFailed"
| Not_suspended app name ns err :
    app_seen x app → getSuspendTarget app = (name, ns) →
    seen (SuspendKustomization name ns) (Some err) → upgrade_failure x "SuspendFailed"
| Workloads_unknown app err :
    app_seen x app → seen (DiscoverWorkloads app) (Err err) →
    upgrade_failure x "WorkloadDiscoveryFailed"
| Not_scaled app ws reason :
    app_seen x app → seen (DiscoverWorkloads app) (Ok ws) →
    scale_failure (@seen) x ws (om_Namespace (app_Meta app)) reason → upgrade_failure x reason
| Claims_unknown app err :
    app_seen x app → seen (DiscoverPVCs app) (Err err) → upgrade_failure x "PVCDiscoveryFailed"
| No_snapshot app pvcs vs err :
    app_seen x app → seen (DiscoverPVCs app) (Ok pvcs) → as_VolumeSnapshots (app_Spec app) = Some vs →
    seen (CreateSnapshotsForUpgrade (om_Name (app_Meta app)) (om_Namespace (app_Meta app))
            (map (λ pvc, mkPVCRef (pi_Name pvc) (pi_Namespace pvc)) pvcs)
            (vsc_VolumeSnapshotClassName vs)) (Err err) →
    upgrade_failure x "SnapshotCreationFailed"
| Snapshots_unknown app st err :
    app_seen x app → ust_Snapshot (ur_Status x) = Some st →
    seen (all_snapshots_ready (sns_PVCSnapshots st) (om_Namespace (app_Meta app))) (Err err) →
    upgrade_failure x "SnapshotCheckFailed"
| Snapshots_late app st :
    app_seen x app → ust_Snapshot (ur_Status x) = Some st →
    seen (all_snapshots_ready (sns_PVCSnapshots st) (om_Namespace (app_Meta app))) (Ok false) →
    seen (isPhaseTimedOut x TimeoutSnapshot) true → upgrade_failure x "SnapshotTimeout"
| Not_still_suspended app name ns err :
    app_seen x app → getSuspendTarget app = (name, ns) →
    seen (VerifyStillSuspended name ns) (Some err) → upgrade_failure x "SuspendVerificationFailed"
| No_version app version reason message :
    app_seen x app → target_version x app = Some version →
    commit_version app version = inr (reason, message) → upgrade_failure x reason
| File_unread app err :
    app_seen x app → seen (git_ReadFile r (as_GitPath (app_Spec app))) (Err err) →
    upgrade_failure x "GitReadFailed"
| No_path app content :
    app_seen x app → seen (git_ReadFile r (as_GitPath (app_Spec app))) (Ok content) →
    no_version_path app = true → IsHelmRelease content = false →
    upgrade_failure x "MissingVersionPath"
| Not_edited app version new content err :
    app_seen x app → target_version x app = Some version → commit_version app version = inl new →
    seen (git_ReadFile r (as_GitPath (app_Spec app))) (Ok content) →
    UpdateVersion content (version_path app) new = Err err →
    upgrade_failure x "YAMLUpdateFailed"
| Not_committed app text message err :
    app_seen x app →
    seen (git_CommitFile r (mkFileChange (as_GitPath (app_Spec app)) text) message) (Err err) →
    upgrade_failure x "GitCommitFailed"
| Not_resumed app name ns err :
    app_seen x app → getSuspendTarget app = (name, ns) →
    seen (ResumeKustomization name ns) (Some err) → upgrade_failure x "ResumeFailed"
| Flux_unknown app err :
    app_seen x app →
    seen (IsReconciled (ref_Name (as_KustomizationRef (app_Spec app)))
            (or_default (ref_Namespace (as_KustomizationRef (app_Spec app)))
               DefaultFluxNamespace)) (Err err) →
    upgrade_failure x "ReconciliationCheckFailed"
| Flux_late app :
    app_seen x app →
    seen (IsReconciled (ref_Name (as_KustomizationRef (app_Spec app)))
            (or_default (ref_Namespace (as_KustomizationRef (app_Spec app)))
               DefaultFluxNamespace)) (Ok false) →
    seen (isPhaseTimedOut x TimeoutReconcile) true → upgrade_failure x "ReconciliationTimeout"
| Health_unknown app err :
    app_seen x app → seen (CheckHealth app) (Err err) → upgrade_failure x "HealthCheckError"
| Unhealthy app result :
    app_seen x app → seen (CheckHealth app) (Ok result) → hr_Healthy result = false →
    seen (isPhaseTimedOut x (health_timeout app)) true → upgrade_failure x "HealthCheckTimeout".
End evidence.

(** ** The handlers *)

Section handlers.
Context {P : Platform} {PL : PlatformLaws P} {D : Decoders} {Y : Kyaml}.
Variable r : Reconciler.
Implicit Types (h : list event) (u v x : UpgradeRequest).
Lemma request_app u v : same_request u v → getManagedApp v = getManagedApp u.
Proof.
  intros [Hs Hk]. unfold getManagedApp, app_key. cbn in Hs, Hk. unfold keyOf in Hk.
  injection Hk as _ Hns. by rewrite Hs, Hns.
Qed.
#[local] Instance upgrade_Evidence : Evidence UpgradeRequest.
Proof.
  refine {| note := list PVCSnapshotInfo; notes := snapshot_notes; noted := taken;
            evidence m S N x := upgrade_evidence S m N x;
            blame S x reason := upgrade_failure S r x reason; around := upgrade_around |}.
  all: try done.
  - intros S T x n HST. unfold taken, app_seen. naive_solver.
  - intros S u v n Huv. unfold taken, app_seen. by rewrite (request_app u v Huv).
  - intros u v. cbn. unfold snapshot_notes. by intros ->.
  - intros [] S T N N' x HST HN; cbn;
      unfold stop_seen, snapshots_seen, commit_seen, reconciled_seen, health_seen, app_seen;
      naive_solver.
  - intros S T x reason HST []; unfold app_seen in *;
      solve [econstructor; try unfold app_seen; eauto using scale_failure_mono].
  - intros R e He%kmem_In. by destruct e; cbn in He; repeat (destruct He as [He|He]; [done|]).
Defined.
Notation earns p h := (wp (api_server UpgradeRequest) (honest UpgradeRequest) p h (λ _ _, True)).
Notation now_seen h := (@this_time UpgradeRequest _ h).

(** What a failure may set besides Complete. *)
Lemma resume_sets x h :
  wp any free (resume_if_suspended x) h (λ o _, ∀ x', o = Done x' →
    x' = x ∨ ∃ reason m, x' = generation_cond x ConditionTypeSuspended ConditionFalse reason m).
Proof.
  unfold resume_if_suspended.
  destruct (cond_true x ConditionTypeSuspended); [|intros ? [= <-]; by left].
  cbn [bind call wp getManagedApp]. split; [done|].
  intros [app|e] _; cbn [wp]; [|intros ? [= <-]; by left].
  destruct (getSuspendTarget app) as [name ns]. rewrite wp_bind.
  eapply wp_mono; [apply wp_free|done|]. intros [[e|]|m] h' _; cbn [wp]; [intros ? [= <-]; by left| |done].
  intros ? [= <-]. right. by do 2 eexists.
Qed.
(** A cause does not depend on the conditions. *)
Lemma failure_conditions S x t status reason m cause :
  upgrade_failure S r x cause → upgrade_failure S r (generation_cond x t status reason m) cause.
Proof.
  intros [].
  all: try solve [econstructor; eassumption].
  eapply Not_scaled; [eassumption..|]. destruct H1; econstructor; eassumption.
Qed.
(** A failure reports no progress, whatever is resumed on the way; its reason is the one given. *)
Lemma failed_status u x h reason m x' :
  nothing_new u x → noted_status h u x → upgrade_failure (@this_time UpgradeRequest _ h) r x reason →
  (x' = generation_cond x ConditionTypeComplete ConditionFalse reason m
   ∨ ∃ reason' m', x' = generation_cond (generation_cond x ConditionTypeComplete ConditionFalse reason m)
                          ConditionTypeSuspended ConditionFalse reason' m') →
  honest_status h u x'.
Proof.
  intros [Hn _] Ht Hb Hx'. split; [|split].
  - intros s. specialize (Hn s). intros Hs. left. apply Hn. revert Hs.
    destruct Hx' as [->|(reason' & m' & ->)]; destruct s; cbn [reached]; by abs_simp.
  - intros _. right. exists (mkCond (op_Meta x) ConditionTypeComplete ConditionFalse reason m).
    destruct Hx' as [->|(reason' & m' & ->)].
    + split; [apply condition_set|]. by apply failure_conditions.
    + rewrite condition_other by done. split; [apply condition_set|]. by do 2 apply failure_conditions.
  - destruct Hx' as [->|(reason' & m' & ->)]; by repeat apply noted_cond.
Qed.
Lemma e_setFailed : fails_earning setFailed.
Proof.
  intros h u x reason message Hl Hn Ht Hb. unfold setFailed.
  assert (∀ h', grows UpgradeRequest h h' → upgrade_failure (@this_time UpgradeRequest _ h') r x reason)
    as Hb' by (intros h' Hg; exact (blame_mono _ _ x reason Hg Hb)).
  destruct (cond_true x ConditionTypeGitCommitted).
  - apply (e_pass _ _ h u);
      [unfold post_commit_message, createAutoRollback; emits_tac|done|done|].
    intros m h' _ Hg Hl'. apply (e_finish h' u); [done|]. eapply failed_status; eauto using noted_grows.
  - apply (e_pass _ _ h u); [unfold resume_if_suspended; emits_tac|done|done|].
    intros x' h' (d1 & d2 & h0 & _ & Hran & _) Hg Hl'. apply (e_finish h' u); [done|].
    eapply failed_status; [done|by eapply noted_grows|by apply Hb'|].
    exact (ran_post _ _ _ [] _ Hran (resume_sets _ _)).
Qed.

Ltac step :=
  lazymatch goal with
  | |- wp _ _ (setFailed _ _ _) _ _ =>
      eapply e_setFailed; [eassumption|new_tac|noted_tac|try (unfold blame; cbn [upgrade_Evidence]; cause_tac)]
  | |- wp _ _ (stop_here _ _) _ _ => apply e_stop_here
  | _ => e_step
  end.
(** The witness is the application at hand. *)
Ltac app_tac := eexists; split; [eassumption|].

Lemma handleHealthChecking_earns h u : latest h = Some u → earns (handleHealthChecking u) h.
Proof.
  intros Hl. unfold handleHealthChecking. repeat step.
  destruct (ust_Upgrade _); earned_tac;
    (eexists _, _; split; [eassumption|]; split; [eassumption|]; by apply negb_false_iff).
Qed.

Lemma handleReconciling_earns h u : latest h = Some u → earns (handleReconciling u) h.
Proof.
  intros Hl. unfold handleReconciling. repeat step.
  - same_tac.
  - earned_tac. app_tac. match goal with H : getSuspendTarget _ = _ |- _ => rewrite H end.
    split; [assumption|]. by match goal with H : negb ?b = false |- _ => destruct b end.
Qed.

Lemma handleCommitting_earns h u : latest h = Some u → earns (handleCommitting r u) h.
Proof.
  intros Hl. unfold handleCommitting. repeat step.
  earned_tac. eexists _, _, _, _, _, _. split; [eassumption|]. split; [eassumption|].
  split; [eapply this_time_commit; eassumption|]. split; [reflexivity|done].
Qed.

Lemma handleSuspend_earns h u : latest h = Some u → earns (handleSuspend r u) h.
Proof.
  intros Hl. unfold handleSuspend. repeat step.
  all: destruct (negb (snapshots_enabled _ _)) eqn:Hs; [|same_tac].
  all: earned_tac; app_tac; left; by apply negb_true_iff.
Qed.

Lemma handleCompleted_earns h u : latest h = Some u → earns (handleCompleted u) h.
Proof.
  intros Hl. unfold handleCompleted. repeat step.
  all: same_tac.
Qed.

(** The second half of the snapshots, on what was recorded. *)
Lemma await_snapshots_earns h u x app :
  latest h = Some u → abs x = abs u → notes x = notes u → now_seen h (getManagedApp x) (Ok app) →
  earns (await_snapshots x app) h.
Proof.
  intros Hl Hx Hnt Happ. unfold await_snapshots. repeat step.
  match goal with H : ust_Snapshot _ = Some ?s |- _ =>
    assert (snapshot_notes u = [sns_PVCSnapshots s]) as Hxs
      by (cbn in Hnt; rewrite <- Hnt; unfold snapshot_notes; by rewrite H) end.
  earned_tac; [|apply noted_same; exact (eq_sym Hxs)].
  app_tac. do 2 right. eexists. split; [reflexivity|].
  split; [cbn; rewrite Hxs; by left|].
  by match goal with H : negb ?b = false |- _ => destruct b end.
Qed.

Lemma handleSnapshotting_earns h u : latest h = Some u → earns (handleSnapshotting u) h.
Proof.
  intros Hl. unfold handleSnapshotting.
  repeat first
    [ lazymatch goal with
      | |- wp _ _ (await_snapshots _ _) _ _ => eapply await_snapshots_earns; [eassumption|done|assumption|assumption]
      | |- wp _ _ (bind (call (StatusUpdateUpgrade ?x)) _) _ _ =>
          change (StatusUpdateUpgrade x) with (op_StatusUpdate x);
          eapply e_status; [eassumption|apply nothing_new_honest; [new_tac|]| |done];
          [|let Hg := fresh in intros ?v ?h' ?Hv ?Hk Hg; lift Hg]
      end | step].
  - earned_tac. app_tac. right; left.
    match goal with H : (len ?l =? 0) = true |- _ => by destruct l end.
  - intros n [<-|[]]. right. exists a0, a2, v, a4. split; [assumption|]. split; [assumption|].
    split; [by destruct a2|]. by repeat split.
  - eapply await_snapshots_earns; [done|done|done|]. erewrite request_app by (apply kept_request; exact Hk). assumption.
Qed.

Lemma handleScaleDown_earns h u :
  latest h = Some u →
  wp (api_server UpgradeRequest) (honest UpgradeRequest) (handleScaleDown u) h goes_on.
Proof.
  intros Hl. unfold handleScaleDown.
  repeat first
    [ lazymatch goal with
      | |- wp _ _ (stop_skipped _ _ _) _ _ => eapply e_stop_skipped; [eassumption|earned_tac]
      | |- wp _ _ (stop_workloads _ _ _ _) _ _ =>
          eapply e_stop_workloads; [apply e_setFailed|reflexivity|eassumption|done|notes_tac|..];
          [ let Hg := fresh in intros ?h' y reason Hg Hy Hf; lift Hg;
            eapply Not_scaled; [|eassumption|exact Hf]; by destruct Hy as [->|[? ->]]
          | let Hg := fresh in intros ?h' ?l ?now ?reason ?m Hg ?; lift Hg; earned_tac ]
      end | step].
  all: app_tac.
  - left. by apply negb_true_iff.
  - right; left. match goal with H : (len ?l =? 0) = true |- _ => by destruct l end.
  - do 2 right. eexists _, _. by repeat split.
Qed.

Lemma after_scale_down_earns h u : latest h = Some u → earns (after_scale_down r u) h.
Proof.
  intros Hl. unfold after_scale_down.
  repeat match goal with |- wp _ _ (if ?c then _ else _) _ _ => destruct c end;
    auto using handleSnapshotting_earns, handleCommitting_earns, handleReconciling_earns,
      handleHealthChecking_earns, handleCompleted_earns.
Qed.

(** ** Dry runs *)

Lemma underway_within R (e : ev R) : within upgrade_underway R e → within_reconcile UpgradeRequest R e.
Proof.
  intros He%kmem_In. by destruct e; cbn in He; repeat (destruct He as [He|He]; [done|]).
Qed.

Lemma handleDryRun_earns h u :
  latest h = Some u → a_dry (abs u) = true → a_complete (abs u) = None →
  earns (handleDryRun r u) h.
Proof.
  intros Hl Hd Hc. eapply (dry_earns upgrade_underway); [apply handleDryRun_within|apply underway_within|done..|].
  destruct (abs u) as [d s st sn cm rc hh co] eqn:Ha. cbn in Hd, Hc. subst.
  by eapply handleDryRun_guarded.
Qed.

(** ** Reconcile *)

Lemma dispatch_earns h u :
  latest h = Some u → a_complete (abs u) = None → earns (dispatch r u) h.
Proof.
  intros Hl Hc. unfold dispatch. destruct (us_DryRun (ur_Spec u)) eqn:Hd.
  { by apply handleDryRun_earns. }
  destruct (condition u ConditionTypeSuspended); [|by apply handleSuspend_earns].
  destruct (negb _); [|by apply after_scale_down_earns].
  rewrite wp_bind. eapply wp_mono; [by eapply handleScaleDown_earns|done|].
  intros [[[v reply] []]|m] h' Hq; cbn [negb]; [|done..]. by apply after_scale_down_earns.
Qed.

Lemma Reconcile_earns key h : earns (Reconcile r key) h.
Proof.
  unfold Reconcile. change (GetUpgrade key) with (op_Get UpgradeRequest key).
  apply e_fetch. apply dispatch_earns.
Qed.


(** C9: whatever came before, and whatever the cluster answers, a reconcile of an upgrade that is
    not a dry run newly reports a failure only for the cause that its reason names, seen in that
    reconcile: the call it blames was made, on the application read, and failed; or the phase
    had begun, by a look at the clock, longer ago than it may last, and what it waits for was
    looked at and not there; or the version to commit, or the place for it, is missing. *)
Theorem failures_caused key h :
  wp (api_server UpgradeRequest) (caused UpgradeRequest) (Reconcile r key) h (λ _ _, True).
Proof. eapply wp_mono; [apply Reconcile_earns| |done]. by intros ? ? ? (_ & ? & _). Qed.

(** C7: however often a new upgrade that is not a dry run is reconciled, also against a cache that
    answers old versions of it, it reports success only if each of its steps was reported in a
    status of this very request, with its spec and name, over what was seen among the calls made
    for it: for the application it names, the workloads discovered were scaled down and seen down,
    unless its snapshots are disabled or no workload was discovered; the snapshots recorded were
    created for the claims discovered and seen ready, unless snapshots are disabled or no claim
    was discovered; the version recorded was committed; the Kustomization was resumed and seen
    ready; the application was seen healthy. *)
Theorem success_earned key n :
  wp (new_request UpgradeRequest) (succeeds_earned UpgradeRequest)
    (reconciles (Reconcile r key) n) [] (λ _ _, True).
Proof.
  eapply reconciles_succeed; [apply Reconcile_guarded|apply Reconcile_earns|apply Reconcile_asks].
Qed.
End handlers.

(** ** On the model cluster *)

#[local] Existing Instance reference.
#[local] Existing Instance no_helm.
#[local] Existing Instance two_lines.

(** The status writes that satisfy a test of the phase state. *)
Definition writes (f : astate → bool) (h : list event) : nat :=
  length (List.filter (λ o, match o with Obs (StatusUpdateUpgrade x) _ => f (abs x) | _ => false end) h).


Lemma success_earned_witness :
  guaranteed (succeeds_earned UpgradeRequest (Ev := upgrade_Evidence with_git)) (trace (shop_run false 12))
  ∧ writes (λ a, bool_decide (a_complete a = Some true)) (trace (shop_run false 12)) = 1%nat.
Proof.
  split; [|vm_compute; reflexivity].
  eapply run_trace; [exact (new_upgrade_follows (Ev := upgrade_Evidence with_git))| |].
  - apply (success_earned with_git shop_key 12).
  - assert (accounted cl_upgrade (initial false) (shop_cluster false (shop_doc "1.0.0")) [])
      by (exists (shop_upgrade false); split; [done|by left]).
    split; [done|]. by intros _ ? [= <-].
Defined.

(** The shop without its Kustomization: the upgrade fails in the preflight. *)
Definition without_flux : cluster := with_ks [] (shop_cluster false (shop_doc "1.0.0")).
Definition failing_run : outcome unit * cluster * list event :=
  run env (reconciles (Reconcile with_git shop_key) 3) without_flux [].
Lemma failures_caused_witness :
  guaranteed (caused UpgradeRequest (Ev := upgrade_Evidence with_git)) (trace failing_run)
  ∧ writes (λ a, bool_decide (a_complete a = Some false)) (trace failing_run) = 1%nat
  ∧ (cl_upgrade (final failing_run)
     ≫= λ u, c_Reason <$> condition u ConditionTypeComplete) = Some "PreflightFailed".
Proof.
  split; [|split; vm_compute; reflexivity].
  eapply run_trace; [apply (upgrade_follows (initial false))| |].
  - eapply (wp_protocol (api_server UpgradeRequest)); [|apply storage_serves].
    apply reconciles_keep. intros h. apply (failures_caused with_git shop_key h).
  - exists (shop_upgrade false). split; [done|]. by left.
Defined.
