(* ===== verification/RollbackEarned.v ===== *)
(** * A rollback's conditions are earned

The evidence for each condition of a RollbackRequest and the cause of each of its failures, and
that its reconciler reports none without: [rollback_conditions_earned] and
[rollback_failures_caused] for one reconcile, after any history; [rollback_success_earned] for
the success of any number of them. *)

From S2P Require Import Prelude GoLib Api Platform Footprint Discovery Workload Flux Snapshot Health.
From S2P Require Import Yaml Git Controller Phases Operation Guard Quiesce Runs.
From S2P Require Import Rollback RollbackGuard RollbackProofs RollbackTheorems Earned Cluster Shop.

(** ** The evidence for each condition *)

Section evidence.
Context {P : Platform} {D : Decoders} {Y : Kyaml}.
Variable seen : sight.
Arguments seen {A}.
Implicit Types (u x : RollbackRequest) (app : ManagedApp).

(** The upgrade rolled back and its application were read. *)
Definition target_seen x (upgrade : UpgradeRequest) app : Prop :=
  seen (getUpgradeRequest x) (Ok upgrade) ∧ seen (getManagedApp upgrade) (Ok app).
(** No volume is to be restored, or no workload mounts one, or those that do were scaled down,
    recorded, and all seen down. *)
Definition halt_seen x : Prop :=
  ∃ upgrade app, target_seen x upgrade app
    ∧ (no_volumes upgrade = true
       ∨ seen (DiscoverWorkloadsForPVCs (map psi_PVCName (recorded_snapshots upgrade))
                 (om_Namespace (app_Meta app))) (Ok [])
       ∨ ∃ ws s, seen (DiscoverWorkloadsForPVCs (map psi_PVCName (recorded_snapshots upgrade))
                        (om_Namespace (app_Meta app))) (Ok ws)
              ∧ seen (scale_all_down ws (om_Namespace (app_Meta app)) []) (inl (ss_Workloads s))
              ∧ rst_Scaling (rb_Status x) = Some s
              ∧ seen (all_scaled_down (ss_Workloads s)) (Ok true)).
(** There is no volume to restore, or every snapshot has its claim among those restored, and
    each of these was seen bound, now or before. *)
Definition bound_seen (before : RestoredPVCInfo → Prop) app (i : RestoredPVCInfo) : Prop :=
  rpi_RestorationState i = "Restored"
  ∧ (seen (IsPVCBound (rpi_PVCName i) (om_Namespace (app_Meta app))) (Ok true) ∨ before i).
Definition volumes_seen before x : Prop :=
  ∃ upgrade app, target_seen x upgrade app
    ∧ (no_volumes upgrade = true
       ∨ (∀ snap, In snap (recorded_snapshots upgrade) →
                  already_restored (psi_PVCName snap) (restored_in x) = true)
         ∧ ∀ i, In i (restored_in x) → bound_seen before app i).
(** The version replaced by the upgrade was committed to the application's file, and the
    commit is the one recorded. *)
Definition revert_seen x : Prop :=
  ∃ upgrade app up version new content text message ci reverted,
    target_seen x upgrade app
    ∧ ust_Upgrade (ur_Status upgrade) = Some up ∧ ups_PreviousVersion up = Some version
    ∧ revert_version version = Some new
    ∧ UpdateVersion content (version_path app) new = Ok text
    ∧ seen (call (GitCommitFile (mkFileChange (as_GitPath (app_Spec app)) text) message)) (Ok ci)
    ∧ rst_GitRevert (rb_Status x) = Some reverted ∧ gr_CommitSHA reverted = ci_SHA ci.
(** The Kustomization was resumed, and seen ready. *)
Definition resumed_seen x : Prop :=
  ∃ upgrade app, target_seen x upgrade app
    ∧ seen (ResumeKustomization (getSuspendTarget app).1 (getSuspendTarget app).2) None
    ∧ seen (IsReconciled (ref_Name (as_KustomizationRef (app_Spec app)))
              (or_default (ref_Namespace (as_KustomizationRef (app_Spec app)))
                 DefaultFluxNamespace)) (Ok true).
(** The application was checked, and healthy. *)
Definition healthy_seen x : Prop :=
  ∃ upgrade app result, target_seen x upgrade app
    ∧ seen (CheckHealth app) (Ok result) ∧ hr_Healthy result = true.

Definition rollback_evidence (m : milestone) before x : Prop :=
  match m with
  | Stopped => halt_seen x
  | Prepared => volumes_seen before x
  | Committed => revert_seen x
  | Reconciled => resumed_seen x
  | Healthy => healthy_seen x
  end.

(** The claims recorded as restored are the request's notes: each was seen bound, in the
    namespace of the application of the upgrade rolled back. *)
Definition restored_notes x : list RestoredPVCInfo :=
  List.filter (λ i, rpi_RestorationState i =?s "Restored") (restored_in x).
Definition note_seen x (i : RestoredPVCInfo) : Prop :=
  ∃ upgrade app, target_seen x upgrade app
    ∧ seen (IsPVCBound (rpi_PVCName i) (om_Namespace (app_Meta app))) (Ok true).

(** ** The cause of each failure

By the reason that the Complete condition gives, in the order of the phases. *)

Variable r : Reconciler.
Inductive rollback_failure x : string → Prop :=
| Upgrade_unread err :
    seen (getUpgradeRequest x) (Err err) → rollback_failure x "UpgradeRequestNotFound"
| Upgrade_running upgrade :
    seen (getUpgradeRequest x) (Ok upgrade) → isUpgradeTerminal upgrade = false →
    rollback_failure x "UpgradeInProgress"
| Target_unread upgrade err :
    seen (getUpgradeRequest x) (Ok upgrade) → seen (getManagedApp upgrade) (Err err) →
    rollback_failure x "ManagedAppNotFound"
| Nothing_recorded upgrade :
    seen (getUpgradeRequest x) (Ok upgrade) → us_SkipSnapshot (ur_Spec upgrade) = false →
    no_snapshots upgrade = true → rollback_failure x "NoSnapshotsAvailable"
| No_previous upgrade :
    seen (getUpgradeRequest x) (Ok upgrade) → no_previous_version upgrade = true →
    rollback_failure x "NoPreviousVersion"
| No_revert_preview upgrade app err :
    target_seen x upgrade app → seen (runRollbackGitDiffPreview r app upgrade) (Err err) →
    rollback_failure x "PreflightFailed"
| No_revert_preflight upgrade app err :
    target_seen x upgrade app → seen (runRollbackPreflight app upgrade) (Err err) →
    rollback_failure x "PreflightFailed"
| Target_not_suspended upgrade app name ns err :
    target_seen x upgrade app → getSuspendTarget app = (name, ns) →
    seen (SuspendKustomization name ns) (Some err) → rollback_failure x "SuspendFailed"
| Mounts_unknown upgrade app err :
    target_seen x upgrade app →
    seen (DiscoverWorkloadsForPVCs (map psi_PVCName (recorded_snapshots upgrade))
            (om_Namespace (app_Meta app))) (Err err) →
    rollback_failure x "WorkloadDiscoveryFailed"
| Mounts_not_scaled upgrade app ws reason :
    target_seen x upgrade app →
    seen (DiscoverWorkloadsForPVCs (map psi_PVCName (recorded_snapshots upgrade))
            (om_Namespace (app_Meta app))) (Ok ws) →
    scale_failure (@seen) x ws (om_Namespace (app_Meta app)) reason → rollback_failure x reason
| Target_resumed_meanwhile upgrade app name ns err :
    target_seen x upgrade app → getSuspendTarget app = (name, ns) →
    seen (VerifyStillSuspended name ns) (Some err) →
    rollback_failure x "SuspendVerificationFailed"
| Claim_not_deleted upgrade app snap err :
    target_seen x upgrade app → In snap (recorded_snapshots upgrade) →
    seen (delete_claim (psi_PVCName snap) (om_Namespace (app_Meta app))) (Some err) →
    rollback_failure x "PVCDeleteFailed"
| Claim_unknown upgrade app snap err :
    target_seen x upgrade app → In snap (recorded_snapshots upgrade) →
    seen (IsPVCDeleted (psi_PVCName snap) (om_Namespace (app_Meta app))) (Err err) →
    rollback_failure x "PVCDeleteCheckFailed"
| Claim_stays upgrade app snap :
    target_seen x upgrade app → In snap (recorded_snapshots upgrade) →
    seen (IsPVCDeleted (psi_PVCName snap) (om_Namespace (app_Meta app))) (Ok false) →
    seen (isPhaseTimedOut x TimeoutVolumeRestore) true → rollback_failure x "PVCDeleteTimeout"
| Claim_not_restored upgrade app snap err :
    target_seen x upgrade app → In snap (recorded_snapshots upgrade) →
    seen (RestorePVCFromSnapshot (restore_request app snap)) (Err err) →
    rollback_failure x "PVCRestoreFailed"
| Binding_unknown upgrade app i err :
    target_seen x upgrade app → In i (restored_in x) →
    seen (IsPVCBound (rpi_PVCName i) (om_Namespace (app_Meta app))) (Err err) →
    rollback_failure x "PVCBoundCheckFailed"
| Claim_unbound upgrade app i :
    target_seen x upgrade app → In i (restored_in x) →
    seen (IsPVCBound (rpi_PVCName i) (om_Namespace (app_Meta app))) (Ok false) →
    seen (isPhaseTimedOut x TimeoutVolumeRestore) true → rollback_failure x "PVCBindTimeout"
| No_revert_version upgrade app up version :
    target_seen x upgrade app → ust_Upgrade (ur_Status upgrade) = Some up →
    ups_PreviousVersion up = Some version → revert_version version = None →
    rollback_failure x "InvalidTargetVersion"
| Reverted_unread upgrade app err :
    target_seen x upgrade app → seen (git_ReadFile r (as_GitPath (app_Spec app))) (Err err) →
    rollback_failure x "GitReadFailed"
| Not_revertible upgrade app up version old content err :
    target_seen x upgrade app → ust_Upgrade (ur_Status upgrade) = Some up →
    ups_PreviousVersion up = Some version → revert_version version = Some old →
    seen (git_ReadFile r (as_GitPath (app_Spec app))) (Ok content) →
    UpdateVersion content (version_path app) old = Err err →
    rollback_failure x "YAMLUpdateFailed"
| Not_reverted upgrade app text message err :
    target_seen x upgrade app →
    seen (git_CommitFile r (mkFileChange (as_GitPath (app_Spec app)) text) message) (Err err) →
    rollback_failure x "GitCommitFailed"
| Target_not_resumed upgrade app name ns err :
    target_seen x upgrade app → getSuspendTarget app = (name, ns) →
    seen (ResumeKustomization name ns) (Some err) → rollback_failure x "ResumeFailed"
| Target_unknown upgrade app err :
    target_seen x upgrade app →
    seen (IsReconciled (ref_Name (as_KustomizationRef (app_Spec app)))
            (or_default (ref_Namespace (as_KustomizationRef (app_Spec app)))
               DefaultFluxNamespace)) (Err err) →
    rollback_failure x "ReconciliationCheckFailed"
| Target_late upgrade app :
    target_seen x upgrade app →
    seen (IsReconciled (ref_Name (as_KustomizationRef (app_Spec app)))
            (or_default (ref_Namespace (as_KustomizationRef (app_Spec app)))
               DefaultFluxNamespace)) (Ok false) →
    seen (isPhaseTimedOut x TimeoutReconcile) true → rollback_failure x "ReconciliationTimeout"
| Target_unchecked upgrade app err :
    target_seen x upgrade app → seen (CheckHealth app) (Err err) →
    rollback_failure x "HealthCheckError"
| Target_unhealthy upgrade app result :
    target_seen x upgrade app → seen (CheckHealth app) (Ok result) → hr_Healthy result = false →
    seen (isPhaseTimedOut x (health_timeout app)) true → rollback_failure x "HealthCheckTimeout".
End evidence.

(** ** The handlers *)

Section handlers.
Context {P : Platform} {PL : PlatformLaws P} {D : Decoders} {Y : Kyaml}.
Variable r : Reconciler.
Implicit Types (h : list event) (u v x : RollbackRequest) (app : ManagedApp).
Lemma request_upgrade u v : same_request u v → getUpgradeRequest v = getUpgradeRequest u.
Proof.
  intros [Hs Hk]. unfold getUpgradeRequest, upgrade_key. cbn in Hs, Hk. unfold keyOf in Hk.
  injection Hk as _ Hns. by rewrite Hs, Hns.
Qed.
#[local] Instance rollback_Evidence : Evidence RollbackRequest.
Proof.
  refine {| note := RestoredPVCInfo; notes := restored_notes; noted := note_seen;
            evidence m S N x := rollback_evidence S m N x;
            blame S x reason := rollback_failure S r x reason; around := rollback_around |}.
  all: try done.
  - intros S T x i HST. unfold note_seen, target_seen. naive_solver.
  - intros S u v i Huv. unfold note_seen, target_seen. by rewrite (request_upgrade u v Huv).
  - intros u v. cbn. unfold restored_notes, restored_in. by intros ->.
  - intros [] S T N N' x HST HN; cbn;
      unfold halt_seen, volumes_seen, revert_seen, resumed_seen, healthy_seen, target_seen,
        bound_seen; [naive_solver|idtac|naive_solver..].
    intros (upgrade & app & [? ?] & Hv). exists upgrade, app. split; [by split; apply HST|].
    destruct Hv as [?|[? ?]]; [by left|]. right. split; [done|]. naive_solver.
  - intros S T x reason HST []; unfold target_seen in *; destruct_and?;
      solve [econstructor; try unfold target_seen; eauto using scale_failure_mono].
  - intros R e He%kmem_In. by destruct e; cbn in He; repeat (destruct He as [He|He]; [done|]).
Defined.
Notation earning p h Q := (wp (api_server RollbackRequest) (honest RollbackRequest) p h Q).
Notation earns p h := (earning p h (λ _ _, True)).
Lemma In_notes x i : In i (notes x) ↔ In i (restored_in x) ∧ rpi_RestorationState i = "Restored".
Proof. cbn. unfold restored_notes. by rewrite filter_In, seqb_eq. Qed.
Notation now_seen h := (@this_time RollbackRequest _ h).

Lemma kept_upgrade u v : kept u v → getUpgradeRequest v = getUpgradeRequest u.
Proof. intros Hk. by apply request_upgrade, kept_request. Qed.

(** A cause does not depend on the conditions. *)
Lemma rb_failure_conditions S x t status reason m cause :
  rollback_failure S r x cause → rollback_failure S r (generation_cond x t status reason m) cause.
Proof.
  intros [].
  all: try solve [econstructor; eassumption].
  eapply Mounts_not_scaled; [eassumption..|]. destruct H1; econstructor; eassumption.
Qed.
(** A failure reports no progress; its reason is the one given. *)
Lemma rb_e_setFailed : fails_earning setFailed.
Proof.
  intros h u x reason message Hl [Hn _] Ht Hb. unfold setFailed. eapply e_finish; [done|].
  split; [|split].
  - intros m Hm. left. apply Hn. revert Hm. destruct m; cbn [reached]; by abs_simp.
  - intros _. right. eexists. split; [apply condition_set|]. by apply rb_failure_conditions.
  - by apply noted_cond.
Qed.

(** [cause_tac], for an upgrade and an application that were read. *)
Ltac rb_cause_tac :=
  try match goal with
      | Hu : this_time _ ?h (getUpgradeRequest _) (Ok ?v),
        Ha : this_time _ ?h (getManagedApp ?v) (Ok ?app) |- rollback_failure _ _ ?y _ =>
          assert (target_seen (@this_time RollbackRequest _ h) y v app) by
            (split; [|assumption];
             first [assumption
                   |match goal with Hk : kept _ y |- _ => rewrite (kept_upgrade _ _ Hk); assumption end])
      end;
  cause_tac.

Ltac step :=
  lazymatch goal with
  | |- wp _ _ (bind (init_volume_restore _) _) _ _ => fail
  | |- wp _ _ (setFailed _ _ _) _ _ =>
      eapply rb_e_setFailed;
        [eassumption|new_tac|try noted_tac|try (unfold blame; cbn [rollback_Evidence]; rb_cause_tac)]
  | |- wp _ _ (stop_here _ _) _ _ => apply e_stop_here
  | |- wp _ _ (bind (call (StatusUpdateRollback ?x)) _) _ _ =>
      change (StatusUpdateRollback x) with (op_StatusUpdate x);
      eapply e_status; [eassumption| | |done];
      [|let Hg := fresh in intros ?v ?h ? ?Hk Hg; lift Hg]
  | _ => e_step
  end.
Lemma already_restored_names name l l' :
  map rpi_PVCName l = map rpi_PVCName l' → already_restored name l = already_restored name l'.
Proof.
  revert l'. induction l as [|i l IH]; intros [|j l'] Hn; try done. cbn in *.
  injection Hn as Hij Hn. unfold already_restored in *. cbn. by rewrite Hij, (IH l').
Qed.
(** The witnesses are the upgrade and the application at hand. *)
Ltac target_tac := do 2 eexists; split; [split; eassumption|].

Lemma rb_handleHealthChecking_earns h u : latest h = Some u → earns (handleHealthChecking u) h.
Proof.
  intros Hl. unfold handleHealthChecking. repeat step.
  earned_tac. do 3 eexists. split; [split; eassumption|]. split; [eassumption|].
  by apply negb_false_iff.
Qed.

Lemma rb_handleReconciling_earns h u : latest h = Some u → earns (handleReconciling u) h.
Proof.
  intros Hl. unfold handleReconciling. repeat step.
  - same_tac.
  - earned_tac. do 2 eexists. split; [split; [|eassumption]|].
    + match goal with H : kept _ ?v |- this_time _ _ (getUpgradeRequest ?x) _ =>
        change (getUpgradeRequest x) with (getUpgradeRequest v); rewrite (kept_upgrade _ _ H) end.
      eassumption.
    + match goal with H : getSuspendTarget _ = _ |- _ => rewrite H end.
      split; [assumption|]. by match goal with H : negb ?b = false |- _ => destruct b end.
Qed.

Lemma handleGitRevert_earns h u : latest h = Some u → earns (handleGitRevert r u) h.
Proof.
  intros Hl. unfold handleGitRevert. repeat step.
  2: { eapply No_previous; [eassumption|]. unfold no_previous_version. by rewrite Heqo0, Heqo1. }
  earned_tac. do 10 eexists. split; [split; eassumption|]. do 4 (split; [eassumption|]).
  split; [eapply this_time_commit; eassumption|]. by split; [reflexivity|].
Qed.

Lemma rb_handleCompleted_earns h u : latest h = Some u → earns (handleCompleted u) h.
Proof.
  intros Hl. unfold handleCompleted. repeat step. same_tac.
Qed.

Lemma e_started {B} h u (f : RollbackRequest → M B) Q :
  latest h = Some u → (∀ m h', Q (Panicked m) h') →
  (∀ x h', same_conditions u x → notes x = notes u → grows RollbackRequest h h' →
           latest h' = Some u → earning (f x) h' Q) →
  earning (bind (set_started u) f) h Q.
Proof.
  intros Hl Hm Hf. apply (e_pass _ _ h u); [emits_tac|done|done|].
  intros x h' (d1 & d2 & h0 & _ & Hran & _) Hg Hl'.
  assert (same_conditions u x ∧ notes x = notes u) as [? ?]; [|by apply Hf].
  apply (ran_post _ _ _ [] (λ x, same_conditions u x ∧ notes x = notes u) Hran). unfold set_started.
  destruct (rst_StartedAt (rb_Status u)); cbn [bind call wp]; [by intros ? [= <-]|].
  split; [done|]. by intros now _ ? [= <-].
Qed.
Lemma rb_handleSuspend_earns h u : latest h = Some u → earns (handleSuspend r u) h.
Proof.
  intros Hl. unfold handleSuspend. apply (e_started h u); [done..|].
  intros x h' Hx Hnt _ Hl'. pose proof (same_conditions_abs _ _ Hx). cbn beta. clear Hl. repeat step.
  all: destruct (no_volumes _) eqn:Hs; [|same_tac].
  all: earned_tac; target_tac; by left.
Qed.

Lemma handleStopWorkload_earns h u :
  latest h = Some u → earning (handleStopWorkload u) h goes_on.
Proof.
  intros Hl. unfold handleStopWorkload.
  repeat first
    [ lazymatch goal with
      | |- wp _ _ (stop_skipped _ _ _) _ _ => eapply e_stop_skipped; [eassumption|earned_tac]
      | |- wp _ _ (stop_workloads _ _ _ _) _ _ =>
          eapply e_stop_workloads; [apply rb_e_setFailed|reflexivity|eassumption|done|notes_tac|..];
          [ let Hg := fresh in intros ?h' y reason Hg Hy Hf; lift Hg;
            eapply Mounts_not_scaled; [|eassumption|exact Hf];
            by destruct Hy as [->|[? ->]]
          | let Hg := fresh in intros ?h' ?l ?now ?reason ?m Hg ?; lift Hg; earned_tac ]
      end | step].
  all: target_tac.
  - by left.
  - right; left. match goal with H : (len ?l =? 0) = true |- _ => by destruct l end.
  - do 2 right. eexists _, _. by repeat split.
Qed.

(** ** The volumes *)

Section volumes.
Context (upgrade : UpgradeRequest) (app : ManagedApp).

(** How a loop ends: it goes on with the request, or has answered for the handler. *)
Definition leaves (I : RollbackRequest → list event → Prop)
    (o : outcome (RollbackRequest + Reply)) h : Prop :=
  match o with Done (inl x) => I x h | _ => True end.

(** The request at hand, from the one stored. *)
Record handled u x h : Prop := {
  hd_latest : latest h = Some u;
  hd_state : abs x = abs u;
  hd_target : target_seen (@this_time RollbackRequest _ h) x upgrade app
}.
(** And the list of restored claims is the stored one. *)
Definition restoring x h : Prop := ∃ u, handled u x h ∧ restored_in x = restored_in u.
(** No claim is dropped from the list. *)
Definition extends x x' : Prop :=
  ∀ name, already_restored name (restored_in x) = true → already_restored name (restored_in x') = true.

Lemma e_stop_with I (p : M Reply) h :
  earns p h → earning (stop_with p) h (leaves I).
Proof.
  intros Hp. unfold stop_with. rewrite wp_bind. eapply wp_mono; [exact Hp|done|]. by intros [?|?].
Qed.
Lemma e_fails I u x h reason m :
  latest h = Some u → abs x = abs u → noted_status h u x →
  rollback_failure (@this_time RollbackRequest _ h) r x reason →
  earning (stop_with (setFailed x reason m)) h (leaves I).
Proof.
  intros Hl Hx Ht Hb. apply e_stop_with. eapply rb_e_setFailed; [done| |done..].
  by split; [intros n|]; rewrite Hx.
Qed.

Lemma same_notes x y : restored_in x = restored_in y → notes x = notes y.
Proof. cbn. unfold restored_notes. by intros ->. Qed.
(** The claims looked at are bound, the others as they were. *)
Lemma partly_noted u x h before after :
  handled u x h → restored_in x = before ++ after →
  (∀ i, In i before → bound_seen (@this_time RollbackRequest _ h) (λ i, In i (notes u)) app i) →
  (∀ i, In i after → In i (restored_in u)) → noted_status h u x.
Proof.
  intros [_ _ [Hu Ha]] Hx Hb Haf i [Hi Hs]%In_notes. rewrite Hx in Hi.
  apply in_app_iff in Hi as [Hi|Hi].
  - destruct (Hb i Hi) as [_ [Hn|?]]; [right|by left]. by exists upgrade, app.
  - left. apply In_notes. auto.
Qed.

Ltac volume_step :=
  first
    [ lazymatch goal with
      | |- wp _ _ (stop_with (setFailed _ _ _)) _ _ => 
          eapply e_fails; [eassumption|abs_of; done
                          |first [noted_tac|eapply noted_grows; eassumption]|try rb_cause_tac]
      | |- wp _ _ (stop_with (if ?c then _ else _)) _ _ => destruct c
      | |- wp _ _ (stop_with (Ret _)) _ _ => exact I
      | |- wp _ _ (Ret (inr _)) _ _ => exact I
      | |- wp _ _ (wait_volume _ _ _) _ _ => unfold wait_volume
      | |- wp _ _ (recreate_claim _ _ _ _) _ _ => unfold recreate_claim
      | |- wp _ _ (bind (volume_restore _) _) _ _ => unfold volume_restore
      end
    | step].

Lemma restore_one_earns snap x h :
  In snap (recorded_snapshots upgrade) → restoring x h →
  earning (restore_one app snap x) h
    (leaves (λ x' h', restoring x' h' ∧ extends x x'
                      ∧ already_restored (psi_PVCName snap) (restored_in x') = true)).
Proof.
  intros Hin (u & [Hl Hx [Hu Ha]] & Hr). unfold restore_one. pose proof (same_notes _ _ Hr).
  assert (grows RollbackRequest h h) by by apply (grows_app []). repeat volume_step.
  - cbn [wp leaves]. split; [exists u; split; [by split|done]|]. split; [by intros name|].
    unfold restored_in. by rewrite Heqo.
  - apply nothing_new_honest; [new_tac|]. apply noted_same. transitivity (notes x); [|done].
    cbn. unfold restored_notes, restored_in. rewrite Heqo. cbn. rewrite List.filter_app. cbn.
    by rewrite app_nil_r.
  - assert (restored_in v0 = vr_RestoredPVCs v ++ [mkRestoredPVCInfo (psi_PVCName snap)
              (psi_SnapshotName snap) "Pending"]) as Hv0.
    { destruct Hk as (_ & Hst & _). cbn in Hst. unfold restored_in. by rewrite Hst. }
    cbn [wp leaves]. split.
    { exists v0. split; [|done]. split; [done..|]. split; [|done].
      rewrite (kept_upgrade _ _ Hk). assumption. }
    unfold extends, already_restored. rewrite Hv0. split.
    + intros name. unfold restored_in. rewrite Heqo, existsb_app. by intros ->.
    + rewrite existsb_app. cbn. by rewrite seqb_refl, orb_true_r.
Qed.

Lemma extends_trans x x' x'' : extends x x' → extends x' x'' → extends x x''.
Proof. intros H H' name Hn. by apply H', H. Qed.

(** All the claims of the upgrade are recreated, or were before. *)
Lemma restore_all_earns snaps x h :
  incl snaps (recorded_snapshots upgrade) → restoring x h →
  earning (for_each snaps x (restore_one app)) h
    (leaves (λ x' h', restoring x' h' ∧ extends x x'
                      ∧ ∀ snap, In snap snaps →
                          already_restored (psi_PVCName snap) (restored_in x') = true)).
Proof.
  revert x h. induction snaps as [|snap snaps IH]; intros x h Hi Hr; cbn [for_each].
  { cbn. split; [done|]. split; [by intros name|done]. }
  apply incl_cons_inv in Hi as [Hin Hi].
  rewrite wp_bind. eapply wp_mono; [by apply restore_one_earns|done|].
  intros [[x'|reply]|m] h' Ho; [|done..]. destruct Ho as (Hr' & He & Hs).
  eapply wp_mono; [by apply IH|done|].
  intros [[y|reply]|m] h'' Ho; [|done..]. destruct Ho as (Hr'' & He' & Hs').
  split; [done|]. split; [by eapply extends_trans|]. intros s [<-|Hs0]; auto.
Qed.

(** All the claims of the list are bound, and marked so in place. *)
Lemma await_bound_earns u after before x h :
  handled u x h → restored_in x = before ++ after →
  (∀ i, In i before → bound_seen (@this_time RollbackRequest _ h) (λ i, In i (notes u)) app i) →
  (∀ i, In i after → In i (restored_in u)) →
  earning (await_bound app x before after) h
    (leaves (λ x' h', handled u x' h'
                      ∧ map rpi_PVCName (restored_in x') = map rpi_PVCName (restored_in x)
                      ∧ ∀ i, In i (restored_in x') →
                             bound_seen (@this_time RollbackRequest _ h') (λ i, In i (notes u)) app i)).
Proof.
  revert before x h. induction after as [|i after IH]; intros before x h Hh Hl Hb Ha;
    cbn [await_bound].
  { cbn. rewrite app_nil_r in Hl. split; [done|]. split; [done|]. by rewrite Hl. }
  destruct (rpi_RestorationState i =?s "Restored") eqn:Hs.
  { apply IH; [done|by rewrite <- app_assoc| |].
    - intros j [Hj|[<-|[]]]%in_app_iff; [by apply Hb|]. split; [by apply seqb_eq|].
      right. apply In_notes. split; [apply Ha; by left|by apply seqb_eq].
    - intros j Hj. apply Ha. by right. }
  pose proof (partly_noted _ _ _ _ _ Hh Hl Hb Ha) as Hnt. destruct Hh as [Hlu Hx [Hu Hap]].
  assert (grows RollbackRequest h h) as Hg by by apply (grows_app []).
  assert (In i (restored_in x)) by (rewrite Hl; apply in_app_iff; right; by left).
  repeat volume_step.
  set (j := mkRestoredPVCInfo _ _ "Restored"). set (y := set_VolumeRestore _ x).
  assert (map rpi_PVCName (restored_in y) = map rpi_PVCName (restored_in x)) as Hnames.
  { rewrite Hl. cbn. by rewrite !map_app. }
  eapply wp_mono; [apply (IH (before ++ [j]) y)|done|].
  - by split; [done|abs_of|split].
  - by rewrite <- app_assoc.
  - intros k [Hk|[<-|[]]]%in_app_iff.
    + destruct (Hb k Hk) as [Hks [Hkb|Hku]]; (split; [done|]); [left; by apply Hg|by right].
    + split; [done|]. left. by destruct a0.
  - intros k Hk. apply Ha. by right.
  - intros [[z|reply]|m] h' Ho; [|done..]. cbn in Ho |- *. by rewrite <- Hnames.
Qed.

Lemma volumes_restored_earns u x h :
  handled u x h →
  (∀ snap, In snap (recorded_snapshots upgrade) →
           already_restored (psi_PVCName snap) (restored_in x) = true) →
  (∀ i, In i (restored_in x) → bound_seen (@this_time RollbackRequest _ h) (λ i, In i (notes u)) app i) →
  earns (volumes_restored x) h.
Proof.
  intros Hh Hall Hb.
  pose proof (partly_noted _ _ _ (restored_in x) [] Hh) as Hnt. rewrite app_nil_r in Hnt.
  specialize (Hnt eq_refl Hb (λ _, False_ind _)). destruct Hh as [Hl Hx [Hu Ha]].
  unfold volumes_restored.
  assert (grows RollbackRequest h h) as Hg by by apply (grows_app []).
  repeat volume_step.
  set (y := generation_cond _ _ _ _ _). assert (restored_in y = restored_in x) as Hy.
  { match goal with H : rst_VolumeRestore _ = Some ?v |- _ =>
      change (rst_VolumeRestore (rb_Status x) = Some v) in H; change (restored_in y) with (vr_RestoredPVCs v);
      unfold restored_in; by rewrite H end. }
  assert (noted_status h0 u y)
    by (apply (noted_as _ _ x); [by apply same_notes|by split|by eapply noted_grows]).
  subst y. earned_tac; [|done]. exists upgrade, app. split; [by split|]. right.
  rewrite Hy. split; [done|]. intros i Hi.
  destruct (Hb i Hi) as [Hs [Hn|Hn]]; (split; [done|]); [left; by apply Hg|by right].
Qed.

(** The phase and the restore are stamped when they begin. *)
Lemma e_phase_volumes h u (f : RollbackRequest → M Reply) :
  latest h = Some u →
  (∀ x h', same_conditions u x → restored_in x = restored_in u → latest h' = Some u →
           earns (f x) h') →
  earns (bind (setPhaseStartIfNeeded u) f) h.
Proof.
  intros Hl Hf. unfold setPhaseStartIfNeeded.
  destruct (op_PhaseStartedAt (op_Status u)); cbn [bind call wp]; [by apply Hf|].
  split; [done|]. intros now _. by apply Hf.
Qed.
Lemma e_init x h (f : RollbackRequest → M Reply) :
  restoring x h → (∀ y h', restoring y h' → earns (f y) h') →
  earns (bind (init_volume_restore x) f) h.
Proof.
  intros Hr Hf. unfold init_volume_restore.
  destruct (rst_VolumeRestore (rb_Status x)) eqn:Hv; cbn [bind call wp]; [by apply Hf|].
  split; [done|]. intros now _. apply Hf.
  destruct Hr as (u & [Hl Hx [Hu Ha]] & Hr). exists u. split; [|by rewrite <- Hr; unfold restored_in; rewrite Hv].
  assert (grows RollbackRequest h (Obs Now now :: h)) as Hg.
  { apply (grows_app [_]). by repeat constructor. }
  split; [done|by abs_of|split; by apply Hg].
Qed.
End volumes.

Lemma handleVolumeRestore_earns h u : latest h = Some u → earns (handleVolumeRestore u) h.
Proof.
  intros Hl. unfold handleVolumeRestore. apply e_phase_volumes; [done|].
  intros x h' Hx Hr Hl'. pose proof (same_conditions_abs _ _ Hx). pose proof (same_notes _ _ Hr).
  clear Hl h. repeat step.
  apply (e_init a0 a2); [by exists u|]. clear - PL. intros x h Hr.
  destruct (ust_Snapshot (ur_Status a0)) as [st|] eqn:Hst; cbn [deref bind]; [|exact I].
  rewrite wp_bind.
  eapply wp_mono;
    [apply restore_all_earns; [unfold recorded_snapshots; rewrite Hst; apply incl_refl|done]|done|].
  intros [[y|reply]|m] h' Ho; [|done..]. destruct Ho as ((u & Hh & Hyu) & _ & Hall).
  unfold volume_restore. destruct (rst_VolumeRestore (rb_Status y)) as [vr|] eqn:Hvr;
    cbn [deref bind]; [|exact I].
  assert (restored_in y = vr_RestoredPVCs vr) as Hy by (unfold restored_in; by rewrite Hvr).
  rewrite wp_bind. eapply wp_mono; [by apply await_bound_earns; rewrite <- ?Hyu, ?Hy|done|].
  intros [[z|reply]|m] h'' Ho; [|done..]. destruct Ho as (Hz & Hnames & Hb).
  apply (volumes_restored_earns a0 a2 u); [done| |done].
  intros snap Hin. rewrite (already_restored_names _ _ (restored_in y)) by done. apply Hall.
  unfold recorded_snapshots in Hin. by rewrite Hst in Hin.
Qed.

Lemma after_stop_earns h u : latest h = Some u → earns (after_stop r u) h.
Proof.
  intros Hl. unfold after_stop.
  repeat match goal with |- wp _ _ (if ?c then _ else _) _ _ => destruct c end;
    auto using handleVolumeRestore_earns, handleGitRevert_earns, rb_handleReconciling_earns,
      rb_handleHealthChecking_earns, rb_handleCompleted_earns.
Qed.

(** ** Dry runs *)

Lemma rb_underway_within R (e : ev R) : within rollback_underway R e → within_reconcile RollbackRequest R e.
Proof.
  intros He%kmem_In. by destruct e; cbn in He; repeat (destruct He as [He|He]; [done|]).
Qed.

Lemma rb_handleDryRun_earns h u :
  latest h = Some u → a_dry (abs u) = true → a_complete (abs u) = None →
  earns (handleDryRun r u) h.
Proof.
  intros Hl Hd Hc. eapply (dry_earns rollback_underway); [by apply rb_handleDryRun_within|apply rb_underway_within|done..|].
  destruct (abs u) as [d s st sn cm rc hh co] eqn:Ha. cbn in Hd, Hc. subst.
  by eapply rb_handleDryRun_guarded.
Qed.

(** ** Reconcile *)

Lemma rb_dispatch_earns h u :
  latest h = Some u → a_complete (abs u) = None → earns (dispatch r u) h.
Proof.
  intros Hl Hc. unfold dispatch. destruct (rs_DryRun (rb_Spec u)) eqn:Hd.
  { by apply rb_handleDryRun_earns. }
  destruct (condition u ConditionTypeSuspended); [|by apply rb_handleSuspend_earns].
  destruct (negb _); [|by apply after_stop_earns].
  rewrite wp_bind. eapply wp_mono; [by eapply handleStopWorkload_earns|done|].
  intros [[[v reply] []]|m] h' Hq; cbn [negb]; [|done..]. by apply after_stop_earns.
Qed.

Lemma rb_Reconcile_earns key h : earns (Reconcile r key) h.
Proof.
  unfold Reconcile. change (GetRollback key) with (op_Get RollbackRequest key).
  apply e_fetch. apply rb_dispatch_earns.
Qed.


(** C18: whatever came before, and whatever the cluster answers, a reconcile of a rollback that is
    not a dry run newly reports a failure only for the cause that its reason names, seen in that
    reconcile, of the upgrade and the application read: it was not there or not finished, it
    has nothing recorded to go back to, a call on one of its own claims, files or workloads
    failed, or what the phase waits for was looked at and not there, and the phase had begun, by
    a look at the clock, longer ago than it may last. *)
Theorem rollback_failures_caused key h :
  wp (api_server RollbackRequest) (caused RollbackRequest) (Reconcile r key) h (λ _ _, True).
Proof. eapply wp_mono; [apply rb_Reconcile_earns| |done]. by intros ? ? ? (_ & ? & _). Qed.

(** C16: however often a new rollback that is not a dry run is reconciled, also against a cache
    that answers old versions of it, it reports success only if each of its steps was reported in
    a status of this very request, with its spec and name, over what was seen among the calls made
    for it: for the upgrade it names and that upgrade's application, the workloads discovered were
    scaled down and seen down, unless the upgrade skipped its snapshots or recorded none, or no
    workload mounts them; every claim of the upgrade's snapshots was recorded as restored and seen
    bound, unless the upgrade skipped its snapshots or recorded none; the old version was
    committed; the Kustomization was resumed and seen ready; the application was seen healthy. *)
Theorem rollback_success_earned key n :
  wp (new_request RollbackRequest) (succeeds_earned RollbackRequest)
    (reconciles (Reconcile r key) n) [] (λ _ _, True).
Proof.
  eapply reconciles_succeed; [apply rb_Reconcile_guarded|apply rb_Reconcile_earns|apply rb_Reconcile_asks].
Qed.
End handlers.

(** ** On the model cluster *)

#[local] Existing Instance reference.
#[local] Existing Instance no_helm.
#[local] Existing Instance two_lines.

(** The status writes that satisfy a test of the phase state. *)
Definition rb_writes (f : astate → bool) (h : list event) : nat :=
  length (List.filter (λ o, match o with Obs (StatusUpdateRollback x) _ => f (abs x) | _ => false end) h).


Lemma rollback_success_earned_witness :
  guaranteed (succeeds_earned RollbackRequest (Ev := rollback_Evidence with_git)) (trace (rollback_run false 12))
  ∧ rb_writes (λ a, bool_decide (a_complete a = Some true)) (trace (rollback_run false 12)) = 1%nat.
Proof.
  split; [|vm_compute; reflexivity].
  eapply run_trace; [exact (new_rollback_follows (Ev := rollback_Evidence with_git))| |].
  - apply (rollback_success_earned with_git rollback_key 12).
  - assert (accounted cl_rollback (initial false) (with_rollback (Some (shop_rollback false)) upgraded) [])
      by (exists (shop_rollback false); split; [done|by left]).
    split; [done|]. by intros _ ? [= <-].
Defined.

(** The rollback of the shop when its snapshot has gone: it fails in the preflight. *)
Definition snapshot_gone : cluster :=
  with_snapshots [] (with_rollback (Some (shop_rollback false)) upgraded).
Definition failing_rollback : outcome unit * cluster * list event :=
  run env (reconciles (Reconcile with_git rollback_key) 3) snapshot_gone [].
Lemma rollback_failures_caused_witness :
  guaranteed (caused RollbackRequest (Ev := rollback_Evidence with_git)) (trace failing_rollback)
  ∧ rb_writes (λ a, bool_decide (a_complete a = Some false)) (trace failing_rollback) = 1%nat
  ∧ (cl_rollback (final failing_rollback)
     ≫= λ x, c_Reason <$> condition x ConditionTypeComplete) = Some "PreflightFailed".
Proof.
  split; [|split; vm_compute; reflexivity].
  eapply run_trace; [apply (rollback_follows (initial false))| |].
  - eapply (wp_protocol (api_server RollbackRequest)); [|apply storage_serves].
    apply reconciles_keep. intros h. apply (rollback_failures_caused with_git rollback_key h).
  - exists (shop_rollback false). split; [done|]. by left.
Defined.
