(* ===== verification/Rbac.v ===== *)
(** * What the controllers are allowed to do

The [+kubebuilder:rbac] markers above the four reconcilers are what controller-gen makes the
manager's ClusterRole of.  [role] is their union and [manager_role] the generated file
config/rbac/role.yaml; [needs] says which permissions each call of [ev] takes.
[calls_authorized]: the role covers every call but one, the listing of secrets with which
discovery looks for a Helm release.  [helm_requests_never_succeed]: so where the role is
enforced no upgrade or rollback of an application with a helmReleaseRef succeeds, unless its claims are
listed. *)

From S2P Require Import Prelude GoLib Api Platform Footprint Discovery Workload Flux Snapshot Health.
From S2P Require Import Yaml Git Controller Phases Operation Guard Quiesce Runs Renovate.
From S2P Require Import Upgrade UpgradeGuard RollbackGuard Earned Cluster Shop.
From S2P Require Rollback ManagedAppController UpdatesController UpgradeEarned RollbackEarned.
From S2P Require UpgradeProofs RollbackProofs RollbackTheorems Race.

(** ** Permissions and rules *)

Record permission := mkPermission { p_Group : string; p_Resource : string; p_Verb : string }.
#[export] Instance permission_eq_dec : EqDecision permission.
Proof. solve_decision. Defined.

(** The rules of a ClusterRole, and the one rule of a marker. *)
Record rule := mkRule { ru_Groups : list string; ru_Resources : list string; ru_Verbs : list string }.
Definition marker (group resource : string) (verbs : list string) : rule :=
  mkRule [group] [resource] verbs.

Definition permissions (r : rule) : list permission :=
  flat_map (λ g, flat_map (λ res, map (mkPermission g res) (ru_Verbs r)) (ru_Resources r))
    (ru_Groups r).
Definition granted (rs : list rule) (p : permission) : bool :=
  existsb (λ q, bool_decide (p = q)) (flat_map permissions rs).

Lemma granted_In rs p : granted rs p = true ↔ In p (flat_map permissions rs).
Proof.
  unfold granted. rewrite existsb_exists. split.
  - intros (q & Hin & Hq%bool_decide_eq_true). by subst.
  - intros Hin. exists p. by rewrite bool_decide_eq_true.
Qed.

Definition read_only : list string := ["get"; "list"; "watch"].
Definition all_verbs : list string :=
  ["get"; "list"; "watch"; "create"; "update"; "patch"; "delete"].
Definition status_verbs : list string := ["get"; "update"; "patch"].

(** The markers of upgraderequest_controller.go. *)
Definition upgrade_markers : list rule :=
  [marker "fluxup.dev" "upgraderequests" all_verbs;
   marker "fluxup.dev" "upgraderequests/status" status_verbs;
   marker "fluxup.dev" "upgraderequests/finalizers" ["update"];
   marker "fluxup.dev" "managedapps" ["get"; "list"; "watch"; "update"; "patch"];
   marker "fluxup.dev" "managedapps/status" status_verbs;
   marker "kustomize.toolkit.fluxcd.io" "kustomizations" ["get"; "list"; "watch"; "patch"; "update"];
   marker "helm.toolkit.fluxcd.io" "helmreleases" read_only;
   marker "snapshot.storage.k8s.io" "volumesnapshots" ["get"; "list"; "watch"; "create"; "delete"];
   marker "snapshot.storage.k8s.io" "volumesnapshotclasses" ["get"; "list"];
   marker "" "persistentvolumeclaims" read_only;
   marker "" "pods" read_only].
(** Those of rollbackrequest_controller.go. *)
Definition rollback_markers : list rule :=
  [marker "fluxup.dev" "rollbackrequests" all_verbs;
   marker "fluxup.dev" "rollbackrequests/status" status_verbs;
   marker "fluxup.dev" "rollbackrequests/finalizers" ["update"];
   marker "apps" "deployments" ["get"; "list"; "watch"; "patch"; "update"];
   marker "apps" "statefulsets" ["get"; "list"; "watch"; "patch"; "update"];
   marker "" "persistentvolumeclaims" ["get"; "list"; "watch"; "create"; "delete"]].
(** Those of managedapp_controller.go. *)
Definition managedapp_markers : list rule :=
  [marker "fluxup.dev" "managedapps" all_verbs;
   marker "fluxup.dev" "managedapps/status" status_verbs;
   marker "fluxup.dev" "managedapps/finalizers" ["update"];
   marker "helm.toolkit.fluxcd.io" "helmreleases" read_only;
   marker "kustomize.toolkit.fluxcd.io" "kustomizations" read_only;
   marker "apps" "deployments" read_only;
   marker "apps" "statefulsets" read_only;
   marker "" "pods" read_only].
(** That of updates_controller.go. *)
Definition updates_markers : list rule := [marker "" "configmaps" read_only].

(** One role for all. *)
Definition role : list rule :=
  upgrade_markers ++ rollback_markers ++ managedapp_markers ++ updates_markers.

(** The file config/rbac/role.yaml. *)
Definition manager_role : list rule :=
  [mkRule [""] ["configmaps"; "pods"] ["get"; "list"; "watch"];
   mkRule [""] ["persistentvolumeclaims"] ["create"; "delete"; "get"; "list"; "watch"];
   mkRule ["apps"] ["deployments"; "statefulsets"] ["get"; "list"; "patch"; "update"; "watch"];
   mkRule ["fluxup.dev"] ["managedapps"; "rollbackrequests"; "upgraderequests"]
     ["create"; "delete"; "get"; "list"; "patch"; "update"; "watch"];
   mkRule ["fluxup.dev"]
     ["managedapps/finalizers"; "rollbackrequests/finalizers"; "upgraderequests/finalizers"]
     ["update"];
   mkRule ["fluxup.dev"] ["managedapps/status"; "rollbackrequests/status"; "upgraderequests/status"]
     ["get"; "patch"; "update"];
   mkRule ["helm.toolkit.fluxcd.io"] ["helmreleases"] ["get"; "list"; "watch"];
   mkRule ["kustomize.toolkit.fluxcd.io"] ["kustomizations"]
     ["get"; "list"; "patch"; "update"; "watch"];
   mkRule ["snapshot.storage.k8s.io"] ["volumesnapshotclasses"] ["get"; "list"];
   mkRule ["snapshot.storage.k8s.io"] ["volumesnapshots"] ["create"; "delete"; "get"; "list"; "watch"]].

(** ** What a call needs *)

(** The manager's client reads through informers, which list what they are asked to get. *)
Definition to_read (group resource verb : string) : list permission :=
  [mkPermission group resource verb; mkPermission group resource "list"].
Definition to_do (group resource verb : string) : list permission :=
  [mkPermission group resource verb].

Definition needs {R} (e : ev R) : list permission :=
  match e with
  | Now | SleepOrDone _ | RangeMap _ | GitReadFile _ | GitCommitFile _ _ => []
  | GetUpgrade _ => to_read "fluxup.dev" "upgraderequests" "get"
  | UpdateUpgrade _ => to_do "fluxup.dev" "upgraderequests" "update"
  | StatusUpdateUpgrade _ => to_do "fluxup.dev" "upgraderequests/status" "update"
  | GetRollback _ => to_read "fluxup.dev" "rollbackrequests" "get"
  | UpdateRollback _ => to_do "fluxup.dev" "rollbackrequests" "update"
  | StatusUpdateRollback _ => to_do "fluxup.dev" "rollbackrequests/status" "update"
  | CreateRollback _ => to_do "fluxup.dev" "rollbackrequests" "create"
  | GetApp _ => to_read "fluxup.dev" "managedapps" "get"
  | StatusUpdateApp _ => to_do "fluxup.dev" "managedapps/status" "update"
  | ListApps => to_read "fluxup.dev" "managedapps" "list"
  | GetKustomization _ => to_read "kustomize.toolkit.fluxcd.io" "kustomizations" "get"
  | UpdateKustomization _ => to_do "kustomize.toolkit.fluxcd.io" "kustomizations" "update"
  | GetDeployment _ => to_read "apps" "deployments" "get"
  | PatchDeployment _ _ => to_do "apps" "deployments" "patch"
  | GetStatefulSet _ => to_read "apps" "statefulsets" "get"
  | PatchStatefulSet _ _ => to_do "apps" "statefulsets" "patch"
  | ListPods _ _ => to_read "" "pods" "list"
  | GetPVC _ => to_read "" "persistentvolumeclaims" "get"
  | CreatePVC _ => to_do "" "persistentvolumeclaims" "create"
  | DeletePVCObj _ => to_do "" "persistentvolumeclaims" "delete"
  | GetSnapshot _ => to_read "snapshot.storage.k8s.io" "volumesnapshots" "get"
  | CreateSnapshotObj _ => to_do "snapshot.storage.k8s.io" "volumesnapshots" "create"
  | DeleteSnapshotObj _ => to_do "snapshot.storage.k8s.io" "volumesnapshots" "delete"
  | ListSnapshots _ _ => to_read "snapshot.storage.k8s.io" "volumesnapshots" "list"
  | GetSnapshotClass _ => to_read "snapshot.storage.k8s.io" "volumesnapshotclasses" "get"
  | ListSecrets _ => to_read "" "secrets" "list"
  | GetConfigMap _ => to_read "" "configmaps" "get"
  end.
Definition authorized R (e : ev R) : Prop := forallb (granted role) (needs e) = true.
#[export] Instance authorized_dec R (e : ev R) : Decision (authorized R e).
Proof. unfold authorized. apply _. Defined.

(** The call failed. *)
Definition failed {R} (e : ev R) : R → Prop :=
  match e in ev R return R → Prop with
  | Now | SleepOrDone _ | RangeMap _ => λ _, False
  | DeletePVCObj _ | DeleteSnapshotObj _ | GetSnapshotClass _ => λ a, is_Some a
  | GetUpgrade _ | UpdateUpgrade _ | StatusUpdateUpgrade _ | GetRollback _ | UpdateRollback _
  | StatusUpdateRollback _ | CreateRollback _ | GetApp _ | StatusUpdateApp _ | ListApps
  | GetKustomization _ | UpdateKustomization _ | GetDeployment _ | PatchDeployment _ _
  | GetStatefulSet _ | PatchStatefulSet _ _ | ListPods _ _ | GetPVC _ | CreatePVC _
  | GetSnapshot _ | CreateSnapshotObj _ | ListSnapshots _ _ | ListSecrets _ | GetConfigMap _
  | GitReadFile _ | GitCommitFile _ _ => λ a, is_ok a = false
  end.
(** A server that enforces the role. *)
Definition allowed {R} (e : ev R) (a : R) : Prop := authorized R e ∨ failed e a.
Definition enforced : protocol ev := λ _ R e a, allowed e a.

(** ** What the role covers *)

Lemma authorized_kind R (e : ev R) : authorized R e ↔ kind_of e ≠ KListSecrets.
Proof. destruct e; (split; [try done|]); (intros _; vm_compute; reflexivity) || done. Qed.

(** The generated file grants what the markers ask for. *)
Lemma role_generated p : granted role p = granted manager_role p.
Proof.
  assert (∀ rs rs', forallb (granted rs') (flat_map permissions rs) = true →
                    granted rs p = true → granted rs' p = true) as Hincl.
  { intros rs rs' Hall Hp%granted_In. rewrite forallb_forall in Hall. by apply Hall. }
  apply eq_true_iff_eq. split; apply Hincl; vm_compute; reflexivity.
Qed.

Lemma within_authorized ks R (e : ev R) :
  kmem KListSecrets ks = false → within ks R e → authorized R e.
Proof. intros Hk He. apply authorized_kind. by eapply within_not. Qed.
Lemma emits_authorized ks {A} (p : M A) :
  kmem KListSecrets ks = false → emits (within ks) p → emits authorized p.
Proof. intros Hk Hp. eapply emits_mono; [exact Hp|]. intros R e. by apply within_authorized. Qed.

Section discovery.
Context {P : Platform} {PL : PlatformLaws P} {D : Decoders}.

(** Its claims are looked for in the secret of its Helm release. *)
Definition helm_discovered (app : ManagedApp) : bool :=
  negb (has_explicit_pvcs app)
  && match as_HelmReleaseRef (app_Spec app) with Some _ => true | None => false end.

Definition plain_kinds : list kind := [KRange; KGetKs; KGetWorkload; KListPods; KGetPVC].
Lemma DiscoverPVCs_plain ks app :
  helm_discovered app = false → subk plain_kinds ks = true → emits (within ks) (DiscoverPVCs app).
Proof.
  unfold helm_discovered, DiscoverPVCs. destruct (has_explicit_pvcs app); [intros; emits_tac|].
  destruct (as_HelmReleaseRef (app_Spec app)); [done|]. intros.
  unfold discoverPVCsFromKustomization. emits_tac.
Qed.
#[local] Hint Resolve DiscoverPVCs_plain : emits.
Lemma DiscoverWorkloads_plain ks app :
  helm_discovered app = false → subk plain_kinds ks = true →
  emits (within ks) (DiscoverWorkloads app).
Proof.
  intros. unfold DiscoverWorkloads. emits_tac.
Qed.
#[local] Hint Resolve DiscoverWorkloads_plain : emits.
Lemma CheckHealth_plain ks app :
  helm_discovered app = false → subk plain_kinds ks = true → emits (within ks) (CheckHealth app).
Proof. intros. unfold CheckHealth. emits_tac. Qed.
End discovery.

(** ** Reconciles of applications without a Helm release *)

Section walk.
Context {P : Platform} {PL : PlatformLaws P} {D : Decoders} {Y : Kyaml}.
Variable r : Reconciler.

(** Every application that is read satisfies [f]. *)
Definition apps_read (f : ManagedApp → bool) : protocol ev := λ _ R e,
  match e in ev R return R → Prop with
  | GetApp _ => λ a, ∀ app, a = Ok app → f app = true
  | _ => λ _, True
  end.
Notation plain p :=
  (∀ h, wp (apps_read (λ app, negb (helm_discovered app))) (λ _ R e, authorized R e) p h (λ _ _, True)).

(** All the kinds of calls there is a permission for. *)
Definition most : list kind :=
  [KClock; KSleep; KRange; KGetUpgrade; KUpdateUpgrade; KStatusUpgrade; KGetRollback;
   KUpdateRollback; KStatusRollback; KCreateRollback; KGetApp; KStatusApp; KListApps; KGetKs;
   KUpdateKs; KGetWorkload; KPatchWorkload; KListPods; KGetPVC; KCreatePVC; KDeletePVC;
   KGetSnapshot; KCreateSnapshot; KDeleteSnapshot; KListSnapshots; KGetConfigMap; KGitRead;
   KGitCommit].
Lemma most_authorized R (e : ev R) : within most R e → authorized R e.
Proof. by apply within_authorized. Qed.

Lemma emits_plain {A} (p : M A) : emits (within most) p → plain p.
Proof.
  intros Hp h. eapply (wp_emits (within most)); [done| |done].
  intros d R e _. apply most_authorized.
Qed.
Lemma plain_bind {A B} (p : M A) (f : A → M B) :
  plain p → (∀ a, plain (f a)) → plain (bind p f).
Proof.
  intros Hp Hf h. apply wp_bind. eapply wp_mono; [apply Hp|done|]. intros [a|m] h' _; [apply Hf|done].
Qed.
Lemma plain_app {B} k (f : res ManagedApp → M B) :
  (∀ app, helm_discovered app = false → plain (f (Ok app))) → (∀ e, plain (f (Err e))) →
  plain (bind (call (GetApp k)) f).
Proof.
  intros Hok Herr h. cbn. split; [by apply most_authorized|].
  intros [app|e] Ha; [|apply Herr]. apply Hok, negb_true_iff. by apply Ha.
Qed.

#[local] Hint Resolve DiscoverPVCs_plain DiscoverWorkloads_plain CheckHealth_plain : emits.
#[local] Hint Extern 1 (helm_discovered _ = false) => assumption : emits.
Lemma preflight_plain ks app b :
  helm_discovered app = false → subk (KGetSnapshot :: plain_kinds) ks = true →
  emits (within ks) (runUpgradePreflight app b).
Proof. intros. unfold runUpgradePreflight. emits_tac. Qed.
#[local] Hint Resolve preflight_plain stop_here_within : emits.

(** What follows the reading of the application, with what the discovery of its claims emits. *)
Ltac plain_tac :=
  repeat (cbn beta iota;
    lazymatch goal with
    | |- plain (bind (getManagedApp _) _) => apply plain_app; [intros ? ?|intros ?]
    | |- plain (bind (call (GetApp _)) _) => apply plain_app; [intros ? ?|intros ?]
    | |- plain (match ?c with _ => _ end) => destruct c
    | |- plain (bind _ _) =>
        first [ solve [apply emits_plain; emits_tac] | apply plain_bind; [|intros ?] ]
    | |- plain _ => first [solve [auto with plain] | solve [apply emits_plain; emits_tac]]
    end).

Lemma handleDryRun_plain u : plain (handleDryRun r u).
Proof. unfold handleDryRun. plain_tac. Qed.
Lemma handleSuspend_plain u : plain (handleSuspend r u).
Proof. unfold handleSuspend. plain_tac. Qed.
Lemma handleScaleDown_plain u : plain (handleScaleDown u).
Proof. unfold handleScaleDown. plain_tac. Qed.
Lemma handleSnapshotting_plain u : plain (handleSnapshotting u).
Proof. unfold handleSnapshotting, await_snapshots. plain_tac. Qed.
Lemma handleCommitting_plain u : plain (handleCommitting r u).
Proof. unfold handleCommitting. plain_tac. Qed.
Lemma handleReconciling_plain u : plain (handleReconciling u).
Proof. unfold handleReconciling. plain_tac. Qed.
Lemma handleHealthChecking_plain u : plain (handleHealthChecking u).
Proof. unfold handleHealthChecking. plain_tac. Qed.
Lemma handleCompleted_plain u : plain (handleCompleted u).
Proof. unfold handleCompleted. plain_tac. Qed.
#[local] Hint Resolve handleDryRun_plain handleSuspend_plain handleScaleDown_plain
  handleSnapshotting_plain handleCommitting_plain handleReconciling_plain
  handleHealthChecking_plain handleCompleted_plain : plain.

Lemma after_scale_down_plain u : plain (after_scale_down r u).
Proof. unfold after_scale_down. plain_tac. Qed.
#[local] Hint Resolve after_scale_down_plain : plain.
Lemma dispatch_plain u : plain (dispatch r u).
Proof. unfold dispatch. plain_tac. Qed.

(** The finalizer of a request, around its dispatch. *)
Lemma plain_finalizer {O} {Op : Operation O} (live : O → M Reply) (u : O) :
  (∀ x : O, within most _ (op_Update x)) → (∀ u, plain (live u)) → plain (with_finalizer live u).
Proof.
  intros Hu Hl. unfold with_finalizer. plain_tac.
Qed.

(** An upgrade whose application lists its claims, or has a Kustomization only. *)
Lemma upgrade_plain key : plain (Reconcile r key).
Proof.
  unfold Reconcile. apply plain_bind; [apply emits_plain; emits_tac|].
  intros [u|e]; [|done]. apply plain_finalizer; [done|apply dispatch_plain].
Qed.

(** The same for rollbacks. *)
Import Rollback.
Lemma rb_preflight_plain ks app upgrade :
  subk (KGetSnapshot :: plain_kinds) ks = true → emits (within ks) (runRollbackPreflight app upgrade).
Proof. intros. unfold runRollbackPreflight. emits_tac. Qed.
#[local] Hint Resolve rb_preflight_plain : emits.
Lemma rb_handleDryRun_plain u : plain (handleDryRun r u).
Proof. unfold handleDryRun. plain_tac. Qed.
Lemma rb_handleSuspend_plain u : plain (handleSuspend r u).
Proof. unfold handleSuspend. plain_tac. Qed.
Lemma handleStopWorkload_plain u : plain (handleStopWorkload u).
Proof. unfold handleStopWorkload. plain_tac. Qed.
Lemma stop_with_most p : emits (within most) p → emits (within most) (stop_with p).
Proof. intros. unfold stop_with. emits_tac. Qed.
#[local] Hint Resolve stop_with_most : emits.
Lemma volume_restore_most u : emits (within most) (volume_restore u).
Proof. unfold volume_restore. emits_tac. Qed.
Lemma wait_volume_most u reason m : emits (within most) (wait_volume u reason m).
Proof. unfold wait_volume. emits_tac. apply stop_with_most. emits_tac. Qed.
#[local] Hint Resolve volume_restore_most wait_volume_most : emits.
Lemma restore_one_most app snap u : emits (within most) (restore_one app snap u).
Proof. unfold restore_one, recreate_claim. emits_tac. Qed.
Lemma await_bound_most app u before after : emits (within most) (await_bound app u before after).
Proof. induction after in u, before |- *; cbn [await_bound]; emits_tac. Qed.
Lemma volumes_restored_most u : emits (within most) (volumes_restored u).
Proof. unfold volumes_restored. emits_tac. Qed.
#[local] Hint Resolve restore_one_most await_bound_most volumes_restored_most : emits.
Lemma handleVolumeRestore_plain u : plain (handleVolumeRestore u).
Proof. unfold handleVolumeRestore. plain_tac. Qed.
Lemma handleGitRevert_plain u : plain (handleGitRevert r u).
Proof. unfold handleGitRevert. plain_tac. Qed.
Lemma rb_handleReconciling_plain u : plain (handleReconciling u).
Proof. unfold handleReconciling. plain_tac. Qed.
Lemma rb_handleHealthChecking_plain u : plain (handleHealthChecking u).
Proof. unfold handleHealthChecking. plain_tac. Qed.
Lemma rb_handleCompleted_plain u : plain (handleCompleted u).
Proof. unfold handleCompleted. plain_tac. Qed.
#[local] Hint Resolve rb_handleDryRun_plain rb_handleSuspend_plain handleStopWorkload_plain
  handleVolumeRestore_plain handleGitRevert_plain rb_handleReconciling_plain
  rb_handleHealthChecking_plain rb_handleCompleted_plain : plain.
Lemma after_stop_plain u : plain (after_stop r u).
Proof. unfold after_stop. plain_tac. Qed.
#[local] Hint Resolve after_stop_plain : plain.
Lemma rb_dispatch_plain u : plain (dispatch r u).
Proof. unfold dispatch. plain_tac. Qed.

Lemma rollback_plain key : plain (Reconcile r key).
Proof.
  unfold Reconcile. apply plain_bind; [apply emits_plain; emits_tac|].
  intros [u|e]; [|done]. apply plain_finalizer; [done|apply rb_dispatch_plain].
Qed.

(** The other two controllers. *)
Lemma managedapp_plain req : plain (ManagedAppController.Reconcile req).
Proof. unfold ManagedAppController.Reconcile. plain_tac. Qed.
Lemma publish_each_most mapped keys : emits (within most) (publish_each mapped keys).
Proof. induction keys as [|k keys IH]; cbn [publish_each]; unfold updateManagedAppStatus; emits_tac; apply IH. Qed.
#[local] Hint Resolve publish_each_most : emits.
Lemma updates_most {J : EntryDecoder} s req :
  emits (within most) (UpdatesController.Reconcile s req).
Proof.
  unfold UpdatesController.Reconcile, ProcessRenovateOutput. emits_tac.
Qed.

(** C25: the permissions the markers ask for, which are those of the generated role, cover every
    call of the controllers but the listing of secrets, and cover all calls of any reconcile
    when no application read has claims to be found through its Helm release. *)
Theorem calls_authorized {J : EntryDecoder} :
  (∀ p, granted role p = granted manager_role p)
  ∧ (∀ R (e : ev R), authorized R e ↔ kind_of e ≠ KListSecrets)
  ∧ (∀ s req, emits authorized (UpdatesController.Reconcile s req))
  ∧ ∀ key, plain (Upgrade.Reconcile r key) ∧ plain (Reconcile r key)
           ∧ plain (ManagedAppController.Reconcile key).
Proof.
  split; [apply role_generated|]. split; [apply authorized_kind|]. split.
  { intros s req. eapply emits_mono; [apply updates_most|apply most_authorized]. }
  intros key. auto using upgrade_plain, rollback_plain, managedapp_plain.
Qed.
End walk.

(** ** Applications whose claims are in a Helm release *)

Section helm.
Context {P : Platform} {PL : PlatformLaws P} {D : Decoders} {Y : Kyaml}.

Lemma DiscoverPVCs_refused app h :
  helm_discovered app = true →
  wp enforced free (DiscoverPVCs app) h (λ o _, ∃ e, o = Done (Err e)).
Proof.
  unfold helm_discovered, DiscoverPVCs, discoverPVCsFromHelmRelease.
  destruct (has_explicit_pvcs app); [done|].
  destruct (as_HelmReleaseRef (app_Spec app)) as [ref|]; [intros _|done].
  cbn. split; [done|]. intros [l|e] [Ha|Hf]; [by vm_compute in Ha|done|by vm_compute in Ha|].
  cbn. by eexists.
Qed.
Lemma CheckHealth_refused app h :
  helm_discovered app = true →
  wp enforced free (CheckHealth app) h (λ o _, ∀ r, o = Done (Ok r) → hr_Healthy r = false).
Proof.
  intros Hh. unfold CheckHealth. rewrite wp_bind.
  eapply wp_mono; [apply wp_free|done|]. intros [[[ready message]|e]|m] h' _; [|by intros ? [=]..].
  destruct ready; cbn [negb]; [|by intros ? [= <-]].
  unfold DiscoverWorkloads. rewrite !wp_bind.
  eapply wp_mono; [by apply DiscoverPVCs_refused|done|]. intros o h'' [e ->]. by intros ? [=].
Qed.

Context {O : Type} {Op : Operation O} {OL : OperationLaws O} {Ev : Evidence O}.
(** A success takes a check of the health of an application that was read. *)
Hypothesis checked : ∀ (S : sight) N (x : O), evidence Healthy S N x →
  ∃ app k r, S _ (call (GetApp k)) (Ok app) ∧ S _ (CheckHealth app) (Ok r) ∧ hr_Healthy r = true.

(** The request is new, the role enforced, and every application has a Helm release. *)
Definition helm_cluster : protocol ev := λ h R e a,
  new_request O h R e a
  ∧ allowed e a ∧ apps_read helm_discovered h R e a.

Lemma helm_unseen h (x : O) : answered helm_cluster h → ¬ success_seen h x.
Proof.
  intros Ha Hs. destruct (Hs Healthy) as (y & _ & _ & He).
  destruct (checked _ _ _ He) as (app & k & r & (d1 & d2 & h' & -> & Hg) & Hc & Hr).
  assert (helm_discovered app = true) as Hh.
  { apply answered_app in Ha.
    apply (ran_answered _ _ _ _ h' (λ a, ∀ app, a = Ok app → helm_discovered app = true) Hg Ha);
      [|done].
    cbn. split; [done|]. intros a (_ & _ & Hread) ? [= <-]. exact Hread. }
  destruct Hc as (e1 & e2 & h'' & Heq & Hrun). rewrite Heq in Ha. apply answered_app in Ha.
  enough (hr_Healthy r = false) by congruence.
  apply (ran_answered _ _ _ _ h'' (λ a, ∀ r, a = Ok r → hr_Healthy r = false) Hrun Ha); [|done].
  eapply wp_protocol; [eapply wp_mono; [by apply CheckHealth_refused|done|]|].
  - intros o ? Ho a ? ? ->. by apply Ho.
  - by intros ? ? ? ? (_ & ? & _).
Qed.

(** No status write reports a success. *)
Definition never_succeeds : guarantee ev := λ h R e,
  match op_view O e with
  | Some (OwnStatus x) => a_complete (abs x) ≠ Some true
  | _ => True
  end.
Lemma reconciles_fail reconcile n :
  wp (new_request O) (succeeds_earned O)
    (reconciles reconcile n) [] (λ _ _, True) →
  wp helm_cluster never_succeeds (reconciles reconcile n) [] (λ _ _, True).
Proof.
  intros Hs.
  eapply wp_mono; [apply wp_answered; [eapply wp_protocol; [exact Hs|]|exact I]| |done].
  { by intros ? ? ? ? [? _]. }
  intros h R e [He Ha]. unfold never_succeeds, succeeds_earned in *.
  destruct (op_view O e) as [[|x|x]|]; try done.
  intros Hc. by apply (helm_unseen _ x Ha), He.
Qed.
End helm.
Arguments helm_cluster {P} O {Op Ev} h R e a.
Arguments never_succeeds {P} O {Op} h R e.

Section requests.
Context {P : Platform} {PL : PlatformLaws P} {D : Decoders} {Y : Kyaml}.
Variable r : Reconciler.

(** C24: where the role is enforced and every application takes its claims from a Helm release,
    no new upgrade and no new rollback that is not a dry run ever reports success, however often
    it is reconciled, also against a cache that answers old versions of it:
    the check of the application's health needs its workloads, these its claims, and these the
    secrets that the manager may not list. *)
Theorem helm_requests_never_succeed key n :
  wp (helm_cluster UpgradeRequest (Ev := UpgradeEarned.upgrade_Evidence r))
    (never_succeeds UpgradeRequest) (reconciles (Upgrade.Reconcile r key) n) [] (λ _ _, True)
  ∧ wp (helm_cluster RollbackRequest (Ev := RollbackEarned.rollback_Evidence r))
      (never_succeeds RollbackRequest) (reconciles (Rollback.Reconcile r key) n) [] (λ _ _, True).
Proof.
  split; [apply (reconciles_fail (Ev := UpgradeEarned.upgrade_Evidence r))
         |apply (reconciles_fail (Ev := RollbackEarned.rollback_Evidence r))].
  - intros S N x (app & result & Ha & Hc & Hh). by eexists app, _, result.
  - eapply reconciles_succeed; [apply UpgradeProofs.Reconcile_guarded|..].
    + apply UpgradeEarned.Reconcile_earns.
    + apply UpgradeGuard.Reconcile_asks.
  - intros S N x (upgrade & app & result & [_ Ha] & Hc & Hh). by eexists app, _, result.
  - eapply reconciles_succeed; [apply RollbackProofs.rb_Reconcile_guarded|..].
    + apply RollbackEarned.rb_Reconcile_earns.
    + apply RollbackTheorems.rb_Reconcile_asks.
Qed.
End requests.

(** ** On the model cluster *)

#[local] Existing Instance reference.
#[local] Existing Instance no_helm.
#[local] Existing Instance two_lines.

(** The model cluster, which refuses the secrets and whose status subresource leaves the spec
    of an application alone. *)
Definition refusing (R : Type) (w : cluster) (e : ev R) : R * cluster :=
  match e in ev R return R * cluster with
  | ListSecrets _ => (Err (ErrAPI (mkAPIStatus "Forbidden" "secrets is forbidden")), w)
  | StatusUpdateApp a =>
      (Ok a, with_app (app_set_Status (app_Status a) (cl_app w)) w)
  | e => env _ w e
  end.
(** The shop as a Helm release, with or without snapshots. *)
Definition helm_app (vs : option VolumeSnapshotConfig) : ManagedApp :=
  mkManagedApp (app_Meta shop_app)
    (mkManagedAppSpec "clusters/shop.yaml" (mkObjectReference "shop" "") None
       (Some (mkObjectReference "shop" "")) vs
       (Some (mkVersionPolicy "" "spec.version")) None true)
    (app_Status shop_app).

Definition helm_upgrade (vs : option VolumeSnapshotConfig) : outcome unit * cluster * list event :=
  run refusing (reconciles (Upgrade.Reconcile with_git shop_key) 12)
    (with_app (helm_app vs) (shop_cluster false (shop_doc "1.0.0"))) [].
Definition helm_rollback : outcome unit * cluster * list event :=
  run refusing (reconciles (Rollback.Reconcile with_git rollback_key) 12)
    (with_app (helm_app None)
       (with_rollback (Some (shop_rollback false)) RollbackTheorems.upgraded)) [].

Lemma refusing_apps (f : ManagedApp → bool) :
  (∀ a app, f (app_set_Status a app) = f app) →
  follows (λ h R e a, allowed e a ∧ apps_read f h R e a) refusing (λ w _, f (cl_app w) = true).
Proof.
  intros Hf w h R e Hh.
  assert (∀ a, f (app_set_Status a (cl_app w)) = true) as Hs by (intros; by rewrite Hf).
  split; [split|].
  - destruct e; first [by left|by right].
  - destruct e; cbn; try done. case_match; naive_solver.
  - destruct e; cbn; try done; by repeat case_match.
Qed.

Section refusing.
Context {O : Type} {Op : Operation O} {OL : OperationLaws O} {Ev : Evidence O}.
Variable held : cluster → option O.
Hypothesis held_app : ∀ a w, held (with_app a w) = held w.
Hypothesis new_follows : follows (new_request O) env (starting held).

(** The two calls that are answered otherwise do not concern the request. *)
Lemma starting_elsewhere w w' h R (e : ev R) a :
  elsewhere O R e → held w' = held w → starting held w h →
  new_request O h R e a ∧ starting held w' (Obs e a :: h).
Proof.
  unfold elsewhere, new_request, cached, named, fresh, starting, accounted. cbn.
  by intros -> ->.
Qed.
Lemma refusing_follows : follows (new_request O) refusing (starting held).
Proof.
  intros w h R e Hi.
  destruct e; try exact (new_follows _ _ _ _ Hi);
    (apply (starting_elsewhere w); [by apply view_other| |done]); [apply held_app|done].
Qed.

Lemma helm_trace {A} G (p : M A) w Q :
  wp (helm_cluster O) G p [] Q → starting held w [] → helm_discovered (cl_app w) = true →
  guaranteed G (trace (run refusing p w [])).
Proof.
  intros Hwp Hw Hh.
  assert (follows (helm_cluster O) refusing (λ w h, starting held w h ∧ helm_discovered (cl_app w) = true))
    as Hf.
  { intros w1 h R e Hi.
    by destruct (follows_both _ _ _ _ _ refusing_follows
      (refusing_apps helm_discovered (λ _ _, eq_refl)) w1 h R e Hi) as [[? ?] ?]. }
  pose proof (run_sound _ G refusing _ p w [] Q Hf) as H.
  unfold trace. destruct (run refusing p w []) as [[o w'] h]. by apply H.
Qed.
End refusing.

(** All reconciles of an upgrade of the shop, which has no Helm release. *)
Definition plain_upgrade : outcome unit * cluster * list event :=
  run refusing (reconciles (Upgrade.Reconcile with_git shop_key) 12)
    (shop_cluster false (shop_doc "1.0.0")) [].
Lemma calls_authorized_witness :
  guaranteed (λ _ R e, authorized R e) (trace plain_upgrade)
  ∧ Race.verdicts (final plain_upgrade) = ("UpgradeSucceeded", "", shop_doc "1.1.0")
  ∧ granted role (mkPermission "" "secrets" "list") = false.
Proof.
  split; [|split; vm_compute; reflexivity].
  pose proof (run_sound _ (λ _ R e, authorized R e) refusing _
    (reconciles (Upgrade.Reconcile with_git shop_key) 12) (shop_cluster false (shop_doc "1.0.0")) []
    (λ _ _, True) (refusing_apps (λ app, negb (helm_discovered app)) (λ _ _, eq_refl))) as H.
  unfold trace, plain_upgrade.
  destruct (run refusing _ _ _) as [[o w'] h]. apply H; [done..|].
  apply reconciles_keep. intros h'. eapply wp_protocol.
  - destruct (calls_authorized with_git (J := λ _, Err (ErrNew "not an entry")))
      as (_ & _ & _ & Hplain). apply (Hplain shop_key).
  - by intros ? ? ? ? [_ ?].
Defined.

(** An upgrade without snapshots commits the new version, and then fails; one with snapshots
    fails before it starts; a rollback reverts the file, and then fails. *)
Lemma helm_requests_never_succeed_witness :
  guaranteed (never_succeeds UpgradeRequest) (trace (helm_upgrade None))
  ∧ guaranteed (never_succeeds RollbackRequest) (trace helm_rollback)
  ∧ Race.verdicts (final (helm_upgrade None)) = ("HealthCheckError", "", shop_doc "1.1.0")
  ∧ Race.verdicts (final (helm_upgrade (as_VolumeSnapshots (app_Spec shop_app))))
    = ("PreflightFailed", "", shop_doc "1.0.0")
  ∧ Race.verdicts (final helm_rollback)
    = ("UpgradeSucceeded", "HealthCheckError", shop_doc "1.0.0").
Proof.
  split; [|split]; [..|split; [|split]; vm_compute; reflexivity].
  - eapply (helm_trace cl_upgrade (Ev := UpgradeEarned.upgrade_Evidence with_git));
      [done|apply new_upgrade_follows|apply (helm_requests_never_succeed with_git shop_key 12)| |done].
    split; [exists (shop_upgrade false); split; [done|by left]|]. by intros _ ? [= <-].
  - eapply (helm_trace cl_rollback (Ev := RollbackEarned.rollback_Evidence with_git));
      [done|apply new_rollback_follows
      |apply (helm_requests_never_succeed with_git rollback_key 12)| |done].
    split; [exists (shop_rollback false); split; [done|by left]|]. by intros _ ? [= <-].
Defined.
