(* ===== verification/Setup.v ===== *)
(** * What the manager is set up to know

The scheme that [init] of cmd/main.go fills, with the types that the init functions of
api/v1alpha1 register; the four [SetupWithManager]; the rest of internal/logging and the
signal handler of cmd/main.go.  [setup_consistent]: every type that a call or a watch names is
in the scheme, every watch is granted by the role, and the controllers' names are distinct.
What the libraries register, and how a builder does, is a parameter, [SchemeLibs], with laws
for what is documented. *)

From S2P Require Import Prelude GoLib Api Platform Discovery Git Renovate Main Rbac.
From S2P Require ManagedAppController UpdatesController.

(** ** The scheme *)

Record GVK := mkGVK { gvk_Group : string; gvk_Version : string; gvk_Kind : string }.
#[export] Instance gvk_eq_dec : EqDecision GVK.
Proof. solve_decision. Defined.

Definition scheme := list GVK.
Definition registered (k : GVK) (s : scheme) : bool := existsb (λ k', bool_decide (k = k')) s.
Lemma registered_In k s : registered k s = true ↔ In k s.
Proof.
  unfold registered. rewrite existsb_exists. split.
  - intros (k' & Hin & He%bool_decide_eq_true). by subst.
  - intros Hin. exists k. by rewrite bool_decide_eq_true.
Qed.

Inductive library := ClientGo | HelmV2 | KustomizeV1 | SnapshotV1.
(** What the libraries do with a scheme: [AddToScheme] of each, and controller-runtime's
    [scheme.Builder], made for a group and version ([&scheme.Builder{...}]), to which kinds are
    registered before it is added itself. *)
Class SchemeLibs := {
  lib_AddToScheme : library → scheme → result string scheme;
  SBuilder : Type;
  new_Builder : string * string → SBuilder;
  Builder_Register : SBuilder → list string → SBuilder;
  Builder_AddToScheme : SBuilder → scheme → result string scheme
}.
Definition documented (l : library) : list GVK :=
  match l with
  | ClientGo =>
      map (mkGVK "" "v1") ["Pod"; "PodList"; "PersistentVolumeClaim"; "Secret"; "SecretList";
                           "ConfigMap"]
      ++ map (mkGVK "apps" "v1") ["Deployment"; "StatefulSet"]
  | HelmV2 => [mkGVK "helm.toolkit.fluxcd.io" "v2" "HelmRelease"]
  | KustomizeV1 => [mkGVK "kustomize.toolkit.fluxcd.io" "v1" "Kustomization"]
  | SnapshotV1 =>
      map (mkGVK "snapshot.storage.k8s.io" "v1")
        ["VolumeSnapshot"; "VolumeSnapshotList"; "VolumeSnapshotClass"]
  end.
(** A library adds its types to a scheme and leaves the others there; a builder adds all that
    was registered with it, under its group and version. *)
Class SchemeLaws `{SchemeLibs} := {
  lib_adds l s : ∃ s', lib_AddToScheme l s = Ok s' ∧ incl s s' ∧ incl (documented l) s';
  builder_adds gv kinds s :
    ∃ s', Builder_AddToScheme (fold_left Builder_Register kinds (new_Builder gv)) s = Ok s'
          ∧ incl s s' ∧ incl (map (mkGVK gv.1 gv.2) (concat kinds)) s'
}.

(** api/v1alpha1/groupversion_info.go, with the three init functions of the types, which each
    register an object and its list. *)
Definition GroupVersion : string * string := ("fluxup.dev", "v1alpha1").
Definition SchemeBuilder `{SchemeLibs} : SBuilder :=
  let builder := new_Builder GroupVersion in
  let builder := Builder_Register builder ["ManagedApp"; "ManagedAppList"] in
  let builder := Builder_Register builder ["RollbackRequest"; "RollbackRequestList"] in
  Builder_Register builder ["UpgradeRequest"; "UpgradeRequestList"].
Definition AddToScheme `{SchemeLibs} : scheme → result string scheme :=
  Builder_AddToScheme SchemeBuilder.

Definition fluxup (kind : string) : GVK := mkGVK GroupVersion.1 GroupVersion.2 kind.
Definition fluxup_types : scheme :=
  map fluxup ["ManagedApp"; "ManagedAppList"; "RollbackRequest"; "RollbackRequestList";
              "UpgradeRequest"; "UpgradeRequestList"].
Lemma AddToScheme_adds `{SchemeLaws} s :
  ∃ s', AddToScheme s = Ok s' ∧ incl s s' ∧ incl fluxup_types s'.
Proof.
  apply (builder_adds GroupVersion
    [["ManagedApp"; "ManagedAppList"]; ["RollbackRequest"; "RollbackRequestList"];
     ["UpgradeRequest"; "UpgradeRequestList"]]).
Qed.

(** [utilruntime.Must] panics, with the error. *)
Definition Must {A} (r : result string A) : prog setup_ev A :=
  match r with Ok a => Ret a | Err e => Panic e end.
Definition init `{SchemeLibs} : prog setup_ev scheme :=
  let* s := Must (lib_AddToScheme ClientGo []) in
  let* s := Must (AddToScheme s) in
  let* s := Must (lib_AddToScheme HelmV2 s) in
  let* s := Must (lib_AddToScheme KustomizeV1 s) in
  Must (lib_AddToScheme SnapshotV1 s).

(** ** The four controllers *)

Record builder := mkBuilder {
  b_For : GVK;
  b_Watches : list (GVK * (ObjectMeta → list NamespacedName));
  b_Filter : option (ObjectMeta → bool);
  b_Name : string }.
Definition configmap : GVK := mkGVK "" "v1" "ConfigMap".
Definition ManagedApp_SetupWithManager : builder :=
  let find := ManagedAppController.findManagedAppsForWorkload in
  mkBuilder (fluxup "ManagedApp")
    [(mkGVK "helm.toolkit.fluxcd.io" "v2" "HelmRelease", find);
     (mkGVK "apps" "v1" "Deployment", find); (mkGVK "apps" "v1" "StatefulSet", find)]
    None "managedapp".
Definition Updates_SetupWithManager : builder :=
  mkBuilder configmap [] (Some UpdatesController.watched) "updates-configmap".
Definition Upgrade_SetupWithManager : builder :=
  mkBuilder (fluxup "UpgradeRequest") [] None "upgraderequest".
Definition Rollback_SetupWithManager : builder :=
  mkBuilder (fluxup "RollbackRequest") [] None "rollbackrequest".
Definition built (c : controller) : builder :=
  match c with
  | ManagedAppC => ManagedApp_SetupWithManager
  | UpdatesC _ => Updates_SetupWithManager
  | UpgradeC _ => Upgrade_SetupWithManager
  | RollbackC _ => Rollback_SetupWithManager
  end.
Definition watches (b : builder) : list GVK := b_For b :: map fst (b_Watches b).

(** ** The types a call names *)

Definition types {R} (e : ev R) : list GVK :=
  match e with
  | Now | SleepOrDone _ | RangeMap _ | GitReadFile _ | GitCommitFile _ _ => []
  | GetUpgrade _ | UpdateUpgrade _ | StatusUpdateUpgrade _ => [fluxup "UpgradeRequest"]
  | GetRollback _ | UpdateRollback _ | StatusUpdateRollback _ | CreateRollback _ =>
      [fluxup "RollbackRequest"]
  | GetApp _ | StatusUpdateApp _ => [fluxup "ManagedApp"]
  | ListApps => [fluxup "ManagedAppList"; fluxup "ManagedApp"]
  | GetKustomization _ | UpdateKustomization _ =>
      [mkGVK "kustomize.toolkit.fluxcd.io" "v1" "Kustomization"]
  | GetDeployment _ | PatchDeployment _ _ => [mkGVK "apps" "v1" "Deployment"]
  | GetStatefulSet _ | PatchStatefulSet _ _ => [mkGVK "apps" "v1" "StatefulSet"]
  | ListPods _ _ => [mkGVK "" "v1" "PodList"; mkGVK "" "v1" "Pod"]
  | GetPVC _ | CreatePVC _ | DeletePVCObj _ => [mkGVK "" "v1" "PersistentVolumeClaim"]
  | GetSnapshot _ | CreateSnapshotObj _ | DeleteSnapshotObj _ =>
      [mkGVK "snapshot.storage.k8s.io" "v1" "VolumeSnapshot"]
  | ListSnapshots _ _ =>
      [mkGVK "snapshot.storage.k8s.io" "v1" "VolumeSnapshotList";
       mkGVK "snapshot.storage.k8s.io" "v1" "VolumeSnapshot"]
  | GetSnapshotClass _ => [mkGVK "snapshot.storage.k8s.io" "v1" "VolumeSnapshotClass"]
  | ListSecrets _ => [mkGVK "" "v1" "SecretList"; mkGVK "" "v1" "Secret"]
  | GetConfigMap _ => [configmap]
  end.

(** The resource of a kind that is watched, and what a watch needs. *)
Definition resource (k : GVK) : string :=
  match gvk_Kind k with
  | "ManagedApp" => "managedapps"
  | "UpgradeRequest" => "upgraderequests"
  | "RollbackRequest" => "rollbackrequests"
  | "HelmRelease" => "helmreleases"
  | "Deployment" => "deployments"
  | "StatefulSet" => "statefulsets"
  | "ConfigMap" => "configmaps"
  | kind => kind
  end.
Definition to_watch (k : GVK) : list permission :=
  map (mkPermission (gvk_Group k) (resource k)) ["list"; "watch"].

(** ** Consistency *)

Section setup.
Context `{SL : SchemeLaws}.

Lemma init_registers h :
  wp any free init h (λ o _, ∃ s, o = Done s ∧ incl fluxup_types s
                                  ∧ ∀ l, incl (documented l) s).
Proof.
  unfold init.
  destruct (lib_adds ClientGo []) as (s1 & -> & _ & H1). cbn [Must bind].
  destruct (AddToScheme_adds s1) as (s2 & -> & I2 & H2). cbn [Must bind].
  destruct (lib_adds HelmV2 s2) as (s3 & -> & I3 & H3). cbn [Must bind].
  destruct (lib_adds KustomizeV1 s3) as (s4 & -> & I4 & H4). cbn [Must bind].
  destruct (lib_adds SnapshotV1 s4) as (s5 & -> & I5 & H5). cbn.
  exists s5. split; [done|].
  assert (incl s2 s5) as I by eauto using incl_tran.
  split; [eauto using incl_tran|]. intros []; eauto using incl_tran.
Qed.

(** All the types there are to know. *)
Definition known : scheme :=
  fluxup_types ++ flat_map documented [ClientGo; HelmV2; KustomizeV1; SnapshotV1].
Lemma known_types R (e : ev R) : forallb (λ k, registered k known) (types e) = true.
Proof. by destruct e. Qed.
Lemma known_watches c : forallb (λ k, registered k known) (watches (built c)) = true.
Proof. by destruct c. Qed.
Lemma watches_granted c :
  forallb (λ k, forallb (granted role) (to_watch k)) (watches (built c)) = true.
Proof. by destruct c; vm_compute. Qed.

(** C35: set-up is consistent.  The init of the program does not panic, and fills a scheme that
    holds the type of every object that any call of the controllers or any of their watches
    names; the manager's role lets it list and watch what they watch; their names are distinct;
    the updates controller sees no ConfigMap but the report; and the other watches of the
    application controller ask for no reconcile. *)
Theorem setup_consistent s0 g h :
  wp any free init h (λ o _, ∃ s, o = Done s
    ∧ (∀ R (e : ev R) k, In k (types e) → In k s)
    ∧ ∀ c k, In k (watches (built c)) →
        In k s ∧ ∀ p, In p (to_watch k) → granted role p = true)
  ∧ NoDup (map (λ c, b_Name (built c)) [ManagedAppC; UpdatesC s0; UpgradeC g; RollbackC g])
  ∧ (∀ m, b_Filter (built (UpdatesC s0)) = Some UpdatesController.watched
          ∧ (UpdatesController.watched m = true ↔
             keyOf m = mkKey UpdatesController.UpdatesConfigMapName
                         UpdatesController.UpdatesConfigMapNamespace))
  ∧ ∀ c w m, In w (b_Watches (built c)) → w.2 m = [].
Proof.
  split; [|split; [|split]].
  - eapply wp_mono; [apply init_registers|done|]. intros o _ (s & -> & Hf & Hl). exists s.
    assert (incl known s) as Hk.
    { intros k [Hk|Hk]%in_app_or; [by apply Hf|]. apply in_flat_map in Hk as (l & _ & Hk).
      by apply (Hl l). }
    split; [done|]. split.
    + intros R e k Hin. pose proof (known_types R e) as Hall.
      rewrite forallb_forall in Hall. by apply Hk, registered_In, Hall.
    + intros c k Hin. pose proof (known_watches c) as Hall. rewrite forallb_forall in Hall.
      split; [by apply Hk, registered_In, Hall|].
      pose proof (watches_granted c) as Hw. rewrite forallb_forall in Hw.
      specialize (Hw k Hin). by rewrite forallb_forall in Hw.
  - cbn. repeat constructor; set_solver.
  - intros m. split; [done|]. unfold UpdatesController.watched, keyOf.
    rewrite andb_true_iff, !String.eqb_eq. split; [by intros [-> ->]|by intros [= -> ->]].
  - intros c w m. destruct c; cbn; naive_solver.
Qed.
End setup.

(** The libraries as documented. *)
#[local] Instance documented_libs : SchemeLibs := {|
  lib_AddToScheme l s := Ok (s ++ documented l);
  SBuilder := scheme * (string * string);
  new_Builder gv := ([], gv);
  Builder_Register b kinds := (b.1 ++ map (mkGVK b.2.1 b.2.2) kinds, b.2);
  Builder_AddToScheme b s := Ok (s ++ b.1)
|}.
Lemma registered_all gv ts kinds :
  fold_left (Builder_Register (SchemeLibs := documented_libs)) kinds (ts, gv)
  = (ts ++ map (mkGVK gv.1 gv.2) (concat kinds), gv).
Proof.
  induction kinds as [|ks kinds IH] in ts |- *; cbn; [by rewrite app_nil_r|].
  by rewrite IH, map_app, app_assoc.
Qed.
Lemma setup_consistent_witness :
  SchemeLaws ∧ ∃ s, init = Ret s ∧ length s = 19%nat
    ∧ ∀ c k, In k (watches (built c)) → In k s ∧ ∀ p, In p (to_watch k) → granted role p = true.
Proof.
  assert (SchemeLaws) as SL.
  { constructor.
    - intros l s. eexists. split; [done|]. split; [apply incl_appl|apply incl_appr]; apply incl_refl.
    - intros gv kinds s. rewrite (registered_all gv [] kinds : fold_left _ _ (new_Builder gv) = _).
      eexists. split; [done|]. split; [apply incl_appl|apply incl_appr]; apply incl_refl. }
  split; [exact SL|]. eexists. split; [reflexivity|]. split; [reflexivity|].
  destruct (setup_consistent (NewStatusUpdater "" "") (mkGiteaManager "" "" "") []) as [Hwp _].
  destruct Hwp as (s & [= <-] & _ & Hw). exact Hw.
Defined.
